(* ===== verification/_CoqProject ===== *)
-Q . S2P
Prelude.v
Monad.v
DList.v
Config.v
Objects.v
State.v
Bitfield.v
CapOps.v
CSpace.v
MDB.v
CSpaceProps.v
VSpace.v
VSpaceArm.v
Refill.v
TcbQueue.v
Sched.v
Frame.v
SchedProps.v
Tcb.v
SchedCtx.v
Schedule.v
ScheduleProps.v
Ipc.v
Interrupt.v
Finalise.v
DeletionProps.v
Syscall.v
Untyped.v
Example.v
UntypedProps.v
IpcProps.v
Rendezvous.v
Fpu.v
Trap.v
TrapRiscv.v
TrapArm.v
CNodeInv.v
TcbInv.v
SchedInv.v
IrqInv.v
MmuInv.v
MmuArm.v
Invocation.v
ErrorProps.v
CapWf.v
CapWfProps.v
TypeProps.v
Fastpath.v
FastpathProps.v
Findings.v
BootMem.v
BootMemProps.v
BootUntyped.v
BootVSpace.v
BootRoot.v
BootRootProps.v
BootWf.v
Lock.v
LockProps.v
