(* ===== verification/Prelude.v ===== *)
(** * reL4: a verification library for the Rust seL4 kernel

    reL4 is a reimplementation of the seL4 microkernel in Rust, for RISC-V
    (Sv39) and AArch64, with and without the MCS scheduling extensions.  This
    library models it as Rocq functions translated from the source and proves
    what its parts promise to each other and to user code.

    ** The program and its model

    User code enters the kernel by a trap.  Assembly saves its registers in the
    TCB of the current thread and calls a handler (kernel/src/arch), which takes
    the fast path for calls and replies (kernel/src/kernel/fastpath.rs) or
    dispatches a system call, a fault or an interrupt (kernel/src/syscall,
    kernel/src/interrupt).  An invocation looks up a capability in the CSpace of
    the thread (sel4_cspace), decodes the message and changes capabilities,
    threads (sel4_task), endpoints and notifications (sel4_ipc) or address
    spaces (sel4_vspace).  Every entry ends with the scheduler, and assembly
    restores the registers of the thread it chose.  Before that, kernel/src/boot
    divides the memory, creates the first thread and gives it capabilities to
    the rest.

    The kernel state [kstate] (State.v) has one heap per object type, keyed by
    address, and a field for every global variable.  Operations are programs of
    the monad [K] (Monad.v), which threads that state and ends in an error where
    the source panics ([EPanic]), follows a pointer to nothing ([EUndef]) or
    shuts down ([EHalt]), or where fuel of the model runs out ([EFuel]).  Words
    are integers below 2^64 with the wrapping operations below.  Code chosen by
    a Cargo feature or by the architecture branches on the class [Config].

    What one crate calls of another is a class, as the traits and extern
    functions of the source are: [CSpaceDeps] for what deletion calls back,
    implemented by [kernel_deps] (Finalise.v), [TaskDeps] for what the scheduler
    calls back, implemented by [kernel_task] (Syscall.v), [NodeMemory] for the
    memory that holds the big kernel lock.  Theorems about the clients are proved
    against such a class and its laws ([DepsWf], [FpuLaws]) or for each of its
    instances.  Code that is not part of the repository is a
    parameter: [Outside] (secure monitor and debug strings), [Platform] (link
    addresses, generated device and memory tables).

    ** The files

    - Prelude.v, Monad.v, DList.v, Frame.v: words, record update, the monad with
      its rules, doubly linked lists whose links are in the elements, and what
      programs leave alone.
    - Config.v, Objects.v, State.v: features and constants (sel4_config.rs),
      objects and capabilities (sel4_common/pbf), the kernel state.
    - Bitfield.v: get_bits and set_bits of sel4_bitfield_types.rs.
    - CapOps.v, CSpace.v, MDB.v, CSpaceProps.v, DeletionProps.v: sel4_cspace,
      that is capability values, slots and the derivation tree, lookup, deletion
      and revocation.
    - VSpace.v, VSpaceArm.v: sel4_vspace, page tables and ASIDs.
    - Refill.v, TcbQueue.v, Sched.v, SchedProps.v, Tcb.v, SchedCtx.v,
      Schedule.v, ScheduleProps.v: sel4_task, that is refills, queues, ready
      queues, registers and messages, scheduling contexts, the scheduler.
    - Ipc.v, IpcProps.v, Rendezvous.v: sel4_ipc.
    - Interrupt.v, Finalise.v, Syscall.v, Untyped.v, CNodeInv.v, TcbInv.v,
      SchedInv.v, IrqInv.v, MmuInv.v, MmuArm.v, Invocation.v: kernel/src/syscall,
      kernel/src/interrupt and kernel/src/interfaces_impl, down to the entry
      points of the kernel.
    - UntypedProps.v, ErrorProps.v, CapWf.v, CapWfProps.v, TypeProps.v: theorems
      about whole invocations and entries.
    - Fastpath.v, FastpathProps.v: kernel/src/kernel/fastpath.rs.
    - Fpu.v, Trap.v, TrapRiscv.v, TrapArm.v: kernel/src/arch, the floating point
      unit and the assembly of trap entry and exit.
    - BootMem.v, BootMemProps.v, BootUntyped.v, BootVSpace.v, BootRoot.v,
      BootRootProps.v, BootWf.v: kernel/src/boot and the boot code of the
      architectures.
    - Lock.v, LockProps.v: kernel/src/smp/lock.rs.
    - Example.v, Findings.v: a small system to run programs in, and runs that
      show where the code departs from its intent.

    Definitions have the names of the source where Rocq allows it; a prefix or
    suffix tells apart methods of different types ([ep_], [ntfn_], [_mcs]).

    ** What the theorems show

    - Types.  From boot on, in every reachable state, every capability is well
      formed (BootWf.v), so lookups translate at least one bit and no more than
      a word.  Rights only diminish; packed fields, page-table
      entries and registers read back as they were written.
    - Capabilities.  The slots form derivation lists, and every slot operation
      keeps them so; lookup finds what a declarative path describes; on
      the kernel, deletion and revocation of capabilities with nothing to
      finalise remove exactly the capability, or its children, and revocation
      returns given fuel for each child.
    - Memory.  Retyping does what its message asks for, inside the free part of
      its untyped, so that objects are disjoint; at boot the free memory is exactly what is available and
      not reserved, the root server gets aligned, disjoint objects out of it, and
      the untyped capabilities are disjoint and fill each region.
    - Scheduling.  The ready queues with their bitmap refine a map from
      priorities to lists; [schedule] (without MCS) returns, loses no thread and
      runs one of the highest priority; charging and moving refills keeps the
      budget of a scheduling context.
    - Communication.  A message arrives word by word and changes nothing else;
      sends and calls refine an abstract endpoint; a send and a receive, or a signal and a
      wait, meet in either order (without MCS); queues are stable priority
      queues; the lookup of the fast path is that of the slow path.
    - Errors.  An invocation that is refused changes nothing but the record of
      the error.
    - Address spaces.  The lookup of an address is the walk of Sv39, unmapping removes the
      mapping of the frame and no other, deleting an ASID frees it.
    - The machine.  Trap entry and exit are inverse and leave the arguments
      where the kernel reads them; the floating point unit, switched lazily,
      gives every thread registers of its own.
    - Cores.  The big kernel lock excludes and is fair, for any number of cores
      and any interleaving of their accesses, exactly on machines where the swap
      of its queue waits for the stores before it; with the relaxed ordering of
      the code that is not so on weakly ordered machines, where two cores can
      hold the lock.

    ** Fuel and bounds

    A loop that is not structural has fuel that suffices for every state the
    loop can meet: the number of TCBs for loops along a queue, the length of the
    table for loops over one, the bits left for the lookup of a capability, the
    number of refills for merging them, the time to charge, plus one, for
    charging it, the work left for cutting a region into blocks.  A theorem about
    such a program says that it returns.  Deletion can nest: [kernel_deps n]
    allows [n] nestings, of which the capabilities deleted on the way need two,
    and [DeletionFuel] bounds the turns of the deletion loops of an invocation;
    theorems hold for every such bound, and those about deletion name the fuel
    with which it returns.

    ** Not modelled

    - The multi-core build apart from its lock: the kernel runs under the lock
      on one core; inter-processor interrupts, migration and remote stalls are
      left out, and with them [smp] variants selected by [enable_smp].
    - The hypervisor build: virtual CPUs and stage-2 tables are accesses to
      system registers the model does not have.
    - Devices and firmware: interrupt controllers, timer and serial drivers are
      reduced to the state the kernel reads (pending and enabled lines, the
      current time); caches and TLBs have no counterpart.  PSCI and the secure
      monitor are firmware.
    - The first instructions of the machine (head.S), the set-up of trap vectors
      and of the floating point unit, and traps taken inside the kernel.
    - The layout of packed structures is abstracted to records; Bitfield.v has
      the routines the generated accessors call.  The state of the floating
      point unit and the machine of the trap code are separate from [kstate]:
      deletion of a thread in Finalise.v does not release the unit.
    - Host tools (xtask, rel4_config, build scripts) and unit tests. *)

From Stdlib Require Import ZArith Lia.
From stdpp Require Export base gmap list numbers.
Export stdpp.list.

#[global] Open Scope Z_scope.

(** ** Machine words

    [usize] and [u64] are integers in [0, 2^64).  The kernel is built with
    [--release] (xtask/src/kernel.rs), where [+], [-], [*] wrap around and a
    shift count is taken modulo the word size. *)

Definition WORD_RADIX : Z := 6.
Definition WORD_BITS : Z := 64.
Definition word_size : Z := 2 ^ 64.
Definition UINT64_MAX : Z := 0xFFFFFFFFFFFFFFFF.

Definition wrap (x : Z) : Z := x mod word_size.
Definition wadd (x y : Z) : Z := wrap (x + y).
Definition wsub (x y : Z) : Z := wrap (x - y).
Definition wmul (x y : Z) : Z := wrap (x * y).
Definition wnot (x : Z) : Z := Z.lxor x UINT64_MAX.
Definition wshl (x n : Z) : Z := wrap (Z.shiftl x (n mod 64)).
Definition wshr (x n : Z) : Z := Z.shiftr x (n mod 64).

Declare Scope word_scope.
Delimit Scope word_scope with word.
Notation "x +w y" := (wadd x y) (at level 50, left associativity) : word_scope.
Notation "x -w y" := (wsub x y) (at level 50, left associativity) : word_scope.
Notation "x *w y" := (wmul x y) (at level 40, left associativity) : word_scope.
Notation "x <<w n" := (wshl x n) (at level 45, left associativity) : word_scope.
Notation "x >>w n" := (wshr x n) (at level 45, left associativity) : word_scope.
#[global] Open Scope word_scope.

(** rel4-utils/src/macros.rs: [bit!] and [mask_bits!]. *)
Definition bit (n : Z) : Z := 1 <<w n.
Definition mask_bits (n : Z) : Z := bit n -w 1.

(** [usize::leading_zeros] and [usize::trailing_zeros]. *)
Definition leading_zeros (x : Z) : Z := if x =? 0 then 64 else 63 - Z.log2 x.

Fixpoint pos_ctz (p : positive) : Z :=
  match p with
  | xO q => 1 + pos_ctz q
  | _ => 0
  end.

Definition trailing_zeros (x : Z) : Z :=
  match x with
  | Zpos p => pos_ctz p
  | _ => 64
  end.

Definition is_word (x : Z) : Prop := 0 <= x < word_size.

(** ** Word lemmas *)

Lemma word_size_val : word_size = 18446744073709551616.
Proof. reflexivity. Qed.

Lemma wrap_small x : is_word x -> wrap x = x.
Proof. unfold is_word, wrap. apply Z.mod_small. Qed.

Lemma wrap_range x : is_word (wrap x).
Proof. unfold is_word, wrap. apply Z.mod_pos_bound. reflexivity. Qed.

Lemma wadd_small x y : 0 <= x -> 0 <= y -> x + y < word_size -> x +w y = x + y.
Proof. intros. apply wrap_small. unfold is_word. lia. Qed.

Lemma wsub_small x y : 0 <= y <= x -> x < word_size -> x -w y = x - y.
Proof. intros. apply wrap_small. unfold is_word. lia. Qed.

Lemma wadd_word x y : is_word (x +w y).
Proof. apply wrap_range. Qed.

Lemma wsub_word x y : is_word (x -w y).
Proof. apply wrap_range. Qed.

Lemma bit_pow n : 0 <= n < 64 -> bit n = 2 ^ n.
Proof.
  intros Hn. unfold bit, wshl. rewrite (Z.mod_small n 64) by lia.
  rewrite Z.shiftl_1_l. apply wrap_small. split; [lia|].
  apply Z.pow_lt_mono_r; lia.
Qed.

Lemma pow2_lt_word n : 0 <= n < 64 -> 2 ^ n < word_size.
Proof. intros. apply Z.pow_lt_mono_r; lia. Qed.

Lemma pow2_pos n : 0 <= n -> 0 < 2 ^ n.
Proof. intros. apply Z.pow_pos_nonneg; lia. Qed.

Lemma mask_bits_ones n : 0 <= n < 64 -> mask_bits n = Z.ones n.
Proof.
  intros Hn. unfold mask_bits. rewrite bit_pow by lia.
  rewrite wsub_small; [rewrite Z.ones_equiv; lia| |].
  - pose proof (pow2_pos n). lia.
  - apply pow2_lt_word. lia.
Qed.

Lemma land_mask x n : 0 <= n < 64 -> Z.land x (mask_bits n) = x mod 2 ^ n.
Proof. intros. rewrite mask_bits_ones by lia. apply Z.land_ones. lia. Qed.

Lemma wshr_div x n : 0 <= n < 64 -> x >>w n = x / 2 ^ n.
Proof.
  intros. unfold wshr. rewrite (Z.mod_small n 64) by lia.
  apply Z.shiftr_div_pow2. lia.
Qed.

Lemma wshl_mul x n : 0 <= n < 64 -> 0 <= x -> x * 2 ^ n < word_size -> x <<w n = x * 2 ^ n.
Proof.
  intros. unfold wshl. rewrite (Z.mod_small n 64) by lia.
  rewrite Z.shiftl_mul_pow2 by lia. apply wrap_small. split; [|lia].
  pose proof (pow2_pos n). nia.
Qed.

(** *** Bits *)

Lemma word_shiftr x : 0 <= x -> is_word x <-> Z.shiftr x 64 = 0.
Proof.
  intros Hx. unfold is_word, word_size. rewrite Z.shiftr_div_pow2 by lia. split.
  - intros. apply Z.div_small. lia.
  - intros E. apply Z.div_small_iff in E; lia.
Qed.

Lemma lor_word x y : is_word x -> is_word y -> is_word (Z.lor x y).
Proof.
  intros Hx Hy. pose proof Hx as [? _]. pose proof Hy as [? _].
  apply word_shiftr; [by apply Z.lor_nonneg|].
  rewrite Z.shiftr_lor. apply word_shiftr in Hx, Hy; [|done..]. by rewrite Hx, Hy.
Qed.

Lemma land_word_l x y : is_word x -> is_word (Z.land x y).
Proof.
  intros Hx. pose proof Hx as [? _].
  apply word_shiftr; [apply Z.land_nonneg; by left|].
  rewrite Z.shiftr_land. apply word_shiftr in Hx; [|done]. by rewrite Hx, Z.land_0_l.
Qed.

Lemma word_testbit_high x i : is_word x -> 64 <= i -> Z.testbit x i = false.
Proof.
  intros Hx Hi. pose proof Hx as [Hx0 _]. apply word_shiftr in Hx; [|done].
  replace i with ((i - 64) + 64) by lia.
  rewrite <- Z.shiftr_spec by lia. by rewrite Hx, Z.testbit_0_l.
Qed.

(** Masking with a complement clears bits. *)
Lemma land_wnot x m : is_word x -> Z.land x (wnot m) = Z.ldiff x m.
Proof.
  intros Hx. apply Z.bits_inj'. intros i Hi.
  rewrite Z.land_spec, Z.ldiff_spec. unfold wnot. rewrite Z.lxor_spec.
  change UINT64_MAX with (Z.ones 64). destruct (Z.lt_ge_cases i 64).
  - rewrite Z.ones_spec_low by lia. by destruct (Z.testbit m i), (Z.testbit x i).
  - by rewrite word_testbit_high.
Qed.

Lemma ldiff_ones_aligned x n : 0 <= n -> x mod 2 ^ n = 0 -> Z.ldiff x (Z.ones n) = x.
Proof.
  intros Hn E. rewrite Z.ldiff_ones_r by lia.
  rewrite Z.shiftr_div_pow2, Z.shiftl_mul_pow2 by lia.
  pose proof (pow2_pos n Hn). rewrite (Z.div_mod x (2 ^ n)) at 2 by lia. lia.
Qed.

Lemma ldiff_word x y : is_word x -> is_word (Z.ldiff x y).
Proof. intros Hx. rewrite <- land_wnot by done. by apply land_word_l. Qed.

(** The two halves of a word glued by [lor] come apart again. *)
Lemma lor_split_low p n m : Z.land (Z.lor (Z.ldiff p m) (Z.land n m)) m = Z.land n m.
Proof.
  apply Z.bits_inj'. intros i Hi.
  rewrite !Z.land_spec, Z.lor_spec, Z.ldiff_spec, Z.land_spec.
  by destruct (Z.testbit p i), (Z.testbit n i), (Z.testbit m i).
Qed.

Lemma lor_split_high p n m : Z.ldiff (Z.lor (Z.ldiff p m) (Z.land n m)) m = Z.ldiff p m.
Proof.
  apply Z.bits_inj'. intros i Hi.
  rewrite !Z.ldiff_spec, Z.lor_spec, Z.ldiff_spec, Z.land_spec.
  by destruct (Z.testbit p i), (Z.testbit n i), (Z.testbit m i).
Qed.

Create HintDb word discriminated.
#[export] Hint Resolve wrap_range wadd_word wsub_word pow2_pos pow2_lt_word
  lor_word land_word_l ldiff_word : word.

(** ** Lists: the element before and the element after a split point *)

(** Pointers are words; [0] is the null pointer, so the head of an empty
    suffix and the last of an empty prefix are [0]. *)
Definition headz (d : Z) (l : list Z) : Z := default d (head l).
Definition lastz (d : Z) (l : list Z) : Z := default d (last l).

Lemma headz_app d l1 l2 : headz d (l1 ++ l2) = headz (headz d l2) l1.
Proof. by destruct l1. Qed.

Lemma lastz_app d l1 l2 : lastz d (l1 ++ l2) = lastz (lastz d l1) l2.
Proof. unfold lastz. rewrite last_app. by destruct (last l2). Qed.

Lemma lastz_cons d a l : lastz d (a :: l) = lastz a l.
Proof. unfold lastz. rewrite last_cons. by destruct (last l). Qed.

Lemma lastz_snoc d l a : lastz d (l ++ [a]) = a.
Proof. unfold lastz. by rewrite last_snoc. Qed.

Lemma lastz_default d d' l : l <> [] -> lastz d l = lastz d' l.
Proof.
  destruct l as [|a l _] using rev_ind; [done|]. by rewrite !lastz_snoc.
Qed.

Lemma headz_in d l : l <> [] -> headz d l ∈ l.
Proof. destruct l; [done|]. intros _. cbn. by left. Qed.

Lemma lastz_in d l : l <> [] -> lastz d l ∈ l.
Proof.
  destruct l as [|a l _] using rev_ind; [done|]. intros _.
  rewrite lastz_snoc. set_solver.
Qed.

Lemma headz_notin a l : a ∉ l -> a <> 0 -> headz 0 l <> a.
Proof. destruct l; cbn; set_solver. Qed.

Lemma lastz_notin a l : a ∉ l -> a <> 0 -> lastz 0 l <> a.
Proof.
  intros Ha H0 E. destruct (decide (l = [])) as [->|Hl]; [by cbn in E|].
  pose proof (lastz_in 0 l Hl). congruence.
Qed.

Lemma headz_zero l : 0 ∉ l -> headz 0 l = 0 <-> l = [].
Proof.
  intros H. split; [|by intros ->].
  destruct l as [|a l]; [done|]. cbn. intros ->. set_solver.
Qed.

Lemma lastz_zero l : 0 ∉ l -> lastz 0 l = 0 <-> l = [].
Proof.
  intros H. split; [|by intros ->]. intros E.
  destruct l as [|a l _] using rev_ind; [done|].
  rewrite lastz_snoc in E. set_solver.
Qed.

Lemma elem_of_concat {A} (a : A) (ls : list (list A)) :
  a ∈ concat ls <-> exists l, a ∈ l /\ l ∈ ls.
Proof.
  induction ls as [|l ls IH]; cbn; [set_solver|].
  rewrite elem_of_app, IH. set_solver.
Qed.

(** ** Tactics *)

(** Turn the boolean comparisons of the code into propositions. *)
Ltac zbool :=
  repeat match goal with
  | H : (_ =? _) = true |- _ => apply Z.eqb_eq in H
  | H : (_ =? _) = false |- _ => apply Z.eqb_neq in H
  | H : (_ <? _) = true |- _ => apply Z.ltb_lt in H
  | H : (_ <? _) = false |- _ => apply Z.ltb_ge in H
  | H : (_ <=? _) = true |- _ => apply Z.leb_le in H
  | H : (_ <=? _) = false |- _ => apply Z.leb_gt in H
  | H : negb _ = true |- _ => apply negb_true_iff in H
  | H : negb _ = false |- _ => apply negb_false_iff in H
  | H : (_ && _)%bool = true |- _ => apply andb_true_iff in H as [? ?]
  | H : (_ || _)%bool = false |- _ => apply orb_false_iff in H as [? ?]
  end.

(** Split on the boolean comparison the goal is stuck on. *)
Ltac zcase :=
  match goal with
  | |- context [?a =? ?b] => destruct (Z.eqb_spec a b)
  | |- context [?a <? ?b] => destruct (Z.ltb_spec a b)
  | |- context [?a <=? ?b] => destruct (Z.leb_spec a b)
  end.

(** ** Record update

    [r <| f := v |>] is [r] with field [f] replaced.  A record type declares
    its eta expansion as a [Settable] instance; the [Setter] of a field is
    found by abstracting that field in it. *)

Class Settable (R : Type) := record_eta : R -> R.
Class Setter {R T : Type} (f : R -> T) := set : (T -> T) -> R -> R.
Arguments set {R T} f {_} _ _ : simpl nomatch.

Ltac derive_setter :=
  match goal with
  | |- @Setter ?R ?T ?f =>
      let e := eval hnf in (@record_eta R _) in
      match eval pattern f in e with
      | ?k _ =>
          let d := eval cbv beta in
            (fun (g : T -> T) (r : R) => k (fun r' => g (f r')) r) in
          exact d
      end
  end.
#[export] Hint Extern 1 (Setter _) => derive_setter : typeclass_instances.

Declare Scope record_scope.
Delimit Scope record_scope with rec.
Notation "r <| f := v |>" := (set f (fun _ => v) r)
  (at level 1, left associativity) : record_scope.
Notation "r <| f ::= g |>" := (set f g r)
  (at level 1, left associativity) : record_scope.
#[global] Open Scope record_scope.
