(* ===== verification/Monad.v ===== *)
(** * The kernel monad

    Kernel code threads the kernel state and can fail.  A failure is an
    [assert!]/[panic!] of the source ([EPanic]), a dereference of an address
    where no object of the expected type lives ([EUndef]), or a loop of the
    model that ran out of fuel ([EFuel]), or a shutdown of the machine ([EHalt]). *)

From S2P Require Import Prelude.

Inductive err : Type := EPanic | EUndef | EFuel | EHalt.

Inductive res (A : Type) : Type :=
| Ok (a : A)
| Err (e : err).
Arguments Ok {_} _.
Arguments Err {_} _.

Definition M (S A : Type) : Type := S -> res (A * S).

Definition ret {S A} (a : A) : M S A := fun s => Ok (a, s).
Definition bind {S A B} (m : M S A) (k : A -> M S B) : M S B :=
  fun s => match m s with Ok (a, s') => k a s' | Err e => Err e end.
Definition fail {S A} (e : err) : M S A := fun _ => Err e.
Definition gets {S A} (f : S -> A) : M S A := fun s => Ok (f s, s).
Definition modify {S} (f : S -> S) : M S unit := fun s => Ok (tt, f s).

(** [assert!(b)]. *)
Definition kassert {S} (b : bool) : M S unit := if b then ret tt else fail EPanic.

Definition when {S} (b : bool) (m : M S unit) : M S unit := if b then m else ret tt.

Declare Scope kernel_scope.
Delimit Scope kernel_scope with kernel.
Notation "'let*' x := m 'in' k" := (bind m (fun x => k))
  (at level 10, x binder, m at level 200, k at level 200) : kernel_scope.
Notation "m ;;; k" := (bind m (fun _ => k))
  (at level 199, k at level 200, right associativity) : kernel_scope.
#[global] Open Scope kernel_scope.

(** [while] with fuel: [cond] is evaluated in the state, [body] steps the
    loop variable. *)
Fixpoint while {S X} (fuel : nat) (cond : X -> M S bool) (body : X -> M S X) (x : X) : M S X :=
  match fuel with
  | O => fail EFuel
  | S n => let* b := cond x in
           if (b : bool) then let* x' := body x in while n cond body x' else ret x
  end.

(** [for i in 0..n]. *)
Fixpoint for_range {S} (n : nat) (i : Z) (body : Z -> M S unit) : M S unit :=
  match n with
  | O => ret tt
  | S n' => body i ;;; for_range n' (i + 1) body
  end.

Lemma bind_ok {S A B} (m : M S A) (k : A -> M S B) s a s' :
  m s = Ok (a, s') -> bind m k s = k a s'.
Proof. unfold bind. by intros ->. Qed.

Lemma bind_assoc {S A B C} (m : M S A) (k : A -> M S B) (g : B -> M S C) s :
  bind (bind m k) g s = bind m (fun a => bind (k a) g) s.
Proof. unfold bind. by destruct (m s) as [[a s']|]. Qed.

Lemma bind_inv {S A B} (m : M S A) (k : A -> M S B) s b s' :
  bind m k s = Ok (b, s') -> exists a s1, m s = Ok (a, s1) /\ k a s1 = Ok (b, s').
Proof. unfold bind. destruct (m s) as [[a s1]|]; [eauto|done]. Qed.

Lemma kassert_inv {S} b (s : S) a s' : kassert b s = Ok (a, s') -> b = true /\ s' = s.
Proof. unfold kassert, ret, fail. destruct b; [|done]. intros. by simplify_eq. Qed.

Lemma ret_inv {S A} (a : A) (s : S) b s' : ret a s = Ok (b, s') -> b = a /\ s' = s.
Proof. unfold ret. intros. by simplify_eq. Qed.

(** ** Weakest preconditions (total: a panic satisfies nothing) *)

Definition wp {S A} (m : M S A) (Q : A -> S -> Prop) (s : S) : Prop :=
  match m s with
  | Ok (a, s') => Q a s'
  | Err _ => False
  end.

Section wp.
Context {S : Type}.
Implicit Types s : S.

Lemma wp_iff {A} (m : M S A) Q s :
  wp m Q s <-> exists a s', m s = Ok (a, s') /\ Q a s'.
Proof.
  unfold wp. split.
  - destruct (m s) as [[a s']|]; [|done]. eauto.
  - intros (a & s' & -> & H). done.
Qed.

Lemma wp_ok {A} (m : M S A) a s s' (Q : A -> S -> Prop) :
  m s = Ok (a, s') -> Q a s' -> wp m Q s.
Proof. unfold wp. by intros ->. Qed.

Lemma wp_ret {A} (a : A) (Q : A -> S -> Prop) s : Q a s -> wp (ret a) Q s.
Proof. done. Qed.

Lemma wp_bind {A B} (m : M S A) (k : A -> M S B) Q s :
  wp m (fun a s' => wp (k a) Q s') s -> wp (bind m k) Q s.
Proof. unfold wp, bind. by destruct (m s) as [[a s']|]. Qed.

Lemma wp_gets {A} (f : S -> A) (Q : A -> S -> Prop) s : Q (f s) s -> wp (gets f) Q s.
Proof. done. Qed.

Lemma wp_modify (f : S -> S) (Q : unit -> S -> Prop) s : Q tt (f s) -> wp (modify f) Q s.
Proof. done. Qed.

Lemma wp_assert b (Q : unit -> S -> Prop) s : b = true -> Q tt s -> wp (kassert b) Q s.
Proof. by intros -> H. Qed.

Lemma wp_mono {A} (m : M S A) (P Q : A -> S -> Prop) s :
  wp m P s -> (forall a s', P a s' -> Q a s') -> wp m Q s.
Proof. unfold wp. destruct (m s) as [[a s']|]; [|done]. eauto. Qed.

Lemma wp_conj {A} (m : M S A) (P Q : A -> S -> Prop) s :
  wp m P s -> wp m Q s -> wp m (fun a s' => P a s' /\ Q a s') s.
Proof. unfold wp. by destruct (m s) as [[a s']|]. Qed.

(** A loop terminates when a measure bounded by the fuel decreases. *)
Lemma wp_while {X} (I : X -> S -> Prop) (measure : X -> S -> nat)
    (cond : X -> M S bool) (body : X -> M S X) (Q : X -> S -> Prop) :
  (forall x s, I x s ->
     wp (cond x) (fun b s1 =>
       if (b : bool) then
         wp (body x) (fun x' s2 => I x' s2 /\ (measure x' s2 < measure x s)%nat) s1
       else Q x s1) s) ->
  forall fuel x s, I x s -> (measure x s < fuel)%nat -> wp (while fuel cond body x) Q s.
Proof.
  intros Hstep fuel. induction fuel as [|n IH]; intros x s HI Hm; [lia|].
  cbn. apply wp_bind. eapply wp_mono; [by apply Hstep|].
  intros b s1 H. destruct b; [|by apply wp_ret].
  apply wp_bind. eapply wp_mono; [exact H|].
  intros x' s2 [HI' Hlt]. apply IH; [done|lia].
Qed.
End wp.

(** [wp_step] runs one primitive of the monad. *)
Ltac wp_step :=
  match goal with
  | |- wp (bind _ _) _ _ => apply wp_bind
  | |- wp (ret _) _ _ => apply wp_ret
  | |- wp (gets _) _ _ => apply wp_gets
  | |- wp (modify _) _ _ => apply wp_modify
  end.

(** The rule of [for] loops, with an invariant over the index. *)
Lemma wp_for_range {S} (I : Z -> S -> Prop) (body : Z -> M S unit) (Q : unit -> S -> Prop) n : forall i s,
  I i s -> (forall j s, i <= j < i + Z.of_nat n -> I j s -> wp (body j) (fun _ => I (j + 1)) s) ->
  (forall s, I (i + Z.of_nat n) s -> Q tt s) -> wp (for_range n i body) Q s.
Proof.
  induction n as [|n IH]; intros i s Hi Hb HQ; cbn [for_range].
  - apply wp_ret, HQ. by rewrite Z.add_0_r.
  - apply wp_bind. eapply wp_mono; [apply Hb; [lia|done]|]. intros [] s1 H1. apply IH; [done| |].
    + intros j s2 Hj. apply Hb. lia.
    + intros s2 H2. apply HQ. by replace (i + Z.of_nat (Datatypes.S n)) with (i + 1 + Z.of_nat n) by lia.
Qed.
