(* ===== verification/DList.v ===== *)
(** * Intrusive doubly linked lists

    The ready and release queues (sel4_task/src/tcb_queue.rs), the endpoint
    and notification queues and the capability derivation list
    (sel4_cspace/src/cte.rs) are all doubly linked lists whose links live in
    the elements, with address [0] as the end marker.  A link function
    [L : Z -> option (Z * Z)] gives the (previous, next) pair stored at an
    address; [dseg] relates a stretch of such links to a Rocq list. *)

From S2P Require Import Prelude.

Definition links := Z -> option (Z * Z).

(** [dseg L pp l qn]: the addresses [l] are linked in order, the first one
    points back to [pp] and the last one forward to [qn]. *)
Fixpoint dseg (L : links) (pp : Z) (l : list Z) (qn : Z) : Prop :=
  match l with
  | [] => True
  | a :: l' =>
      (L a = Some (pp, headz qn l')) /\ dseg L a l' qn
  end.

(** A whole list: null at both ends, no repetition, no null element. *)
Definition dlist (L : links) (l : list Z) : Prop :=
  NoDup l /\ (0 ∉ l) /\ dseg L 0 l 0.

Section dseg.
Implicit Types (L : links) (l : list Z).

Lemma dseg_app L pp l1 l2 qn :
  dseg L pp (l1 ++ l2) qn <->
  dseg L pp l1 (headz qn l2) /\ dseg L (lastz pp l1) l2 qn.
Proof.
  revert pp. induction l1 as [|a l1 IH]; intros pp; cbn; [tauto|].
  rewrite lastz_cons, IH, headz_app. tauto.
Qed.

Lemma dseg_ext L L' pp l qn :
  (forall a, a ∈ l -> L' a = L a) -> dseg L pp l qn -> dseg L' pp l qn.
Proof.
  revert pp. induction l as [|a l IH]; intros pp Heq; cbn; [done|].
  intros [H1 H2]. split; [|by apply IH; set_solver].
  rewrite Heq; [done|set_solver].
Qed.

Lemma dseg_lookup L pp l1 a l2 qn :
  dseg L pp (l1 ++ a :: l2) qn -> L a = Some (lastz pp l1, headz qn l2).
Proof. rewrite dseg_app. cbn. tauto. Qed.

Lemma dseg_dom L pp l qn a : dseg L pp l qn -> a ∈ l -> is_Some (L a).
Proof.
  intros H (l1 & l2 & ->)%list_elem_of_split.
  rewrite (dseg_lookup _ _ _ _ _ _ H). eauto.
Qed.

(** Renaming the addresses of a list by [f], with every link renamed. *)
Lemma dseg_rename L L' (f : Z -> Z) pp l qn :
  (forall a p n, a ∈ l -> L a = Some (p, n) -> L' (f a) = Some (f p, f n)) ->
  dseg L pp l qn -> dseg L' (f pp) (f <$> l) (f qn).
Proof.
  revert pp. induction l as [|a l IH]; intros pp Hf; cbn; [done|].
  intros [H1 H2]. split.
  - rewrite (Hf a pp (headz qn l)); [|set_solver|done].
    by destruct l.
  - apply IH; [set_solver|done].
Qed.

(** Pointwise update of the two ends of a segment. *)
Lemma dseg_relink L L' pp pp' l qn qn' :
  NoDup l ->
  dseg L pp l qn ->
  (forall a p n, a ∈ l -> L a = Some (p, n) ->
     L' a = Some (if decide (a = headz 0 l) then pp' else p,
                  if decide (a = lastz 0 l) then qn' else n)) ->
  dseg L' pp' l qn'.
Proof.
  revert pp pp'. induction l as [|a l IH]; intros pp pp' Hnd; cbn; [done|].
  intros [H1 H2] Hup. apply NoDup_cons in Hnd as [Hn Hnd].
  split.
  - rewrite (Hup a pp (headz qn l)); [|set_solver|done].
    rewrite decide_True by done. rewrite lastz_cons. f_equal. f_equal.
    destruct l as [|b l]; cbn.
    + by rewrite decide_True.
    + rewrite decide_False; [done|]. intros E. apply Hn.
      rewrite E. by apply lastz_in.
  - apply (IH a a); [done|done|]. intros b p n Hb HL.
    rewrite (Hup b p n); [|set_solver|done].
    rewrite decide_False; [|intros ->; done].
    rewrite lastz_cons. f_equal. f_equal.
    + destruct l as [|c l]; [set_solver|]. case_decide as Hc; [|done].
      cbn in Hc. subst b. cbn in H2. destruct H2 as [H2 _]. congruence.
    + rewrite (lastz_default a 0); [done|]. intros ->. inversion Hb.
Qed.

Lemma dseg_relink_last L L' pp l qn qn' :
  NoDup l -> dseg L pp l qn ->
  (forall a p n, a ∈ l -> L a = Some (p, n) ->
     L' a = Some (p, if decide (a = lastz 0 l) then qn' else n)) ->
  dseg L' pp l qn'.
Proof.
  intros Hnd Hs Hup. apply (dseg_relink L L' pp pp l qn qn' Hnd Hs).
  intros a p n Ha HL. rewrite (Hup a p n Ha HL).
  destruct (decide (a = headz 0 l)) as [Hc|]; [|done].
  destruct l as [|c l]; [inversion Ha|]. cbn in Hc. subst a.
  destruct Hs as [Hs _]. congruence.
Qed.

Lemma dseg_relink_first L L' pp pp' l qn :
  NoDup l -> dseg L pp l qn ->
  (forall a p n, a ∈ l -> L a = Some (p, n) ->
     L' a = Some (if decide (a = headz 0 l) then pp' else p, n)) ->
  dseg L' pp' l qn.
Proof.
  intros Hnd Hs Hup. apply (dseg_relink L L' pp pp' l qn qn Hnd Hs).
  intros a p n Ha HL. rewrite (Hup a p n Ha HL). f_equal. f_equal.
  case_decide as Hc; [|done]. subst a.
  destruct l as [|c l _] using rev_ind; [inversion Ha|].
  rewrite lastz_snoc in HL. apply dseg_lookup in Hs. cbn in Hs. congruence.
Qed.
End dseg.

Section dlist.
Implicit Types (L : links) (l : list Z).

Lemma dlist_nodup_app L l1 a l2 :
  dlist L (l1 ++ a :: l2) ->
  NoDup l1 /\ NoDup l2 /\ (a ∉ l1) /\ (a ∉ l2) /\ (forall b, b ∈ l1 -> b ∉ l2) /\
  a <> 0 /\ (0 ∉ l1) /\ (0 ∉ l2).
Proof.
  intros (Hnd & H0 & _). apply NoDup_app in Hnd as (? & Hd & Hnd).
  apply NoDup_cons in Hnd as [? ?]. set_solver.
Qed.

Lemma dlist_nil L : dlist L [].
Proof. repeat split; [constructor|set_solver]. Qed.

(** Linking a new element between [l1] and [l2]. *)
Lemma dlist_insert L L' l1 a l2 :
  dlist L (l1 ++ l2) -> a ∉ l1 ++ l2 -> a <> 0 ->
  L' a = Some (lastz 0 l1, headz 0 l2) ->
  (forall b p n, b ∈ l1 ++ l2 -> L b = Some (p, n) ->
     L' b = Some (if decide (b = headz 0 l2) then a else p,
                  if decide (b = lastz 0 l1) then a else n)) ->
  dlist L' (l1 ++ a :: l2).
Proof.
  intros (Hnd & H0 & Hseg) Ha Ha0 HLa Hup.
  pose proof Hnd as (Hnd1 & Hdisj & Hnd2)%NoDup_app.
  split; [|split].
  - apply NoDup_app. repeat split; [done| |].
    + intros b Hb. set_solver.
    + apply NoDup_cons. set_solver.
  - set_solver.
  - apply dseg_app in Hseg as [Hs1 Hs2]. apply dseg_app. split; [|cbn; split; [done|]].
    + apply (dseg_relink_last L L' 0 l1 (headz 0 l2) a Hnd1 Hs1).
      intros b p n Hb HL. rewrite (Hup b p n); [|set_solver|done].
      assert (b <> headz 0 l2).
      { destruct l2; cbn; [set_solver|]. intros ->. set_solver. }
      by rewrite decide_False.
    + apply (dseg_relink_first L L' (lastz 0 l1) a l2 0 Hnd2 Hs2).
      intros b p n Hb HL. rewrite (Hup b p n); [|set_solver|done].
      assert (b <> lastz 0 l1).
      { intros ->. destruct l1 as [|c l1]; [set_solver|].
        apply (Hdisj (lastz 0 (c :: l1))); [by apply lastz_in|done]. }
      by rewrite (decide_False (P := b = lastz 0 l1)).
Qed.

(** Unlinking an element. *)
Lemma dlist_remove L L' l1 a l2 :
  dlist L (l1 ++ a :: l2) ->
  (forall b p n, b ∈ l1 ++ l2 -> L b = Some (p, n) ->
     L' b = Some (if decide (b = headz 0 l2) then lastz 0 l1 else p,
                  if decide (b = lastz 0 l1) then headz 0 l2 else n)) ->
  dlist L' (l1 ++ l2).
Proof.
  intros Hd Hup. pose proof (dlist_nodup_app _ _ _ _ Hd)
    as (Hnd1 & Hnd2 & Ha1 & Ha2 & Hdisj & Ha0 & H01 & H02).
  destruct Hd as (_ & _ & Hseg).
  split; [|split].
  - apply NoDup_app. eauto.
  - set_solver.
  - apply dseg_app in Hseg as [Hs1 [_ Hs2]]. apply dseg_app. split.
    + apply (dseg_relink_last L L' 0 l1 a (headz 0 l2) Hnd1 Hs1).
      intros b p n Hb HL. rewrite (Hup b p n); [|set_solver|done].
      assert (b <> headz 0 l2).
      { destruct l2; cbn; [set_solver|]. intros ->. set_solver. }
      by rewrite decide_False.
    + apply (dseg_relink_first L L' a (lastz 0 l1) l2 0 Hnd2 Hs2).
      intros b p n Hb HL. rewrite (Hup b p n); [|set_solver|done].
      assert (b <> lastz 0 l1).
      { intros ->. destruct l1 as [|c l1]; [set_solver|].
        apply (Hdisj (lastz 0 (c :: l1))); [by apply lastz_in|done]. }
      by rewrite (decide_False (P := b = lastz 0 l1)).
Qed.

(** Putting [b] in the place of [a]: unlink one, link the other. *)
Lemma dlist_replace L L' l1 a b l2 :
  dlist L (l1 ++ a :: l2) -> b ∉ l1 ++ l2 -> b <> 0 ->
  L' b = Some (lastz 0 l1, headz 0 l2) ->
  (forall x p n, x ∈ l1 ++ l2 -> L x = Some (p, n) ->
     L' x = Some (if decide (x = headz 0 l2) then b else p,
                  if decide (x = lastz 0 l1) then b else n)) ->
  dlist L' (l1 ++ b :: l2).
Proof.
  intros Hd Hb Hb0 HLb Hup.
  set (L0 := fun x => (fun '(p, n) =>
    (if decide (x = headz 0 l2) then lastz 0 l1 else p,
     if decide (x = lastz 0 l1) then headz 0 l2 else n)) <$> L x).
  apply (dlist_insert L0); [|done..|].
  - eapply dlist_remove; [exact Hd|]. intros x p n Hx HL. subst L0. cbn. by rewrite HL.
  - intros x p n Hx. subst L0. cbn. intros E. apply fmap_Some in E as ([p0 n0] & HL & E).
    simplify_eq. rewrite (Hup x p0 n0 Hx HL). by repeat case_decide.
Qed.
End dlist.
