(* ===== verification/Config.v ===== *)
(** * Build configuration and kernel constants

    The Cargo features and the target architecture select code with
    [#[cfg]]; here they are the fields of a [Config] class, and a definition
    whose source has two [#[cfg]] variants branches on it.  The single-core
    kernel is modelled ([enable_smp] off).  The constants are those of
    sel4_common/src/sel4_config.rs and of the generated configuration
    (rel4_config), which both platforms share unless a definition branches. *)

From S2P Require Import Prelude.

Inductive Arch : Type := RISCV64 | AARCH64.

Class Config : Type := {
  target_arch : Arch;
  kernel_mcs : bool;
  have_fpu : bool;
  enable_smc : bool;
  kernel_root_page_table : Z;   (* link addresses of the kernel's root table ... *)
  arm_global_user_vspace : Z;   (* ... and of the empty user table *)
  MAX_IRQ : Z;                  (* interrupt numbers of the platform (rel4_config/cfg) *)
  KERNEL_TIMER_IRQ : Z;
  IRQ_INVALID : Z
}.

Definition is_riscv `{Config} : bool :=
  match target_arch with RISCV64 => true | AARCH64 => false end.

Definition SEL4_MIN_UNTYPED_BITS : Z := 4.
Definition SEL4_SLOT_BITS : Z := 5.
Definition SEL4_ENDPOINT_BITS : Z := 4.
Definition SEL4_NOTIFICATION_BITS `{Config} : Z := if kernel_mcs then 6 else 5.
Definition SEL4_REPLY_BITS : Z := 5.
Definition SEL4_MIN_SCHED_CONTEXT_BITS : Z := 7.
Definition SEL4_TCB_BITS `{Config} : Z :=
  match target_arch with
  | RISCV64 => if have_fpu then 11 else 10
  | AARCH64 => 11
  end.
Definition SEL4_PAGE_BITS : Z := 12.
Definition SEL4_LARGE_PAGE_BITS : Z := 21.
Definition SEL4_HUGE_PAGE_BITS : Z := 30.
Definition SEL4_PAGE_TABLE_BITS : Z := 12.
Definition PT_SIZE_BITS : Z := 12.
Definition PAGE_BITS : Z := SEL4_PAGE_BITS.
Definition SEL4_MAX_UNTYPED_BITS `{Config} : Z :=
  match target_arch with RISCV64 => 38 | AARCH64 => 47 end.

(** Page tables and the kernel window. *)
Definition CONFIG_PT_LEVELS : Z := 3.
Definition PT_INDEX_BITS : Z := 9.
Definition ASID_LOW_BITS : Z := 9.
Definition ASID_HIGH_BITS : Z := 7.
Definition PPTR_BASE_OFFSET `{Config} : Z :=
  match target_arch with RISCV64 => 0xFFFFFFC000000000 | AARCH64 => 0xFFFFFF8000000000 end.
Definition KERNEL_ELF_BASE_OFFSET `{Config} : Z :=
  match target_arch with RISCV64 => 0xFFFFFFFF00000000 | AARCH64 => 0xFFFFFF8000000000 end.

Definition N_ASID_POOLS : Z := 128.
Definition ASID_INVALID : Z := 0.
Definition SEL4_ASID_POOL_BITS : Z := 12.
Definition SEL4_IPC_BUFFER_SIZE_BITS : Z := 10.
Definition USER_TOP : Z := 0x00007fffffffffff.
Definition SEL4_VSPACE_BITS : Z := 12.

Definition CONFIG_NUM_DOMAINS : Z := 1.
Definition NUM_DOMAINS : Z := CONFIG_NUM_DOMAINS.
Definition CONFIG_NUM_PRIORITIES : Z := 256.
Definition L2_BITMAP_SIZE : Z := 4.
Definition NUM_READY_QUEUES : Z := CONFIG_NUM_DOMAINS * CONFIG_NUM_PRIORITIES.
Definition CONFIG_TIME_SLICE : Z := 5.
Definition CONFIG_RETYPE_FAN_OUT_LIMIT : Z := 256.
Definition CONFIG_MAX_NUM_WORK_UNITS_PER_PREEMPTION : Z := 100.
Definition CONFIG_RESET_CHUNK_BITS : Z := 8.
Definition CONFIG_KERNEL_WCET_SCALE : Z := 1.

Definition SEL4_MSG_MAX_LENGTH : Z := 120.
Definition SEL4_MSG_MAX_EXTRA_CAPS : Z := 3.
Definition MSG_REGISTER_NUM : Z := 4.

(** Slots of the CNode at the base of a TCB object. *)
Definition TCB_CTABLE : Z := 0.
Definition TCB_VTABLE : Z := 1.
Definition TCB_REPLY : Z := 2.
Definition TCB_CALLER : Z := 3.
Definition TCB_BUFFER `{Config} : Z := if kernel_mcs then 2 else 4.
Definition TCB_FAULT_HANDLER_SLOT : Z := 3.
Definition TCB_TIMEOUT_HANDLER : Z := 4.
Definition TCB_CNODE_ENTRIES : Z := 5.

Definition SEL4_MIN_PRIO : Z := 0.
Definition TIME_ARG_SIZE : Z := 1.
Definition THREAD_CONTROL_CAPS_UPDATE_IPC_BUFFER : Z := 0x1.
Definition THREAD_CONTROL_CAPS_UPDATE_SPACE : Z := 0x2.
Definition THREAD_CONTROL_CAPS_UPDATE_FAULT : Z := 0x4.
Definition THREAD_CONTROL_CAPS_UPDATE_TIMEOUT : Z := 0x8.

(** libsel4 error codes. *)
Definition SEL4_NO_ERROR : Z := 0.
Definition SEL4_INVALID_ARGUMENT : Z := 1.
Definition SEL4_INVALID_CAPABILITY : Z := 2.
Definition SEL4_ILLEGAL_OPERATION : Z := 3.
Definition SEL4_RANGE_ERROR : Z := 4.
Definition SEL4_ALIGNMENT_ERROR : Z := 5.
Definition SEL4_FAILED_LOOKUP : Z := 6.
Definition SEL4_TRUNCATED_MESSAGE : Z := 7.
Definition SEL4_DELETE_FIRST : Z := 8.
Definition SEL4_REVOKE_FIRST : Z := 9.
Definition SEL4_NOT_ENOUGH_MEMORY : Z := 10.

(** The configurations the witnesses run in. *)
Definition riscv_config : Config :=
  {| target_arch := RISCV64; kernel_mcs := false; have_fpu := false; enable_smc := false;
     kernel_root_page_table := 0xFFFFFFFF84001000; arm_global_user_vspace := 0;
     MAX_IRQ := 5; KERNEL_TIMER_IRQ := 5; IRQ_INVALID := 255 |}.
Definition riscv_mcs_config : Config :=
  {| target_arch := RISCV64; kernel_mcs := true; have_fpu := false; enable_smc := false;
     kernel_root_page_table := 0xFFFFFFFF84001000; arm_global_user_vspace := 0;
     MAX_IRQ := 5; KERNEL_TIMER_IRQ := 5; IRQ_INVALID := 255 |}.
Definition aarch64_config : Config :=
  {| target_arch := AARCH64; kernel_mcs := false; have_fpu := true; enable_smc := true;
     kernel_root_page_table := 0; arm_global_user_vspace := 0xFFFFFF8040001000;
     MAX_IRQ := 159; KERNEL_TIMER_IRQ := 27; IRQ_INVALID := 65535 |}.
