(* ===== verification/Objects.v ===== *)
(** * Kernel objects and the kernel state

    The bit-packed structures of sel4_common/pbf (capabilities, MDB nodes,
    thread states, endpoints, notifications, faults) become records and
    inductive types with the fields of the layout files; the Rust structs
    ([tcb_t], [sched_context], [reply], [cte_t], [seL4_IPCBuffer]) become
    records.  The kernel state holds one heap per object type, keyed by
    address, and the global variables of the kernel.  One-bit fields are the
    words 0 and 1, as the accessors return them. *)

From S2P Require Import Prelude Monad Config.

(** ** Capabilities (structures_64.bf, riscv64/ and aarch64/structures.bf) *)

Record untyped_cap := mk_untyped_cap {
  capFreeIndex : Z; capIsDevice : Z; capBlockSize : Z; capPtr : Z }.
Record endpoint_cap := mk_endpoint_cap {
  capEPBadge : Z; capCanGrantReply : Z; capCanGrant : Z; capCanSend : Z;
  capCanReceive : Z; capEPPtr : Z }.
Record notification_cap := mk_notification_cap {
  capNtfnBadge : Z; capNtfnCanReceive : Z; capNtfnCanSend : Z; capNtfnPtr : Z }.
(** [capReplyPtr] belongs to the MCS layout, [capReplyTCBPtr] (capTCBPtr in
    the layout file) and [capReplyMaster] to the other one. *)
Record reply_cap := mk_reply_cap {
  capReplyPtr : Z; capReplyTCBPtr : Z; capReplyMaster : Z; capReplyCanGrant : Z }.
Record cnode_cap := mk_cnode_cap {
  capCNodeRadix : Z; capCNodeGuardSize : Z; capCNodeGuard : Z; capCNodePtr : Z }.
Record zombie_cap := mk_zombie_cap { capZombieID : Z; capZombieType : Z }.
Record sched_context_cap := mk_sched_context_cap { capSCPtr : Z; capSCSizeBits : Z }.
Record frame_cap := mk_frame_cap {
  capFMappedASID : Z; capFBasePtr : Z; capFSize : Z; capFVMRights : Z;
  capFIsDevice : Z; capFMappedAddress : Z }.
Record page_table_cap := mk_page_table_cap {
  capPTMappedASID : Z; capPTBasePtr : Z; capPTIsMapped : Z; capPTMappedAddress : Z }.
Record vspace_cap := mk_vspace_cap {
  capVSMappedASID : Z; capVSBasePtr : Z; capVSIsMapped : Z }.
Record asid_pool_cap := mk_asid_pool_cap { capASIDBase : Z; capASIDPool : Z }.

#[export] Instance eta_untyped_cap : Settable untyped_cap :=
  fun r => mk_untyped_cap (capFreeIndex r) (capIsDevice r) (capBlockSize r) (capPtr r).
#[export] Instance eta_endpoint_cap : Settable endpoint_cap :=
  fun r => mk_endpoint_cap (capEPBadge r) (capCanGrantReply r) (capCanGrant r)
             (capCanSend r) (capCanReceive r) (capEPPtr r).
#[export] Instance eta_notification_cap : Settable notification_cap :=
  fun r => mk_notification_cap (capNtfnBadge r) (capNtfnCanReceive r)
             (capNtfnCanSend r) (capNtfnPtr r).
#[export] Instance eta_reply_cap : Settable reply_cap :=
  fun r => mk_reply_cap (capReplyPtr r) (capReplyTCBPtr r) (capReplyMaster r) (capReplyCanGrant r).
#[export] Instance eta_cnode_cap : Settable cnode_cap :=
  fun r => mk_cnode_cap (capCNodeRadix r) (capCNodeGuardSize r) (capCNodeGuard r) (capCNodePtr r).
#[export] Instance eta_zombie_cap : Settable zombie_cap :=
  fun r => mk_zombie_cap (capZombieID r) (capZombieType r).
#[export] Instance eta_frame_cap : Settable frame_cap :=
  fun r => mk_frame_cap (capFMappedASID r) (capFBasePtr r) (capFSize r) (capFVMRights r)
             (capFIsDevice r) (capFMappedAddress r).
#[export] Instance eta_page_table_cap : Settable page_table_cap :=
  fun r => mk_page_table_cap (capPTMappedASID r) (capPTBasePtr r) (capPTIsMapped r)
             (capPTMappedAddress r).
#[export] Instance eta_vspace_cap : Settable vspace_cap :=
  fun r => mk_vspace_cap (capVSMappedASID r) (capVSBasePtr r) (capVSIsMapped r).

Inductive cap : Type :=
| cap_null_cap
| cap_untyped_cap (u : untyped_cap)
| cap_endpoint_cap (e : endpoint_cap)
| cap_notification_cap (n : notification_cap)
| cap_reply_cap (r : reply_cap)
| cap_cnode_cap (c : cnode_cap)
| cap_thread_cap (capTCBPtr : Z)
| cap_irq_control_cap
| cap_irq_handler_cap (capIRQ : Z)
| cap_zombie_cap (z : zombie_cap)
| cap_domain_cap
| cap_sched_context_cap (sc : sched_context_cap)
| cap_sched_control_cap (core : Z)
| cap_frame_cap (f : frame_cap)
| cap_page_table_cap (pt : page_table_cap)
| cap_vspace_cap (vs : vspace_cap)
| cap_asid_control_cap
| cap_asid_pool_cap (ap : asid_pool_cap)
| cap_smc_cap (capSMCBadge : Z).

Definition get_tag (c : cap) : Z :=
  match c with
  | cap_null_cap => 0
  | cap_untyped_cap _ => 2
  | cap_endpoint_cap _ => 4
  | cap_notification_cap _ => 6
  | cap_reply_cap _ => 8
  | cap_cnode_cap _ => 10
  | cap_thread_cap _ => 12
  | cap_irq_control_cap => 14
  | cap_irq_handler_cap _ => 16
  | cap_zombie_cap _ => 18
  | cap_domain_cap => 20
  | cap_sched_context_cap _ => 22
  | cap_sched_control_cap _ => 24
  | cap_frame_cap _ => 1
  | cap_page_table_cap _ => 3
  | cap_vspace_cap _ => 9
  | cap_asid_control_cap => 11
  | cap_asid_pool_cap _ => 13
  | cap_smc_cap _ => 25
  end.

(** [cap.get_tag() == cap_tag::cap_null_cap]. *)
Definition is_null_cap (c : cap) : bool :=
  match c with cap_null_cap => true | _ => false end.

Lemma is_null_cap_true c : is_null_cap c = true <-> c = cap_null_cap.
Proof. by destruct c. Qed.

Lemma is_null_cap_false c : c <> cap_null_cap -> is_null_cap c = false.
Proof. by destruct c. Qed.

(** ** CSpace slots *)

Record mdb_node := mk_mdb_node {
  mdbNext : Z; mdbRevocable : Z; mdbFirstBadged : Z; mdbPrev : Z }.
#[export] Instance eta_mdb_node : Settable mdb_node :=
  fun r => mk_mdb_node (mdbNext r) (mdbRevocable r) (mdbFirstBadged r) (mdbPrev r).

Definition mdb_zero : mdb_node := mk_mdb_node 0 0 0 0.

Record cte_t := mk_cte { capability : cap; cteMDBNode : mdb_node }.
#[export] Instance eta_cte : Settable cte_t :=
  fun r => mk_cte (capability r) (cteMDBNode r).

(** [core::mem::size_of::<cte_t>()]. *)
Definition cte_size : Z := 32.

Definition bool_to_word (b : bool) : Z := if b then 1 else 0.

(** ** Exceptions, faults and lookup faults *)

Inductive exception_t : Type :=
| EXCEPTION_NONE
| EXCEPTION_FAULT
| EXCEPTION_LOOKUP_FAULT
| EXCEPTION_SYSCALL_ERROR
| EXCEPTION_PREEMTED.

#[export] Instance exception_eq_dec : EqDecision exception_t.
Proof. solve_decision. Defined.

Definition exc_ok (e : exception_t) : bool :=
  match e with EXCEPTION_NONE => true | _ => false end.

Inductive lookup_fault : Type :=
| invalid_root
| missing_capability (bitsLeft : Z)
| depth_mismatch (bitsFound bitsLeft : Z)
| guard_mismatch (guardFound bitsLeft bitsFound : Z).

Definition lookup_fault_tag (f : lookup_fault) : Z :=
  match f with
  | invalid_root => 0
  | missing_capability _ => 1
  | depth_mismatch _ _ => 2
  | guard_mismatch _ _ _ => 3
  end.

Inductive seL4_Fault : Type :=
| seL4_Fault_NullFault
| seL4_Fault_CapFault (address inReceivePhase : Z)
| seL4_Fault_UnknownSyscall (syscallNumber : Z)
| seL4_Fault_UserException (number code : Z)
| seL4_Fault_VMFault (address FSR instructionFault : Z)
| seL4_Fault_Timeout (badge : Z).

Definition seL4_Fault_tag `{Config} (f : seL4_Fault) : Z :=
  match f with
  | seL4_Fault_NullFault => 0
  | seL4_Fault_CapFault _ _ => 1
  | seL4_Fault_UnknownSyscall _ => 2
  | seL4_Fault_UserException _ _ => 3
  | seL4_Fault_Timeout _ => 5
  | seL4_Fault_VMFault _ _ _ => if kernel_mcs then 6 else 5
  end.

Definition is_null_fault (f : seL4_Fault) : bool :=
  match f with seL4_Fault_NullFault => true | _ => false end.

(** ** Threads *)

Inductive ThreadState : Type :=
| ThreadStateInactive
| ThreadStateRunning
| ThreadStateRestart
| ThreadStateBlockedOnReceive
| ThreadStateBlockedOnSend
| ThreadStateBlockedOnReply
| ThreadStateBlockedOnNotification
| ThreadStateIdleThreadState
| ThreadStateExited.
#[export] Instance ThreadState_eq_dec : EqDecision ThreadState.
Proof. solve_decision. Defined.

Record thread_state := mk_thread_state {
  tsType : ThreadState;
  blockingObject : Z;
  blockingIPCBadge : Z;
  blockingIPCCanGrant : Z;
  blockingIPCCanGrantReply : Z;
  blockingIPCIsCall : Z;
  tcbQueued : Z;
  tcbInReleaseQueue : Z;   (* MCS *)
  replyObject : Z          (* MCS *) }.
#[export] Instance eta_thread_state : Settable thread_state :=
  fun r => mk_thread_state (tsType r) (blockingObject r) (blockingIPCBadge r)
             (blockingIPCCanGrant r) (blockingIPCCanGrantReply r) (blockingIPCIsCall r)
             (tcbQueued r) (tcbInReleaseQueue r) (replyObject r).

(** [ArchTCB]: the saved user registers (the FPU state is not read by the
    code modelled here). *)
Record ArchTCB := mk_ArchTCB { registers : list Z }.

Record tcb_t := mk_tcb {
  tcbArch : ArchTCB;
  tcbState : thread_state;
  tcbBoundNotification : Z;
  tcbFault : seL4_Fault;
  tcbLookupFailure : lookup_fault;
  domain : Z;
  tcbMCP : Z;
  tcbPriority : Z;
  tcbSchedContext : Z;     (* MCS *)
  tcbYieldTo : Z;          (* MCS *)
  tcbTimeSlice : Z;
  TCB_FAULT_HANDLER : Z;
  tcbIPCBuffer : Z;
  tcbAffinity : Z;
  tcbSchedNext : Z;
  tcbSchedPrev : Z;
  tcbEPNext : Z;
  tcbEPPrev : Z }.
#[export] Instance eta_tcb : Settable tcb_t :=
  fun r => mk_tcb (tcbArch r) (tcbState r) (tcbBoundNotification r) (tcbFault r)
             (tcbLookupFailure r) (domain r) (tcbMCP r) (tcbPriority r) (tcbSchedContext r)
             (tcbYieldTo r) (tcbTimeSlice r) (TCB_FAULT_HANDLER r) (tcbIPCBuffer r)
             (tcbAffinity r) (tcbSchedNext r) (tcbSchedPrev r) (tcbEPNext r) (tcbEPPrev r).

Record tcb_queue_t := mk_tcb_queue { head : Z; tail : Z }.
#[export] Instance eta_tcb_queue : Settable tcb_queue_t :=
  fun r => mk_tcb_queue (head r) (tail r).

(** ** IPC objects *)

Inductive EPState : Type := EP_Idle | EP_Send | EP_Recv.
#[export] Instance EPState_eq_dec : EqDecision EPState.
Proof. solve_decision. Defined.
Inductive NtfnState : Type := Ntfn_Idle | Ntfn_Waiting | Ntfn_Active.
#[export] Instance NtfnState_eq_dec : EqDecision NtfnState.
Proof. solve_decision. Defined.

Record endpoint := mk_endpoint { epQueue_head : Z; epQueue_tail : Z; ep_state : EPState }.
#[export] Instance eta_endpoint : Settable endpoint :=
  fun r => mk_endpoint (epQueue_head r) (epQueue_tail r) (ep_state r).

Record notification := mk_notification {
  ntfnSchedContext : Z;    (* MCS *)
  ntfnBoundTCB : Z;
  ntfnMsgIdentifier : Z;
  ntfnQueue_head : Z;
  ntfnQueue_tail : Z;
  ntfn_state : NtfnState }.
#[export] Instance eta_notification : Settable notification :=
  fun r => mk_notification (ntfnSchedContext r) (ntfnBoundTCB r) (ntfnMsgIdentifier r)
             (ntfnQueue_head r) (ntfnQueue_tail r) (ntfn_state r).

Record call_stack := mk_call_stack { isHead : Z; callStackPtr : Z }.

Record reply := mk_reply { replyTCB : Z; replyPrev : call_stack; replyNext : call_stack }.
#[export] Instance eta_reply : Settable reply :=
  fun r => mk_reply (replyTCB r) (replyPrev r) (replyNext r).

(** [refill] and [sched_context] of sel4_task/src/sched_context.rs; the
    refill array that follows the structure in memory is [scRefills]. *)
Record refill := mk_refill { rTime : Z; rAmount : Z }.
#[export] Instance eta_refill : Settable refill := fun r => mk_refill (rTime r) (rAmount r).

Record sched_context := mk_sched_context {
  scPeriod : Z;
  scConsumed : Z;
  scCore : Z;
  scTcb : Z;
  scReply : Z;
  scNotification : Z;
  scBadge : Z;
  scYieldFrom : Z;
  scRefillMax : Z;
  scRefillHead : Z;
  scRefillTail : Z;
  scSporadic : bool;
  scRefills : list refill }.
#[export] Instance eta_sched_context : Settable sched_context :=
  fun r => mk_sched_context (scPeriod r) (scConsumed r) (scCore r) (scTcb r) (scReply r)
             (scNotification r) (scBadge r) (scYieldFrom r) (scRefillMax r) (scRefillHead r)
             (scRefillTail r) (scSporadic r) (scRefills r).

Record seL4_IPCBuffer := mk_ipc_buffer {
  ipc_tag : Z;
  msg : list Z;
  userData : Z;
  caps_or_badges : list Z;
  receiveCNode : Z;
  receiveIndex : Z;
  receiveDepth : Z }.
#[export] Instance eta_ipc_buffer : Settable seL4_IPCBuffer :=
  fun r => mk_ipc_buffer (ipc_tag r) (msg r) (userData r) (caps_or_badges r)
             (receiveCNode r) (receiveIndex r) (receiveDepth r).
