(* ===== verification/State.v ===== *)
(** * The kernel state and access to objects by pointer

    [kstate] holds the object heaps and the global variables.  A pointer
    dereference goes through [convert_to_mut_type_ref] in the source, which
    panics on a null pointer: [get_tcb] and its siblings do the same, and
    fail with [EUndef] on an address without an object of that type.  The
    linked-list crates only touch one heap; their operations run in the monad
    of that heap and are lifted with [on_tcbs], [on_ctes] and the like. *)

From S2P Require Import Prelude Monad Config Objects.

Record syscall_error_t := mk_syscall_error {
  invalidArgumentNumber : Z;
  invalidCapNumber : Z;
  rangeErrorMin : Z;
  rangeErrorMax : Z;
  memoryLeft : Z;
  failedLookupWasSource : Z;
  err_type : Z }.
#[export] Instance eta_syscall_error : Settable syscall_error_t :=
  fun r => mk_syscall_error (invalidArgumentNumber r) (invalidCapNumber r) (rangeErrorMin r)
             (rangeErrorMax r) (memoryLeft r) (failedLookupWasSource r) (err_type r).

(** Address-space state: the ASID table, the ASID pools it points to (an array
    of page-table roots on RISC-V, of [asid_map]s on AArch64), the page-table
    entries by address and the translation register ([satp] or [TTBR0]). *)
Inductive asid_map : Type :=
| asid_map_none
| asid_map_vspace (vspace_root : Z).

Record vspace_state := mk_vspace {
  asid_table : list Z;
  asid_pools : gmap Z (list Z);
  asid_map_pools : gmap Z (list asid_map);
  ptes : gmap Z Z;
  vm_root : Z }.
#[export] Instance eta_vspace : Settable vspace_state :=
  fun r => mk_vspace (asid_table r) (asid_pools r) (asid_map_pools r) (ptes r) (vm_root r).

(** Interrupts (kernel/src/interrupt/mod.rs): the state of every interrupt
    line, the CNode with the handler slots, the line being served, the lines
    enabled at the controller, and what the controller reports ([sip] on
    RISC-V, the acknowledge register of the GIC on AArch64). *)
Inductive IRQState : Type := IRQInactive | IRQSignal | IRQTimer | IRQReserved.
#[export] Instance IRQState_eq_dec : EqDecision IRQState.
Proof. solve_decision. Defined.

Record irq_state := mk_irq_state {
  int_state_irq_table : list IRQState;
  int_state_irq_node_ptr : Z;
  active_irq : Z;
  irq_enabled : gset Z;
  hw_sip : Z;
  hw_iar : Z }.
#[export] Instance eta_irq_state : Settable irq_state :=
  fun r => mk_irq_state (int_state_irq_table r) (int_state_irq_node_ptr r) (active_irq r)
             (irq_enabled r) (hw_sip r) (hw_iar r).

Record kstate := mk_kstate {
  tcbs : gmap Z tcb_t;
  ctes : gmap Z cte_t;
  eps : gmap Z endpoint;
  ntfns : gmap Z notification;
  scs : gmap Z sched_context;
  replies : gmap Z reply;
  ipc_buffers : gmap Z seL4_IPCBuffer;
  vspace : vspace_state;
  ksReadyQueues : list tcb_queue_t;
  ksReadyQueuesL1Bitmap : list Z;
  ksReadyQueuesL2Bitmap : list (list Z);
  ksCurThread : Z;
  ksIdleThread : Z;
  ksSchedulerAction : Z;
  ksReleaseQueue : tcb_queue_t;
  ksCurSC : Z;
  ksIdleSC : Z;
  ksConsumed : Z;
  ksCurTime : Z;
  ksReprogram : bool;
  ksDomainTime : Z;
  ksCurDomain : Z;
  ksDomScheduleIdx : Z;
  ksWorkUnitsCompleted : Z;
  current_fault : seL4_Fault;
  current_lookup_fault : lookup_fault;
  current_syscall_error : syscall_error_t;
  current_extra_caps : list Z;
  hw_time : Z;
  hw_deadline : Z;
  irqs : irq_state }.
#[export] Instance eta_kstate : Settable kstate :=
  fun r => mk_kstate (tcbs r) (ctes r) (eps r) (ntfns r) (scs r) (replies r) (ipc_buffers r)
             (vspace r) (ksReadyQueues r) (ksReadyQueuesL1Bitmap r) (ksReadyQueuesL2Bitmap r)
             (ksCurThread r) (ksIdleThread r) (ksSchedulerAction r) (ksReleaseQueue r)
             (ksCurSC r) (ksIdleSC r) (ksConsumed r) (ksCurTime r) (ksReprogram r)
             (ksDomainTime r) (ksCurDomain r) (ksDomScheduleIdx r) (ksWorkUnitsCompleted r)
             (current_fault r) (current_lookup_fault r) (current_syscall_error r)
             (current_extra_caps r) (hw_time r) (hw_deadline r) (irqs r).

Definition K (A : Type) : Type := M kstate A.

(** ** One heap *)

Section heap.
Context {A : Type}.
Implicit Types (h : gmap Z A) (p : Z) (f : A -> A).

(** [convert_to_mut_type_ref::<A>(p)], read. *)
Definition hget (p : Z) : M (gmap Z A) A := fun h =>
  if p =? 0 then Err EPanic
  else match h !! p with Some a => Ok (a, h) | None => Err EUndef end.

(** The same reference, written through. *)
Definition hmod (p : Z) (f : A -> A) : M (gmap Z A) unit := fun h =>
  if p =? 0 then Err EPanic
  else match h !! p with Some a => Ok (tt, <[p := f a]> h) | None => Err EUndef end.

Lemma hget_ok h p a : p <> 0 -> h !! p = Some a -> hget p h = Ok (a, h).
Proof. intros Hp E. unfold hget. rewrite E. by destruct (Z.eqb_spec p 0). Qed.

Lemma hmod_ok h p a f : p <> 0 -> h !! p = Some a -> hmod p f h = Ok (tt, <[p := f a]> h).
Proof. intros Hp E. unfold hmod. rewrite E. by destruct (Z.eqb_spec p 0). Qed.

Lemma wp_hget p a (Q : A -> gmap Z A -> Prop) h :
  p <> 0 -> h !! p = Some a -> Q a h -> wp (hget p) Q h.
Proof. intros. eapply wp_ok; [by apply hget_ok|done]. Qed.

Lemma wp_hmod p a f (Q : unit -> gmap Z A -> Prop) h :
  p <> 0 -> h !! p = Some a -> Q tt (<[p := f a]> h) -> wp (hmod p f) Q h.
Proof. intros. eapply wp_ok; [by apply hmod_ok|done]. Qed.

Lemma lookup_alter_case h p f i :
  alter f p h !! i = if decide (p = i) then f <$> h !! i else h !! i.
Proof. rewrite lookup_alter. case_decide; [|done]. by subst. Qed.

Lemma alter_id_None h p f : h !! p = None -> alter f p h = h.
Proof.
  intros E. apply map_eq. intros i. rewrite lookup_alter.
  case_decide; [|done]. subst. by rewrite E.
Qed.

Lemma insert_as_alter h p a f : h !! p = Some a -> <[p := f a]> h = alter f p h.
Proof.
  intros E. apply map_eq. intros i. rewrite lookup_insert, lookup_alter.
  case_decide; [|done]. subst. by rewrite E.
Qed.

Lemma alter_same h p a f : h !! p = Some a -> f a = a -> alter f p h = h.
Proof. intros E Hf. by rewrite <- (insert_as_alter h p a f E), Hf, insert_id. Qed.

Lemma alter_is_Some h p f i : is_Some (alter f p h !! i) <-> is_Some (h !! i).
Proof. rewrite lookup_alter. case_decide; [|done]. subst. by rewrite fmap_is_Some. Qed.

Lemma alter_is_Some_2 h p f i : is_Some (h !! i) -> is_Some (alter f p h !! i).
Proof. apply alter_is_Some. Qed.

Lemma alter_None_2 h p f i : h !! i = None -> alter f p h !! i = None.
Proof. intros E. rewrite lookup_alter. case_decide; [|done]. subst. by rewrite E. Qed.

Lemma insert_is_Some_2 h p a i : is_Some (h !! i) -> is_Some (<[p := a]> h !! i).
Proof. rewrite lookup_insert. case_decide; eauto. Qed.

Lemma insert_None_2 h p a i : p <> i -> h !! i = None -> <[p := a]> h !! i = None.
Proof. intros. by rewrite lookup_insert_ne. Qed.

(** A duplicate-free list of allocated addresses is no longer than the heap. *)
Lemma NoDup_length_dom h (l : list Z) :
  NoDup l -> (forall p, p ∈ l -> is_Some (h !! p)) -> (length l <= size h)%nat.
Proof.
  intros Hnd Hin. rewrite <- (size_list_to_set (C := gset Z) l Hnd), <- size_dom.
  apply subseteq_size. intros p Hp. apply elem_of_dom, Hin. by apply elem_of_list_to_set in Hp.
Qed.

Lemma lookup_nonzero h p a : h !! 0 = None -> h !! p = Some a -> p <> 0.
Proof. intros H0 Hp ->. congruence. Qed.

(** With no object at the null address, a write and a write guarded by a
    null test are both [alter]. *)
Lemma hmod_alter h p f : p <> 0 -> is_Some (h !! p) -> hmod p f h = Ok (tt, alter f p h).
Proof.
  intros Hp [a E]. rewrite (hmod_ok h p a f Hp E). by rewrite (insert_as_alter h p a f E).
Qed.

Lemma when_hmod_alter h p f :
  h !! 0 = None -> (p <> 0 -> is_Some (h !! p)) ->
  when (negb (p =? 0)) (hmod p f) h = Ok (tt, alter f p h).
Proof.
  intros H0 Hp. destruct (Z.eqb_spec p 0) as [->|]; cbn.
  - unfold ret. by rewrite alter_id_None.
  - apply hmod_alter; auto.
Qed.
End heap.

Create HintDb heap discriminated.
#[export] Hint Resolve alter_is_Some_2 alter_None_2 insert_is_Some_2 insert_None_2
  lookup_nonzero : heap.
#[export] Hint Extern 1 (is_Some _) => eexists; eassumption : heap.

(** [hstep] runs the next heap access of a goal [bind m k h = _]. *)
Ltac hstep :=
  erewrite bind_ok by
    first [ apply when_hmod_alter; eauto 8 with heap
          | apply hmod_alter; eauto 8 with heap
          | eapply hget_ok; eauto 8 with heap ];
  cbv beta.

(** Two heaps built from [h] by [alter]s agree everywhere. *)
Ltac heap_eq h :=
  apply map_eq; intros ?; rewrite !lookup_alter_case; repeat case_decide; subst;
  try done; try congruence;
  match goal with |- context [h !! ?c] => destruct (h !! c) as [[]|] eqn:? end;
  simplify_eq; try done; cbn in *; first [by subst | congruence].

(** ** Lifting an operation on a part of the state *)

Definition lift_part {S P A} (get : S -> P) (put : P -> S -> S) (m : M P A) : M S A :=
  fun s => match m (get s) with Ok (a, p) => Ok (a, put p s) | Err e => Err e end.

Definition on_tcbs {A} (m : M (gmap Z tcb_t) A) : K A :=
  lift_part tcbs (fun h s => s <| tcbs := h |>) m.
Definition on_ctes {A} (m : M (gmap Z cte_t) A) : K A :=
  lift_part ctes (fun h s => s <| ctes := h |>) m.
Definition on_eps {A} (m : M (gmap Z endpoint) A) : K A :=
  lift_part eps (fun h s => s <| eps := h |>) m.
Definition on_ntfns {A} (m : M (gmap Z notification) A) : K A :=
  lift_part ntfns (fun h s => s <| ntfns := h |>) m.
Definition on_scs {A} (m : M (gmap Z sched_context) A) : K A :=
  lift_part scs (fun h s => s <| scs := h |>) m.
Definition on_replies {A} (m : M (gmap Z reply) A) : K A :=
  lift_part replies (fun h s => s <| replies := h |>) m.
Definition on_buffers {A} (m : M (gmap Z seL4_IPCBuffer) A) : K A :=
  lift_part ipc_buffers (fun h s => s <| ipc_buffers := h |>) m.
Definition on_vspace {A} (m : M vspace_state A) : K A :=
  lift_part vspace (fun v s => s <| vspace := v |>) m.

Definition get_tcb (p : Z) : K tcb_t := on_tcbs (hget p).
Definition mod_tcb (p : Z) (f : tcb_t -> tcb_t) : K unit := on_tcbs (hmod p f).
Definition get_cte (p : Z) : K cte_t := on_ctes (hget p).
Definition mod_cte (p : Z) (f : cte_t -> cte_t) : K unit := on_ctes (hmod p f).
Definition get_ep (p : Z) : K endpoint := on_eps (hget p).
Definition mod_ep (p : Z) (f : endpoint -> endpoint) : K unit := on_eps (hmod p f).
Definition get_ntfn (p : Z) : K notification := on_ntfns (hget p).
Definition mod_ntfn (p : Z) (f : notification -> notification) : K unit := on_ntfns (hmod p f).
Definition get_sc (p : Z) : K sched_context := on_scs (hget p).
Definition mod_sc (p : Z) (f : sched_context -> sched_context) : K unit := on_scs (hmod p f).
Definition get_reply (p : Z) : K reply := on_replies (hget p).
Definition mod_reply (p : Z) (f : reply -> reply) : K unit := on_replies (hmod p f).
Definition get_buffer (p : Z) : K seL4_IPCBuffer := on_buffers (hget p).
Definition mod_buffer (p : Z) (f : seL4_IPCBuffer -> seL4_IPCBuffer) : K unit :=
  on_buffers (hmod p f).

Lemma wp_lift {S P A} (get : S -> P) put (m : M P A) (Q : A -> S -> Prop) s :
  wp m (fun a p => Q a (put p s)) (get s) -> wp (lift_part get put m) Q s.
Proof. unfold wp, lift_part. by destruct (m (get s)) as [[a p]|]. Qed.

Definition lift_res {S A} (r : res A) : M S A :=
  fun s => match r with Ok a => Ok (a, s) | Err e => Err e end.

Lemma lift_part_ok {S P A} (get : S -> P) put (m : M P A) s a p :
  m (get s) = Ok (a, p) -> lift_part get put m s = Ok (a, put p s).
Proof. unfold lift_part. by intros ->. Qed.

(** A read of a lifted heap. *)
Lemma lift_hget_ok {S A} (get : S -> gmap Z A) put (s : S) p a :
  put (get s) s = s -> p <> 0 -> get s !! p = Some a ->
  lift_part get put (hget p) s = Ok (a, s).
Proof. intros E Hp Ha. unfold lift_part. by rewrite (hget_ok _ _ _ Hp Ha), E. Qed.

Lemma lift_hget_inv {S A} (get : S -> gmap Z A) put (s : S) p a s' :
  put (get s) s = s -> lift_part get put (hget p) s = Ok (a, s') ->
  s' = s /\ p <> 0 /\ get s !! p = Some a.
Proof.
  intros E. unfold lift_part, hget. destruct (Z.eqb_spec p 0); [done|].
  destruct (get s !! p); [|done]. intros. by simplify_eq.
Qed.

Lemma lift_hmod_inv {S A} (get : S -> gmap Z A) put (s : S) p f u s' :
  lift_part get put (hmod p f) s = Ok (u, s') ->
  p <> 0 /\ exists a, get s !! p = Some a /\ s' = put (<[p := f a]> (get s)) s.
Proof.
  unfold lift_part, hmod. destruct (Z.eqb_spec p 0); [done|].
  destruct (get s !! p); [|done]. intros. simplify_eq. eauto.
Qed.

Lemma lift_res_inv {S A} (r : res A) (s : S) a s' :
  lift_res r s = Ok (a, s') -> r = Ok a /\ s' = s.
Proof. unfold lift_res. destruct r; [|done]. intros. by simplify_eq. Qed.

(** Invert the run [H : m s = Ok _] of a program that succeeded, up to the
    next case distinction.  Facts about reads stay in the context. *)
Ltac run1 H :=
  lazymatch type of H with
  | ret _ _ = Ok _ => apply ret_inv in H as [? ?]; subst
  | kassert _ _ = Ok _ =>
      let Hb := fresh "Hassert" in apply kassert_inv in H as [Hb ?]; subst
  | gets _ _ = Ok _ => unfold gets in H; injection H as ? ?; subst
  | modify _ _ = Ok _ => unfold modify in H; injection H as ? ?; subst
  | fail _ _ = Ok _ => discriminate H
  | lift_res _ _ = Ok _ =>
      let Hr := fresh "Hres" in apply lift_res_inv in H as [Hr ?]; subst
  | lift_part _ _ (hget _) ?s = Ok _ =>
      let Hp := fresh "Hptr" in let Hl := fresh "Hlk" in
      apply lift_hget_inv in H as (? & Hp & Hl); [subst|by destruct s]
  | lift_part _ _ (hmod _ _) _ = Ok _ =>
      let Hp := fresh "Hptr" in let Hl := fresh "Hlk" in
      apply lift_hmod_inv in H as (Hp & ? & Hl & ?); subst
  | _ => idtac
  end.
Ltac runs H :=
  lazymatch type of H with
  | bind _ _ _ = Ok _ =>
      let a := fresh "a" in let s1 := fresh "s" in let E := fresh "Hrun" in
      apply bind_inv in H as (a & s1 & E & H); run1 E; runs H
  | _ => run1 H
  end.

(** Writing back an unchanged part is the identity. *)
Lemma kstate_tcbs_id s : s <| tcbs := tcbs s |> = s.
Proof. by destruct s. Qed.
Lemma kstate_ctes_id s : s <| ctes := ctes s |> = s.
Proof. by destruct s. Qed.
Lemma kstate_eps_id s : s <| eps := eps s |> = s.
Proof. by destruct s. Qed.
Lemma kstate_ntfns_id s : s <| ntfns := ntfns s |> = s.
Proof. by destruct s. Qed.
Lemma kstate_scs_id s : s <| scs := scs s |> = s.
Proof. by destruct s. Qed.
Lemma kstate_replies_id s : s <| replies := replies s |> = s.
Proof. by destruct s. Qed.

Lemma get_tcb_ok s p t : p <> 0 -> tcbs s !! p = Some t -> get_tcb p s = Ok (t, s).
Proof. intros. apply lift_hget_ok; [by destruct s|done|done]. Qed.

Lemma mod_tcb_ok s p f : p <> 0 -> is_Some (tcbs s !! p) ->
  mod_tcb p f s = Ok (tt, s <| tcbs := alter f p (tcbs s) |>).
Proof.
  intros. unfold mod_tcb, on_tcbs.
  by rewrite (lift_part_ok _ _ _ s tt (alter f p (tcbs s))) by by apply hmod_alter.
Qed.

Lemma on_tcbs_ok {A} (m : M (gmap Z tcb_t) A) s a h :
  m (tcbs s) = Ok (a, h) -> on_tcbs m s = Ok (a, s <| tcbs := h |>).
Proof. intros E. unfold on_tcbs. by rewrite (lift_part_ok _ _ _ s a h) by done. Qed.

Section access.
Implicit Types (s : kstate) (p : Z).

Lemma wp_get_tcb p t (Q : tcb_t -> kstate -> Prop) s :
  p <> 0 -> tcbs s !! p = Some t -> Q t s -> wp (get_tcb p) Q s.
Proof.
  intros Hp E HQ. apply wp_lift, (wp_hget p t); [done..|]. by rewrite kstate_tcbs_id.
Qed.

Lemma wp_mod_tcb p t f (Q : unit -> kstate -> Prop) s :
  p <> 0 -> tcbs s !! p = Some t -> Q tt (s <| tcbs := <[p := f t]> (tcbs s) |>) ->
  wp (mod_tcb p f) Q s.
Proof. intros Hp E HQ. by apply wp_lift, (wp_hmod p t). Qed.

Lemma wp_get_cte p c (Q : cte_t -> kstate -> Prop) s :
  p <> 0 -> ctes s !! p = Some c -> Q c s -> wp (get_cte p) Q s.
Proof.
  intros Hp E HQ. apply wp_lift, (wp_hget p c); [done..|]. by rewrite kstate_ctes_id.
Qed.

Lemma wp_mod_cte p c f (Q : unit -> kstate -> Prop) s :
  p <> 0 -> ctes s !! p = Some c -> Q tt (s <| ctes := <[p := f c]> (ctes s) |>) ->
  wp (mod_cte p f) Q s.
Proof. intros Hp E HQ. by apply wp_lift, (wp_hmod p c). Qed.

Lemma wp_get_ep p e (Q : endpoint -> kstate -> Prop) s :
  p <> 0 -> eps s !! p = Some e -> Q e s -> wp (get_ep p) Q s.
Proof.
  intros Hp E HQ. apply wp_lift, (wp_hget p e); [done..|]. by rewrite kstate_eps_id.
Qed.

Lemma wp_mod_ep p e f (Q : unit -> kstate -> Prop) s :
  p <> 0 -> eps s !! p = Some e -> Q tt (s <| eps := <[p := f e]> (eps s) |>) ->
  wp (mod_ep p f) Q s.
Proof. intros Hp E HQ. by apply wp_lift, (wp_hmod p e). Qed.

Lemma wp_get_ntfn p n (Q : notification -> kstate -> Prop) s :
  p <> 0 -> ntfns s !! p = Some n -> Q n s -> wp (get_ntfn p) Q s.
Proof.
  intros Hp E HQ. apply wp_lift, (wp_hget p n); [done..|]. by rewrite kstate_ntfns_id.
Qed.

Lemma wp_mod_ntfn p n f (Q : unit -> kstate -> Prop) s :
  p <> 0 -> ntfns s !! p = Some n -> Q tt (s <| ntfns := <[p := f n]> (ntfns s) |>) ->
  wp (mod_ntfn p f) Q s.
Proof. intros Hp E HQ. by apply wp_lift, (wp_hmod p n). Qed.
End access.

(** ** Arrays: an index out of range panics. *)

Definition array_get {A} (l : list A) (i : Z) : res A :=
  if i <? 0 then Err EPanic
  else match l !! Z.to_nat i with Some a => Ok a | None => Err EPanic end.

Definition array_set {A} (l : list A) (i : Z) (a : A) : res (list A) :=
  if i <? 0 then Err EPanic
  else match l !! Z.to_nat i with
       | Some _ => Ok (<[Z.to_nat i := a]> l)
       | None => Err EPanic
       end.

Lemma array_get_ok {A} (l : list A) i a :
  0 <= i -> l !! Z.to_nat i = Some a -> array_get l i = Ok a.
Proof. intros. unfold array_get. destruct (Z.ltb_spec i 0); [lia|]. by case_match; simplify_eq. Qed.

Lemma array_set_ok {A} (l : list A) i a :
  0 <= i < Z.of_nat (length l) -> array_set l i a = Ok (<[Z.to_nat i := a]> l).
Proof.
  intros. unfold array_set. destruct (Z.ltb_spec i 0); [lia|].
  destruct (lookup_lt_is_Some_2 l (Z.to_nat i)) as [x ->]; [lia|done].
Qed.

Lemma wp_lift_res {S A} (r : res A) a (Q : A -> S -> Prop) s :
  r = Ok a -> Q a s -> wp (lift_res r) Q s.
Proof. by intros ->. Qed.
