(* ===== verification/Bitfield.v ===== *)
(** * Bit fields (sel4_common/src/sel4_bitfield_types.rs)

    The kernel's packed structures (capabilities, thread states, message
    information words, ...) are arrays of 64-bit words whose fields are read
    and written by bit range.  [get_bits] and [set_bits] are the two routines
    the accessors of these structures call. *)

From S2P Require Import Prelude Monad State.

(** ** The routines *)

(** The kernel instantiates the primitive [T] and the result [U] with [u64]. *)
Definition NUM_BITS : Z := 64.

Definition mask (start end_ : Z) : Z :=
  let num_bits := end_ - start in
  if num_bits =? 0 then 0
  else if num_bits =? NUM_BITS then wnot 0
  else wnot (wnot 0 <<w num_bits) <<w start.

Definition take (self num_bits : Z) : Z := Z.land self (mask 0 num_bits).

(** Operations on a [Bitfield], the array being the state. *)
Definition B (A : Type) : Type := M (list Z) A.

Definition arr_get (i : Z) : B Z := let* a := gets id in lift_res (array_get a i).
Definition arr_set (i v : Z) : B unit :=
  let* a := gets id in
  let* a' := lift_res (array_set a i v) in
  modify (fun _ => a').

Definition check_range (start end_ : Z) : B unit :=
  let* a := gets id in
  kassert (start <=? end_) ;;;
  kassert (end_ <=? Z.of_nat (length a) * NUM_BITS) ;;;
  kassert (end_ - start <=? NUM_BITS).

(** The remaining words of a range; the fuel is the number of words. *)
Fixpoint get_bits_loop (fuel : nat) (num_bits bits so_far index : Z) : B Z :=
  match fuel with
  | O => fail EFuel
  | S fuel =>
      if so_far <? num_bits then
        let n := Z.min (num_bits - so_far) NUM_BITS in
        let* w := arr_get index in
        get_bits_loop fuel num_bits (Z.lor bits (take w n <<w so_far)) (so_far + n) (index + 1)
      else ret bits
  end.

Definition get_bits (start end_ : Z) : B Z :=
  check_range start end_ ;;;
  let* a := gets id in
  let num_bits := end_ - start in
  let index_of_first_primitive := start / NUM_BITS in
  let offset_into_first_primitive := start mod NUM_BITS in
  let num_bits_from_first_primitive := Z.min (NUM_BITS - offset_into_first_primitive) num_bits in
  let* w := arr_get index_of_first_primitive in
  get_bits_loop (S (length a)) num_bits
    (take (w >>w offset_into_first_primitive) num_bits_from_first_primitive)
    num_bits_from_first_primitive (index_of_first_primitive + 1).

Fixpoint set_bits_loop (fuel : nat) (num_bits bits so_far index : Z) : B unit :=
  match fuel with
  | O => fail EFuel
  | S fuel =>
      if so_far <? num_bits then
        let n := Z.min (num_bits - so_far) NUM_BITS in
        let* w := arr_get index in
        arr_set index (Z.lor (Z.land w (mask n NUM_BITS)) (take (bits >>w so_far) n)) ;;;
        set_bits_loop fuel num_bits bits (so_far + n) (index + 1)
      else ret tt
  end.

Definition set_bits (start end_ bits : Z) : B unit :=
  check_range start end_ ;;;
  let* a := gets id in
  let num_bits := end_ - start in
  let index_of_first_primitive := start / NUM_BITS in
  let offset := start mod NUM_BITS in
  let num_bits_for_first_primitive := Z.min (NUM_BITS - offset) num_bits in
  let* w := arr_get index_of_first_primitive in
  arr_set index_of_first_primitive
    (Z.lor (Z.land w (wnot (mask offset (offset + num_bits_for_first_primitive))))
           (take bits num_bits_for_first_primitive <<w offset)) ;;;
  set_bits_loop (S (length a)) num_bits bits num_bits_for_first_primitive
    (index_of_first_primitive + 1).

(** ** Bits of words *)

Lemma wshl_testbit x n k : 0 <= n < 64 -> 0 <= k ->
  Z.testbit (x <<w n) k = (k <? 64) && Z.testbit x (k - n).
Proof.
  intros Hn Hk. unfold wshl, wrap, word_size. rewrite (Z.mod_small n) by lia.
  rewrite <- Z.land_ones, Z.land_spec, Z.shiftl_spec, Z.testbit_ones_nonneg by lia. apply andb_comm.
Qed.

Lemma wshr_testbit x n k : 0 <= n < 64 -> 0 <= k -> Z.testbit (x >>w n) k = Z.testbit x (k + n).
Proof. intros Hn Hk. unfold wshr. rewrite (Z.mod_small n) by lia. by apply Z.shiftr_spec. Qed.

Lemma wnot_testbit x k : 0 <= k -> Z.testbit (wnot x) k = xorb (Z.testbit x k) (k <? 64).
Proof.
  intros Hk. unfold wnot. change UINT64_MAX with (Z.ones 64).
  by rewrite Z.lxor_spec, Z.testbit_ones_nonneg by lia.
Qed.

Lemma wnot_0_testbit k : Z.testbit (wnot 0) k = (0 <=? k) && (k <? 64).
Proof.
  destruct (Z.leb_spec 0 k); [|by rewrite Z.testbit_neg_r by lia].
  rewrite wnot_testbit, Z.bits_0 by done. by destruct (k <? 64).
Qed.

Lemma mask_testbit s e k : 0 <= s <= e -> e <= 64 -> 0 <= k ->
  Z.testbit (mask s e) k = (s <=? k) && (k <? e).
Proof.
  intros Hs He Hk. unfold mask, NUM_BITS. zcase; [|zcase].
  - rewrite Z.bits_0. repeat zcase; lia || done.
  - rewrite wnot_0_testbit. repeat zcase; lia || done.
  - rewrite wshl_testbit by lia. destruct (Z.leb_spec s k).
    + rewrite wnot_testbit, wshl_testbit, wnot_0_testbit by lia. repeat zcase; lia || done.
    + rewrite (Z.testbit_neg_r _ (k - s)) by lia. apply andb_false_r.
Qed.

Lemma mask_word s e : 0 <= s <= e -> e <= 64 -> is_word (mask s e).
Proof.
  intros Hs He. unfold mask, NUM_BITS. repeat zcase; [done|done|]. apply wrap_range.
Qed.

Lemma take_testbit x n k : 0 <= n <= 64 -> 0 <= k ->
  Z.testbit (take x n) k = Z.testbit x k && (k <? n).
Proof.
  intros Hn Hk. unfold take. rewrite Z.land_spec, mask_testbit by lia. f_equal. by destruct (Z.leb_spec 0 k); [|lia].
Qed.

Lemma take_word x n : 0 <= n <= 64 -> is_word (take x n).
Proof. intros Hn. unfold take. rewrite Z.land_comm. apply land_word_l, mask_word; lia. Qed.

(** ** The array as a sequence of bits *)

Definition bit_at (a : list Z) (k : Z) : bool :=
  match a !! Z.to_nat (k / 64) with Some w => Z.testbit w (k mod 64) | None => false end.

Definition in_range (start end_ k : Z) : bool := (start <=? k) && (k <? end_).

Lemma bit_at_word a i w k : 0 <= i -> a !! Z.to_nat i = Some w -> 0 <= k < 64 ->
  bit_at a (64 * i + k) = Z.testbit w k.
Proof.
  intros Hi Hw Hk. unfold bit_at. rewrite Z.mul_comm, Z.div_add_l, Z.div_small, Z.add_0_r by lia.
  rewrite Z.add_comm, Z.mod_add, Z.mod_small by lia. by rewrite Hw.
Qed.

Lemma arr_get_run a i w : 0 <= i -> a !! Z.to_nat i = Some w -> arr_get i a = Ok (w, a).
Proof. intros. unfold arr_get, bind, gets, id, lift_res. by rewrite (array_get_ok _ _ w). Qed.

Lemma arr_set_run a i v : 0 <= i < Z.of_nat (length a) -> arr_set i v a = Ok (tt, <[Z.to_nat i := v]> a).
Proof. intros. unfold arr_set, bind, gets, id, lift_res, modify. by rewrite array_set_ok. Qed.

Lemma check_range_run a start end_ : 0 <= start <= end_ -> end_ <= 64 * Z.of_nat (length a) ->
  end_ - start <= 64 -> check_range start end_ a = Ok (tt, a).
Proof.
  intros. unfold check_range, bind, gets, id, kassert, NUM_BITS.
  rewrite !(proj2 (Z.leb_le _ _)) by lia. done.
Qed.

Lemma bit_at_insert a i v k : 0 <= i < Z.of_nat (length a) -> 0 <= k ->
  bit_at (<[Z.to_nat i := v]> a) k = if k / 64 =? i then Z.testbit v (k mod 64) else bit_at a k.
Proof.
  intros Hi Hk. unfold bit_at. pose proof (Z.div_pos k 64 Hk). destruct (Z.eqb_spec (k / 64) i) as [->|].
  - rewrite list_lookup_insert_eq by lia. done.
  - rewrite list_lookup_insert_ne by lia. done.
Qed.

(** The two words that [set_bits] writes. *)
Lemma set_first_testbit w bits off n1 j : 0 <= off -> 0 <= n1 -> off + n1 <= 64 -> off < 64 -> 0 <= j < 64 ->
  Z.testbit (Z.lor (Z.land w (wnot (mask off (off + n1)))) (take bits n1 <<w off)) j =
  if in_range off (off + n1) j then Z.testbit bits (j - off) else Z.testbit w j.
Proof.
  intros. rewrite Z.lor_spec, Z.land_spec, wnot_testbit, mask_testbit, wshl_testbit by lia.
  change ((off <=? j) && (j <? off + n1)) with (in_range off (off + n1) j).
  rewrite (proj2 (Z.ltb_lt j 64)) by lia. unfold in_range.
  destruct (Z.leb_spec off j); [|rewrite (Z.testbit_neg_r _ (j - off)) by lia; cbn; by rewrite andb_true_r, orb_false_r].
  rewrite take_testbit by lia.
  repeat zcase; try lia; cbn; by rewrite ?andb_false_r, ?andb_true_r, ?orb_false_r.
Qed.

Lemma set_next_testbit w bits n1 n2 j : 0 <= n1 < 64 -> 0 <= n2 <= 64 -> 0 <= j < 64 ->
  Z.testbit (Z.lor (Z.land w (mask n2 64)) (take (bits >>w n1) n2)) j =
  if j <? n2 then Z.testbit bits (j + n1) else Z.testbit w j.
Proof.
  intros. rewrite Z.lor_spec, Z.land_spec, mask_testbit, take_testbit, wshr_testbit by lia.
  repeat zcase; try lia; cbn; by rewrite ?andb_false_r, ?andb_true_r, ?orb_false_r.
Qed.

Section ranges.
Context (a : list Z) (start end_ i off n n1 : Z).
Hypothesis Hlo : 0 <= start < end_.
Hypothesis Hhi : end_ <= 64 * Z.of_nat (length a).
Hypothesis Hlen : end_ - start <= 64.
Hypothesis Ei : start / NUM_BITS = i.
Hypothesis Eo : start mod NUM_BITS = off.
Hypothesis En : end_ - start = n.
Hypothesis En1 : Z.min (NUM_BITS - off) n = n1.

Lemma range_start : start = 64 * i + off /\ 0 <= off < 64 /\ 0 <= i < Z.of_nat (length a).
Proof.
  pose proof (Z.div_mod start 64). pose proof (Z.mod_pos_bound start 64).
  rewrite <- Ei, <- Eo. unfold NUM_BITS. split; [lia|]. split; [lia|].
  split; [apply Z.div_pos; lia|]. apply Z.div_lt_upper_bound; lia.
Qed.

Lemma range_word : exists w, a !! Z.to_nat i = Some w.
Proof. destruct range_start as (_ & _ & Hi). apply lookup_lt_is_Some_2. lia. Qed.

(** A range that leaves the first word ends in the second one. *)
Lemma range_next : n1 < n -> n1 = 64 - off /\ n - n1 <= off /\ exists w, a !! Z.to_nat (i + 1) = Some w.
Proof.
  destruct range_start as (Hs & Ho & Hi). unfold NUM_BITS in *. intros Hn. split; [lia|]. split; [lia|].
  apply lookup_lt_is_Some_2. lia.
Qed.

Lemma get_bits_spec : exists v, get_bits start end_ a = Ok (v, a) /\
  forall k, 0 <= k -> Z.testbit v k = (k <? n) && bit_at a (start + k).
Proof.
  destruct range_start as (Hs & Ho & Hi). destruct range_word as [w Hw].
  unfold get_bits. erewrite bind_ok by (apply check_range_run; lia). erewrite bind_ok by reflexivity.
  change (id a) with a. rewrite Ei, Eo, En. cbv zeta. rewrite En1. unfold NUM_BITS in En1. erewrite bind_ok by (apply arr_get_run; [lia|exact Hw]).
  assert (Hn1 : 0 <= n1 <= 64) by lia. cbn [get_bits_loop].
  assert (Hfirst : forall k, 0 <= k < n1 -> Z.testbit w (k + off) = bit_at a (start + k)).
  { intros k Hk. rewrite Hs, <- Z.add_assoc, (bit_at_word a i w) by (try done; lia). f_equal. lia. }
  destruct (Z.ltb_spec n1 n) as [Hlt|Hge].
  - destruct (range_next Hlt) as (E1 & E2 & w2 & Hw2). assert (Hfuel : (2 <= length a)%nat).
    { apply lookup_lt_Some in Hw2. lia. }
    destruct (length a) as [|[|fuel]]; [lia..|]. erewrite bind_ok by (apply arr_get_run; [lia|exact Hw2]).
    cbn [get_bits_loop]. unfold NUM_BITS. rewrite Z.min_l by lia.
    rewrite (proj2 (Z.ltb_ge _ _)) by lia. eexists. split; [reflexivity|]. intros k Hk.
    rewrite Z.lor_spec, take_testbit, wshl_testbit by lia.
    destruct (Z.ltb_spec k n1) as [Hk1|Hk1].
    + rewrite wshr_testbit, (Z.testbit_neg_r _ (k - n1)), andb_false_r, orb_false_r, Hfirst by lia.
      rewrite andb_true_r. by rewrite (proj2 (Z.ltb_lt _ _)) by lia.
    + rewrite andb_false_r, take_testbit by lia. cbn [orb].
      assert (Hb : bit_at a (start + k) = bit_at a (64 * (i + 1) + (k - n1))) by (f_equal; lia).
      destruct (Z.ltb_spec k n); [|by rewrite (proj2 (Z.ltb_ge (k - n1) _)), !andb_false_r by lia].
      rewrite Hb, (bit_at_word a (i + 1) w2) by (try done; lia).
      rewrite !(proj2 (Z.ltb_lt _ _)) by lia. apply andb_true_r.
  - eexists. split; [reflexivity|]. intros k Hk. rewrite take_testbit, wshr_testbit by lia.
    assert (n1 = n) as -> by lia. rewrite andb_comm.
    destruct (Z.ltb_spec k n); [|done]. cbn. apply Hfirst; lia.
Qed.

Lemma set_bits_spec bits : exists a', set_bits start end_ bits a = Ok (tt, a') /\ length a' = length a /\
  forall k, 0 <= k -> bit_at a' k = if in_range start end_ k then Z.testbit bits (k - start) else bit_at a k.
Proof.
  destruct range_start as (Hs & Ho & Hi). destruct range_word as [w Hw].
  unfold set_bits. erewrite bind_ok by (apply check_range_run; lia). erewrite bind_ok by reflexivity.
  change (id a) with a. rewrite Ei, Eo, En. cbv zeta. rewrite En1. unfold NUM_BITS in En1.
  erewrite bind_ok by (apply arr_get_run; [lia|exact Hw]).
  erewrite bind_ok by (apply arr_set_run; lia).
  assert (Hn1 : 0 <= n1 <= 64) by lia. cbn [set_bits_loop].
  destruct (Z.ltb_spec n1 n) as [Hlt|Hge].
  - destruct (range_next Hlt) as (E1 & E2 & w2 & Hw2). assert (Hfuel : (2 <= length a)%nat).
    { apply lookup_lt_Some in Hw2. lia. }
    destruct (length a) as [|[|fuel]] eqn:El; [lia..|].
    erewrite bind_ok by (apply arr_get_run; [lia|rewrite list_lookup_insert_ne; [exact Hw2|lia]]).
    erewrite bind_ok by (apply arr_set_run; rewrite length_insert; apply lookup_lt_Some in Hw2; lia).
    cbn [set_bits_loop]. unfold NUM_BITS. rewrite Z.min_l by lia.
    rewrite (proj2 (Z.ltb_ge _ _)) by lia. eexists. split; [reflexivity|]. split; [by rewrite !length_insert|].
    intros k Hk. pose proof (Z.div_mod k 64). pose proof (Z.mod_pos_bound k 64).
    rewrite bit_at_insert by (rewrite ?length_insert; apply lookup_lt_Some in Hw2; lia).
    destruct (Z.eqb_spec (k / 64) (i + 1)) as [Ek|Ek]; [|rewrite bit_at_insert by lia; destruct (Z.eqb_spec (k / 64) i) as [Ek'|Ek']].
    + rewrite set_next_testbit by lia. unfold in_range. repeat zcase; try lia; cbn.
      * f_equal. lia.
      * symmetry. unfold bit_at. by rewrite Ek, Hw2.
    + rewrite set_first_testbit by lia. unfold in_range. repeat zcase; try lia; cbn.
      * f_equal. lia.
      * symmetry. unfold bit_at. by rewrite Ek', Hw.
    + unfold in_range. repeat zcase; try lia; done.
  - eexists. split; [reflexivity|]. split; [by rewrite length_insert|].
    intros k Hk. pose proof (Z.div_mod k 64). pose proof (Z.mod_pos_bound k 64). rewrite bit_at_insert by lia.
    destruct (Z.eqb_spec (k / 64) i) as [Ek|Ek].
    + rewrite set_first_testbit by lia. unfold in_range. repeat zcase; try lia; cbn; try (f_equal; lia);
        symmetry; unfold bit_at; by rewrite Ek, Hw.
    + unfold in_range. repeat zcase; try lia; done.
Qed.
End ranges.

(** C38. Reading a field back gives what was written, truncated to the width of
    the field, and writing a field changes no other one: for every valid range,
    also one that straddles two words, [set_bits] succeeds, [get_bits] of the
    same range returns the value modulo 2 to the width, and [get_bits] of every
    disjoint range returns what it returned before. *)
Theorem bitfield_roundtrip a start end_ bits :
  0 <= start < end_ -> end_ <= 64 * Z.of_nat (length a) -> end_ - start <= 64 ->
  exists a', set_bits start end_ bits a = Ok (tt, a') /\ length a' = length a /\
    get_bits start end_ a' = Ok (bits mod 2 ^ (end_ - start), a') /\
    forall s e v, 0 <= s < e -> e <= 64 * Z.of_nat (length a) -> e - s <= 64 ->
      e <= start \/ end_ <= s ->
      get_bits s e a = Ok (v, a) -> get_bits s e a' = Ok (v, a').
Proof.
  intros Hlo Hhi Hlen.
  destruct (set_bits_spec a start end_ _ _ _ _ Hlo Hhi Hlen eq_refl eq_refl eq_refl eq_refl bits)
    as (a' & Hset & Hl & Hbits).
  exists a'. split; [done|]. split; [done|]. split.
  - rewrite <- Hl in Hhi.
    destruct (get_bits_spec a' start end_ _ _ _ _ Hlo Hhi Hlen eq_refl eq_refl eq_refl eq_refl) as (v & -> & Hv).
    do 2 f_equal. apply Z.bits_inj'. intros k Hk. rewrite Hv, <- Z.land_ones, Z.land_spec by lia.
    rewrite Z.testbit_ones_nonneg by lia. rewrite Hbits by lia. unfold in_range.
    repeat zcase; try lia; cbn; rewrite ?andb_false_r, ?andb_true_r; try done. f_equal. lia.
  - intros s e v Hlo' Hhi' Hlen' Hdisj Hget.
    destruct (get_bits_spec a s e _ _ _ _ Hlo' Hhi' Hlen' eq_refl eq_refl eq_refl eq_refl) as (u & Hu & Hub).
    rewrite <- Hl in Hhi'.
    destruct (get_bits_spec a' s e _ _ _ _ Hlo' Hhi' Hlen' eq_refl eq_refl eq_refl eq_refl) as (u' & -> & Hub').
    rewrite Hu in Hget. injection Hget as ->. do 2 f_equal. apply Z.bits_inj'. intros k Hk.
    rewrite Hub', Hub, Hbits by lia. unfold in_range. repeat zcase; try lia; done.
Qed.

(** A field of twelve bits over the boundary of two words. *)
Lemma bitfield_roundtrip_witness : exists a', set_bits 60 72 0xABC [0; 0xFFFF] = Ok (tt, a') /\
  get_bits 60 72 a' = Ok (0xABC mod 2 ^ (72 - 60), a').
Proof.
  destruct (bitfield_roundtrip [0; 0xFFFF] 60 72 0xABC) as (a' & H1 & _ & H2 & _);
    [lia|cbn; lia|lia|].
  exists a'. split; [exact H1|exact H2].
Defined.
