(* ===== verification/CapOps.v ===== *)
(** * Capability operations

    sel4_cspace/src/capability (the [cap_func] trait, [same_region_as],
    [same_object_as], [is_cap_revocable], zombies), sel4_cspace/src/arch
    (per-architecture parts) and the rights masking of
    kernel/src/syscall/utils.rs.  A function that can panic returns [res]. *)

From S2P Require Import Prelude Monad Config Objects State.

(** ** Page sizes (sel4_common/src/utils/mod.rs) *)

Definition pageBitsForSize (page_size : Z) : res Z :=
  if page_size =? 0 then Ok SEL4_PAGE_BITS
  else if page_size =? 1 then Ok SEL4_LARGE_PAGE_BITS
  else if page_size =? 2 then Ok SEL4_HUGE_PAGE_BITS
  else Err EPanic.

Definition max_free_index (bits : Z) : Z := bit (bits -w SEL4_MIN_UNTYPED_BITS).

(** ** Zombies (capability/zombie.rs) *)

Module Zombie.
Definition ZOMBIE_TYPE_ZOMBIE_TCB : Z := 1 <<w WORD_RADIX.
Definition TCB_CNODE_RADIX : Z := 4.

Definition zombie_type_zombie_cnode (n : Z) : Z := Z.land n (mask_bits WORD_RADIX).

Definition get_zombie_bit (z : zombie_cap) : Z :=
  let _type := capZombieType z in
  if _type =? ZOMBIE_TYPE_ZOMBIE_TCB then TCB_CNODE_RADIX
  else zombie_type_zombie_cnode _type.

Definition get_zombie_ptr (z : zombie_cap) : Z :=
  let radix := get_zombie_bit z in
  Z.land (capZombieID z) (wnot (mask_bits (radix +w 1))).

Definition get_zombie_number (z : zombie_cap) : Z :=
  let radix := get_zombie_bit z in
  Z.land (capZombieID z) (mask_bits (radix +w 1)).

Definition set_zombie_number (z : zombie_cap) (n : Z) : zombie_cap :=
  let radix := get_zombie_bit z in
  let ptr := Z.land (capZombieID z) (wnot (mask_bits (radix +w 1))) in
  z <| capZombieID := Z.lor ptr (Z.land n (mask_bits (radix +w 1))) |>.

Definition zombie_new (number _type ptr : Z) : zombie_cap :=
  let mask := if _type =? ZOMBIE_TYPE_ZOMBIE_TCB then mask_bits (TCB_CNODE_RADIX +w 1)
              else mask_bits (_type +w 1) in
  mk_zombie_cap (Z.lor (Z.land ptr (wnot mask)) (Z.land number mask)) _type.

Definition cap_cyclic_zombie (c : cap) (slot : Z) : bool :=
  match c with
  | cap_zombie_cap z => get_zombie_ptr z =? slot
  | _ => false
  end.
End Zombie.
Export Zombie.

(** ** Capability data and sizes (capability/mod.rs) *)

Module CNodeCapData.
Definition get_guard (w : Z) : Z := Z.land w 0xffffffffffffffc0 >>w 6.
Definition get_guard_size (w : Z) : Z := Z.land w 0x3f.
End CNodeCapData.

Section ops.
Context `{Config}.

Definition is_arch_cap (c : cap) : bool := negb (get_tag c mod 2 =? 0).

(** arch_updatedata, both architectures. *)
Definition arch_updatedata (c : cap) (preserve : bool) (new_data : Z) : cap :=
  match target_arch, c with
  | AARCH64, cap_smc_cap badge =>
      if enable_smc then
        if negb preserve && (badge =? 0) then cap_smc_cap new_data else cap_null_cap
      else c
  | _, _ => c
  end.

Definition update_data (c : cap) (preserve : bool) (new_data : Z) : cap :=
  if is_arch_cap c then arch_updatedata c preserve new_data else
  match c with
  | cap_endpoint_cap e =>
      if negb preserve && (capEPBadge e =? 0)
      then cap_endpoint_cap (e <| capEPBadge := new_data |>)
      else cap_null_cap
  | cap_notification_cap n =>
      if negb preserve && (capNtfnBadge n =? 0)
      then cap_notification_cap (n <| capNtfnBadge := new_data |>)
      else cap_null_cap
  | cap_cnode_cap cn =>
      let guard_size := CNodeCapData.get_guard_size new_data in
      if guard_size +w capCNodeRadix cn >? WORD_BITS then cap_null_cap
      else
        let guard := Z.land (CNodeCapData.get_guard new_data) (mask_bits guard_size) in
        cap_cnode_cap (cn <| capCNodeGuard := guard |> <| capCNodeGuardSize := guard_size |>)
  | _ => c
  end.

Definition get_cap_size_bits (c : cap) : Z :=
  match c with
  | cap_untyped_cap u => capBlockSize u
  | cap_endpoint_cap _ => SEL4_ENDPOINT_BITS
  | cap_notification_cap _ => SEL4_NOTIFICATION_BITS
  | cap_cnode_cap cn => capCNodeRadix cn +w SEL4_SLOT_BITS
  | cap_page_table_cap _ => PT_SIZE_BITS
  | cap_reply_cap _ => if kernel_mcs then SEL4_REPLY_BITS else 0
  | cap_sched_context_cap sc => if kernel_mcs then capSCSizeBits sc else 0
  | _ => 0
  end.

Definition get_cap_is_physical (c : cap) : bool :=
  match c with
  | cap_vspace_cap _ => negb is_riscv
  | cap_untyped_cap _ | cap_endpoint_cap _ | cap_notification_cap _ | cap_cnode_cap _
  | cap_frame_cap _ | cap_asid_pool_cap _ | cap_page_table_cap _ | cap_zombie_cap _
  | cap_thread_cap _ => true
  | cap_sched_context_cap _ | cap_reply_cap _ => kernel_mcs
  | _ => false
  end.

(** arch/riscv64 and arch/aarch64: [get_cap_ptr]. *)
Definition get_cap_ptr (c : cap) : Z :=
  match c with
  | cap_untyped_cap u => capPtr u
  | cap_endpoint_cap e => capEPPtr e
  | cap_notification_cap n => capNtfnPtr n
  | cap_cnode_cap cn => capCNodePtr cn
  | cap_thread_cap p => p
  | cap_zombie_cap z => get_zombie_ptr z
  | cap_frame_cap f => capFBasePtr f
  | cap_page_table_cap pt => capPTBasePtr pt
  | cap_vspace_cap vs => if is_riscv then 0 else capVSBasePtr vs
  | cap_asid_pool_cap ap => capASIDPool ap
  | cap_reply_cap r => if kernel_mcs then capReplyPtr r else 0
  | cap_sched_context_cap sc => if kernel_mcs then capSCPtr sc else 0
  | _ => 0
  end.

(** The frame case shared by both [arch_same_region_as]: containment of the
    second frame in the first one. *)
Definition arch_frame_region (f1 f2 : frame_cap) : res bool :=
  match pageBitsForSize (capFSize f1), pageBitsForSize (capFSize f2) with
  | Ok b1, Ok b2 =>
      let botA := capFBasePtr f1 in
      let botB := capFBasePtr f2 in
      let topA := botA +w mask_bits b1 in
      let topB := botB +w mask_bits b2 in
      Ok ((botA <=? botB) && (topB <=? topA) && (botB <=? topB))
  | _, _ => Err EPanic
  end.

Definition arch_same_region_as (cap1 cap2 : cap) : res bool :=
  match cap1 with
  | cap_frame_cap f1 =>
      match cap2 with cap_frame_cap f2 => arch_frame_region f1 f2 | _ => Ok false end
  | cap_page_table_cap p1 =>
      match cap2 with
      | cap_page_table_cap p2 => Ok (capPTBasePtr p1 =? capPTBasePtr p2)
      | _ => Ok false
      end
  | cap_vspace_cap v1 =>
      if is_riscv then Err EPanic else
      match cap2 with
      | cap_vspace_cap v2 => Ok (capVSBasePtr v1 =? capVSBasePtr v2)
      | _ => Ok false
      end
  | cap_asid_control_cap =>
      match cap2 with cap_asid_control_cap => Ok true | _ => Ok false end
  | cap_asid_pool_cap a1 =>
      match cap2 with
      | cap_asid_pool_cap a2 => Ok (capASIDPool a1 =? capASIDPool a2)
      | _ => Ok false
      end
  | cap_smc_cap _ =>
      if is_riscv || negb enable_smc then Err EPanic else
      match cap2 with cap_smc_cap _ => Ok true | _ => Ok false end
  | _ => Err EPanic
  end.

Definition arch_same_object_as (cap1 cap2 : cap) : res bool :=
  match cap1, cap2 with
  | cap_frame_cap f1, cap_frame_cap f2 =>
      Ok ((capFBasePtr f1 =? capFBasePtr f2) && (capFSize f1 =? capFSize f2) &&
          match target_arch with
          | RISCV64 => Bool.eqb (capFIsDevice f1 =? 0) (capFIsDevice f2 =? 0)
          | AARCH64 => capFIsDevice f1 =? capFIsDevice f2
          end)
  | _, _ => arch_same_region_as cap1 cap2
  end.

(** ** Regions and objects *)

Definition same_region_as (cap1 cap2 : cap) : res bool :=
  match cap1 with
  | cap_untyped_cap u =>
      if get_cap_is_physical cap2 then
        let aBase := capPtr u in
        let bBase := get_cap_ptr cap2 in
        let aTop := aBase +w mask_bits (capBlockSize u) in
        let bTop := bBase +w mask_bits (get_cap_size_bits cap2) in
        Ok ((aBase <=? bBase) && (bTop <=? aTop) && (bBase <=? bTop))
      else Ok false
  | cap_endpoint_cap _ | cap_notification_cap _ | cap_page_table_cap _
  | cap_asid_pool_cap _ | cap_thread_cap _ =>
      if get_tag cap2 =? get_tag cap1 then Ok (get_cap_ptr cap1 =? get_cap_ptr cap2)
      else Ok false
  | cap_asid_control_cap | cap_domain_cap => Ok (get_tag cap2 =? get_tag cap1)
  | cap_cnode_cap c1 =>
      match cap2 with
      | cap_cnode_cap c2 => Ok ((capCNodePtr c1 =? capCNodePtr c2) &&
                                (capCNodeRadix c1 =? capCNodeRadix c2))
      | _ => Ok false
      end
  | cap_irq_control_cap =>
      match cap2 with
      | cap_irq_control_cap | cap_irq_handler_cap _ => Ok true
      | _ => Ok false
      end
  | cap_irq_handler_cap i1 =>
      match cap2 with cap_irq_handler_cap i2 => Ok (i1 =? i2) | _ => Ok false end
  | cap_sched_context_cap s1 =>
      if kernel_mcs then
        match cap2 with
        | cap_sched_context_cap s2 => Ok ((capSCPtr s1 =? capSCPtr s2) &&
                                          (capSCSizeBits s1 =? capSCSizeBits s2))
        | _ => Ok false
        end
      else Ok false
  | cap_sched_control_cap _ =>
      if kernel_mcs then
        match cap2 with cap_sched_control_cap _ => Ok true | _ => Ok false end
      else Ok false
  | cap_reply_cap r1 =>
      if kernel_mcs then
        match cap2 with
        | cap_reply_cap r2 => Ok (capReplyPtr r1 =? capReplyPtr r2)
        | _ => Ok false
        end
      else Ok false
  | _ =>
      if is_arch_cap cap1 && is_arch_cap cap2 then arch_same_region_as cap1 cap2
      else Ok false
  end.

Definition same_object_as (cap1 cap2 : cap) : res bool :=
  match cap1, cap2 with
  | cap_untyped_cap _, _ => Ok false
  | cap_irq_control_cap, cap_irq_handler_cap _ => Ok false
  | _, _ =>
      if is_arch_cap cap1 && is_arch_cap cap2 then arch_same_object_as cap1 cap2
      else same_region_as cap1 cap2
  end.

(** arch_is_cap_revocable, both architectures; the badge of a source that is
    not an SMC capability is not meaningful. *)
Definition arch_is_cap_revocable (derived_cap src_cap : cap) : res bool :=
  match target_arch, derived_cap with
  | AARCH64, cap_smc_cap b =>
      if enable_smc then
        match src_cap with cap_smc_cap b' => Ok (negb (b =? b')) | _ => Err EUndef end
      else Ok false
  | _, _ => Ok false
  end.

Definition is_cap_revocable (derived_cap src_cap : cap) : res bool :=
  if is_arch_cap derived_cap then arch_is_cap_revocable derived_cap src_cap else
  match derived_cap with
  | cap_endpoint_cap e =>
      match src_cap with
      | cap_endpoint_cap e' => Ok (negb (capEPBadge e =? capEPBadge e'))
      | _ => Err EPanic
      end
  | cap_notification_cap n =>
      match src_cap with
      | cap_notification_cap n' => Ok (negb (capNtfnBadge n =? capNtfnBadge n'))
      | _ => Err EPanic
      end
  | cap_irq_handler_cap _ =>
      match src_cap with cap_irq_control_cap => Ok true | _ => Ok false end
  | cap_untyped_cap _ => Ok true
  | _ => Ok false
  end.

(** ** Rights *)

Record seL4_CapRights := mk_rights {
  capAllowGrantReply : Z; capAllowGrant : Z; capAllowRead : Z; capAllowWrite : Z }.

Definition VMKernelOnly : Z := match target_arch with RISCV64 => 1 | AARCH64 => 0 end.
Definition VMReadOnly : Z := match target_arch with RISCV64 => 2 | AARCH64 => 3 end.
Definition VMReadWrite : Z := match target_arch with RISCV64 => 3 | AARCH64 => 1 end.

Definition maskVMRights (vm_rights : Z) (rights : seL4_CapRights) : Z :=
  if (vm_rights =? VMReadOnly) && negb (capAllowRead rights =? 0) then VMReadOnly
  else if (vm_rights =? VMReadWrite) && negb (capAllowRead rights =? 0) then
    if capAllowWrite rights =? 0 then VMReadOnly else VMReadWrite
  else VMKernelOnly.

Definition arch_mask_cap_rights (rights : seL4_CapRights) (c : cap) : cap :=
  match c with
  | cap_frame_cap f =>
      cap_frame_cap (f <| capFVMRights := maskVMRights (capFVMRights f) rights |>)
  | _ => c
  end.

Definition mask_cap_rights (rights : seL4_CapRights) (c : cap) : cap :=
  if is_arch_cap c then arch_mask_cap_rights rights c else
  match c with
  | cap_endpoint_cap e =>
      cap_endpoint_cap
        (e <| capCanSend := Z.land (capCanSend e) (capAllowWrite rights) |>
           <| capCanReceive := Z.land (capCanReceive e) (capAllowRead rights) |>
           <| capCanGrant := Z.land (capCanGrant e) (capAllowGrant rights) |>
           <| capCanGrantReply := Z.land (capCanGrantReply e) (capAllowGrantReply rights) |>)
  | cap_notification_cap n =>
      cap_notification_cap
        (n <| capNtfnCanSend := Z.land (capNtfnCanSend n) (capAllowWrite rights) |>
           <| capNtfnCanReceive := Z.land (capNtfnCanReceive n) (capAllowRead rights) |>)
  | cap_reply_cap r =>
      cap_reply_cap (r <| capReplyCanGrant := Z.land (capReplyCanGrant r) (capAllowGrant rights) |>)
  | cap_frame_cap f =>
      cap_frame_cap (f <| capFVMRights := maskVMRights (capFVMRights f) rights |>)
  | _ => c
  end.

End ops.

(** ** Zombies: the packed pointer and counter *)

(** The number of low bits of [capZombieID] that hold the counter. *)
Definition zombie_bits (_type : Z) : Z :=
  if _type =? ZOMBIE_TYPE_ZOMBIE_TCB then TCB_CNODE_RADIX + 1 else _type + 1.

Definition zombie_type_ok (_type : Z) : Prop :=
  _type = ZOMBIE_TYPE_ZOMBIE_TCB \/ 0 <= _type < 63.

Lemma zombie_bits_range t : zombie_type_ok t -> 0 < zombie_bits t < 64.
Proof.
  unfold zombie_type_ok, zombie_bits. change ZOMBIE_TYPE_ZOMBIE_TCB with 64.
  change TCB_CNODE_RADIX with 4. intros. zcase; lia.
Qed.

Lemma get_zombie_bit_eq z :
  zombie_type_ok (capZombieType z) -> get_zombie_bit z +w 1 = zombie_bits (capZombieType z).
Proof.
  unfold zombie_type_ok, get_zombie_bit, zombie_bits, zombie_type_zombie_cnode.
  change ZOMBIE_TYPE_ZOMBIE_TCB with 64. change TCB_CNODE_RADIX with 4.
  intros Ht. zcase; [done|]. rewrite land_mask by (unfold WORD_RADIX; lia).
  change (2 ^ WORD_RADIX) with 64. rewrite (Z.mod_small (capZombieType z) 64) by lia.
  apply wadd_small; rewrite ?word_size_val; lia.
Qed.

Lemma get_zombie_ptr_eq z :
  zombie_type_ok (capZombieType z) -> is_word (capZombieID z) ->
  get_zombie_ptr z = Z.ldiff (capZombieID z) (Z.ones (zombie_bits (capZombieType z))).
Proof.
  intros Ht Hw. unfold get_zombie_ptr. rewrite land_wnot by done.
  rewrite get_zombie_bit_eq by done. pose proof (zombie_bits_range _ Ht).
  by rewrite mask_bits_ones by lia.
Qed.

Lemma get_zombie_number_eq z :
  zombie_type_ok (capZombieType z) ->
  get_zombie_number z = Z.land (capZombieID z) (Z.ones (zombie_bits (capZombieType z))).
Proof.
  intros Ht. unfold get_zombie_number. rewrite get_zombie_bit_eq by done.
  pose proof (zombie_bits_range _ Ht). by rewrite mask_bits_ones by lia.
Qed.

Lemma zombie_new_eq n t p :
  zombie_type_ok t -> is_word p ->
  zombie_new n t p =
    mk_zombie_cap (Z.lor (Z.ldiff p (Z.ones (zombie_bits t))) (Z.land n (Z.ones (zombie_bits t)))) t.
Proof.
  intros Ht Hp. unfold zombie_new. f_equal. rewrite land_wnot by done.
  unfold zombie_bits. destruct (Z.eqb_spec t ZOMBIE_TYPE_ZOMBIE_TCB) as [->|]; [done|].
  destruct Ht; [done|]. rewrite wadd_small by (rewrite ?word_size_val; lia).
  by rewrite mask_bits_ones by lia.
Qed.

Lemma land_ones_small n k : 0 <= k -> 0 <= n < 2 ^ k -> Z.land n (Z.ones k) = n.
Proof. intros. rewrite Z.land_ones by lia. by apply Z.mod_small. Qed.

Lemma land_ones_word n k : 0 <= k < 64 -> is_word (Z.land n (Z.ones k)).
Proof.
  intros. rewrite Z.land_ones by lia. pose proof (Z.mod_pos_bound n (2 ^ k)) as Hb.
  pose proof (pow2_pos k). pose proof (pow2_lt_word k). unfold is_word. lia.
Qed.

(** Packing a zombie and unpacking it is the identity: for an aligned
    object pointer and a counter that fits, [get_zombie_ptr] and
    [get_zombie_number] give back what [zombie_new] was given, and
    [set_zombie_number] replaces the counter and nothing else. *)
Theorem zombie_roundtrip n m t p :
  zombie_type_ok t -> is_word p -> p mod 2 ^ zombie_bits t = 0 ->
  0 <= n < 2 ^ zombie_bits t -> 0 <= m < 2 ^ zombie_bits t ->
  get_zombie_ptr (zombie_new n t p) = p /\
  get_zombie_number (zombie_new n t p) = n /\
  get_zombie_ptr (set_zombie_number (zombie_new n t p) m) = p /\
  get_zombie_number (set_zombie_number (zombie_new n t p) m) = m.
Proof.
  intros Ht Hp Ha Hn Hm. pose proof (zombie_bits_range t Ht) as Hb.
  rewrite zombie_new_eq by done.
  assert (Hset : forall q k, is_word q ->
    set_zombie_number (mk_zombie_cap q t) k =
      mk_zombie_cap (Z.lor (Z.ldiff q (Z.ones (zombie_bits t)))
                           (Z.land k (Z.ones (zombie_bits t)))) t).
  { intros q k Hq. unfold set_zombie_number. rewrite get_zombie_bit_eq by done. cbn.
    rewrite land_wnot by done. by rewrite mask_bits_ones by lia. }
  assert (Hw : forall k, is_word (Z.lor (Z.ldiff p (Z.ones (zombie_bits t)))
                                        (Z.land k (Z.ones (zombie_bits t))))).
  { intros k. apply lor_word; [by apply ldiff_word|by apply land_ones_word; lia]. }
  rewrite Hset, lor_split_high by apply Hw.
  rewrite !get_zombie_ptr_eq, !get_zombie_number_eq by (done || apply Hw). cbn.
  by rewrite !lor_split_high, !lor_split_low, ldiff_ones_aligned, !land_ones_small by lia.
Qed.

(** Witness: the zombie of a 2^10-slot CNode at 0x80008000. *)
Lemma zombie_roundtrip_witness :
  get_zombie_ptr (zombie_new 1024 10 0x80008000) = 0x80008000 /\
  get_zombie_number (set_zombie_number (zombie_new 1024 10 0x80008000) 1023) = 1023.
Proof.
  destruct (zombie_roundtrip 1024 1023 10 0x80008000) as (H1 & H2 & H3 & H4);
    [right; lia|split; [lia|reflexivity]|reflexivity|split; [lia|reflexivity]
    |split; [lia|reflexivity]|].
  split; [exact H1|exact H4].
Defined.

Section cap_theorems.
Context `{Config}.

(** ** Rights never grow *)

(** The rights a capability carries, as bit sets; a frame's VM rights count
    as {} for kernel-only, {read} for read-only, {read, write} otherwise. *)
Definition cap_rights (c : cap) : list Z :=
  match c with
  | cap_endpoint_cap e => [capCanSend e; capCanReceive e; capCanGrant e; capCanGrantReply e]
  | cap_notification_cap n => [capNtfnCanSend n; capNtfnCanReceive n]
  | cap_reply_cap r => [capReplyCanGrant r]
  | cap_frame_cap f =>
      [if capFVMRights f =? VMReadWrite then 3
       else if capFVMRights f =? VMReadOnly then 1 else 0]
  | _ => []
  end.

(** The capability without its rights. *)
Definition cap_identity (c : cap) : cap :=
  match c with
  | cap_endpoint_cap e =>
      cap_endpoint_cap (e <| capCanSend := 0 |> <| capCanReceive := 0 |>
                          <| capCanGrant := 0 |> <| capCanGrantReply := 0 |>)
  | cap_notification_cap n =>
      cap_notification_cap (n <| capNtfnCanSend := 0 |> <| capNtfnCanReceive := 0 |>)
  | cap_reply_cap r => cap_reply_cap (r <| capReplyCanGrant := 0 |>)
  | cap_frame_cap f => cap_frame_cap (f <| capFVMRights := 0 |>)
  | _ => c
  end.

Definition right_le (a b : Z) : Prop := Z.land a b = a.

Lemma right_le_land a b : right_le (Z.land a b) a.
Proof. unfold right_le. by rewrite (Z.land_comm a b), <- Z.land_assoc, Z.land_diag. Qed.

Lemma mask_vm_rights_le v r :
  right_le (if maskVMRights v r =? VMReadWrite then 3
            else if maskVMRights v r =? VMReadOnly then 1 else 0)
           (if v =? VMReadWrite then 3 else if v =? VMReadOnly then 1 else 0).
Proof.
  unfold maskVMRights, right_le, VMReadOnly, VMReadWrite, VMKernelOnly.
  destruct target_arch, (Z.eqb_spec v 1), (Z.eqb_spec v 2), (Z.eqb_spec v 3),
    (capAllowRead r =? 0), (capAllowWrite r =? 0); subst; reflexivity || lia.
Qed.

(** C35. Masking rights (Copy, Mint) only takes rights away and leaves
    everything else of the capability as it is. *)
Theorem mask_cap_rights_diminishes r c :
  Forall2 right_le (cap_rights (mask_cap_rights r c)) (cap_rights c) /\
  cap_identity (mask_cap_rights r c) = cap_identity c.
Proof.
  destruct c; cbn; split; try reflexivity;
    repeat first [apply Forall2_cons; split | apply Forall2_nil; exact I];
    first [apply right_le_land | apply mask_vm_rights_le | idtac].
Qed.

(** ** Regions *)

Lemma top_small b n : 0 <= n < 64 -> 0 <= b -> b + 2 ^ n <= word_size ->
  b +w mask_bits n = b + 2 ^ n - 1.
Proof.
  intros Hn Hb Hs. rewrite mask_bits_ones, Z.ones_equiv by lia.
  pose proof (pow2_pos n). rewrite wadd_small; lia.
Qed.

(** The object a capability to memory names: the logarithm of its size and its
    first byte.  A thread capability points to the middle of its object. *)
Definition object_bits (c : cap) : option Z :=
  match c with
  | cap_untyped_cap u => Some (capBlockSize u)
  | cap_endpoint_cap _ => Some SEL4_ENDPOINT_BITS
  | cap_notification_cap _ => Some SEL4_NOTIFICATION_BITS
  | cap_cnode_cap cn => Some (capCNodeRadix cn + SEL4_SLOT_BITS)
  | cap_thread_cap _ => Some SEL4_TCB_BITS
  | cap_zombie_cap z =>
      Some (if capZombieType z =? ZOMBIE_TYPE_ZOMBIE_TCB then SEL4_TCB_BITS else get_zombie_bit z + SEL4_SLOT_BITS)
  | cap_frame_cap f => match pageBitsForSize (capFSize f) with Ok bits => Some bits | Err _ => None end
  | cap_page_table_cap _ => Some SEL4_PAGE_TABLE_BITS
  | cap_vspace_cap _ => Some SEL4_VSPACE_BITS
  | cap_asid_pool_cap _ => Some SEL4_ASID_POOL_BITS
  | cap_sched_context_cap sc => Some (capSCSizeBits sc)
  | cap_reply_cap _ => Some SEL4_REPLY_BITS
  | _ => None
  end.
Definition object_base (c : cap) : Z :=
  match c with
  | cap_thread_cap p => p - 2 ^ (SEL4_TCB_BITS - 1)
  | _ => get_cap_ptr c
  end.

(** The types whose size the code knows; for the others it takes one byte. *)
Definition size_known (c : cap) : bool :=
  match c with
  | cap_thread_cap _ | cap_zombie_cap _ | cap_frame_cap _ | cap_vspace_cap _ | cap_asid_pool_cap _ => false
  | _ => true
  end.

(** An aligned block of [2 ^ n] bytes. *)
Definition block (b n : Z) : Prop := 0 <= n < 64 /\ 0 <= b /\ b + 2 ^ n <= word_size /\ (2 ^ n | b).

(** The memory of an untyped capability contains an object. *)
Definition region_contains (u : untyped_cap) (base bits : Z) : Prop :=
  capPtr u <= base /\ base + 2 ^ bits <= capPtr u + 2 ^ capBlockSize u.

(** One byte of a smaller aligned block decides whether the block is inside. *)
Lemma byte_decides_block a m b k p : block a m -> block b k -> k <= m -> b <= p < b + 2 ^ k ->
  a <= p < a + 2 ^ m <-> a <= b /\ b + 2 ^ k <= a + 2 ^ m.
Proof.
  intros (Hm & _ & _ & [x ->]) (Hk & _ & _ & [y ->]) Hkm Hp. pose proof (pow2_pos k).
  assert (E : 2 ^ m = 2 ^ (m - k) * 2 ^ k) by (rewrite <- Z.pow_add_r by lia; f_equal; lia).
  pose proof (pow2_pos (m - k)). rewrite E. generalize dependent (2 ^ (m - k)). intros z _ Hz.
  generalize dependent (2 ^ k). intros w Hp Hw. split; [|nia]. intros [H1 H2].
  assert (x * z <= y) by nia. assert (y < x * z + z) by nia. nia.
Qed.

Lemma size_known_bits c bits : get_cap_is_physical c = true -> size_known c = true -> object_bits c = Some bits -> block (object_base c) bits ->
  get_cap_size_bits c = bits /\ get_cap_ptr c = object_base c.
Proof.
  intros Hp Hk Hb (Hbits & _). destruct c; try discriminate Hk; try discriminate Hp; cbn in *; try (by injection Hb as <-).
  - injection Hb as <-. destruct kernel_mcs; [done|discriminate Hp].
  - injection Hb as <-. unfold SEL4_SLOT_BITS in *. split; [|done]. apply wrap_small. unfold is_word. rewrite word_size_val. lia.
  - injection Hb as <-. destruct kernel_mcs; [done|discriminate Hp].
Qed.

Lemma size_unknown_byte c bits : get_cap_is_physical c = true -> size_known c = false -> object_bits c = Some bits -> block (object_base c) bits ->
  get_cap_size_bits c = 0 /\ object_base c <= get_cap_ptr c < object_base c + 2 ^ bits.
Proof.
  intros Hp Hk Hb (Hbits & _). pose proof (pow2_pos bits). destruct c; try discriminate Hk; cbn in *; try (split; [done|lia]).
  split; [done|]. injection Hb as <-. unfold SEL4_TCB_BITS in *. destruct target_arch; [destruct have_fpu|]; cbn; lia.
Qed.

(** C37. For an untyped capability and a capability to an object in memory,
    both aligned to their sizes, [same_region_as] decides exactly whether the
    whole object lies inside the untyped memory, if the object is not larger
    than that memory, or its type is one whose size the code knows (not a
    thread, zombie, frame, address space or ASID pool). *)
Theorem same_region_untyped_exact u c bits :
  get_cap_is_physical c = true -> object_bits c = Some bits ->
  block (capPtr u) (capBlockSize u) -> block (object_base c) bits ->
  bits <= capBlockSize u \/ size_known c = true ->
  exists b, same_region_as (cap_untyped_cap u) c = Ok b /\ (b = true <-> region_contains u (object_base c) bits).
Proof.
  intros Hp Hb Hu Hc Hor. eexists. cbn. rewrite Hp. split; [done|]. pose proof Hu as (Hun & Hu0 & Hu1 & _). pose proof Hc as (Hcn & Hc0 & Hc1 & _).
  rewrite !andb_true_iff, !Z.leb_le, (top_small (capPtr u)) by done. unfold region_contains. pose proof (pow2_pos bits).
  destruct (size_known c) eqn:Hk.
  - destruct (size_known_bits c bits Hp Hk Hb Hc) as [-> ->]. rewrite top_small by done. lia.
  - destruct Hor as [Hle|]; [|done]. destruct (size_unknown_byte c bits Hp Hk Hb Hc) as [-> Hin].
    rewrite <- (byte_decides_block _ _ _ _ (get_cap_ptr c) Hu Hc Hle Hin). rewrite top_small by (cbn; lia). lia.
Qed.

(** A frame larger than the untyped memory it starts in counts as inside. *)
Lemma same_region_larger_frame : same_region_as (cap_untyped_cap (mk_untyped_cap 0 0 12 0x80000000))
  (cap_frame_cap (mk_frame_cap 0 0x80000000 1 0 0 0)) = Ok true.
Proof. reflexivity. Qed.

(** ** Capability data *)

(** The badge of a capability that has one. *)
Definition cap_badge (c : cap) : option Z :=
  match c with
  | cap_endpoint_cap e => Some (capEPBadge e)
  | cap_notification_cap n => Some (capNtfnBadge n)
  | cap_smc_cap badge => if enable_smc && negb is_riscv then Some badge else None
  | _ => None
  end.

(** The capability without its badge or guard. *)
Definition without_data (c : cap) : cap :=
  match c with
  | cap_endpoint_cap e => cap_endpoint_cap (e <| capEPBadge := 0 |>)
  | cap_notification_cap n => cap_notification_cap (n <| capNtfnBadge := 0 |>)
  | cap_cnode_cap cn => cap_cnode_cap (cn <| capCNodeGuard := 0 |> <| capCNodeGuardSize := 0 |>)
  | cap_smc_cap _ => cap_smc_cap 0
  | _ => c
  end.

Lemma guard_size_mod d : CNodeCapData.get_guard_size d = d mod 64.
Proof. unfold CNodeCapData.get_guard_size. change 63 with (Z.ones 6). by rewrite Z.land_ones by lia. Qed.

Lemma guard_mod d k : is_word d -> 0 <= k < 64 -> Z.land (CNodeCapData.get_guard d) (mask_bits k) = (d / 64) mod 2 ^ k.
Proof.
  intros Hd Hk. rewrite land_mask by lia. f_equal. unfold CNodeCapData.get_guard.
  assert (E : Z.land d 0xffffffffffffffc0 = d - d mod 64).
  { change 0xffffffffffffffc0 with (wnot (Z.ones 6)). rewrite land_wnot by done.
    pose proof (Z.div_mod d (2 ^ 6)). rewrite Z.ldiff_ones_r, Z.shiftl_mul_pow2, Z.shiftr_div_pow2 by lia.
    change (2 ^ 6) with 64 in *. lia. }
  rewrite E, wshr_div by lia. change (2 ^ 6) with 64.
  replace (d - d mod 64) with (d / 64 * 64) by (pose proof (Z.div_mod d 64); lia). by rewrite Z.div_mul.
Qed.

(** C36. Setting capability data changes nothing but the badge or the guard.
    A capability with a badge takes the new badge if it had none and badges
    are not to be preserved, and becomes the null capability otherwise; a
    CNode capability takes the guard size in the low six bits of the data and
    as many bits of guard from those above them, if guard and radix fit in a
    word, and becomes the null capability otherwise; every other capability
    stays as it is. *)
Theorem update_data_same_object c preserve d :
  let r := update_data c preserve d in
  (forall b, cap_badge c = Some b ->
     if negb preserve && (b =? 0) then without_data r = without_data c /\ cap_badge r = Some d else r = cap_null_cap) /\
  (forall cn, c = cap_cnode_cap cn -> 0 <= capCNodeRadix cn < 64 -> is_word d ->
     if d mod 64 + capCNodeRadix cn <=? 64
     then without_data r = without_data c /\ exists cn', r = cap_cnode_cap cn' /\
       capCNodeGuardSize cn' = d mod 64 /\ capCNodeGuard cn' = (d / 64) mod 2 ^ (d mod 64)
     else r = cap_null_cap) /\
  (cap_badge c = None -> (forall cn, c <> cap_cnode_cap cn) -> r = c).
Proof.
  intros r. split_and!.
  - intros b. unfold r, update_data, arch_updatedata. destruct c; try discriminate; cbn.
    + intros [= <-]. by destruct (_ && _).
    + intros [= <-]. by destruct (_ && _).
    + unfold is_riscv. destruct target_arch eqn:Ea, enable_smc eqn:Es; try discriminate. intros [= <-]. cbn.
      destruct (_ && _); cbn; [|done]. change (is_arch_cap _) with true. unfold cap_badge, is_riscv. by rewrite Ea, Es.
  - intros cn -> Hr Hd. unfold r, update_data. change (is_arch_cap (cap_cnode_cap cn)) with false. cbv zeta iota.
    pose proof (Z.mod_pos_bound d 64). rewrite guard_size_mod, wadd_small, guard_mod by (rewrite ?word_size_val; auto with lia).
    unfold WORD_BITS. rewrite Z.gtb_ltb, Z.ltb_antisym. destruct (_ <=? 64); cbn; [|done]. split; [done|]. eauto.
  - unfold r, update_data, arch_updatedata. intros Hb Hcn. unfold cap_badge, is_riscv in Hb.
    destruct c; try done; [by edestruct Hcn|..]; by destruct target_arch, enable_smc.
Qed.
End cap_theorems.

(** Witness: a thread in a 2 KiB untyped region. *)
Lemma same_region_untyped_exact_witness :
  let u := mk_untyped_cap 0 0 11 0x80000000 in
  exists b, @same_region_as riscv_config (cap_untyped_cap u) (cap_thread_cap 0x80000600) = Ok b /\
    (b = true <-> region_contains u (@object_base riscv_config (cap_thread_cap 0x80000600)) 10).
Proof.
  intros u. apply (@same_region_untyped_exact riscv_config u (cap_thread_cap 0x80000600) 10).
  - reflexivity.
  - reflexivity.
  - split; [done|split; [done|split; [done|by exists (0x80000000 / 2 ^ 11)]]].
  - split; [done|split; [done|split; [done|by exists (0x80000400 / 2 ^ 10)]]].
  - left. done.
Defined.
