(* ===== verification/CSpace.v ===== *)
(** * Capability spaces and the derivation list

    sel4_cspace/src/cte.rs: deriving, inserting, moving, swapping and
    unlinking capability slots, deletion and revocation, and CSpace
    addressing.  The operations on the derivation list (MDB) touch only the
    slot heap and run in its monad; deletion calls back into the kernel
    through the functions of deps.rs, which are the class [CSpaceDeps]. *)

From S2P Require Import Prelude Monad DList Config Objects State CapOps.

Definition C (A : Type) : Type := M (gmap Z cte_t) A.

Definition set_mdbNext (v : Z) (c : cte_t) : cte_t :=
  c <| cteMDBNode ::= fun m => m <| mdbNext := v |> |>.
Definition set_mdbPrev (v : Z) (c : cte_t) : cte_t :=
  c <| cteMDBNode ::= fun m => m <| mdbPrev := v |> |>.

Record deriveCap_ret := mk_deriveCap_ret { dc_status : exception_t; dc_capability : cap }.
Record finaliseSlot_ret := mk_finaliseSlot_ret {
  fs_status : exception_t; fs_success : bool; fs_cleanupInfo : cap }.
Record FinaliseCapRet := mk_FinaliseCapRet { fc_remainder : cap; fc_cleanupInfo : cap }.
Record resolveAddressBits_ret_t := mk_resolve_ret {
  ra_status : exception_t; ra_slot : Z; ra_bitsRemaining : Z }.

Section cspace.
Context `{Config}.

(** ** Derivation *)

Definition get_offset_slot (slot index : Z) : Z := slot +w (cte_size *w index).

Definition is_mdb_parent_of (self next : cte_t) : res bool :=
  if mdbRevocable (cteMDBNode self) =? 0 then Ok false else
  match same_region_as (capability self) (capability next) with
  | Err e => Err e
  | Ok false => Ok false
  | Ok true =>
      match capability self, capability next with
      | cap_endpoint_cap e, cap_endpoint_cap e' =>
          if capEPBadge e =? 0 then Ok true
          else Ok ((capEPBadge e =? capEPBadge e') &&
                   (mdbFirstBadged (cteMDBNode next) =? 0))
      | cap_endpoint_cap _, _ => Err EPanic
      | cap_notification_cap n, cap_notification_cap n' =>
          if capNtfnBadge n =? 0 then Ok true
          else Ok ((capNtfnBadge n =? capNtfnBadge n') &&
                   (mdbFirstBadged (cteMDBNode next) =? 0))
      | cap_notification_cap _, _ => Err EPanic
      | cap_smc_cap b, cap_smc_cap b' =>
          if negb enable_smc then Ok true
          else if b =? 0 then Ok true
          else Ok ((b =? b') && (mdbFirstBadged (cteMDBNode next) =? 0))
      | _, _ => Ok true
      end
  end.

Definition ensure_no_children (slot : Z) : C exception_t :=
  let* self := hget slot in
  if negb (mdbNext (cteMDBNode self) =? 0) then
    let* next := hget (mdbNext (cteMDBNode self)) in
    let* child := lift_res (is_mdb_parent_of self next) in
    if (child : bool) then ret EXCEPTION_SYSCALL_ERROR else ret EXCEPTION_NONE
  else ret EXCEPTION_NONE.

Definition arch_derive_cap (c : cap) : res deriveCap_ret :=
  match c with
  | cap_vspace_cap v =>
      if is_riscv then Err EPanic
      else if negb (capVSIsMapped v =? 0) then Ok (mk_deriveCap_ret EXCEPTION_NONE c)
      else Ok (mk_deriveCap_ret EXCEPTION_SYSCALL_ERROR cap_null_cap)
  | cap_page_table_cap p =>
      if negb (capPTIsMapped p =? 0) then Ok (mk_deriveCap_ret EXCEPTION_NONE c)
      else Ok (mk_deriveCap_ret EXCEPTION_SYSCALL_ERROR cap_null_cap)
  | cap_frame_cap f =>
      let f' := match target_arch with
                | RISCV64 => f <| capFMappedAddress := 0 |> <| capFMappedASID := 0 |>
                | AARCH64 => f <| capFMappedASID := 0 |>
                end in
      Ok (mk_deriveCap_ret EXCEPTION_NONE (cap_frame_cap f'))
  | cap_asid_control_cap | cap_asid_pool_cap _ => Ok (mk_deriveCap_ret EXCEPTION_NONE c)
  | cap_smc_cap _ =>
      if is_riscv || negb enable_smc then Err EPanic
      else Ok (mk_deriveCap_ret EXCEPTION_NONE c)
  | _ => Err EPanic
  end.

Definition derive_cap (slot : Z) (c : cap) : C deriveCap_ret :=
  if is_arch_cap c then lift_res (arch_derive_cap c) else
  match c with
  | cap_zombie_cap _ => ret (mk_deriveCap_ret EXCEPTION_NONE cap_null_cap)
  | cap_untyped_cap _ =>
      let* status := ensure_no_children slot in
      if negb (exc_ok status) then ret (mk_deriveCap_ret status cap_null_cap)
      else ret (mk_deriveCap_ret status c)
  | cap_reply_cap _ =>
      if kernel_mcs then ret (mk_deriveCap_ret EXCEPTION_NONE c)
      else ret (mk_deriveCap_ret EXCEPTION_NONE cap_null_cap)
  | cap_irq_control_cap => ret (mk_deriveCap_ret EXCEPTION_NONE cap_null_cap)
  | _ => ret (mk_deriveCap_ret EXCEPTION_NONE c)
  end.

(** ** Final capabilities *)

Definition is_final_cap (slot : Z) : C bool :=
  let* self := hget slot in
  let mdb := cteMDBNode self in
  let* prev_is_same_obj :=
    (if mdbPrev mdb =? 0 then ret false
     else let* prev := hget (mdbPrev mdb) in
          lift_res (same_object_as (capability prev) (capability self))) in
  if (prev_is_same_obj : bool) then ret false
  else if mdbNext mdb =? 0 then ret true
  else
    let* next := hget (mdbNext mdb) in
    let* same := lift_res (same_object_as (capability self) (capability next)) in
    ret (negb same).

Definition is_long_running_delete (slot : Z) : C bool :=
  let* self := hget slot in
  if is_null_cap (capability self) then ret false else
  let* final := is_final_cap slot in
  if negb final then ret false
  else ret (match capability self with
            | cap_thread_cap _ | cap_zombie_cap _ | cap_cnode_cap _ => true
            | _ => false
            end).

Definition cap_removable (c : cap) (slot : Z) : res bool :=
  match c with
  | cap_null_cap => Ok true
  | cap_zombie_cap z =>
      let n := get_zombie_number z in
      let z_slot := get_zombie_ptr z in
      Ok ((n =? 0) || ((n =? 1) && (slot =? z_slot)))
  | _ => Err EPanic
  end.

(** ** The derivation list *)

Definition set_untyped_cap_as_full (srcCap newCap : cap) (srcSlot : Z) : C unit :=
  match srcCap, newCap with
  | cap_untyped_cap su, cap_untyped_cap nu =>
      let* src := hget srcSlot in
      match capability src with
      | cap_untyped_cap cu =>
          when ((capPtr su =? capPtr nu) && (capBlockSize su =? capBlockSize nu))
            (hmod srcSlot (fun c =>
               c <| capability :=
                 cap_untyped_cap (cu <| capFreeIndex := max_free_index (capBlockSize su) |>) |>))
      | _ => fail EPanic
      end
  | _, _ => ret tt
  end.

(** The two assertions every insertion makes on its destination. *)
Definition assert_empty_slot (dest : cte_t) : C unit :=
  kassert (is_null_cap (capability dest)) ;;;
  kassert ((mdbNext (cteMDBNode dest) =? 0) && (mdbPrev (cteMDBNode dest) =? 0)).

Definition cte_insert (new_cap : cap) (src_slot dest_slot : Z) : C unit :=
  let* src := hget src_slot in
  let srcMDB := cteMDBNode src in
  let srcCap := capability src in
  let* newCapIsRevocable := lift_res (is_cap_revocable new_cap srcCap) in
  let newMDB := srcMDB <| mdbPrev := src_slot |>
                       <| mdbRevocable := bool_to_word newCapIsRevocable |>
                       <| mdbFirstBadged := bool_to_word newCapIsRevocable |> in
  let* dest := hget dest_slot in
  assert_empty_slot dest ;;;
  set_untyped_cap_as_full srcCap new_cap src_slot ;;;
  hmod dest_slot (fun c => c <| capability := new_cap |> <| cteMDBNode := newMDB |>) ;;;
  hmod src_slot (set_mdbNext dest_slot) ;;;
  when (negb (mdbNext newMDB =? 0)) (hmod (mdbNext newMDB) (set_mdbPrev dest_slot)).

Definition insert_new_cap (parent slot : Z) (c : cap) : C unit :=
  let* p := hget parent in
  let next := mdbNext (cteMDBNode p) in
  hmod slot (fun e => e <| capability := c |> <| cteMDBNode := mk_mdb_node next 1 1 parent |>) ;;;
  when (negb (next =? 0)) (hmod next (set_mdbPrev slot)) ;;;
  hmod parent (set_mdbNext slot).

Definition cte_move (new_cap : cap) (src_slot dest_slot : Z) : C unit :=
  let* dest := hget dest_slot in
  assert_empty_slot dest ;;;
  let* src := hget src_slot in
  let mdb := cteMDBNode src in
  hmod dest_slot (fun c => c <| capability := new_cap |>) ;;;
  hmod src_slot (fun c => c <| capability := cap_null_cap |>) ;;;
  hmod dest_slot (fun c => c <| cteMDBNode := mdb |>) ;;;
  hmod src_slot (fun c => c <| cteMDBNode := mk_mdb_node 0 0 0 0 |>) ;;;
  when (negb (mdbPrev mdb =? 0)) (hmod (mdbPrev mdb) (set_mdbNext dest_slot)) ;;;
  when (negb (mdbNext mdb =? 0)) (hmod (mdbNext mdb) (set_mdbPrev dest_slot)).

Definition cte_swap (cap1 : cap) (slot1 : Z) (cap2 : cap) (slot2 : Z) : C unit :=
  let* c1 := hget slot1 in
  let mdb1 := cteMDBNode c1 in
  let* c2 := hget slot2 in
  let mdb2 := cteMDBNode c2 in
  when (negb (mdbPrev mdb1 =? 0)) (hmod (mdbPrev mdb1) (set_mdbNext slot2)) ;;;
  when (negb (mdbNext mdb1 =? 0)) (hmod (mdbNext mdb1) (set_mdbPrev slot2)) ;;;
  hmod slot1 (fun c => c <| capability := cap2 |>) ;;;
  hmod slot2 (fun c => c <| capability := cap1 |>) ;;;
  hmod slot1 (fun c => c <| cteMDBNode := mdb2 |>) ;;;
  hmod slot2 (fun c => c <| cteMDBNode := mdb1 |>) ;;;
  when (negb (mdbPrev mdb2 =? 0)) (hmod (mdbPrev mdb2) (set_mdbNext slot1)) ;;;
  when (negb (mdbNext mdb2 =? 0)) (hmod (mdbNext mdb2) (set_mdbPrev slot1)).

(** The part of [set_empty] that works on slots; the result says whether the
    slot held a capability. *)
Definition unlink_slot (slot : Z) : C bool :=
  let* self := hget slot in
  if is_null_cap (capability self) then ret false else
  let mdb := cteMDBNode self in
  let prev_addr := mdbPrev mdb in
  let next_addr := mdbNext mdb in
  when (negb (prev_addr =? 0)) (hmod prev_addr (set_mdbNext next_addr)) ;;;
  when (negb (next_addr =? 0))
    (hmod next_addr (fun n =>
       let n := set_mdbPrev prev_addr n in
       let first_badged := negb (mdbFirstBadged (cteMDBNode n) =? 0)
                           || negb (mdbFirstBadged mdb =? 0) in
       n <| cteMDBNode ::= fun m => m <| mdbFirstBadged := bool_to_word first_badged |> |>)) ;;;
  hmod slot (fun _ => mk_cte cap_null_cap mdb_zero) ;;;
  ret true.

(** ** Addressing *)

(** [init_bits] is the [bitsRemaining] the result is initialised with; a
    lookup fault at any level returns it. *)
Fixpoint resolve_loop (fuel : nat) (init_bits : Z) (nodeCap : cnode_cap) (cap_ptr n_bits : Z)
    : C resolveAddressBits_ret_t :=
  match fuel with
  | O => fail EFuel
  | S fuel' =>
      let radixBits := capCNodeRadix nodeCap in
      let guardBits := capCNodeGuardSize nodeCap in
      let levelBits := radixBits +w guardBits in
      kassert (negb (levelBits =? 0)) ;;;
      let capGuard := capCNodeGuard nodeCap in
      let guard := Z.land (cap_ptr >>w Z.land (n_bits -w guardBits) (mask_bits WORD_RADIX))
                          (mask_bits guardBits) in
      if (n_bits <? guardBits) || negb (guard =? capGuard) then
        ret (mk_resolve_ret EXCEPTION_LOOKUP_FAULT 0 init_bits)
      else if n_bits <? levelBits then
        ret (mk_resolve_ret EXCEPTION_LOOKUP_FAULT 0 init_bits)
      else
        let offset := Z.land (cap_ptr >>w (n_bits -w levelBits)) (mask_bits radixBits) in
        let slot := get_offset_slot (capCNodePtr nodeCap) offset in
        if n_bits =? levelBits then ret (mk_resolve_ret EXCEPTION_NONE slot 0)
        else
          let n_bits' := n_bits -w levelBits in
          let* c := hget slot in
          match capability c with
          | cap_cnode_cap nodeCap' => resolve_loop fuel' init_bits nodeCap' cap_ptr n_bits'
          | _ => ret (mk_resolve_ret EXCEPTION_NONE slot n_bits')
          end
  end.

Definition resolve_address_bits (node_cap : cap) (cap_ptr n_bits : Z)
    : C resolveAddressBits_ret_t :=
  match node_cap with
  | cap_cnode_cap nodeCap => resolve_loop (S (Z.to_nat n_bits)) n_bits nodeCap cap_ptr n_bits
  | _ => ret (mk_resolve_ret EXCEPTION_LOOKUP_FAULT 0 n_bits)
  end.

End cspace.

(** ** Deletion and revocation

    deps.rs: what the cspace crate calls back in the kernel crate. *)
Class CSpaceDeps : Type := {
  finalise_cap : cap -> bool -> bool -> K FinaliseCapRet;
  post_cap_deletion : cap -> K unit;
  preemption_point : K exception_t
}.

Section deletion.
Context `{Config} `{CSpaceDeps}.

Definition set_empty (slot : Z) (cleanup_info : cap) : K unit :=
  let* was_full := on_ctes (unlink_slot slot) in
  when was_full (post_cap_deletion cleanup_info).

Definition delete_one (slot : Z) : K unit :=
  let* self := get_cte slot in
  when (negb (is_null_cap (capability self)))
    (let* final := on_ctes (is_final_cap slot) in
     let* fc_ret := finalise_cap (capability self) final true in
     let* removable := lift_res (cap_removable (fc_remainder fc_ret) slot) in
     kassert (removable && is_null_cap (fc_cleanupInfo fc_ret)) ;;;
     set_empty slot cap_null_cap).

(** [finalise], [reduce_zombie] and [delete_all] call each other; one unit of
    fuel is spent per call and per iteration of the loop of [finalise]. *)
Fixpoint finalise (fuel : nat) (slot : Z) (immediate : bool) : K finaliseSlot_ret :=
  match fuel with
  | O => fail EFuel
  | S n =>
      let* self := get_cte slot in
      if is_null_cap (capability self) then
        ret (mk_finaliseSlot_ret EXCEPTION_NONE true cap_null_cap)
      else
        let* final := on_ctes (is_final_cap slot) in
        let* fc_ret := finalise_cap (capability self) final false in
        let* removable := lift_res (cap_removable (fc_remainder fc_ret) slot) in
        if (removable : bool) then
          ret (mk_finaliseSlot_ret EXCEPTION_NONE true (fc_cleanupInfo fc_ret))
        else
          mod_cte slot (fun c => c <| capability := fc_remainder fc_ret |>) ;;;
          if negb immediate && cap_cyclic_zombie (fc_remainder fc_ret) slot then
            ret (mk_finaliseSlot_ret EXCEPTION_NONE false (fc_cleanupInfo fc_ret))
          else
            let* status := reduce_zombie n slot immediate in
            if negb (exc_ok status) then ret (mk_finaliseSlot_ret status false cap_null_cap)
            else
              let* status := preemption_point in
              if negb (exc_ok status) then ret (mk_finaliseSlot_ret status false cap_null_cap)
              else finalise n slot immediate
  end
with reduce_zombie (fuel : nat) (slot : Z) (immediate : bool) : K exception_t :=
  match fuel with
  | O => fail EFuel
  | S n =>
      let* self := get_cte slot in
      match capability self with
      | cap_zombie_cap z =>
          let ptr := get_zombie_ptr z in
          let num := get_zombie_number z in
          let zombie_type := capZombieType z in
          kassert (0 <? num) ;;;
          if immediate then
            let end_slot := get_offset_slot ptr (num -w 1) in
            let* status := delete_all n end_slot false in
            if negb (exc_ok status) then ret status else
            let* self := get_cte slot in
            match capability self with
            | cap_null_cap => ret EXCEPTION_NONE
            | cap_zombie_cap z2 =>
                let ptr2 := get_zombie_ptr z2 in
                if (ptr =? ptr2) && (get_zombie_number z2 =? num)
                   && (capZombieType z2 =? zombie_type) then
                  let* e := get_cte end_slot in
                  kassert (is_null_cap (capability e)) ;;;
                  mod_cte slot (fun c =>
                    c <| capability := cap_zombie_cap (set_zombie_number z2 (num -w 1)) |>) ;;;
                  ret EXCEPTION_NONE
                else
                  kassert ((ptr2 =? slot) && negb (ptr =? slot)) ;;;
                  ret EXCEPTION_NONE
            | _ => fail EPanic
            end
          else
            kassert (negb (ptr =? slot)) ;;;
            let* next_slot := get_cte ptr in
            on_ctes (cte_swap (capability next_slot) ptr (capability self) slot) ;;;
            ret EXCEPTION_NONE
      | _ => fail EPanic
      end
  end
with delete_all (fuel : nat) (slot : Z) (exposed : bool) : K exception_t :=
  match fuel with
  | O => fail EFuel
  | S n =>
      let* fs_ret := finalise n slot exposed in
      if negb (exc_ok (fs_status fs_ret)) then ret (fs_status fs_ret)
      else
        when (exposed || fs_success fs_ret) (set_empty slot (fs_cleanupInfo fs_ret)) ;;;
        ret EXCEPTION_NONE
  end.

(** [get_volatile_value] re-reads the [mdbNext] field of the slot. *)
Fixpoint revoke (fuel : nat) (slot : Z) : K exception_t :=
  match fuel with
  | O => fail EFuel
  | S n =>
      let* self := get_cte slot in
      let next := mdbNext (cteMDBNode self) in
      if next =? 0 then ret EXCEPTION_NONE else
      let* cte := get_cte next in
      let* child := lift_res (is_mdb_parent_of self cte) in
      if negb child then ret EXCEPTION_NONE else
      let* status := delete_all n next true in
      if negb (exc_ok status) then ret status else
      let* status := preemption_point in
      if negb (exc_ok status) then ret status else
      revoke n slot
  end.

End deletion.
