(* ===== verification/MDB.v ===== *)
(** * The capability derivation list is a well-formed forest

    Every slot with a capability is on exactly one doubly linked derivation
    list and every empty slot is unlinked ([mdb_forest]).  The theorems say
    what each operation of cte.rs does to the lists: [cte_insert] and
    [insert_new_cap] put the new slot right after its parent, [cte_move]
    renames a slot in place, [unlink_slot] (the slot part of [set_empty])
    takes it out, and [cte_swap] exchanges two slots that are not
    neighbours. *)

From S2P Require Import Prelude Monad DList Config Objects State CapOps CSpace.

Definition mdb_links (h : gmap Z cte_t) : links := fun a =>
  (fun c => (mdbPrev (cteMDBNode c), mdbNext (cteMDBNode c))) <$> h !! a.

(** What the invariant says of one slot, given the slots that are on lists. *)
Definition slot_ok (on_list : list Z) (a : Z) (c : cte_t) : Prop :=
  (a ∈ on_list <-> capability c <> cap_null_cap) /\
  (capability c = cap_null_cap -> cteMDBNode c = mdb_zero).

Definition mdb_forest (h : gmap Z cte_t) (ls : list (list Z)) : Prop :=
  h !! 0 = None /\
  NoDup (concat ls) /\
  Forall (dlist (mdb_links h)) ls /\
  (forall a c, h !! a = Some c -> slot_ok (concat ls) a c).

(** ** Changing one list of the forest *)

Section forest.
Implicit Types (h : gmap Z cte_t) (l : list Z) (ls : list (list Z)).

Lemma mdb_links_eq h h' a : h' !! a = h !! a -> mdb_links h' a = mdb_links h a.
Proof. unfold mdb_links. by intros ->. Qed.

Lemma forest_list h ls1 l ls2 : mdb_forest h (ls1 ++ l :: ls2) -> dlist (mdb_links h) l.
Proof.
  intros (_ & _ & Hl & _). rewrite Forall_app, Forall_cons in Hl. tauto.
Qed.

Lemma forest_dom h ls a : mdb_forest h ls -> a ∈ concat ls -> is_Some (h !! a).
Proof.
  intros (_ & _ & Hl & _) (l & Hin & Ha)%elem_of_concat.
  rewrite Forall_forall in Hl. destruct (Hl l Ha) as (_ & _ & Hs).
  destruct (dseg_dom _ _ _ _ _ Hs Hin) as [x Hx].
  unfold mdb_links in Hx. by destruct (h !! a).
Qed.

Lemma forest_disjoint h ls1 l ls2 a :
  mdb_forest h (ls1 ++ l :: ls2) -> a ∈ l -> (a ∉ concat ls1) /\ (a ∉ concat ls2).
Proof.
  intros (_ & Hnd & _). rewrite concat_app, concat_cons in Hnd.
  apply NoDup_app in Hnd as (_ & H1 & Hnd). apply NoDup_app in Hnd as (_ & H2 & _).
  intros Ha. split; [|auto]. intros Hc. apply (H1 a Hc). set_solver.
Qed.

(** Replacing the list [l] by [l'], whose new elements were empty slots. *)
Lemma forest_replace h h' ls1 l l' ls2 :
  mdb_forest h (ls1 ++ l :: ls2) ->
  h' !! 0 = None ->
  dlist (mdb_links h') l' ->
  (forall a, a ∈ l' -> a ∈ l \/ a ∉ concat (ls1 ++ l :: ls2)) ->
  (forall a, a ∉ l -> a ∉ l' -> h' !! a = h !! a) ->
  (forall a c, a ∈ l \/ a ∈ l' -> h' !! a = Some c -> slot_ok l' a c) ->
  mdb_forest h' (ls1 ++ l' :: ls2).
Proof.
  intros Hf H0 Hl' Hnew Hframe Hslot.
  pose proof (forest_disjoint h ls1 l ls2) as Hdisj.
  assert (Hout : forall a, a ∈ concat ls1 \/ a ∈ concat ls2 -> (a ∉ l) /\ (a ∉ l')).
  { intros a Ha. assert (a ∉ l) by (intros Hl; destruct (Hdisj a Hf Hl); tauto).
    split; [done|]. intros Ha'. destruct (Hnew a Ha') as [|Hn]; [done|].
    apply Hn. rewrite concat_app, concat_cons. set_solver. }
  pose proof Hf as (_ & Hnd & Hls & Hs).
  rewrite concat_app, concat_cons in Hnd. rewrite Forall_app, Forall_cons in Hls.
  apply NoDup_app in Hnd as (Hn1 & H1 & Hnd). apply NoDup_app in Hnd as (_ & H2 & Hn2).
  split; [done|split; [|split]].
  - rewrite concat_app, concat_cons. apply NoDup_app. split; [done|split].
    + intros a Ha. pose proof (H1 a Ha). pose proof (Hout a (or_introl Ha)). set_solver.
    + apply NoDup_app. split; [by destruct Hl'|split; [|done]].
      intros a Ha Ha2. pose proof (Hout a (or_intror Ha2)). tauto.
  - assert (Hkeep : forall m, (m ∈ ls1 \/ m ∈ ls2) -> dlist (mdb_links h) m ->
              dlist (mdb_links h') m).
    { intros m Hm (Hd1 & Hd2 & Hd3). split; [done|split; [done|]].
      eapply dseg_ext; [|done]. intros a Ha. apply mdb_links_eq.
      destruct (Hout a) as [? ?]; [|by apply Hframe].
      destruct Hm as [Hm|Hm]; [left|right]; apply elem_of_concat; eauto. }
    rewrite Forall_app, Forall_cons. destruct Hls as (Hls1 & _ & Hls2).
    rewrite Forall_forall in Hls1, Hls2. split; [|split; [done|]];
      apply Forall_forall; intros m Hm; apply Hkeep; auto.
  - intros a c Ha. rewrite concat_app, concat_cons.
    destruct (decide (a ∈ l \/ a ∈ l')) as [Hin|Hin].
    + destruct (Hslot a c Hin Ha) as [Ho1 Ho2]. split; [|done]. rewrite <- Ho1.
      split; [|set_solver]. intros Hc. rewrite !elem_of_app in Hc.
      destruct Hc as [Hc|[Hc|Hc]]; [|done|];
        destruct (Hout a) as [? ?]; [auto| |auto|]; tauto.
    + rewrite Hframe in Ha by tauto. destruct (Hs a c Ha) as [Ho1 Ho2].
      split; [|done]. rewrite <- Ho1, concat_app, concat_cons. set_solver.
Qed.
End forest.

Lemma slot_ok_in l a c : a ∈ l -> capability c <> cap_null_cap -> slot_ok l a c.
Proof. by intros. Qed.

Lemma slot_ok_out l a : a ∉ l -> slot_ok l a (mk_cte cap_null_cap mdb_zero).
Proof. intros Ha. split; [|done]. split; [done|]. by intros []. Qed.

(** A slot of the list whose capability did not change is not empty. *)
Lemma forest_nonnull h ls1 l ls2 a c' :
  mdb_forest h (ls1 ++ l :: ls2) -> a ∈ l ->
  Some (capability c') = capability <$> h !! a -> capability c' <> cap_null_cap.
Proof.
  intros (_ & _ & _ & Hok) Ha E. symmetry in E. apply fmap_Some in E as (c & Hc & ->).
  apply (Hok a c Hc). rewrite concat_app, concat_cons. set_solver.
Qed.

(** ** Unlinking a slot *)

Section unlink.
Context (h : gmap Z cte_t) (slot : Z) (c : cte_t).

Let prev := mdbPrev (cteMDBNode c).
Let next := mdbNext (cteMDBNode c).

(** What happens to the next slot's node: it also inherits the
    first-badged mark of the slot that goes away. *)
Definition unlink_next (n : cte_t) : cte_t :=
  n <| cteMDBNode := mk_mdb_node (mdbNext (cteMDBNode n)) (mdbRevocable (cteMDBNode n))
         (bool_to_word (negb (mdbFirstBadged (cteMDBNode n) =? 0)
                        || negb (mdbFirstBadged (cteMDBNode c) =? 0))) prev |>.

Lemma unlink_slot_run :
  h !! 0 = None -> h !! slot = Some c -> capability c <> cap_null_cap ->
  (prev <> 0 -> is_Some (h !! prev)) -> (next <> 0 -> is_Some (h !! next)) ->
  unlink_slot slot h =
    Ok (true, alter (fun _ => mk_cte cap_null_cap mdb_zero) slot
                (alter unlink_next next (alter (set_mdbNext next) prev h))).
Proof.
  intros H0 Hc Hnull Hp Hn. unfold unlink_slot. hstep.
  rewrite (is_null_cap_false _ Hnull).
  hstep. hstep. hstep. reflexivity.
Qed.
End unlink.

(** Facts about a slot on a list of the forest. *)
Lemma forest_slot h ls1 l1 slot l2 ls2 :
  mdb_forest h (ls1 ++ (l1 ++ slot :: l2) :: ls2) ->
  exists c, h !! slot = Some c /\ capability c <> cap_null_cap /\
    mdbPrev (cteMDBNode c) = lastz 0 l1 /\ mdbNext (cteMDBNode c) = headz 0 l2 /\
    (lastz 0 l1 <> 0 -> is_Some (h !! lastz 0 l1)) /\
    (headz 0 l2 <> 0 -> is_Some (h !! headz 0 l2)).
Proof.
  intros Hf. pose proof (forest_list _ _ _ _ Hf) as (Hnd & H0 & Hs).
  assert (Hin : forall a, a ∈ l1 ++ slot :: l2 -> is_Some (h !! a)).
  { intros a Ha. apply (forest_dom _ _ _ Hf). rewrite concat_app, concat_cons. set_solver. }
  destruct (Hin slot) as [c Hc]; [set_solver|]. exists c.
  apply dseg_lookup in Hs. unfold mdb_links in Hs. rewrite Hc in Hs. cbn in Hs. simplify_eq.
  split; [done|]. split; [|split; [done|split; [done|split]]].
  - destruct Hf as (_ & _ & _ & Hok). apply (Hok slot c Hc).
    rewrite concat_app, concat_cons. set_solver.
  - intros Hl. apply Hin. destruct (decide (l1 = [])) as [->|]; [done|].
    pose proof (lastz_in 0 l1). set_solver.
  - intros Hl. apply Hin. destruct (decide (l2 = [])) as [->|]; [done|].
    pose proof (headz_in 0 l2). set_solver.
Qed.

Lemma mdb_links_Some h b p n :
  mdb_links h b = Some (p, n) ->
  exists d, h !! b = Some d /\ mdbPrev (cteMDBNode d) = p /\ mdbNext (cteMDBNode d) = n.
Proof. unfold mdb_links. destruct (h !! b) as [d|]; cbn; [|done]. intros. simplify_eq. eauto. Qed.

(** Compute the links of a heap built by [alter]s. *)
Ltac mdb_links_alter :=
  unfold mdb_links; rewrite !lookup_alter_case;
  repeat case_decide; simplify_eq;
  repeat match goal with H : _ !! _ = Some _ |- _ => rewrite H end;
  cbn; try done; try congruence.

Lemma unlink_slot_spec h ls1 l1 slot l2 ls2 :
  mdb_forest h (ls1 ++ (l1 ++ slot :: l2) :: ls2) ->
  exists h', unlink_slot slot h = Ok (true, h') /\
    mdb_forest h' (ls1 ++ (l1 ++ l2) :: ls2) /\
    h' !! slot = Some (mk_cte cap_null_cap mdb_zero) /\
    (forall a, a <> slot -> capability <$> h' !! a = capability <$> h !! a) /\
    (forall a, a <> slot ->
       mdbRevocable ∘ cteMDBNode <$> h' !! a = mdbRevocable ∘ cteMDBNode <$> h !! a) /\
    (forall a, a <> slot -> a <> lastz 0 l1 -> a <> headz 0 l2 -> h' !! a = h !! a).
Proof.
  intros Hf. destruct (forest_slot _ _ _ _ _ _ Hf) as (c & Hc & Hnn & Hp & Hn & Hps & Hns).
  pose proof (forest_list _ _ _ _ Hf) as Hd.
  pose proof (dlist_nodup_app _ _ _ _ Hd) as (_ & _ & Hs1 & Hs2 & _ & Hs0 & _ & _).
  pose proof Hf as (H0 & _ & _ & Hok).
  eexists. split; [eapply unlink_slot_run; rewrite ?Hp, ?Hn; eauto|]. rewrite Hp, Hn.
  assert (Hcap : forall a, a <> slot ->
    capability <$> alter (fun _ => mk_cte cap_null_cap mdb_zero) slot
      (alter (unlink_next c) (headz 0 l2) (alter (set_mdbNext (headz 0 l2)) (lastz 0 l1) h)) !! a
    = capability <$> h !! a).
  { intros a Ha. rewrite !lookup_alter_case. destruct (decide (slot = a)); [done|].
    repeat case_decide; by destruct (h !! a). }
  split; [|split; [|split; [|split]]].
  - eapply forest_replace; [exact Hf|eauto with heap| | | |].
    + eapply dlist_remove; [exact Hd|]. intros b p n Hb HL.
      destruct (mdb_links_Some _ _ _ _ HL) as (d & Hd1 & <- & <-).
      assert (b <> slot) by set_solver. unfold unlink_next. mdb_links_alter.
    + set_solver.
    + intros a Ha Ha'. destruct (decide (a = 0)) as [->|].
      { rewrite H0. eauto with heap. }
      rewrite !lookup_alter_ne; [done|..];
        first [apply lastz_notin; set_solver | apply headz_notin; set_solver | set_solver].
    + intros a d Ha Hd'. destruct (decide (a = slot)) as [->|Hne].
      * rewrite lookup_alter_eq, !lookup_alter_case in Hd'.
        repeat case_decide; rewrite Hc in Hd'; cbn in Hd'; simplify_eq;
          apply slot_ok_out; set_solver.
      * apply slot_ok_in; [set_solver|]. eapply (forest_nonnull _ _ _ _ a); [exact Hf|set_solver|].
        by rewrite <- Hcap, Hd'.
  - rewrite lookup_alter_eq, !lookup_alter_case. repeat case_decide; by rewrite Hc.
  - exact Hcap.
  - intros a Ha. rewrite !lookup_alter_case. destruct (decide (slot = a)); [done|].
    repeat case_decide; by destruct (h !! a).
  - intros a H1 H2 H3. by rewrite !lookup_alter_ne by congruence.
Qed.

(** C21. [set_empty] takes a slot out of its derivation list: the neighbours
    are linked to each other, the slot becomes empty and unlinked, no other
    capability or revocable mark changes, and the derivation lists stay a
    forest. *)
Theorem unlink_slot_forest h ls1 l1 slot l2 ls2 :
  mdb_forest h (ls1 ++ (l1 ++ slot :: l2) :: ls2) ->
  exists h', unlink_slot slot h = Ok (true, h') /\
    mdb_forest h' (ls1 ++ (l1 ++ l2) :: ls2) /\
    h' !! slot = Some (mk_cte cap_null_cap mdb_zero) /\
    (forall a, a <> slot -> capability <$> h' !! a = capability <$> h !! a) /\
    (forall a, a <> slot ->
       mdbRevocable ∘ cteMDBNode <$> h' !! a = mdbRevocable ∘ cteMDBNode <$> h !! a) /\
    (forall a, a <> slot -> a <> lastz 0 l1 -> a <> headz 0 l2 -> h' !! a = h !! a).
Proof. apply unlink_slot_spec. Qed.

(** ** Inserting a slot after its parent *)

(** The source capability after [set_untyped_cap_as_full]. *)
Definition full_cap (srcCap newCap : cap) : cap :=
  match srcCap, newCap with
  | cap_untyped_cap su, cap_untyped_cap nu =>
      if (capPtr su =? capPtr nu) && (capBlockSize su =? capBlockSize nu)
      then cap_untyped_cap (su <| capFreeIndex := max_free_index (capBlockSize su) |>)
      else srcCap
  | _, _ => srcCap
  end.

Lemma full_cap_nonnull c n : c <> cap_null_cap -> full_cap c n <> cap_null_cap.
Proof. destruct c, n; cbn; try done. by case_match. Qed.

Lemma set_untyped_cap_as_full_run h src c newCap :
  h !! 0 = None -> h !! src = Some c ->
  set_untyped_cap_as_full (capability c) newCap src h =
    Ok (tt, alter (fun c => c <| capability := full_cap (capability c) newCap |>) src h).
Proof.
  intros H0 Hc. assert (Hid : full_cap (capability c) newCap = capability c ->
    alter (fun c => c <| capability := full_cap (capability c) newCap |>) src h = h).
  { intros E. apply map_eq. intros i. rewrite lookup_alter_case. case_decide; [|done].
    subst i. rewrite Hc. cbn. f_equal. destruct c as [cc m]. cbn in *.
    unfold set. cbn. by rewrite E. }
  unfold set_untyped_cap_as_full.
  destruct (capability c) as [|u| | | | | | | | | | | | | | | | |] eqn:Ec;
    try (unfold ret; by rewrite Hid).
  destruct newCap as [|nu| | | | | | | | | | | | | | | | |]; try (unfold ret; by rewrite Hid).
  hstep. rewrite Ec. cbn in Hid |- *. destruct (_ && _) eqn:Eb; cbn.
  - rewrite hmod_alter by eauto with heap. do 2 f_equal. apply map_eq. intros i.
    rewrite !lookup_alter_case. case_decide; [|done]. subst i. rewrite Hc. cbn.
    rewrite Ec. cbn. by rewrite Eb.
  - unfold ret. by rewrite Hid.
Qed.

Section insert.
Context `{Config}.
Context (h : gmap Z cte_t) (new_cap : cap) (src dest : Z) (c d : cte_t) (r : bool).

Let next := mdbNext (cteMDBNode c).

Definition insert_heap (mdb : mdb_node) : gmap Z cte_t :=
  alter (set_mdbPrev dest) next
    (alter (set_mdbNext dest) src
      (alter (fun c => c <| capability := new_cap |> <| cteMDBNode := mdb |>) dest
        (alter (fun c => c <| capability := full_cap (capability c) new_cap |>) src h))).

Lemma cte_insert_run :
  h !! 0 = None -> h !! src = Some c -> h !! dest = Some d -> src <> dest ->
  capability d = cap_null_cap -> cteMDBNode d = mdb_zero ->
  (next <> 0 -> is_Some (h !! next)) ->
  is_cap_revocable new_cap (capability c) = Ok r ->
  cte_insert new_cap src dest h =
    Ok (tt, insert_heap (mk_mdb_node next (bool_to_word r) (bool_to_word r) src)).
Proof.
  intros H0 Hc Hd Hne Hdn Hdm Hn Hr. unfold cte_insert. hstep.
  erewrite bind_ok by (unfold lift_res; rewrite Hr; reflexivity). hstep.
  erewrite bind_ok by (unfold assert_empty_slot; rewrite Hdn, Hdm; reflexivity).
  erewrite bind_ok by (apply set_untyped_cap_as_full_run; done).
  hstep. hstep. cbn. apply when_hmod_alter; eauto 8 with heap.
Qed.
End insert.

(** An empty slot is on no list. *)
Lemma forest_empty_slot h ls a c :
  mdb_forest h ls -> h !! a = Some c -> capability c = cap_null_cap -> a ∉ concat ls.
Proof. intros (_ & _ & _ & Hok) Ha Hc Hin. by apply (Hok a c Ha) in Hin. Qed.

Lemma forest_null_slot h ls a :
  mdb_forest h ls -> capability <$> h !! a = Some cap_null_cap ->
  h !! a = Some (mk_cte cap_null_cap mdb_zero).
Proof.
  intros (_ & _ & _ & Hok) E. apply fmap_Some in E as ([cc m] & Hc & E). cbn in E. subst cc.
  rewrite Hc. by rewrite <- (proj2 (Hok a _ Hc) eq_refl).
Qed.

(** Any heap that links [dest] between [src] and its successor, and is
    otherwise [h], carries the longer list. *)
Lemma link_after_forest h h' ls1 l1 src l2 ls2 dest d e :
  mdb_forest h (ls1 ++ (l1 ++ src :: l2) :: ls2) ->
  h !! dest = Some d -> capability d = cap_null_cap ->
  h' !! 0 = None ->
  h' !! dest = Some e -> capability e <> cap_null_cap ->
  mdbPrev (cteMDBNode e) = src -> mdbNext (cteMDBNode e) = headz 0 l2 ->
  (forall b x, b <> dest -> h !! b = Some x -> capability x <> cap_null_cap ->
     exists x', h' !! b = Some x' /\ capability x' <> cap_null_cap /\
       mdbPrev (cteMDBNode x') = (if decide (b = headz 0 l2) then dest else mdbPrev (cteMDBNode x)) /\
       mdbNext (cteMDBNode x') = (if decide (b = src) then dest else mdbNext (cteMDBNode x))) ->
  (forall b, b <> dest -> b <> src -> b <> headz 0 l2 -> h' !! b = h !! b) ->
  mdb_forest h' (ls1 ++ (l1 ++ src :: dest :: l2) :: ls2).
Proof.
  intros Hf Hd Hdn H0' He Hen Hep Henx Hup Hfr.
  pose proof (forest_list _ _ _ _ Hf) as Hl. pose proof Hf as (H0 & _).
  pose proof (forest_empty_slot _ _ _ _ Hf Hd Hdn) as Hdc.
  assert (Hdl : dest ∉ l1 ++ src :: l2).
  { intros Hin. apply Hdc. rewrite concat_app, concat_cons. set_solver. }
  assert (Hin : forall b x, b ∈ l1 ++ src :: l2 -> h !! b = Some x -> capability x <> cap_null_cap).
  { intros b x Hb Hx. eapply (forest_nonnull _ _ _ _ b); [exact Hf|done|by rewrite Hx]. }
  eapply forest_replace; [exact Hf|done| | | |].
  - replace (l1 ++ src :: dest :: l2) with ((l1 ++ [src]) ++ dest :: l2) by by rewrite <- app_assoc.
    eapply (dlist_insert (mdb_links h)).
    + by rewrite <- app_assoc.
    + by rewrite <- app_assoc.
    + by eapply lookup_nonzero.
    + unfold mdb_links. rewrite He. cbn. by rewrite Hep, Henx, lastz_snoc.
    + intros b p n Hb HL. rewrite <- app_assoc in Hb. cbn in Hb.
      destruct (mdb_links_Some _ _ _ _ HL) as (x & Hx & <- & <-).
      destruct (Hup b x) as (x' & Hx' & _ & Hp & Hn); [set_solver|done|by eapply Hin|].
      unfold mdb_links. rewrite Hx', lastz_snoc. cbn. by rewrite Hp, Hn.
  - intros a Ha. destruct (decide (a = dest)) as [->|]; [by right|left; set_solver].
  - intros a Ha Ha'. destruct (decide (a = 0)) as [->|]; [by rewrite H0|].
    apply Hfr; [set_solver..|]. apply not_eq_sym, headz_notin; set_solver.
  - intros a x Ha Hx. apply slot_ok_in; [set_solver|].
    destruct (decide (a = dest)) as [->|]; [by simplify_eq|].
    assert (Hal : a ∈ l1 ++ src :: l2) by set_solver.
    destruct (forest_dom h _ a Hf) as [x0 Hx0]; [rewrite concat_app, concat_cons; set_solver|].
    destruct (Hup a x0) as (x' & Hx' & Hn & _); [done|done|by eapply Hin|]. by simplify_eq.
Qed.

Section insert_theorems.
Context `{Config}.

Lemma cte_insert_spec h ls1 l1 src l2 ls2 dest d new_cap r :
  mdb_forest h (ls1 ++ (l1 ++ src :: l2) :: ls2) ->
  h !! dest = Some d -> capability d = cap_null_cap -> new_cap <> cap_null_cap ->
  (forall c, h !! src = Some c -> is_cap_revocable new_cap (capability c) = Ok r) ->
  exists h', cte_insert new_cap src dest h = Ok (tt, h') /\
    mdb_forest h' (ls1 ++ (l1 ++ src :: dest :: l2) :: ls2) /\
    h' !! dest = Some (mk_cte new_cap
                         (mk_mdb_node (headz 0 l2) (bool_to_word r) (bool_to_word r) src)) /\
    (forall a, a <> dest -> capability <$> h' !! a =
       (fun c => if decide (a = src) then full_cap (capability c) new_cap else capability c) <$> h !! a).
Proof.
  intros Hf Hd Hdn Hnn Hrev.
  destruct (forest_slot _ _ _ _ _ _ Hf) as (c & Hc & Hcn & Hp & Hn & Hps & Hns).
  pose proof Hf as (H0 & _ & _ & Hok). pose proof (forest_empty_slot _ _ _ _ Hf Hd Hdn) as Hdc.
  assert (Hdl : dest ∉ l1 ++ src :: l2).
  { intros Hin. apply Hdc. rewrite concat_app, concat_cons. set_solver. }
  assert (Hnd : headz 0 l2 <> dest).
  { apply headz_notin; [set_solver|]. by eapply lookup_nonzero. }
  assert (Hsd : src <> dest) by set_solver.
  eexists. split.
  { eapply cte_insert_run; eauto; [by apply (Hok dest d Hd)|by rewrite Hn]. }
  unfold insert_heap. rewrite Hn.
  set (m := mk_mdb_node _ _ _ _). set (h' := alter _ _ _).
  assert (Hdest : h' !! dest = Some (mk_cte new_cap m)).
  { subst h'. rewrite !lookup_alter_case.
    rewrite !(decide_False (P := src = dest)), !(decide_False (P := headz 0 l2 = dest)) by done.
    by rewrite decide_True, Hd. }
  split; [|split; [done|]].
  - eapply link_after_forest; eauto.
    + subst h'. eauto with heap.
    + intros b x Hb Hx Hxn. subst h'. rewrite !lookup_alter_case.
      rewrite (decide_False (P := dest = b)) by done.
      pose proof (full_cap_nonnull (capability x) new_cap Hxn).
      destruct (decide (headz 0 l2 = b)), (decide (src = b)); rewrite Hx; cbn;
        eexists; (split; [reflexivity|]); repeat split; cbn; try done; by repeat case_decide.
    + intros b Hb1 Hb2 Hb3. subst h'. by rewrite !lookup_alter_ne by congruence.
  - intros a Ha. subst h'. rewrite !lookup_alter_case.
    rewrite (decide_False (P := dest = a)) by done.
    destruct (h !! a); repeat case_decide; by simplify_eq.
Qed.

(** C20. [cte_insert] puts the new capability into the empty destination slot,
    directly after its source in the derivation list, marked revocable and
    first-badged exactly when [is_cap_revocable] says so; an untyped source
    copied whole is marked full, no other capability changes, and the
    derivation lists stay a forest. *)
Theorem cte_insert_forest h ls1 l1 src l2 ls2 dest d new_cap r :
  mdb_forest h (ls1 ++ (l1 ++ src :: l2) :: ls2) ->
  h !! dest = Some d -> capability d = cap_null_cap -> new_cap <> cap_null_cap ->
  (forall c, h !! src = Some c -> is_cap_revocable new_cap (capability c) = Ok r) ->
  exists h', cte_insert new_cap src dest h = Ok (tt, h') /\
    mdb_forest h' (ls1 ++ (l1 ++ src :: dest :: l2) :: ls2) /\
    h' !! dest = Some (mk_cte new_cap
                         (mk_mdb_node (headz 0 l2) (bool_to_word r) (bool_to_word r) src)) /\
    (forall a, a <> dest -> capability <$> h' !! a =
       (fun c => if decide (a = src) then full_cap (capability c) new_cap else capability c) <$> h !! a).
Proof. apply cte_insert_spec. Qed.
End insert_theorems.

Section insert_new_cap.
Context `{Config}.

(** C22. [insert_new_cap] (retype, boot) links a fresh capability directly
    after its parent, revocable and first-badged, and changes no other
    capability. *)
Theorem insert_new_cap_forest h ls1 l1 parent l2 ls2 slot d c :
  mdb_forest h (ls1 ++ (l1 ++ parent :: l2) :: ls2) ->
  h !! slot = Some d -> capability d = cap_null_cap -> c <> cap_null_cap ->
  exists h', insert_new_cap parent slot c h = Ok (tt, h') /\
    mdb_forest h' (ls1 ++ (l1 ++ parent :: slot :: l2) :: ls2) /\
    h' !! slot = Some (mk_cte c (mk_mdb_node (headz 0 l2) 1 1 parent)) /\
    (forall a, a <> slot -> capability <$> h' !! a = capability <$> h !! a).
Proof.
  intros Hf Hd Hdn Hnn.
  destruct (forest_slot _ _ _ _ _ _ Hf) as (p & Hp & Hpn & _ & Hn & _ & Hns).
  pose proof Hf as (H0 & _). pose proof (forest_empty_slot _ _ _ _ Hf Hd Hdn) as Hdc.
  assert (Hdl : slot ∉ l1 ++ parent :: l2).
  { intros Hin. apply Hdc. rewrite concat_app, concat_cons. set_solver. }
  assert (Hnd : headz 0 l2 <> slot).
  { apply headz_notin; [set_solver|]. by eapply lookup_nonzero. }
  assert (Hpd : parent <> slot) by set_solver.
  eexists. split.
  { unfold insert_new_cap. hstep. rewrite Hn. hstep. hstep. apply hmod_alter; eauto 8 with heap. }
  set (h' := alter _ _ _).
  assert (Hdest : h' !! slot = Some (mk_cte c (mk_mdb_node (headz 0 l2) 1 1 parent))).
  { subst h'. rewrite !lookup_alter_case.
    rewrite !(decide_False (P := parent = slot)), !(decide_False (P := headz 0 l2 = slot)) by done.
    by rewrite decide_True, Hd. }
  split; [|split; [done|]].
  - eapply link_after_forest; eauto.
    + subst h'. eauto with heap.
    + intros b x Hb Hx Hxn. subst h'. rewrite !lookup_alter_case.
      rewrite (decide_False (P := slot = b)) by done.
      destruct (decide (headz 0 l2 = b)), (decide (parent = b)); rewrite Hx; cbn;
        eexists; (split; [reflexivity|]); repeat split; cbn; try done; by repeat case_decide.
    + intros b Hb1 Hb2 Hb3. subst h'. by rewrite !lookup_alter_ne by congruence.
  - intros a Ha. subst h'. rewrite !lookup_alter_case.
    rewrite (decide_False (P := slot = a)) by done.
    destruct (h !! a); repeat case_decide; by simplify_eq.
Qed.

(** ** Moving a slot *)

(** C23. [cte_move] gives the destination slot the place of the source in the
    derivation list, with the source's MDB marks and the given capability;
    the source becomes empty and no other capability changes. *)
Theorem cte_move_forest h ls1 l1 src l2 ls2 dest c d new_cap :
  mdb_forest h (ls1 ++ (l1 ++ src :: l2) :: ls2) ->
  h !! src = Some c ->
  h !! dest = Some d -> capability d = cap_null_cap -> new_cap <> cap_null_cap ->
  exists h', cte_move new_cap src dest h = Ok (tt, h') /\
    mdb_forest h' (ls1 ++ (l1 ++ dest :: l2) :: ls2) /\
    h' !! dest = Some (mk_cte new_cap (cteMDBNode c)) /\
    h' !! src = Some (mk_cte cap_null_cap mdb_zero) /\
    (forall a, a <> src -> a <> dest -> capability <$> h' !! a = capability <$> h !! a).
Proof.
  intros Hf Hc Hd Hdn Hnn.
  destruct (forest_slot _ _ _ _ _ _ Hf) as (c0 & Hc0 & Hcn & Hp & Hn & Hps & Hns).
  rewrite Hc in Hc0. injection Hc0 as <-. pose proof (forest_list _ _ _ _ Hf) as Hl.
  pose proof (dlist_nodup_app _ _ _ _ Hl) as (_ & _ & Hs1 & Hs2 & _ & Hs0 & _ & _).
  pose proof Hf as (H0 & _ & _ & Hok). pose proof (forest_empty_slot _ _ _ _ Hf Hd Hdn) as Hdc.
  assert (Hdl : dest ∉ l1 ++ src :: l2).
  { intros Hin. apply Hdc. rewrite concat_app, concat_cons. set_solver. }
  assert (Hd0 : dest <> 0) by by eapply lookup_nonzero.
  assert (headz 0 l2 <> dest /\ lastz 0 l1 <> dest /\ headz 0 l2 <> src /\ lastz 0 l1 <> src)
    as (Hx1 & Hx2 & Hx3 & Hx4)
    by (repeat split; first [apply headz_notin | apply lastz_notin]; set_solver).
  assert (Hpd : src <> dest) by set_solver.
  eexists. split.
  { unfold cte_move. hstep.
    erewrite bind_ok by (unfold assert_empty_slot; rewrite Hdn, (proj2 (Hok dest d Hd) Hdn);
                         reflexivity).
    hstep. rewrite Hp, Hn. do 5 hstep. apply when_hmod_alter; eauto 12 with heap. }
  set (h' := alter _ _ _).
  assert (Hdest : h' !! dest = Some (mk_cte new_cap (cteMDBNode c))).
  { subst h'. rewrite !lookup_alter_case. repeat case_decide; try done. by rewrite Hd. }
  assert (Hsrc : h' !! src = Some (mk_cte cap_null_cap mdb_zero)).
  { subst h'. rewrite !lookup_alter_case. repeat case_decide; try done. by rewrite Hc. }
  assert (Hcap : forall a, a <> src -> a <> dest ->
    capability <$> h' !! a = capability <$> h !! a).
  { intros a Ha1 Ha2. subst h'. rewrite !lookup_alter_case.
    repeat case_decide; try done; by destruct (h !! a). }
  split; [|split; [done|split; [done|exact Hcap]]].
  eapply forest_replace; [exact Hf|subst h'; eauto 12 with heap| | | |].
  - eapply dlist_replace; [exact Hl|set_solver|done| |].
    + unfold mdb_links. rewrite Hdest. cbn. by rewrite Hp, Hn.
    + intros b p n Hb HL. destruct (mdb_links_Some _ _ _ _ HL) as (x & Hx & <- & <-).
      assert (b <> src) by set_solver. assert (b <> dest) by set_solver.
      subst h'. mdb_links_alter.
  - intros a Ha. destruct (decide (a = dest)) as [->|]; [by right|left; set_solver].
  - intros a Ha Ha'. destruct (decide (a = 0)) as [->|].
    { rewrite H0. subst h'. eauto 12 with heap. }
    subst h'. rewrite !lookup_alter_ne; [done|..];
      first [apply lastz_notin; set_solver | apply headz_notin; set_solver | set_solver].
  - intros a x Ha Hx. destruct (decide (a = src)) as [->|].
    { rewrite Hsrc in Hx. simplify_eq. apply slot_ok_out. set_solver. }
    apply slot_ok_in; [set_solver|]. destruct (decide (a = dest)) as [->|]; [by simplify_eq|].
    eapply (forest_nonnull _ _ _ _ a); [exact Hf|set_solver|]. by rewrite <- Hcap, Hx.
Qed.
End insert_new_cap.

(** ** Swapping two slots *)

(** Neighbours of the forest point back at each other. *)
Lemma forest_next h ls x cx y :
  mdb_forest h ls -> h !! x = Some cx -> mdbNext (cteMDBNode cx) = y -> y <> 0 ->
  y <> x /\ exists cy, h !! y = Some cy /\ mdbPrev (cteMDBNode cy) = x.
Proof.
  intros (_ & _ & Hl & Hok) Hx Hy Hy0.
  destruct (Hok x cx Hx) as [Hin Hz].
  assert (capability cx <> cap_null_cap) as Hxn by (intros E; rewrite (Hz E) in Hy; by cbn in Hy).
  apply Hin in Hxn. apply elem_of_concat in Hxn as (l & Hxl & Hll).
  rewrite Forall_forall in Hl. destruct (Hl l Hll) as (Hnd & _ & Hs).
  apply list_elem_of_split in Hxl as (l1 & l2 & ->).
  pose proof (dseg_lookup _ _ _ _ _ _ Hs) as HL. unfold mdb_links in HL. rewrite Hx in HL.
  cbn in HL. injection HL as Hp Hn. destruct l2 as [|z l2]; cbn in Hn; [congruence|].
  assert (z = y) as -> by congruence. split.
  - intros ->. apply NoDup_app in Hnd as (_ & _ & Hnd). apply NoDup_cons in Hnd. set_solver.
  - replace (l1 ++ x :: y :: l2) with ((l1 ++ [x]) ++ y :: l2) in Hs by by rewrite <- app_assoc.
    apply dseg_lookup in Hs. rewrite lastz_snoc in Hs.
    apply mdb_links_Some in Hs as (cy & Hcy & Hpy & _). eauto.
Qed.

Lemma forest_prev h ls x cx y :
  mdb_forest h ls -> h !! x = Some cx -> mdbPrev (cteMDBNode cx) = y -> y <> 0 ->
  y <> x /\ exists cy, h !! y = Some cy /\ mdbNext (cteMDBNode cy) = x.
Proof.
  intros (_ & _ & Hl & Hok) Hx Hy Hy0.
  destruct (Hok x cx Hx) as [Hin Hz].
  assert (capability cx <> cap_null_cap) as Hxn by (intros E; rewrite (Hz E) in Hy; by cbn in Hy).
  apply Hin in Hxn. apply elem_of_concat in Hxn as (l & Hxl & Hll).
  rewrite Forall_forall in Hl. destruct (Hl l Hll) as (Hnd & _ & Hs).
  apply list_elem_of_split in Hxl as (l1 & l2 & ->).
  pose proof (dseg_lookup _ _ _ _ _ _ Hs) as HL. unfold mdb_links in HL. rewrite Hx in HL.
  cbn in HL. injection HL as Hp Hn.
  destruct l1 as [|z l1 _] using rev_ind; [cbn in Hp; congruence|].
  rewrite lastz_snoc in Hp. assert (z = y) as -> by congruence.
  rewrite <- app_assoc in Hs, Hnd. cbn in Hs, Hnd. split.
  - intros ->. apply NoDup_app in Hnd as (_ & _ & Hnd). apply NoDup_cons in Hnd. set_solver.
  - apply dseg_lookup in Hs. cbn in Hs. apply mdb_links_Some in Hs as (cy & Hcy & _ & Hny). eauto.
Qed.

(** The renaming a swap performs. *)
Definition swap_addr (s1 s2 a : Z) : Z :=
  if decide (a = s1) then s2 else if decide (a = s2) then s1 else a.

Lemma swap_addr_invol s1 s2 a : swap_addr s1 s2 (swap_addr s1 s2 a) = a.
Proof. unfold swap_addr. repeat case_decide; congruence. Qed.

#[export] Instance swap_addr_inj s1 s2 : Inj (=) (=) (swap_addr s1 s2).
Proof. intros a b E. by rewrite <- (swap_addr_invol s1 s2 a), E, swap_addr_invol. Qed.

Lemma concat_fmap_swap f ls : concat ((fmap f : list Z -> list Z) <$> ls) = f <$> concat ls.
Proof. induction ls as [|l ls IH]; [done|]. cbn. by rewrite fmap_app, IH. Qed.

Lemma elem_of_swap s1 s2 a (l : list Z) : a ∈ swap_addr s1 s2 <$> l <-> swap_addr s1 s2 a ∈ l.
Proof.
  rewrite list_elem_of_fmap. split.
  - intros (b & -> & Hb). by rewrite swap_addr_invol.
  - intros Ha. exists (swap_addr s1 s2 a). by rewrite swap_addr_invol.
Qed.

Section swap.
Context `{Config}.
Context (h : gmap Z cte_t) (ls : list (list Z)) (s1 s2 : Z) (c1 c2 : cte_t) (cap1 cap2 : cap).
Let p1 := mdbPrev (cteMDBNode c1).
Let n1 := mdbNext (cteMDBNode c1).
Let p2 := mdbPrev (cteMDBNode c2).
Let n2 := mdbNext (cteMDBNode c2).
Context (Hf : mdb_forest h ls) (H1 : h !! s1 = Some c1) (H2 : h !! s2 = Some c2).
Context (Hne : s1 <> s2) (Hadj1 : n1 <> s2) (Hadj2 : n2 <> s1).

Lemma swap_nonzero : s1 <> 0 /\ s2 <> 0.
Proof. destruct Hf as [H0 _]. split; by eapply lookup_nonzero. Qed.

(** No link of either slot leads to the two slots themselves. *)
Lemma swap_clean :
  (p1 <> s1 /\ p1 <> s2 /\ n1 <> s1) /\ (p2 <> s1 /\ p2 <> s2 /\ n2 <> s2).
Proof.
  destruct swap_nonzero as [Hz1 Hz2]. subst p1 n1 p2 n2. repeat split; intros E.
  - destruct (forest_prev h ls s1 c1 _ Hf H1 E) as [? _]; congruence.
  - destruct (forest_prev h ls s1 c1 _ Hf H1 E) as [_ (cy & Hcy & Hn)]; [done|].
    congruence.
  - destruct (forest_next h ls s1 c1 _ Hf H1 E) as [? _]; congruence.
  - destruct (forest_prev h ls s2 c2 _ Hf H2 E) as [_ (cy & Hcy & Hn)]; [done|].
    congruence.
  - destruct (forest_prev h ls s2 c2 _ Hf H2 E) as [? _]; congruence.
  - destruct (forest_next h ls s2 c2 _ Hf H2 E) as [? _]; congruence.
Qed.

Definition swap_heap : gmap Z cte_t :=
  alter (set_mdbPrev s1) n2 (alter (set_mdbNext s1) p2
    (alter (fun c => c <| cteMDBNode := cteMDBNode c1 |>) s2
      (alter (fun c => c <| cteMDBNode := cteMDBNode c2 |>) s1
        (alter (fun c => c <| capability := cap1 |>) s2
          (alter (fun c => c <| capability := cap2 |>) s1
            (alter (set_mdbPrev s2) n1 (alter (set_mdbNext s2) p1 h))))))).

Lemma cte_swap_run : cte_swap cap1 s1 cap2 s2 h = Ok (tt, swap_heap).
Proof.
  destruct swap_nonzero as [Hz1 Hz2]. pose proof Hf as [H0 _].
  assert (Hp : forall x cx, h !! x = Some cx -> mdbPrev (cteMDBNode cx) <> 0 ->
    is_Some (h !! mdbPrev (cteMDBNode cx))).
  { intros x cx Hx Hy. destruct (forest_prev h ls x cx _ Hf Hx eq_refl Hy) as [_ (? & ? & _)].
    eauto. }
  assert (Hn : forall x cx, h !! x = Some cx -> mdbNext (cteMDBNode cx) <> 0 ->
    is_Some (h !! mdbNext (cteMDBNode cx))).
  { intros x cx Hx Hy. destruct (forest_next h ls x cx _ Hf Hx eq_refl Hy) as [_ (? & ? & _)].
    eauto. }
  unfold cte_swap. hstep. hstep. do 7 hstep. apply when_hmod_alter; eauto 14 with heap.
Qed.

Lemma swap_heap_s1 : swap_heap !! s1 = Some (mk_cte cap2 (cteMDBNode c2)).
Proof.
  destruct swap_clean as ((? & ? & ?) & (? & ? & ?)). unfold swap_heap.
  rewrite !lookup_alter_case. repeat case_decide; try done; by rewrite H1.
Qed.

Lemma swap_heap_s2 : swap_heap !! s2 = Some (mk_cte cap1 (cteMDBNode c1)).
Proof.
  destruct swap_clean as ((? & ? & ?) & (? & ? & ?)). unfold swap_heap.
  rewrite !lookup_alter_case. repeat case_decide; try done; by rewrite H2.
Qed.

(** Every other slot keeps its capability; its links are renamed. *)
Lemma swap_heap_other a e :
  a <> s1 -> a <> s2 -> h !! a = Some e ->
  swap_heap !! a = Some (mk_cte (capability e)
    (mk_mdb_node (swap_addr s1 s2 (mdbNext (cteMDBNode e))) (mdbRevocable (cteMDBNode e))
       (mdbFirstBadged (cteMDBNode e)) (swap_addr s1 s2 (mdbPrev (cteMDBNode e))))).
Proof.
  intros Ha1 Ha2 Ha. destruct swap_nonzero as [Hz1 Hz2].
  assert (Haz : a <> 0) by (destruct Hf as [H0 _]; by eapply lookup_nonzero).
  assert (Hcross : forall s c, h !! s = Some c -> s <> 0 ->
    (mdbPrev (cteMDBNode e) = s <-> mdbNext (cteMDBNode c) = a) /\
    (mdbNext (cteMDBNode e) = s <-> mdbPrev (cteMDBNode c) = a)).
  { intros s c Hs Hs0. split; split; intros E.
    - destruct (forest_prev h ls a e _ Hf Ha E Hs0) as [_ (? & ? & ?)]. congruence.
    - destruct (forest_next h ls s c _ Hf Hs E Haz) as [_ (? & ? & ?)]. congruence.
    - destruct (forest_next h ls a e _ Hf Ha E Hs0) as [_ (? & ? & ?)]. congruence.
    - destruct (forest_prev h ls s c _ Hf Hs E Haz) as [_ (? & ? & ?)]. congruence. }
  destruct (Hcross s1 c1 H1 Hz1) as [Ep1 En1], (Hcross s2 c2 H2 Hz2) as [Ep2 En2].
  fold n1 in Ep1. fold p1 in En1. fold n2 in Ep2. fold p2 in En2.
  unfold swap_heap. rewrite !lookup_alter_case.
  rewrite !(decide_False (P := s1 = a)), !(decide_False (P := s2 = a)) by done.
  destruct e as [ec [en er ef ep]]. cbn in *.
  unfold swap_addr. destruct (decide (n2 = a)), (decide (p2 = a)), (decide (n1 = a)),
    (decide (p1 = a)); rewrite Ha; unfold set_mdbPrev, set_mdbNext, set; cbn;
    do 3 f_equal; repeat case_decide;
    repeat match goal with
           | E : ?x = a, I : ?P <-> ?x = a |- _ => apply (proj2 I) in E
           end; tauto || congruence.
Qed.

Lemma swap_links a p n :
  mdb_links h a = Some (p, n) ->
  mdb_links swap_heap (swap_addr s1 s2 a) = Some (swap_addr s1 s2 p, swap_addr s1 s2 n).
Proof.
  intros HL. destruct (mdb_links_Some _ _ _ _ HL) as (e & He & <- & <-).
  destruct swap_clean as ((? & ? & ?) & (? & ? & ?)).
  unfold swap_addr at 1. destruct (decide (a = s1)) as [->|]; [|destruct (decide (a = s2)) as [->|]].
  - unfold mdb_links. rewrite swap_heap_s2. cbn. rewrite H1 in He. simplify_eq.
    unfold swap_addr. fold p1 n1. by rewrite !decide_False.
  - unfold mdb_links. rewrite swap_heap_s1. cbn. rewrite H2 in He. simplify_eq.
    unfold swap_addr. fold p2 n2. by rewrite !decide_False.
  - unfold mdb_links. by rewrite (swap_heap_other a e).
Qed.
End swap.

Lemma dlist_swap L L' s1 s2 l :
  s1 <> 0 -> s2 <> 0 ->
  (forall a p n, L a = Some (p, n) ->
     L' (swap_addr s1 s2 a) = Some (swap_addr s1 s2 p, swap_addr s1 s2 n)) ->
  dlist L l -> dlist L' (swap_addr s1 s2 <$> l).
Proof.
  intros H1 H2 HL (Hnd & H0 & Hs).
  assert (E0 : swap_addr s1 s2 0 = 0) by (unfold swap_addr; by rewrite !decide_False).
  split; [|split].
  - apply (NoDup_fmap_2 _). done.
  - by rewrite elem_of_swap, E0.
  - rewrite <- E0. eapply dseg_rename; [|exact Hs]. auto.
Qed.

(** C24. [cte_swap] on two slots that are not neighbours in a derivation list
    exchanges them in the derivation lists: every list is renamed by the swap,
    each slot gets the other's MDB node and the given capability, and the
    lists stay a forest. *)
Theorem cte_swap_forest h ls s1 s2 c1 c2 cap1 cap2 :
  mdb_forest h ls -> h !! s1 = Some c1 -> h !! s2 = Some c2 -> s1 <> s2 ->
  mdbNext (cteMDBNode c1) <> s2 -> mdbNext (cteMDBNode c2) <> s1 ->
  (cap1 = cap_null_cap <-> capability c1 = cap_null_cap) ->
  (cap2 = cap_null_cap <-> capability c2 = cap_null_cap) ->
  exists h', cte_swap cap1 s1 cap2 s2 h = Ok (tt, h') /\
    mdb_forest h' ((fmap (swap_addr s1 s2) : list Z -> list Z) <$> ls) /\
    h' !! s1 = Some (mk_cte cap2 (cteMDBNode c2)) /\
    h' !! s2 = Some (mk_cte cap1 (cteMDBNode c1)) /\
    (forall a, a <> s1 -> a <> s2 -> capability <$> h' !! a = capability <$> h !! a).
Proof.
  intros Hf H1 H2 Hne Ha1 Ha2 Hc1 Hc2.
  destruct (swap_nonzero h ls s1 s2 c1 c2 Hf H1 H2) as [Hz1 Hz2].
  pose proof Hf as (H0 & Hnd & Hl & Hok).
  pose proof (swap_heap_s1 h ls s1 s2 c1 c2 cap1 cap2 Hf H1 H2 Hne Ha1 Ha2) as Hs1.
  pose proof (swap_heap_s2 h ls s1 s2 c1 c2 cap1 cap2 Hf H1 H2 Hne Ha1 Ha2) as Hs2.
  assert (Hother : forall a, a <> s1 -> a <> s2 ->
    capability <$> swap_heap h s1 s2 c1 c2 cap1 cap2 !! a = capability <$> h !! a).
  { intros a Hn1 Hn2. destruct (h !! a) as [e|] eqn:He.
    - by rewrite (swap_heap_other h ls s1 s2 c1 c2 cap1 cap2 Hf H1 H2 a e).
    - unfold swap_heap. rewrite !lookup_alter_case. repeat case_decide; by rewrite He. }
  eexists. split; [by eapply cte_swap_run|]. split; [|by split].
  split; [|split; [|split]].
  - unfold swap_heap. eauto 14 with heap.
  - rewrite concat_fmap_swap. apply (NoDup_fmap_2 _). done.
  - rewrite Forall_forall in Hl |- *. intros l (l0 & -> & Hl0)%list_elem_of_fmap.
    eapply dlist_swap; [done..| |by apply Hl]. intros a p n.
    apply (swap_links h ls s1 s2 c1 c2 cap1 cap2 Hf H1 H2 Hne Ha1 Ha2).
  - intros a c Ha. rewrite concat_fmap_swap. unfold slot_ok. rewrite elem_of_swap.
    unfold swap_addr. destruct (decide (a = s1)) as [->|]; [|destruct (decide (a = s2)) as [->|]].
    + rewrite Hs1 in Ha. simplify_eq. cbn. destruct (Hok s2 c2 H2) as [I Z]. rewrite I. tauto.
    + rewrite Hs2 in Ha. simplify_eq. cbn. destruct (Hok s1 c1 H1) as [I Z]. rewrite I. tauto.
    + destruct (h !! a) as [e|] eqn:He.
      * rewrite (swap_heap_other h ls s1 s2 c1 c2 cap1 cap2 Hf H1 H2 a e) in Ha by done.
        simplify_eq. cbn. destruct (Hok a e He) as [I Z]. split; [done|].
        intros E. rewrite (Z E). cbn. unfold swap_addr. by rewrite !decide_False.
      * specialize (Hother a). rewrite He, Ha in Hother. by specialize (Hother n n0).
Qed.

(** On two neighbours [cte_swap] corrupts the derivation list: it saves
    both MDB nodes before relinking the neighbours of the first slot, so the
    second node it writes back is stale.  Both slots end up linked to
    themselves and no forest describes the result.  (The C kernel reads the
    second node after that relinking.) *)
Theorem cte_swap_adjacent_corrupts h ls1 l1 s1 s2 l2 ls2 cap1 cap2 :
  mdb_forest h (ls1 ++ (l1 ++ s1 :: s2 :: l2) :: ls2) ->
  exists h' c1' c2', cte_swap cap1 s1 cap2 s2 h = Ok (tt, h') /\
    h' !! s1 = Some c1' /\ mdbNext (cteMDBNode c1') = s1 /\ mdbPrev (cteMDBNode c1') = s1 /\
    h' !! s2 = Some c2' /\ mdbNext (cteMDBNode c2') = s2 /\
    forall ls', ~ mdb_forest h' ls'.
Proof.
  intros Hf. destruct (forest_slot _ _ _ _ _ _ Hf) as (c1 & H1 & _ & Hp1 & Hn1 & _ & _).
  pose proof (forest_list _ _ _ _ Hf) as Hl. pose proof Hl as (Hnd & H0 & _).
  assert (Hf2 := Hf). replace (l1 ++ s1 :: s2 :: l2) with ((l1 ++ [s1]) ++ s2 :: l2) in Hf2
    by by rewrite <- app_assoc.
  destruct (forest_slot _ _ _ _ _ _ Hf2) as (c2 & H2 & _ & Hp2 & Hn2 & _ & _).
  rewrite lastz_snoc in Hp2. cbn in Hn1.
  apply NoDup_app in Hnd as (_ & Hd1 & Hnd). apply NoDup_cons in Hnd as [Hs1 Hnd].
  apply NoDup_cons in Hnd as [Hs2 _].
  assert (s1 <> s2) as Hne by set_solver. assert (s1 <> 0 /\ s2 <> 0) as [Hz1 Hz2] by set_solver.
  assert (headz 0 l2 <> s1 /\ headz 0 l2 <> s2) as [Hx1 Hx2]
    by (split; apply headz_notin; set_solver).
  assert (E1 : swap_heap h s1 s2 c1 c2 cap1 cap2 !! s1 = Some (mk_cte cap2
    (mk_mdb_node s1 (mdbRevocable (cteMDBNode c2)) (mdbFirstBadged (cteMDBNode c2)) s1))).
  { unfold swap_heap. rewrite Hp1, Hn1, Hp2, Hn2, !lookup_alter_case.
    repeat case_decide; try done; rewrite H1; unfold set_mdbNext, set; cbn; by rewrite Hp2. }
  assert (E2 : swap_heap h s1 s2 c1 c2 cap1 cap2 !! s2 = Some (mk_cte cap1 (cteMDBNode c1))).
  { unfold swap_heap. rewrite Hp1, Hn1, Hp2, Hn2, !lookup_alter_case.
    repeat case_decide; try done; by rewrite H2. }
  do 3 eexists. split; [by eapply cte_swap_run|].
  split; [exact E1|]. do 2 (split; [done|]). split; [exact E2|]. split; [done|].
  intros ls' Hf'. destruct (forest_next _ ls' s1 _ s1 Hf' E1 eq_refl Hz1) as [? _]. done.
Qed.

(** ** A concrete forest *)

Module Example.
Definition ep_cap (badge : Z) : cap := cap_endpoint_cap (mk_endpoint_cap badge 1 1 1 1 0x80000040).
Definition ut_cap : cap := cap_untyped_cap (mk_untyped_cap 0 0 20 0x80000000).

(** An endpoint capability at slot 32 with two badged children at 64 and 96,
    an untyped capability at 128 and an empty slot at 160. *)
Definition slots : gmap Z cte_t :=
  <[32 := mk_cte (ep_cap 0) (mk_mdb_node 64 1 1 0)]>
  (<[64 := mk_cte (ep_cap 7) (mk_mdb_node 96 1 1 32)]>
  (<[96 := mk_cte (ep_cap 9) (mk_mdb_node 0 1 1 64)]>
  (<[128 := mk_cte ut_cap (mk_mdb_node 0 1 1 0)]>
  (<[160 := mk_cte cap_null_cap mdb_zero]> ∅)))).

Definition lists : list (list Z) := [[32; 64; 96]; [128]].

Lemma slots_forest : mdb_forest slots lists.
Proof.
  split; [reflexivity|]. split; [by apply (bool_decide_unpack _)|]. split.
  - repeat constructor; try (by apply (bool_decide_unpack _)); cbn; set_solver.
  - intros a c Hc. unfold slots in Hc.
    repeat (apply lookup_insert_Some in Hc as [[<- <-]|[_ Hc]];
            [unfold lists, slot_ok; cbn; split; [set_solver|done]|]).
    done.
Qed.
End Example.

Lemma unlink_slot_forest_witness :
  exists h', unlink_slot 64 Example.slots = Ok (true, h') /\
    mdb_forest h' [[32; 96]; [128]].
Proof.
  destruct (unlink_slot_forest Example.slots [] [32] 64 [96] [[128]] Example.slots_forest)
    as (h' & H1 & H2 & _).
  exists h'. split; [exact H1|exact H2].
Defined.

Lemma cte_insert_forest_witness :
  exists h', @cte_insert riscv_config (Example.ep_cap 5) 32 160 Example.slots = Ok (tt, h') /\
    mdb_forest h' [[32; 160; 64; 96]; [128]].
Proof.
  destruct (@cte_insert_forest riscv_config Example.slots [] [] 32 [64; 96] [[128]] 160
              (mk_cte cap_null_cap mdb_zero) (Example.ep_cap 5) true)
    as (h' & H1 & H2 & _); [exact Example.slots_forest|reflexivity|reflexivity|discriminate| |].
  { intros c Hc. injection Hc as <-. reflexivity. }
  exists h'. split; [exact H1|exact H2].
Defined.

Lemma insert_new_cap_forest_witness :
  exists h', insert_new_cap 128 160 (Example.ep_cap 0) Example.slots = Ok (tt, h') /\
    mdb_forest h' [[32; 64; 96]; [128; 160]].
Proof.
  destruct (insert_new_cap_forest Example.slots [[32; 64; 96]] [] 128 [] [] 160
              (mk_cte cap_null_cap mdb_zero) (Example.ep_cap 0))
    as (h' & H1 & H2 & _); [exact Example.slots_forest|reflexivity|reflexivity|discriminate|].
  exists h'. split; [exact H1|exact H2].
Defined.

Lemma cte_move_forest_witness :
  exists h', cte_move (Example.ep_cap 7) 64 160 Example.slots = Ok (tt, h') /\
    mdb_forest h' [[32; 160; 96]; [128]].
Proof.
  destruct (cte_move_forest Example.slots [] [32] 64 [96] [[128]] 160
              (mk_cte (Example.ep_cap 7) (mk_mdb_node 96 1 1 32))
              (mk_cte cap_null_cap mdb_zero) (Example.ep_cap 7))
    as (h' & H1 & H2 & _);
    [exact Example.slots_forest|reflexivity|reflexivity|reflexivity|discriminate|].
  exists h'. split; [exact H1|exact H2].
Defined.

Lemma cte_swap_forest_witness :
  exists h', cte_swap (Example.ep_cap 0) 32 (Example.ep_cap 9) 96 Example.slots = Ok (tt, h') /\
    mdb_forest h' [[96; 64; 32]; [128]].
Proof.
  destruct (cte_swap_forest Example.slots Example.lists 32 96
              (mk_cte (Example.ep_cap 0) (mk_mdb_node 64 1 1 0))
              (mk_cte (Example.ep_cap 9) (mk_mdb_node 0 1 1 64))
              (Example.ep_cap 0) (Example.ep_cap 9))
    as (h' & H1 & H2 & _);
    [exact Example.slots_forest|reflexivity|reflexivity|lia|cbn; lia|cbn; lia
    |split; discriminate|split; discriminate|].
  exists h'. split; [exact H1|exact H2].
Defined.

Lemma cte_swap_adjacent_corrupts_witness :
  exists h' c1', cte_swap (Example.ep_cap 0) 32 (Example.ep_cap 7) 64 Example.slots = Ok (tt, h') /\
    h' !! 32 = Some c1' /\ mdbNext (cteMDBNode c1') = 32 /\ forall ls', ~ mdb_forest h' ls'.
Proof.
  destruct (cte_swap_adjacent_corrupts Example.slots [] [] 32 64 [96] [[128]]
              (Example.ep_cap 0) (Example.ep_cap 7) Example.slots_forest)
    as (h' & c1' & c2' & H1 & H2 & H3 & _ & _ & _ & H4).
  exists h', c1'. repeat split; assumption.
Defined.
