(* ===== verification/CSpaceProps.v ===== *)
(** * Addressing

    [resolve_address_bits] against a declarative notion of path through
    CNodes. *)

From S2P Require Import Prelude Monad DList Config Objects State CapOps CSpace MDB.

(** ** CSpace addresses *)

(** The [len] bits of [ptr] below bit [hi]. *)
Definition addr_bits (ptr hi len : Z) : Z := (ptr / 2 ^ (hi - len)) mod 2 ^ len.

(** The slot an address of [n] bits selects in a CNode. *)
Definition level_slot (cn : cnode_cap) (ptr n : Z) : Z :=
  get_offset_slot (capCNodePtr cn) (addr_bits ptr (n - capCNodeGuardSize cn) (capCNodeRadix cn)).

Definition guard_matches (cn : cnode_cap) (ptr n : Z) : Prop :=
  addr_bits ptr n (capCNodeGuardSize cn) = capCNodeGuard cn.

#[export] Instance guard_matches_dec cn ptr n : Decision (guard_matches cn ptr n).
Proof. unfold guard_matches. apply _. Defined.

Definition level_bits (cn : cnode_cap) : Z := capCNodeRadix cn + capCNodeGuardSize cn.

Definition is_cnode_cap (c : cap) : Prop := exists cn, c = cap_cnode_cap cn.

(** [cspace_path h ptr cn n slot left]: starting in the CNode [cn] with [n]
    address bits, the address leads to [slot] with [left] bits unused. *)
Inductive cspace_path (h : gmap Z cte_t) (ptr : Z) : cnode_cap -> Z -> Z -> Z -> Prop :=
| path_done cn n :
    guard_matches cn ptr n -> level_bits cn = n ->
    cspace_path h ptr cn n (level_slot cn ptr n) 0
| path_leaf cn n c :
    guard_matches cn ptr n -> level_bits cn < n ->
    h !! level_slot cn ptr n = Some c -> ~ is_cnode_cap (capability c) ->
    cspace_path h ptr cn n (level_slot cn ptr n) (n - level_bits cn)
| path_step cn n c cn' slot left :
    guard_matches cn ptr n -> level_bits cn < n ->
    h !! level_slot cn ptr n = Some c -> capability c = cap_cnode_cap cn' ->
    cspace_path h ptr cn' (n - level_bits cn) slot left ->
    cspace_path h ptr cn n slot left.

Lemma cspace_path_det h ptr cn n s1 l1 s2 l2 :
  cspace_path h ptr cn n s1 l1 -> cspace_path h ptr cn n s2 l2 -> s1 = s2 /\ l1 = l2.
Proof.
  intros H1. revert s2 l2. induction H1 as [|? ? ? ? ? Hc Hn|? ? ? ? ? ? ? ? Hc Hcap _ IH];
    intros s2 l2 H2; inversion H2; subst; simplify_eq; try lia; auto.
  - exfalso. apply Hn. by eexists.
  - exfalso. match goal with H : ~ is_cnode_cap _ |- _ => apply H end. by eexists.
  - match goal with H : capability _ = cap_cnode_cap ?x |- _ =>
      assert (x = cn') as -> by congruence end. auto.
Qed.

(** A CNode capability that resolves at least one bit, and whose slots exist. *)
Definition cnode_ok (h : gmap Z cte_t) (cn : cnode_cap) : Prop :=
  0 <= capCNodeRadix cn < 64 /\ 0 <= capCNodeGuardSize cn < 64 /\ 0 < level_bits cn /\
  forall i, 0 <= i < 2 ^ capCNodeRadix cn ->
    get_offset_slot (capCNodePtr cn) i <> 0 /\ is_Some (h !! get_offset_slot (capCNodePtr cn) i).

Definition cnodes_ok (h : gmap Z cte_t) : Prop :=
  forall a c cn, h !! a = Some c -> capability c = cap_cnode_cap cn -> cnode_ok h cn.

Section resolve.
Context (h : gmap Z cte_t) (ptr : Z).

Lemma guard_bits_eq n g :
  0 <= g < 64 -> 0 < n <= 64 -> g <= n ->
  Z.land (ptr >>w Z.land (n -w g) (mask_bits WORD_RADIX)) (mask_bits g) = addr_bits ptr n g.
Proof.
  intros Hg Hn Hgn. unfold addr_bits. rewrite land_mask by lia.
  rewrite wsub_small by (rewrite ?word_size_val; lia).
  rewrite land_mask by (unfold WORD_RADIX; lia). change (2 ^ WORD_RADIX) with 64.
  destruct (decide (g = 0)) as [->|].
  - change (2 ^ 0) with 1. by rewrite !Z.mod_1_r.
  - rewrite (Z.mod_small (n - g) 64) by lia. by rewrite wshr_div by lia.
Qed.

Lemma slot_bits_eq cn n :
  0 <= capCNodeRadix cn < 64 -> 0 < level_bits cn -> 0 < n <= 64 -> level_bits cn <= n ->
  0 <= capCNodeGuardSize cn ->
  get_offset_slot (capCNodePtr cn)
    (Z.land (ptr >>w (n -w level_bits cn)) (mask_bits (capCNodeRadix cn))) =
  level_slot cn ptr n.
Proof.
  intros. unfold level_slot, addr_bits. rewrite land_mask by lia.
  rewrite wsub_small by (rewrite ?word_size_val; lia). rewrite wshr_div by lia.
  do 4 f_equal. unfold level_bits. lia.
Qed.

Lemma level_bits_w cn :
  0 <= capCNodeRadix cn < 64 -> 0 <= capCNodeGuardSize cn < 64 ->
  capCNodeRadix cn +w capCNodeGuardSize cn = level_bits cn.
Proof. intros. unfold level_bits. apply wadd_small; rewrite ?word_size_val; lia. Qed.

Lemma cnode_slot_ok cn n : cnode_ok h cn ->
  level_slot cn ptr n <> 0 /\ is_Some (h !! level_slot cn ptr n).
Proof.
  intros (Hr & _ & _ & Hs). apply Hs. unfold addr_bits.
  apply Z.mod_pos_bound, pow2_pos. lia.
Qed.

(** One turn of the loop, as the guard test and the three ways on. *)
Lemma resolve_loop_unfold fuel init cn n :
  cnode_ok h cn -> 0 < n <= 64 ->
  resolve_loop (S fuel) init cn ptr n h =
    if decide (capCNodeGuardSize cn <= n /\ guard_matches cn ptr n /\ level_bits cn <= n) then
      if decide (n = level_bits cn) then Ok (mk_resolve_ret EXCEPTION_NONE (level_slot cn ptr n) 0, h)
      else match h !! level_slot cn ptr n with
           | Some c => match capability c with
                       | cap_cnode_cap cn' => resolve_loop fuel init cn' ptr (n - level_bits cn) h
                       | _ => Ok (mk_resolve_ret EXCEPTION_NONE (level_slot cn ptr n)
                                    (n - level_bits cn), h)
                       end
           | None => Err EUndef
           end
    else Ok (mk_resolve_ret EXCEPTION_LOOKUP_FAULT 0 init, h).
Proof.
  intros Hcn Hn. pose proof (cnode_slot_ok cn n Hcn) as [Hs0 [c Hc]].
  destruct Hcn as (Hr & Hg & Hl & _). cbn [resolve_loop].
  rewrite level_bits_w by done. destruct (Z.eqb_spec (level_bits cn) 0); [lia|].
  erewrite bind_ok by reflexivity.
  destruct (Z.ltb_spec n (capCNodeGuardSize cn)) as [Hlt|Hge]; cbn [orb].
  { rewrite decide_False by lia. done. }
  rewrite guard_bits_eq by lia. unfold guard_matches.
  destruct (Z.eqb_spec (addr_bits ptr n (capCNodeGuardSize cn)) (capCNodeGuard cn)) as [E|E]; cbn [negb].
  2: { rewrite decide_False by tauto. done. }
  destruct (Z.ltb_spec n (level_bits cn)) as [Hlt|Hge2].
  { rewrite decide_False by lia. done. }
  rewrite decide_True by done. rewrite slot_bits_eq by lia.
  destruct (Z.eqb_spec n (level_bits cn)) as [En|En].
  { by rewrite decide_True. }
  rewrite decide_False by done. rewrite wsub_small by (rewrite ?word_size_val; lia).
  erewrite bind_ok by (by eapply hget_ok). rewrite Hc. by destruct (capability c).
Qed.

Lemma resolve_loop_total fuel init cn n :
  cnodes_ok h -> cnode_ok h cn -> 0 < n <= 64 -> n < Z.of_nat fuel ->
  exists r, resolve_loop fuel init cn ptr n h = Ok (r, h) /\
    (ra_status r = EXCEPTION_NONE -> cspace_path h ptr cn n (ra_slot r) (ra_bitsRemaining r)) /\
    (ra_status r <> EXCEPTION_NONE ->
       r = mk_resolve_ret EXCEPTION_LOOKUP_FAULT 0 init /\
       forall slot left, ~ cspace_path h ptr cn n slot left).
Proof.
  intros Hall. revert cn n. induction fuel as [|fuel IH]; intros cn n Hcn Hn Hf; [lia|].
  rewrite resolve_loop_unfold by done. pose proof (cnode_slot_ok cn n Hcn) as [_ [c Hc]].
  pose proof Hcn as (Hr & Hg & Hl & _). rewrite Hc.
  destruct (decide _) as [(Hgn & Hm & Hle)|Hno].
  - destruct (decide (n = level_bits cn)) as [->|Hne].
    { eexists. split; [done|]. split; [intros _; by apply path_done|done]. }
    assert (Hleaf : ~ is_cnode_cap (capability c) ->
      cspace_path h ptr cn n (level_slot cn ptr n) (n - level_bits cn)).
    { intros Hnc. by eapply path_leaf; eauto; lia. }
    destruct (capability c) as [| | | | |cn'| | | | | | | | | | | | |] eqn:Ec;
      try (eexists; split; [done|]; split; [intros _; apply Hleaf; by intros [? ?]|done]).
    destruct (IH cn' (n - level_bits cn)) as (r & Er & Hs & Hfail);
      [by eapply Hall|lia|lia|]. exists r. split; [done|]. split.
    + intros E. eapply path_step; eauto; lia.
    + intros E. destruct (Hfail E) as [-> Hno]. split; [done|]. intros slot left Hp.
      inversion Hp as [? ? ? El|? ? c0 ? ? Hc0 Hnc|? ? c0 cn0 ? ? ? ? Hc0 Hcap Hrest]; subst.
      * done.
      * rewrite Hc in Hc0. injection Hc0 as <-. apply Hnc. rewrite Ec. by eexists.
      * rewrite Hc in Hc0. injection Hc0 as <-. rewrite Ec in Hcap. injection Hcap as <-.
        by eapply Hno.
  - eexists. split; [done|]. split; [done|]. intros _. split; [done|]. intros slot left Hp.
    apply Hno. inversion Hp; subst; (split; [|split; [done|]]); unfold level_bits in *; lia.
Qed.
End resolve.

(** C25. Looking up a CSpace address always terminates without touching the
    slots.  It succeeds with a slot and a remainder exactly when these are
    what the path through the CNodes gives (guards compared, radix bits
    selecting the slot, level by level); otherwise it reports a lookup fault,
    a null slot and the whole depth as unresolved. *)
Theorem resolve_address_bits_correct h cn ptr n :
  cnodes_ok h -> cnode_ok h cn -> 0 < n <= 64 ->
  exists r, resolve_address_bits (cap_cnode_cap cn) ptr n h = Ok (r, h) /\
    (forall slot left, r = mk_resolve_ret EXCEPTION_NONE slot left <->
                       cspace_path h ptr cn n slot left) /\
    (ra_status r <> EXCEPTION_NONE -> r = mk_resolve_ret EXCEPTION_LOOKUP_FAULT 0 n).
Proof.
  intros Hall Hcn Hn.
  destruct (resolve_loop_total h ptr (S (Z.to_nat n)) n cn n) as (r & Hr & Hok & Hko);
    [done..|lia|]. exists r. split; [done|]. split; [|by intros E; apply Hko].
  intros slot left. split; [intros ->; by apply Hok|]. intros Hpath.
  destruct r as [st sl lf]. destruct (decide (st = EXCEPTION_NONE)) as [->|E].
  - destruct (cspace_path_det _ _ _ _ _ _ _ _ Hpath (Hok eq_refl)) as [-> ->]. done.
  - by destruct (proj2 (Hko E) slot left).
Qed.

Module PathExample.
(** A root CNode with guard 2 (two bits) and two slots, the second of which
    holds a capability to another CNode of two slots. *)
Definition leaf : cnode_cap := mk_cnode_cap 1 0 0 0x2000.
Definition root : cnode_cap := mk_cnode_cap 1 2 2 0x1000.
Definition slots : gmap Z cte_t :=
  <[0x1000 := mk_cte cap_null_cap mdb_zero]>
  (<[0x1020 := mk_cte (cap_cnode_cap leaf) (mk_mdb_node 0 1 1 0)]>
  (<[0x2000 := mk_cte (cap_thread_cap 0x80010400) (mk_mdb_node 0 1 1 0)]>
  (<[0x2020 := mk_cte cap_null_cap mdb_zero]> ∅))).

Lemma root_ok : cnode_ok slots root.
Proof.
  split; [cbn; lia|]. split; [cbn; lia|]. split; [done|]. intros i Hi. cbn in Hi.
  assert (i = 0 \/ i = 1) as [-> | ->] by lia; (split; [done|by eexists]).
Qed.

Lemma slots_ok : cnodes_ok slots.
Proof.
  intros a c cn Ha Hc. unfold slots in Ha.
  repeat (apply lookup_insert_Some in Ha as [[<- <-]|[_ Ha]]; [try done|]); [|done].
  injection Hc as <-. split; [cbn; lia|]. split; [cbn; lia|]. split; [done|]. intros i Hi. cbn in Hi.
  assert (i = 0 \/ i = 1) as [-> | ->] by lia; (split; [done|by eexists]).
Qed.
End PathExample.

(** Witness: address 10 1 0 (guard 2, slot 1, then slot 0 of the second
    level) resolves to the thread capability at 0x2000. *)
Lemma resolve_address_bits_correct_witness :
  resolve_address_bits (cap_cnode_cap PathExample.root) 10 4 PathExample.slots =
    Ok (mk_resolve_ret EXCEPTION_NONE 0x2000 0, PathExample.slots) /\
  cspace_path PathExample.slots 10 PathExample.root 4 0x2000 0.
Proof.
  destruct (resolve_address_bits_correct PathExample.slots PathExample.root 10 4)
    as (r & Hr & Hp & _);
    [exact PathExample.slots_ok|exact PathExample.root_ok|lia|].
  split; [reflexivity|]. apply Hp. vm_compute in Hr. injection Hr as <-. reflexivity.
Defined.

(** ** Slots of the kernel state *)

Lemma get_cte_run s a c : a <> 0 -> ctes s !! a = Some c -> get_cte a s = Ok (c, s).
Proof.
  intros Ha Hc. unfold get_cte, on_ctes, lift_part. rewrite (hget_ok _ _ _ Ha Hc).
  by rewrite kstate_ctes_id.
Qed.

Lemma on_ctes_run {A} (m : C A) s a h' :
  m (ctes s) = Ok (a, h') -> on_ctes m s = Ok (a, s <| ctes := h' |>).
Proof. intros E. unfold on_ctes, lift_part. by rewrite E. Qed.

Lemma on_ctes_read {A} (m : C A) s a :
  m (ctes s) = Ok (a, ctes s) -> on_ctes m s = Ok (a, s).
Proof. intros E. rewrite (on_ctes_run m s a _ E). by rewrite kstate_ctes_id. Qed.
