(* ===== verification/VSpace.v ===== *)
(** * Address spaces (sel4_vspace)

    The ASID tables of both architectures, the translation root, and the
    RISC-V Sv39 page tables.  Page-table entries live in a heap of words; a
    page table is the 512 entries behind its base address. *)

From S2P Require Import Prelude Monad Config Objects State CapOps.

Definition V (A : Type) : Type := M vspace_state A.

Definition on_ptes {A} (m : M (gmap Z Z) A) : V A :=
  lift_part ptes (fun h v => v <| ptes := h |>) m.
Definition on_pools {A} (m : M (gmap Z (list Z)) A) : V A :=
  lift_part asid_pools (fun h v => v <| asid_pools := h |>) m.
Definition on_map_pools {A} (m : M (gmap Z (list asid_map)) A) : V A :=
  lift_part asid_map_pools (fun h v => v <| asid_map_pools := h |>) m.

(** [Option::unwrap]. *)
Definition unwrap {S A} (o : option A) : M S A :=
  match o with Some a => ret a | None => fail EPanic end.

(** ** Page-table entries (riscv64/pte.rs) *)

Module PTEFlags.
Definition V_ : Z := bit 0.
Definition R_ : Z := bit 1.
Definition W_ : Z := bit 2.
Definition X_ : Z := bit 3.
Definition U_ : Z := bit 4.
Definition G_ : Z := bit 5.
Definition A_ : Z := bit 6.
Definition D_ : Z := bit 7.
End PTEFlags.
Import PTEFlags.

Definition pte_new (ppn flags : Z) : Z := Z.lor flags (ppn <<w 10).
Definition pte_invalid : Z := 0.

Definition get_valid (e : Z) : Z := Z.land e 0x1 >>w 0.
Definition get_ppn (e : Z) : Z := Z.land e 0x3ffffffffffc00 >>w 10.
Definition get_execute (e : Z) : Z := Z.land e 0x8 >>w 3.
Definition get_write (e : Z) : Z := Z.land e 0x4 >>w 2.
Definition get_read (e : Z) : Z := Z.land e 0x2 >>w 1.

Definition is_pte_table (e : Z) : bool :=
  negb (get_valid e =? 0) &&
  negb (negb (get_read e =? 0) || negb (get_write e =? 0) || negb (get_execute e =? 0)).

(** vm_rights_t of RISC-V: 1 kernel only, 2 read only, 3 read and write. *)
Definition riscv_get_write_from_vm_rights (r : Z) : bool := r =? 3.
Definition riscv_get_read_from_vm_rights (r : Z) : bool := negb (r =? 1).

Definition make_user_pte (paddr : Z) (executable : bool) (vm_rights : Z) : Z :=
  let write := riscv_get_write_from_vm_rights vm_rights in
  let read := riscv_get_read_from_vm_rights vm_rights in
  if negb executable && negb read && negb write then pte_invalid
  else
    let flag := Z.lor (Z.lor (Z.lor V_ D_) A_) U_ in
    let flag := if executable then Z.lor flag X_ else flag in
    let flag := if write then Z.lor flag W_ else flag in
    let flag := if read then Z.lor flag R_ else flag in
    pte_new (paddr >>w SEL4_PAGE_BITS) flag.

Definition pte_next_table (phys_addr : Z) (is_leaf : bool) : Z :=
  let ppn := phys_addr >>w 12 in
  let flag := Z.lor V_ G_ in
  let flag := if is_leaf then Z.lor flag (Z.lor (Z.lor (Z.lor (Z.lor X_ W_) R_) A_) D_) else flag in
  pte_new ppn flag.

(** riscv64/utils.rs *)
Definition riscv_get_lvl_pgsize_bits (n : Z) : Z :=
  (PT_INDEX_BITS *w ((CONFIG_PT_LEVELS -w 1) -w n)) +w SEL4_PAGE_BITS.
Definition riscv_get_lvl_pgsize (n : Z) : Z := bit (riscv_get_lvl_pgsize_bits n).
Definition riscv_get_pt_index (addr n : Z) : Z :=
  Z.land (addr >>w ((PT_INDEX_BITS *w ((CONFIG_PT_LEVELS -w 1) -w n)) +w SEL4_PAGE_BITS))
    (mask_bits PT_INDEX_BITS).

(** [pt.add(i)] on a pointer to entries. *)
Definition pte_at (pt i : Z) : Z := pt +w (8 *w i).

Section vspace.
Context `{Config}.

(** rel4-arch/src/basic/addr.rs *)
Definition to_paddr (pptr : Z) : Z := pptr -w PPTR_BASE_OFFSET.
Definition to_pptr (paddr : Z) : Z := paddr +w PPTR_BASE_OFFSET.
Definition kpptr_to_paddr (x : Z) : Z := x -w KERNEL_ELF_BASE_OFFSET.

Definition get_pte_from_ppn_mut (e : Z) : Z := to_pptr (get_ppn e <<w SEL4_PAGE_TABLE_BITS).

(** ** Looking up the slot of an address *)

Record lookupPTSlot_ret_t := mk_lookupPTSlot_ret { ptSlot : Z; ptBitsLeft : Z }.

Fixpoint lookup_pt_loop (level : nat) (vptr : Z) (r : lookupPTSlot_ret_t) : V lookupPTSlot_ret_t :=
  let* e := on_ptes (hget (ptSlot r)) in
  match level with
  | O => ret r
  | S l =>
      if is_pte_table e then
        let left := ptBitsLeft r -w PT_INDEX_BITS in
        let pt := get_pte_from_ppn_mut e in
        lookup_pt_loop l vptr
          (mk_lookupPTSlot_ret (pte_at pt (Z.land (vptr >>w left) (mask_bits PT_INDEX_BITS))) left)
      else ret r
  end.

Definition lookup_pt_slot (pt vptr : Z) : V lookupPTSlot_ret_t :=
  let level := CONFIG_PT_LEVELS -w 1 in
  let left := (PT_INDEX_BITS *w level) +w SEL4_PAGE_BITS in
  lookup_pt_loop (Z.to_nat level) vptr
    (mk_lookupPTSlot_ret (pte_at pt (Z.land (vptr >>w left) (mask_bits PT_INDEX_BITS))) left).

(** ** ASIDs *)

Record findVSpaceForASID_ret := mk_findVSpace_ret {
  fv_status : exception_t; fv_vspace_root : option Z; fv_lookup_fault : option lookup_fault }.

Definition asid_fault : findVSpaceForASID_ret :=
  mk_findVSpace_ret EXCEPTION_LOOKUP_FAULT None (Some invalid_root).

Definition asid_high (asid : Z) : Z := asid >>w ASID_LOW_BITS.
Definition asid_low (asid : Z) : Z := Z.land asid (mask_bits ASID_LOW_BITS).

(** riscv64/asid.rs *)
Definition riscv_find_vspace_for_asid (asid : Z) : V findVSpaceForASID_ret :=
  let* table := gets asid_table in
  let* poolPtr := lift_res (array_get table (asid_high asid)) in
  if poolPtr =? 0 then ret asid_fault
  else
    let* pool := on_pools (hget poolPtr) in
    let* vspace_root := lift_res (array_get pool (asid_low asid)) in
    if vspace_root =? 0 then ret asid_fault
    else ret (mk_findVSpace_ret EXCEPTION_NONE (Some vspace_root) None).

(** aarch64/asid.rs *)
Definition find_map_for_asid (asid : Z) : V (option asid_map) :=
  let* table := gets asid_table in
  let* poolPtr := lift_res (array_get table (asid_high asid)) in
  if poolPtr =? 0 then ret None
  else
    let* pool := on_map_pools (hget poolPtr) in
    let* m := lift_res (array_get pool (asid_low asid)) in
    ret (Some m).

Definition aarch64_find_vspace_for_asid (asid : Z) : V findVSpaceForASID_ret :=
  let* m := find_map_for_asid asid in
  ret (match m with
       | Some (asid_map_vspace root) =>
           mk_findVSpace_ret EXCEPTION_NONE (Some root) (Some invalid_root)
       | _ => asid_fault
       end).

Definition find_vspace_for_asid (asid : Z) : V findVSpaceForASID_ret :=
  match target_arch with
  | RISCV64 => riscv_find_vspace_for_asid asid
  | AARCH64 => aarch64_find_vspace_for_asid asid
  end.

(** ** The translation root *)

Definition satp_new (mode asid ppn : Z) : Z :=
  Z.lor (Z.lor (Z.lor 0 (Z.land mode 0xf <<w 60)) (Z.land asid 0xffff <<w 44))
    (Z.land ppn 0xfffffffffff <<w 0).
Definition set_vspace_root (addr asid : Z) : V unit :=
  modify (fun v => v <| vm_root := satp_new 8 asid (addr >>w 12) |>).

Definition ttbr_new (asid addr : Z) : Z :=
  Z.lor (Z.land asid 0xffff <<w 48) (Z.land addr 0xffffffffffff).
Definition set_current_user_vspace_root (val : Z) : V unit :=
  modify (fun v => v <| vm_root := val |>).

(** [Result<(), lookup_fault>]: [None] is [Ok]. *)
Definition vresult : Type := option lookup_fault.

Definition riscv_set_vm_root (vspace_root_cap : cap) : V vresult :=
  match vspace_root_cap with
  | cap_page_table_cap c =>
      let lvl1pt := capPTBasePtr c in
      kassert (negb (lvl1pt =? 0)) ;;;
      let asid := capPTMappedASID c in
      let* find_ret := riscv_find_vspace_for_asid asid in
      let* r :=
        (if negb (exc_ok (fv_status find_ret)) ||
            match fv_vspace_root find_ret with None => true | Some root => negb (root =? lvl1pt) end
         then set_vspace_root (kpptr_to_paddr kernel_root_page_table) 0 ;;;
              ret (fv_lookup_fault find_ret)
         else ret None) in
      set_vspace_root (to_paddr lvl1pt) asid ;;;
      ret r
  | _ => set_vspace_root (kpptr_to_paddr kernel_root_page_table) 0 ;;; ret None
  end.

(** The user table with no mappings, with ASID 0. *)
Definition set_empty_user_root : V unit :=
  set_current_user_vspace_root (ttbr_new 0 (kpptr_to_paddr arm_global_user_vspace)).

Definition is_valid_native_root (c : cap) : bool :=
  match target_arch, c with
  | RISCV64, cap_page_table_cap t => negb (capPTIsMapped t =? 0)
  | AARCH64, cap_vspace_cap t => negb (capVSIsMapped t =? 0)
  | _, _ => false
  end.

Definition aarch64_set_vm_root (thread_root : cap) : V vresult :=
  match thread_root with
  | cap_vspace_cap c =>
      if negb (is_valid_native_root thread_root) then set_empty_user_root ;;; ret None
      else
        let vspace_root := capVSBasePtr c in
        let* find_ret := aarch64_find_vspace_for_asid (capVSMappedASID c) in
        if match fv_vspace_root find_ret with
           | Some root => negb (exc_ok (fv_status find_ret)) || negb (root =? vspace_root)
           | None => false
           end
        then set_empty_user_root ;;; ret None
        else set_current_user_vspace_root (to_paddr vspace_root) ;;; ret None
  | _ => set_empty_user_root ;;; ret None
  end.

Definition set_vm_root (c : cap) : V vresult :=
  match target_arch with RISCV64 => riscv_set_vm_root c | AARCH64 => aarch64_set_vm_root c end.

(** ** Deleting address spaces *)

Definition riscv_delete_asid (asid vspace : Z) (default_vspace_cap : cap) : V vresult :=
  let* table := gets asid_table in
  let* poolPtr := lift_res (array_get table (asid_high asid)) in
  if poolPtr =? 0 then ret None
  else
    let* pool := on_pools (hget poolPtr) in
    let* root := lift_res (array_get pool (asid_low asid)) in
    if root =? vspace then
      let* pool' := lift_res (array_set pool (asid_low asid) 0) in
      on_pools (hmod poolPtr (fun _ => pool')) ;;;
      riscv_set_vm_root default_vspace_cap
    else ret None.

Definition aarch64_delete_asid (asid vspace : Z) (capability : cap) : V vresult :=
  let* table := gets asid_table in
  let* poolPtr := lift_res (array_get table (asid_high asid)) in
  if poolPtr =? 0 then ret None
  else
    let* pool := on_map_pools (hget poolPtr) in
    let* m := lift_res (array_get pool (asid_low asid)) in
    match m with
    | asid_map_vspace root =>
        if root =? vspace then
          let* pool' := lift_res (array_set pool (asid_low asid) asid_map_none) in
          on_map_pools (hmod poolPtr (fun _ => pool')) ;;;
          aarch64_set_vm_root capability
        else ret None
    | asid_map_none => ret None
    end.

Definition delete_asid (asid vspace : Z) (c : cap) : V vresult :=
  match target_arch with
  | RISCV64 => riscv_delete_asid asid vspace c
  | AARCH64 => aarch64_delete_asid asid vspace c
  end.

Definition set_asid_pool_by_index (index pool_ptr : Z) : V unit :=
  let* table := gets asid_table in
  let* table' := lift_res (array_set table index pool_ptr) in
  modify (fun v => v <| asid_table := table' |>).

(** TLB maintenance has no counterpart in the model, so the AArch64 loop over
    the pool leaves only its reads. *)
Definition delete_asid_pool (asid_base pool : Z) (default_vspace_cap : cap) : V vresult :=
  let* table := gets asid_table in
  let* entry := lift_res (array_get table (asid_high asid_base)) in
  if entry =? pool then
    match target_arch with
    | RISCV64 => ret tt
    | AARCH64 => let* _ := on_map_pools (hget pool) in ret tt
    end ;;;
    set_asid_pool_by_index (asid_high asid_base) 0 ;;;
    set_vm_root default_vspace_cap
  else ret None.

(** ** Unmapping (RISC-V) *)

Definition unmap_page (page_size asid vptr pptr : Z) : V vresult :=
  let* find_ret := riscv_find_vspace_for_asid asid in
  if negb (exc_ok (fv_status find_ret)) then
    let* f := unwrap (fv_lookup_fault find_ret) in ret (Some f)
  else
    let* root := unwrap (fv_vspace_root find_ret) in
    let* lu := lookup_pt_slot root vptr in
    let* page_bits := lift_res (pageBitsForSize page_size) in
    if negb (ptBitsLeft lu =? page_bits) then ret None
    else
      let* slot := on_ptes (hget (ptSlot lu)) in
      if (get_valid slot =? 0) || is_pte_table slot
         || negb (get_ppn slot <<w SEL4_PAGE_BITS =? to_paddr pptr)
      then ret None
      else on_ptes (hmod (ptSlot lu) (fun _ => 0)) ;;; ret None.

(** The loop of [unmap_page_table]; [None] is its early return. *)
Fixpoint unmap_pt_loop (n : nat) (i vptr target_pt pt slot : Z) : V (option (Z * Z)) :=
  match n with
  | O => ret (Some (pt, slot))
  | S n' =>
      if negb (pt =? target_pt) then
        let slot' := pte_at pt (riscv_get_pt_index vptr i) in
        let* e := on_ptes (hget slot') in
        if is_pte_table e then ret None
        else unmap_pt_loop n' (i +w 1) vptr target_pt (get_pte_from_ppn_mut e) slot'
      else ret (Some (pt, slot))
  end.

Definition unmap_page_table (asid vptr target_pt : Z) : V unit :=
  let* find_ret := riscv_find_vspace_for_asid asid in
  if negb (exc_ok (fv_status find_ret)) then ret tt
  else
    let* root := unwrap (fv_vspace_root find_ret) in
    kassert (negb (root =? target_pt)) ;;;
    let* r := unmap_pt_loop (Z.to_nat (CONFIG_PT_LEVELS - 1)) 0 vptr target_pt root
                (pte_at root (riscv_get_pt_index vptr 0)) in
    match r with
    | None => ret tt
    | Some (pt, slot) =>
        if negb (pt =? target_pt) then ret tt
        else on_ptes (hmod slot (fun _ => pte_new 0 0))
    end.

End vspace.

(** ** Properties *)

Section properties.
Context `{Config}.
Implicit Types v : vspace_state.

(** Bits above [left] select the entry at that level. *)
Lemma index_same_page vptr vptr' left left' :
  0 <= left' <= left -> left < 64 -> vptr >>w left' = vptr' >>w left' -> vptr >>w left = vptr' >>w left.
Proof.
  intros Hl Hl' E. rewrite !wshr_div in * by lia.
  replace left with (left' + (left - left')) by lia.
  rewrite Z.pow_add_r, <- !Z.div_div by lia. by rewrite E.
Qed.

Lemma lookup_pt_loop_spec vptr v level : forall slot left r v',
  left = 9 * Z.of_nat level + 12 -> left <= 30 ->
  lookup_pt_loop level vptr (mk_lookupPTSlot_ret slot left) v = Ok (r, v') ->
  v' = v /\ ptBitsLeft r <= left /\ ptBitsLeft r ∈ [12; 21; 30] /\
  (exists e, ptes v !! ptSlot r = Some e /\ ptSlot r <> 0 /\
     (is_pte_table e = true -> ptBitsLeft r = 12)) /\
  forall vptr', vptr' >>w ptBitsLeft r = vptr >>w ptBitsLeft r ->
    lookup_pt_loop level vptr' (mk_lookupPTSlot_ret slot left) v = Ok (r, v).
Proof.
  induction level as [|l IH]; intros slot left r v' El Hl Hrun; cbn [lookup_pt_loop] in *;
    unfold bind in Hrun |- *; destruct (on_ptes _ v) as [[e v1]|] eqn:Er; try done;
    (apply lift_hget_inv in Er as (-> & Hs0 & Hs); [|by destruct v]); cbn [ptSlot ptBitsLeft] in *.
  - injection Hrun as <- <-. cbn. split_and!; [done|lia| | |done].
    { rewrite El. apply elem_of_cons. by left. } { eauto. }
  - destruct (is_pte_table e) eqn:Et.
    + assert (Ew : left -w PT_INDEX_BITS = left - 9).
      { apply wsub_small; unfold PT_INDEX_BITS, is_word; rewrite ?word_size_val; lia. }
      rewrite Ew in *. apply IH in Hrun as (-> & Hle & Hin & He & Hsame); [|lia|lia].
      split_and!; [done|lia|done|done|]. intros vptr' Ev.
      rewrite (index_same_page vptr' vptr (left - 9) (ptBitsLeft r)); [by apply Hsame| |lia|done].
      split; [|lia]. set_unfold. lia.
    + injection Hrun as <- <-. cbn. split_and!; [done|lia| | |done]; [|exists e; by rewrite Et].
      assert (left = 12 \/ left = 21 \/ left = 30) as [->| [->| ->]] by lia;
        rewrite !elem_of_cons; auto.
Qed.

Definition root_left : Z := (PT_INDEX_BITS *w (CONFIG_PT_LEVELS -w 1)) +w SEL4_PAGE_BITS.

Lemma lookup_pt_slot_spec pt vptr v r v' :
  lookup_pt_slot pt vptr v = Ok (r, v') ->
  v' = v /\ ptBitsLeft r ∈ [12; 21; 30] /\
  (exists e, ptes v !! ptSlot r = Some e /\ ptSlot r <> 0 /\
     (is_pte_table e = true -> ptBitsLeft r = 12)) /\
  forall vptr', vptr' >>w ptBitsLeft r = vptr >>w ptBitsLeft r ->
    lookup_pt_slot pt vptr' v = Ok (r, v).
Proof.
  unfold lookup_pt_slot. change (PT_INDEX_BITS *w (CONFIG_PT_LEVELS -w 1) +w SEL4_PAGE_BITS) with 30.
  change (Z.to_nat (CONFIG_PT_LEVELS -w 1)) with 2%nat. intros Hrun.
  apply lookup_pt_loop_spec in Hrun as (-> & Hle & Hin & He & Hsame); [|done|done].
  split_and!; [done|done|done|]. intros vptr' Ev.
  rewrite (index_same_page vptr' vptr 30 (ptBitsLeft r)); [by apply Hsame| |lia|done].
  split; [|lia]. set_unfold. lia.
Qed.

(** *** The walk of the architecture

    Sv39 as the privileged specification describes it: the table of level [l]
    is indexed by the nine bits of the address above bit [12 + 9 * l]; an
    entry with V set and R, W, X clear points to the table of the next level,
    whose physical page number is in bits 10 to 53. *)

Definition vpn (l : nat) (vptr : Z) : Z := (vptr / 2 ^ (12 + 9 * Z.of_nat l)) mod 512.
Definition entry_address (table : Z) (l : nat) (vptr : Z) : Z := wrap (table + 8 * vpn l vptr).
Definition points_to_table (e : Z) : bool :=
  Z.testbit e 0 && negb (Z.testbit e 1 || Z.testbit e 2 || Z.testbit e 3).
Definition next_table (e : Z) : Z := wrap (PPTR_BASE_OFFSET + 4096 * ((e / 2 ^ 10) mod 2 ^ 44)).

(** From [table] of level [l] the walk ends at the entry [slot] of level [l']. *)
Inductive sv39_walk (v : vspace_state) (vptr : Z) : nat -> Z -> Z -> nat -> Prop :=
| walk_ends l table e : entry_address table l vptr <> 0 -> ptes v !! entry_address table l vptr = Some e ->
    l = 0%nat \/ points_to_table e = false -> sv39_walk v vptr l table (entry_address table l vptr) l
| walk_descends l table e slot l' : entry_address table (S l) vptr <> 0 -> ptes v !! entry_address table (S l) vptr = Some e ->
    points_to_table e = true -> sv39_walk v vptr l (next_table e) slot l' -> sv39_walk v vptr (S l) table slot l'.

Lemma flag_testbit e k : 0 <= k < 64 -> negb (Z.land e (2 ^ k) >>w k =? 0) = Z.testbit e k.
Proof.
  intros Hk. rewrite wshr_div, <- Z.shiftr_div_pow2, Z.shiftr_land by lia.
  rewrite (Z.shiftr_div_pow2 (2 ^ k)), Z.div_same by (pose proof (pow2_pos k); lia).
  change 1 with (Z.ones 1). rewrite Z.land_ones, <- Z.bit0_mod, Z.shiftr_spec, Z.add_0_l by lia. by destruct (Z.testbit e k).
Qed.

Lemma is_pte_table_bits e : is_pte_table e = points_to_table e.
Proof.
  unfold is_pte_table, points_to_table, get_valid, get_read, get_write, get_execute.
  pose proof (fun k => flag_testbit e k) as Hf.
  by rewrite <- (Hf 0), <- (Hf 1), <- (Hf 2), <- (Hf 3) by lia.
Qed.

Lemma get_pte_from_ppn_bits e : get_pte_from_ppn_mut e = next_table e.
Proof.
  unfold get_pte_from_ppn_mut, to_pptr, next_table, get_ppn. rewrite wshr_div, <- Z.shiftr_div_pow2 by lia.
  change 0x3ffffffffffc00 with (Z.shiftl (Z.ones 44) 10).
  rewrite Z.shiftr_land, Z.shiftr_shiftl_l by lia. change (10 - 10) with 0.
  rewrite Z.shiftl_0_r, Z.land_ones, Z.shiftr_div_pow2 by lia. pose proof (Z.mod_pos_bound (e / 2 ^ 10) (2 ^ 44)).
  unfold wshl. change (SEL4_PAGE_TABLE_BITS mod 64) with 12. rewrite Z.shiftl_mul_pow2 by lia. change (2 ^ 12) with 4096.
  rewrite (wrap_small (_ * 4096)) by (unfold is_word; rewrite word_size_val; lia). unfold wadd. f_equal. lia.
Qed.

Lemma pte_at_entry pt vptr l : (l <= 2)%nat ->
  pte_at pt (Z.land (vptr >>w (12 + 9 * Z.of_nat l)) (mask_bits PT_INDEX_BITS)) = entry_address pt l vptr.
Proof.
  intros Hl. unfold pte_at, entry_address, vpn, PT_INDEX_BITS. rewrite land_mask, wshr_div by lia. change (2 ^ 9) with 512.
  pose proof (Z.mod_pos_bound (vptr / 2 ^ (12 + 9 * Z.of_nat l)) 512). unfold wadd at 1, wmul. rewrite (wrap_small (8 * _)); [done|].
  unfold is_word. rewrite word_size_val. lia.
Qed.

Lemma lookup_pt_loop_walk v vptr l : (l <= 2)%nat -> forall table r,
  lookup_pt_loop l vptr (mk_lookupPTSlot_ret (entry_address table l vptr) (12 + 9 * Z.of_nat l)) v = Ok (r, v) <->
  exists l', ptBitsLeft r = 12 + 9 * Z.of_nat l' /\ sv39_walk v vptr l table (ptSlot r) l'.
Proof.
  induction l as [|l IH]; intros Hl table r; cbn [lookup_pt_loop ptSlot ptBitsLeft]; unfold bind.
  all: destruct (on_ptes (hget _) v) as [[e v1]|] eqn:Er;
    [apply lift_hget_inv in Er as (-> & H0 & He); [|by destruct v]
    |split; [done|]; intros (l' & _ & Hw); inversion Hw; subst;
     unfold on_ptes in Er; erewrite lift_hget_ok in Er by (done || by destruct v); done].
  - split.
    + intros [= <-]. exists 0%nat. split; [done|]. apply (walk_ends _ _ _ _ e); auto.
    + intros (l' & Eb & Hw). inversion Hw as [? ? ? ? ? ? E1 E2 E3|]; subst. destruct r; cbn in *. by subst.
  - rewrite is_pte_table_bits, get_pte_from_ppn_bits.
    replace (12 + 9 * Z.of_nat (S l) -w PT_INDEX_BITS) with (12 + 9 * Z.of_nat l)
      by (rewrite wsub_small; unfold PT_INDEX_BITS; rewrite ?word_size_val; lia).
    rewrite pte_at_entry by lia. destruct (points_to_table e) eqn:Et.
    + rewrite IH by lia. split; intros (l' & Eb & Hw); exists l'; (split; [done|]).
      * by eapply walk_descends.
      * inversion Hw as [? ? ? ? He' Hor|]; simplify_eq; [by destruct Hor; congruence|done].
    + split.
      * intros [= <-]. exists (S l). split; [done|]. apply (walk_ends _ _ _ _ e); auto.
      * intros (l' & Eb & Hw). inversion Hw; simplify_eq; [|congruence]. destruct r; cbn in *. by subst.
Qed.

Lemma lookup_pt_slot_walk pt vptr v r v' : lookup_pt_slot pt vptr v = Ok (r, v') <->
  v' = v /\ exists l, ptBitsLeft r = 12 + 9 * Z.of_nat l /\ sv39_walk v vptr 2 pt (ptSlot r) l.
Proof.
  rewrite <- lookup_pt_loop_walk, <- (pte_at_entry pt vptr 2) by lia. change (12 + 9 * Z.of_nat 2) with 30. split.
  - intros Hrun. destruct (lookup_pt_slot_spec _ _ _ _ _ Hrun) as (-> & _). done.
  - by intros [-> Hrun].
Qed.


Lemma riscv_find_pure asid v r v' : riscv_find_vspace_for_asid asid v = Ok (r, v') -> v' = v.
Proof.
  unfold riscv_find_vspace_for_asid, on_pools. intros Hrun. runs Hrun.
  case_match; [by runs Hrun|]. runs Hrun. by case_match; runs Hrun.
Qed.

Lemma riscv_find_ok asid v r v' :
  riscv_find_vspace_for_asid asid v = Ok (r, v') ->
  r = asid_fault \/
  exists root, r = mk_findVSpace_ret EXCEPTION_NONE (Some root) None /\ root <> 0.
Proof.
  unfold riscv_find_vspace_for_asid, on_pools. intros Hrun. runs Hrun.
  case_match; runs Hrun; [by left|]. case_match; runs Hrun; [by left|].
  right. eexists. split; [done|]. by apply Z.eqb_neq.
Qed.

(** C27. Unmapping a page is precise: it changes no ASID structure and at most
    one page-table entry, which was a valid leaf entry for the given frame at
    the level of the given page size and becomes invalid. *)
Theorem unmap_page_precise page_size asid vptr pptr v r v' :
  unmap_page page_size asid vptr pptr v = Ok (r, v') ->
  v' = v \/
  exists root lu e, riscv_find_vspace_for_asid asid v = Ok (mk_findVSpace_ret EXCEPTION_NONE (Some root) None, v) /\
    lookup_pt_slot root vptr v = Ok (lu, v) /\ pageBitsForSize page_size = Ok (ptBitsLeft lu) /\
    ptes v !! ptSlot lu = Some e /\ get_valid e <> 0 /\ is_pte_table e = false /\
    get_ppn e <<w SEL4_PAGE_BITS = to_paddr pptr /\
    v' = v <| ptes := <[ptSlot lu := pte_invalid]> (ptes v) |> /\ r = None.
Proof.
  unfold unmap_page, on_ptes. intros Hrun. runs Hrun.
  pose proof (riscv_find_pure _ _ _ _ Hrun0) as ->.
  destruct (riscv_find_ok _ _ _ _ Hrun0) as [->|(root & -> & Hroot)]; cbn in Hrun.
  { runs Hrun. by left. }
  runs Hrun. apply lookup_pt_slot_spec in Hrun1 as Hlu. destruct Hlu as (-> & _).
  destruct (Z.eqb_spec (ptBitsLeft a) a0) as [Ebits|]; cbn in Hrun; runs Hrun; [|by left].
  destruct (get_valid a1 =? 0) eqn:Ev; [cbn in Hrun; runs Hrun; by left|].
  destruct (is_pte_table a1) eqn:Et; [cbn in Hrun; runs Hrun; by left|].
  destruct (Z.eqb_spec (get_ppn a1 <<w SEL4_PAGE_BITS) (to_paddr pptr)) as [Ep|];
    cbn in Hrun; runs Hrun; [|by left].
  right. exists root, a, a1. simplify_eq. apply Z.eqb_neq in Ev. split_and!; done.
Qed.

(** ** User page-table entries *)

Lemma land_shiftl_low p k n : 0 <= n -> 0 <= k < 2 ^ n -> Z.land (Z.shiftl p n) k = 0.
Proof.
  intros Hn Hk. apply Z.bits_inj'. intros i Hi. rewrite Z.land_spec, Z.bits_0.
  destruct (decide (i < n)) as [Hlt|Hge].
  - by rewrite Z.shiftl_spec_low.
  - assert (Hk' : Z.testbit k i = false); [|by rewrite Hk', andb_false_r].
    destruct (decide (k = 0)) as [->|]; [apply Z.bits_0|]. apply Z.bits_above_log2; [lia|].
    apply Z.lt_le_trans with n; [|lia]. apply Z.log2_lt_pow2; lia.
Qed.

(** The entry [flags | ppn << 10]: the page number comes back, and a flag
    test sees only the flags. *)
Lemma pte_new_fields ppn flags : 0 <= ppn < 2 ^ 44 -> 0 <= flags < 2 ^ 10 ->
  get_ppn (pte_new ppn flags) = ppn /\
  forall k, 0 <= k < 2 ^ 10 -> Z.land (pte_new ppn flags) k = Z.land flags k.
Proof.
  intros Hp Hf. unfold get_ppn, pte_new.
  assert (Es : ppn <<w 10 = Z.shiftl ppn 10).
  { unfold wshl. change (10 mod 64) with 10. apply wrap_small. unfold is_word.
    rewrite Z.shiftl_mul_pow2, word_size_val by lia. lia. }
  rewrite Es. split.
  - unfold wshr. change (10 mod 64) with 10.
    change 0x3ffffffffffc00 with (Z.shiftl (Z.ones 44) 10).
    rewrite Z.shiftr_land, Z.shiftr_lor, !Z.shiftr_shiftl_l by lia. change (10 - 10) with 0.
    rewrite !Z.shiftl_0_r, (Z.shiftr_div_pow2 flags 10), Z.div_small by lia.
    rewrite Z.lor_0_l, Z.land_ones by lia. apply Z.mod_small. lia.
  - intros k Hk. rewrite Z.land_lor_distr_l, land_shiftl_low by lia. apply Z.lor_0_r.
Qed.

(** C39. A user page-table entry made for a page frame is a valid leaf, gives
    back the frame's physical address, and grants reading, writing and
    execution exactly as requested. *)
Theorem make_user_pte_roundtrip paddr (executable : bool) vm_rights :
  0 <= paddr < 2 ^ 56 -> paddr mod 4096 = 0 -> 1 <= vm_rights <= 3 ->
  executable = true \/ vm_rights <> 1 ->
  let e := make_user_pte paddr executable vm_rights in
  get_ppn e <<w SEL4_PAGE_BITS = paddr /\ get_valid e = 1 /\ is_pte_table e = false /\
  get_read e = (if vm_rights =? 1 then 0 else 1) /\ get_write e = (if vm_rights =? 3 then 1 else 0) /\
  get_execute e = (if executable then 1 else 0).
Proof.
  intros Hpa Hal Hr Hx e.
  assert (Hppn : paddr >>w SEL4_PAGE_BITS = paddr / 4096).
  { rewrite wshr_div by (unfold SEL4_PAGE_BITS; lia). done. }
  assert (Hrange : 0 <= paddr / 4096 < 2 ^ 44).
  { split; [apply Z.div_pos; lia|]. apply Z.div_lt_upper_bound; lia. }
  assert (Hback : (paddr / 4096) <<w SEL4_PAGE_BITS = paddr).
  { pose proof (Z.div_mod paddr 4096). rewrite wshl_mul; unfold SEL4_PAGE_BITS, is_word;
      rewrite ?word_size_val; lia. }
  assert (Hfl : exists flags, 0 <= flags < 2 ^ 10 /\ e = pte_new (paddr / 4096) flags /\
    Z.land flags 1 = 1 /\ Z.land flags 2 = (if vm_rights =? 1 then 0 else 2) /\
    Z.land flags 4 = (if vm_rights =? 3 then 4 else 0) /\ Z.land flags 8 = (if executable then 8 else 0)).
  { subst e. unfold make_user_pte. rewrite Hppn.
    assert (vm_rights = 1 \/ vm_rights = 2 \/ vm_rights = 3) as [->|[->| ->]] by lia;
      destruct executable; (eexists; split; [|split; [reflexivity|done]]; done) || naive_solver. }
  destruct Hfl as (flags & Hf & -> & H1 & H2 & H4 & H8).
  destruct (pte_new_fields _ flags Hrange Hf) as [Hp Hk].
  unfold is_pte_table, get_valid, get_read, get_write, get_execute.
  rewrite Hp, Hback, !Hk, H1, H2, H4, H8 by lia.
  assert (vm_rights = 1 \/ vm_rights = 2 \/ vm_rights = 3) as [->|[->| ->]] by lia;
    destruct executable; split_and!; (done || naive_solver).
Qed.

(** ** The ASID table *)

(** A table of 128 entries whose pools exist, have 512 entries each, and are
    not shared. *)
Definition asids_ok v : Prop :=
  length (asid_table v) = 128%nat /\
  (forall i p, asid_table v !! i = Some p -> p <> 0 ->
     exists pool, asid_pools v !! p = Some pool /\ length pool = 512%nat) /\
  (forall i j p, asid_table v !! i = Some p -> asid_table v !! j = Some p -> p <> 0 -> i = j).

(** The root registered for an ASID; 0 if there is none. *)
Definition asid_root v (asid : Z) : Z :=
  let p := default 0 (asid_table v !! Z.to_nat (asid_high asid)) in
  if p =? 0 then 0
  else default 0 (asid_pools v !! p ≫= fun pool => pool !! Z.to_nat (asid_low asid)).

Lemma asid_split asid : 0 <= asid < 2 ^ 16 ->
  0 <= asid_high asid < 128 /\ 0 <= asid_low asid < 512 /\ asid = asid_high asid * 512 + asid_low asid.
Proof.
  intros Ha. unfold asid_high, asid_low. rewrite wshr_div by (unfold ASID_LOW_BITS; lia).
  change (mask_bits ASID_LOW_BITS) with (Z.ones 9). rewrite Z.land_ones by lia.
  change (2 ^ ASID_LOW_BITS) with 512. change (2 ^ 9) with 512.
  pose proof (Z.div_mod asid 512). pose proof (Z.mod_pos_bound asid 512). lia.
Qed.

Lemma asid_table_get v asid : asids_ok v -> 0 <= asid < 2 ^ 16 ->
  exists p, asid_table v !! Z.to_nat (asid_high asid) = Some p /\
    array_get (asid_table v) (asid_high asid) = Ok p /\
    (p <> 0 -> exists pool r, asid_pools v !! p = Some pool /\ length pool = 512%nat /\
       pool !! Z.to_nat (asid_low asid) = Some r /\ array_get pool (asid_low asid) = Ok r).
Proof.
  intros (Hlen & Hpool & _) Ha. destruct (asid_split asid Ha) as (Hh & Hl & _).
  destruct (lookup_lt_is_Some_2 (asid_table v) (Z.to_nat (asid_high asid))) as [p Hp]; [lia|].
  exists p. split; [done|]. split; [apply array_get_ok; [lia|done]|].
  intros Hp0. destruct (Hpool _ _ Hp Hp0) as (pool & Hlk & Hlen').
  destruct (lookup_lt_is_Some_2 pool (Z.to_nat (asid_low asid))) as [r Hr]; [lia|].
  exists pool, r. split_and!; try done. apply array_get_ok; [lia|done].
Qed.

Lemma riscv_find_spec v asid : asids_ok v -> 0 <= asid < 2 ^ 16 ->
  riscv_find_vspace_for_asid asid v =
    Ok (if asid_root v asid =? 0 then asid_fault
        else mk_findVSpace_ret EXCEPTION_NONE (Some (asid_root v asid)) None, v).
Proof.
  intros Hok Ha. destruct (asid_table_get v asid Hok Ha) as (p & Hp & Hget & Hpool).
  unfold riscv_find_vspace_for_asid, asid_root. rewrite Hp. cbn. unfold bind, gets, lift_res.
  rewrite Hget. destruct (Z.eqb_spec p 0) as [->|Hp0]; [done|].
  destruct (Hpool Hp0) as (pool & r & Hlk & _ & Hr & Hgr). unfold on_pools.
  rewrite (lift_hget_ok _ _ v p pool) by (done || by destruct v). rewrite Hgr, Hlk. cbn.
  rewrite Hr. cbn. by destruct (Z.eqb_spec r 0).
Qed.

Lemma riscv_set_vm_root_run v c : asids_ok v ->
  (forall t, c = cap_page_table_cap t -> capPTBasePtr t <> 0 /\ 0 <= capPTMappedASID t < 2 ^ 16) ->
  exists r w, riscv_set_vm_root c v = Ok (r, v <| vm_root := w |>).
Proof.
  intros Hok Hc. destruct c; try (by do 2 eexists).
  match goal with t : page_table_cap |- _ => rename t into c; destruct (Hc c eq_refl) as [Hb Ha] end.
  unfold riscv_set_vm_root, bind, kassert. apply Z.eqb_neq in Hb as ->. cbn [negb ret].
  unfold ret. rewrite riscv_find_spec by done.
  destruct (asid_root v (capPTMappedASID c) =? 0); cbn; [by do 2 eexists|].
  by destruct (asid_root v (capPTMappedASID c) =? capPTBasePtr c); do 2 eexists.
Qed.

Lemma asid_root_clear v asid p pool asid' :
  asids_ok v -> 0 <= asid < 2 ^ 16 -> 0 <= asid' < 2 ^ 16 ->
  asid_table v !! Z.to_nat (asid_high asid) = Some p -> p <> 0 -> asid_pools v !! p = Some pool ->
  asid_root (v <| asid_pools := <[p := <[Z.to_nat (asid_low asid) := 0]> pool]> (asid_pools v) |>) asid' =
  if decide (asid' = asid) then 0 else asid_root v asid'.
Proof.
  intros Hok Ha Ha' Hp Hp0 Hpool. unfold asid_root. cbn.
  destruct (asid_split asid Ha) as (Hh & Hl & Es), (asid_split asid' Ha') as (Hh' & Hl' & Es').
  destruct (asid_table_get v asid' Hok Ha') as (p' & Hp' & _ & _). rewrite Hp'. cbn.
  destruct (Z.eqb_spec p' 0) as [E0|E0].
  { rewrite decide_False; [done|]. intros ->. congruence. }
  destruct (decide (p = p')) as [<-|Hpp].
  - rewrite lookup_insert_eq, Hpool. cbn.
    assert (Eh : asid_high asid' = asid_high asid).
    { destruct Hok as (_ & _ & Hinj). specialize (Hinj _ _ _ Hp Hp' Hp0). lia. }
    destruct (decide (asid' = asid)) as [->|Hne].
    + rewrite list_lookup_insert_eq; [done|]. destruct Hok as (_ & Hlen & _).
      destruct (Hlen _ _ Hp Hp0) as (pool' & ? & ?). simplify_eq. lia.
    + rewrite list_lookup_insert_ne; [done|]. intros E. apply Hne. lia.
  - rewrite lookup_insert_ne by done. rewrite decide_False; [done|]. intros ->. congruence.
Qed.

Lemma asids_ok_clear v asid p pool :
  asids_ok v -> asid_pools v !! p = Some pool -> length pool = 512%nat ->
  asids_ok (v <| asid_pools := <[p := <[Z.to_nat (asid_low asid) := 0]> pool]> (asid_pools v) |>).
Proof.
  intros (Hlen & Hp & Hinj) Hlk Hl. split_and!; [done| |done]. cbn. intros i q Hi Hq.
  destruct (decide (p = q)) as [<-|Hpq].
  - rewrite lookup_insert_eq. eexists. split; [done|]. by rewrite length_insert.
  - rewrite lookup_insert_ne by done. by eapply Hp.
Qed.

Lemma asids_ok_root v w : asids_ok v -> asids_ok (v <| vm_root := w |>).
Proof. done. Qed.
Lemma asid_root_root v w asid : asid_root (v <| vm_root := w |>) asid = asid_root v asid.
Proof. done. Qed.

(** C40. Deleting an ASID (RISC-V) that is in use by the given page table
    succeeds; afterwards the ASID resolves to a lookup fault, every other
    ASID resolves as before, and the ASID table stays well formed. *)
Theorem delete_asid_frees v asid vspace c :
  asids_ok v -> 0 <= asid < 2 ^ 16 -> asid_root v asid = vspace -> vspace <> 0 ->
  (forall t, c = cap_page_table_cap t -> capPTBasePtr t <> 0 /\ 0 <= capPTMappedASID t < 2 ^ 16) ->
  exists r v', riscv_delete_asid asid vspace c v = Ok (r, v') /\ asids_ok v' /\
    riscv_find_vspace_for_asid asid v' = Ok (asid_fault, v') /\
    forall asid' f, 0 <= asid' < 2 ^ 16 -> asid' <> asid ->
      riscv_find_vspace_for_asid asid' v = Ok (f, v) ->
      riscv_find_vspace_for_asid asid' v' = Ok (f, v').
Proof.
  intros Hok Ha Hroot Hvs Hc. destruct (asid_table_get v asid Hok Ha) as (p & Hp & Hget & Hpool).
  assert (Hp0 : p <> 0). { intros ->. unfold asid_root in Hroot. rewrite Hp in Hroot. done. }
  destruct (Hpool Hp0) as (pool & r & Hlk & Hlen & Hr & Hgr).
  assert (r = vspace) as ->.
  { unfold asid_root in Hroot. rewrite Hp in Hroot. cbn in Hroot.
    apply Z.eqb_neq in Hp0 as E. rewrite E, Hlk in Hroot. cbn in Hroot. by rewrite Hr in Hroot. }
  pose proof (asids_ok_clear v asid p pool Hok Hlk Hlen) as Hok'.
  destruct (riscv_set_vm_root_run _ c Hok' Hc) as (rr & w & Hrun).
  eexists rr, _. split.
  { unfold riscv_delete_asid, bind, gets, lift_res. rewrite Hget. apply Z.eqb_neq in Hp0 as E.
    rewrite E. unfold on_pools. rewrite (lift_hget_ok _ _ v p pool) by (done || by destruct v).
    rewrite Hgr, Z.eqb_refl. rewrite array_set_ok by (destruct (asid_split asid Ha); lia).
    unfold lift_part. rewrite (hmod_ok _ _ pool) by done. exact Hrun. }
  split; [by apply asids_ok_root|]. split.
  - rewrite riscv_find_spec by (done || by apply asids_ok_root). rewrite asid_root_root.
    erewrite asid_root_clear by done. by rewrite decide_True.
  - intros asid' f Ha' Hne. rewrite !riscv_find_spec by (done || by apply asids_ok_root).
    rewrite asid_root_root. erewrite asid_root_clear by done. rewrite decide_False by done.
    intros E. by simplify_eq.
Qed.

(** Contrary to its documentation, [set_vm_root] (RISC-V) never falls back
    to the kernel page table for a page-table capability: when the ASID of
    the capability does not resolve to its page table, the stale table is
    still what the translation register ends up with. *)
Theorem set_vm_root_keeps_stale_root v t :
  asids_ok v -> 0 <= capPTMappedASID t < 2 ^ 16 -> capPTBasePtr t <> 0 ->
  asid_root v (capPTMappedASID t) <> capPTBasePtr t ->
  exists r, riscv_set_vm_root (cap_page_table_cap t) v =
    Ok (r, v <| vm_root := satp_new 8 (capPTMappedASID t) (to_paddr (capPTBasePtr t) >>w 12) |>).
Proof.
  intros Hok Ha Hb Hne. unfold riscv_set_vm_root, bind, kassert. apply Z.eqb_neq in Hb as ->.
  cbn [negb ret]. unfold ret. rewrite riscv_find_spec by done.
  destruct (asid_root v (capPTMappedASID t) =? 0) eqn:E; cbn; [by eexists|].
  apply Z.eqb_neq in Hne as ->. by eexists.
Qed.

(** [unmap_page_table] (RISC-V) returns without unmapping anything when
    the root entry for the address points to a page table, that is for every
    page table that is mapped: the test of the walk is inverted. *)
Theorem unmap_page_table_noop v asid vptr target_pt root e :
  asids_ok v -> 0 <= asid < 2 ^ 16 -> asid_root v asid = root -> root <> 0 -> root <> target_pt ->
  pte_at root (riscv_get_pt_index vptr 0) <> 0 ->
  ptes v !! pte_at root (riscv_get_pt_index vptr 0) = Some e -> is_pte_table e = true ->
  unmap_page_table asid vptr target_pt v = Ok (tt, v).
Proof.
  intros Hok Ha Hr Hr0 Hrt Hs0 Hs Ht. unfold unmap_page_table, bind.
  rewrite riscv_find_spec by done. rewrite Hr. apply Z.eqb_neq in Hr0 as ->. cbn [fv_status exc_ok negb].
  apply Z.eqb_neq in Hrt. unfold kassert. cbn [unwrap fv_vspace_root ret]. unfold ret. rewrite Hrt. cbn [negb].
  change (Z.to_nat (CONFIG_PT_LEVELS - 1)) with 2%nat. cbn [unmap_pt_loop]. rewrite Hrt. cbn [negb].
  unfold bind. unfold on_ptes. rewrite (lift_hget_ok _ _ v _ e) by (done || by destruct v).
  rewrite Ht. done.
Qed.
End properties.

(** ** A concrete address space

    ASID 1 has a root table whose first entry points to a second-level table,
    whose first entry maps a 2 MiB frame. *)

Module VSpaceExample.
Definition root : Z := 0xFFFFFFC080001000.
Definition table2 : Z := 0xFFFFFFC080002000.
Definition frame : Z := 0xFFFFFFC090000000.
#[local] Instance cfg : Config := riscv_config.
Definition state : vspace_state :=
  mk_vspace (4096 :: replicate 127 0) {[4096 := 0 :: root :: replicate 510 0]} ∅
    (<[root := pte_new 0x80002 V_]> {[table2 := make_user_pte (to_paddr frame) false 3]}) 0.
Definition root_cap : page_table_cap := mk_page_table_cap 1 root 1 0.

Lemma table_at i p : asid_table state !! i = Some p -> p <> 0 -> i = 0%nat /\ p = 4096.
Proof.
  destruct i as [|i]; intros Hi Hp; [injection Hi as <-; done|].
  change (replicate 127 0 !! i = Some p) in Hi. apply lookup_replicate in Hi as [-> _]. done.
Qed.

Lemma state_ok : asids_ok state.
Proof.
  split; [reflexivity|]. split.
  - intros i p Hi Hp. destruct (table_at i p Hi Hp) as [_ ->].
    exists (0 :: root :: replicate 510 0). split; reflexivity.
  - intros i j p Hi Hj Hp. destruct (table_at i p Hi Hp), (table_at j p Hj Hp). congruence.
Qed.

Lemma root_registered : asid_root state 1 = root.
Proof. reflexivity. Qed.
End VSpaceExample.


Lemma unmap_page_precise_witness :
  exists r v', @unmap_page riscv_config 1 1 0 VSpaceExample.frame VSpaceExample.state = Ok (r, v') /\
    (v' = VSpaceExample.state \/ r = None).
Proof.
  destruct (@unmap_page riscv_config 1 1 0 VSpaceExample.frame VSpaceExample.state) as [[r v']|e] eqn:E;
    [|vm_compute in E; discriminate E].
  exists r, v'. split; [reflexivity|].
  destruct (@unmap_page_precise riscv_config 1 1 0 VSpaceExample.frame VSpaceExample.state r v' E)
    as [Hs|(root & lu & e & H)]; [left; exact Hs|right; apply H].
Defined.

Lemma make_user_pte_roundtrip_witness :
  get_ppn (make_user_pte 0x90000000 false 2) <<w SEL4_PAGE_BITS = 0x90000000 /\
  get_write (make_user_pte 0x90000000 false 2) = 0.
Proof.
  destruct (make_user_pte_roundtrip 0x90000000 false 2) as (H1 & _ & _ & _ & H2 & _);
    [lia|reflexivity|lia|right; lia|].
  split; [exact H1|exact H2].
Defined.

Lemma delete_asid_frees_witness :
  exists r v', @riscv_delete_asid riscv_config 1 VSpaceExample.root cap_null_cap VSpaceExample.state = Ok (r, v') /\
    riscv_find_vspace_for_asid 1 v' = Ok (asid_fault, v').
Proof.
  destruct (@delete_asid_frees riscv_config VSpaceExample.state 1 VSpaceExample.root cap_null_cap)
    as (r & v' & H1 & _ & H2 & _);
    [exact VSpaceExample.state_ok|lia|exact VSpaceExample.root_registered|discriminate|discriminate|].
  exists r, v'. split; [exact H1|exact H2].
Defined.

Lemma set_vm_root_keeps_stale_root_witness :
  exists r, @riscv_set_vm_root riscv_config (cap_page_table_cap (mk_page_table_cap 2 VSpaceExample.root 1 0))
      VSpaceExample.state =
    Ok (r, VSpaceExample.state <| vm_root := satp_new 8 2 0x80001 |>).
Proof.
  destruct (@set_vm_root_keeps_stale_root riscv_config VSpaceExample.state
    (mk_page_table_cap 2 VSpaceExample.root 1 0)) as (r & H1);
    [exact VSpaceExample.state_ok|cbn; lia|discriminate|discriminate|].
  exists r. exact H1.
Defined.

Lemma unmap_page_table_noop_witness :
  @unmap_page_table riscv_config 1 0 VSpaceExample.table2 VSpaceExample.state = Ok (tt, VSpaceExample.state).
Proof.
  apply (@unmap_page_table_noop riscv_config VSpaceExample.state 1 0 VSpaceExample.table2
    VSpaceExample.root (pte_new 0x80002 V_));
    [exact VSpaceExample.state_ok|lia|exact VSpaceExample.root_registered|discriminate|discriminate
    |discriminate|reflexivity|reflexivity].
Defined.
