(* ===== verification/VSpaceArm.v ===== *)
(** * AArch64 page tables (sel4_vspace/src/arch/aarch64)

    The four-level tables of the AArch64 kernel: entry types, the walk that
    finds the slot of an address, and unmapping of pages and page tables.
    Cache and TLB maintenance has no counterpart in the model. *)

From S2P Require Import Prelude Monad Config Objects State CapOps VSpace.

Module ArmPTE.
Definition UPT_LEVELS : Z := 4.
Definition VSPACE_INDEX_BITS : Z := 9.
Definition PAGE_ADDR_MASK : Z := Z.land (mask_bits 48) (wnot 0xfff).

Definition pte_table : Z := 3.
Definition pte_page : Z := 1.
Definition pte_4k_page : Z := 7.
Definition pte_invalid_type : Z := 0.

Definition get_type (e : Z) : Z := Z.lor (Z.land e 0x3) (Z.land e (1 <<w 58) >>w 56).
Definition next_level_paddr (e : Z) : Z := Z.land e PAGE_ADDR_MASK.
Definition get_page_base_address (e : Z) : Z := Z.land e 0xfffffffff000.
Definition pte_is_page_type (e : Z) : bool :=
  (get_type e =? pte_4k_page) || (get_type e =? pte_page).

Definition upt_level_shift (n : Z) : Z :=
  (PT_INDEX_BITS *w ((UPT_LEVELS -w 1) -w n)) +w SEL4_PAGE_BITS.
Definition get_upt_index (vaddr n : Z) : Z :=
  Z.land (vaddr >>w upt_level_shift n) (mask_bits PT_INDEX_BITS).

Definition pte_new_table (pt_base_address : Z) : Z :=
  Z.lor (Z.lor 0 (Z.land pt_base_address 0xfffffffff000)) 0x3.

(** The fields shared by [pte_new_page] and [pte_new_4k_page]; [kind] is the
    constant that tells the two apart. *)
Definition page_fields (UXN page_base_address nG AF SH AP AttrIndx kind : Z) : Z :=
  Z.lor (Z.lor (Z.lor (Z.lor (Z.lor (Z.lor (Z.lor (Z.lor 0
    (Z.land UXN 0x1 <<w 54)) (Z.land page_base_address 0xfffffffff000 >>w 0))
    (Z.land nG 0x1 <<w 11)) (Z.land AF 0x1 <<w 10)) (Z.land SH 0x3 <<w 8))
    (Z.land AP 0x3 <<w 6)) (Z.land AttrIndx 0x7 <<w 2)) kind.
Definition pte_new_page (UXN page_base_address nG AF SH AP AttrIndx : Z) : Z :=
  page_fields UXN page_base_address nG AF SH AP AttrIndx (0x1 <<w 0).
Definition pte_new_4k_page (UXN page_base_address nG AF SH AP AttrIndx : Z) : Z :=
  page_fields UXN page_base_address nG AF SH AP AttrIndx 0x400000000000003.

(** mair_types *)
Definition DEVICE_nGnRnE : Z := 0.
Definition NORMAL : Z := 4.

Definition get_arm_execute_never (attr : Z) : bool := negb (Z.land attr 0x4 =? 0).
Definition get_arm_page_cachable (attr : Z) : bool := negb (Z.land attr 0x1 =? 0).

(** [ap_from_vm_rights_t(rights).bits() >> 6] of a [vm_rights_t]: kernel only
    0, read and write 1, read only 3. *)
Definition ap_from_vm_rights_t (rights : Z) : res Z :=
  if rights =? 0 then Ok 0
  else if rights =? 1 then Ok (bit 6)
  else if rights =? 3 then Ok (Z.lor (bit 6) (bit 7))
  else Err EUndef.

Definition ARMSmallPage : Z := 0.

Definition make_user_pte (paddr rights attr page_size : Z) : res Z :=
  let nonexecutable := bool_to_word (get_arm_execute_never attr) in
  let attrindx := if get_arm_page_cachable attr then NORMAL else DEVICE_nGnRnE in
  match ap_from_vm_rights_t rights with
  | Err e => Err e
  | Ok ap =>
      let vm_right := ap >>w 6 in
      Ok (if ARMSmallPage =? page_size
          then pte_new_4k_page nonexecutable paddr 1 1 0 vm_right attrindx
          else pte_new_page nonexecutable paddr 1 1 0 vm_right attrindx)
  end.
End ArmPTE.
Import ArmPTE.

Section arm.
Context `{Config}.

(** The loop of [lookup_pt_slot]; [level] table levels are left below. *)
Fixpoint arm_lookup_pt_loop (level : nat) (vptr : Z) (r : lookupPTSlot_ret_t) : V lookupPTSlot_ret_t :=
  let* e := on_ptes (hget (ptSlot r)) in
  match level with
  | O => ret r
  | S l =>
      if ArmPTE.get_type e =? pte_table then
        let left := ptBitsLeft r -w PT_INDEX_BITS in
        let pt := to_pptr (next_level_paddr e) in
        arm_lookup_pt_loop l vptr
          (mk_lookupPTSlot_ret (pte_at pt (Z.land (vptr >>w left) (mask_bits PT_INDEX_BITS))) left)
      else ret r
  end.

Definition arm_lookup_pt_slot (pt vptr : Z) : V lookupPTSlot_ret_t :=
  let level := UPT_LEVELS -w 1 in
  let left := (PT_INDEX_BITS *w level) +w SEL4_PAGE_BITS in
  arm_lookup_pt_loop (Z.to_nat level) vptr
    (mk_lookupPTSlot_ret (pte_at pt (Z.land (vptr >>w left) (mask_bits VSPACE_INDEX_BITS))) left).

(** The loop of [unmap_page_table]: [None] is the early return; otherwise the
    last slot followed and the table it leads to. *)
Fixpoint arm_unmap_pt_loop (n : nat) (level vaddr target pt slot : Z) : V (option (Z * Z)) :=
  match n with
  | O => ret (Some (pt, slot))
  | S n' =>
      if negb (pt =? target) then
        let slot' := pte_at pt (get_upt_index vaddr level) in
        let* e := on_ptes (hget slot') in
        if negb (ArmPTE.get_type e =? pte_table) then ret None
        else arm_unmap_pt_loop n' (level +w 1) vaddr target (to_pptr (next_level_paddr e)) slot'
      else ret (Some (pt, slot))
  end.

Definition arm_unmap_page_table (asid vaddr pt : Z) : V unit :=
  let* find_ret := aarch64_find_vspace_for_asid asid in
  if negb (exc_ok (fv_status find_ret)) then ret tt
  else
    let* root := unwrap (fv_vspace_root find_ret) in
    let* r := arm_unmap_pt_loop (Z.to_nat (UPT_LEVELS - 1)) 0 vaddr pt root 0 in
    match r with
    | None => ret tt
    | Some (pte, ptSlot) =>
        if negb (pte =? pt) then ret tt
        else
          kassert (negb (ptSlot =? 0)) ;;;
          on_ptes (hmod ptSlot (fun _ => 0)) ;;;
          let* e := on_ptes (hget pte) in
          on_ptes (hmod ptSlot (fun _ => e))
    end.

Definition arm_unmap_page (page_size asid vptr pptr : Z) : V vresult :=
  let addr := to_paddr pptr in
  let* find_ret := aarch64_find_vspace_for_asid asid in
  if negb (exc_ok (fv_status find_ret)) then ret None
  else
    let* root := unwrap (fv_vspace_root find_ret) in
    let* lu_ret := arm_lookup_pt_slot root vptr in
    let* page_bits := lift_res (pageBitsForSize page_size) in
    if negb (ptBitsLeft lu_ret =? page_bits) then ret None
    else
      let* pte := on_ptes (hget (ptSlot lu_ret)) in
      if negb (pte_is_page_type pte) then ret None
      else if negb (ArmPTE.get_page_base_address pte =? addr) then ret None
      else
        on_ptes (hmod (ptSlot lu_ret) (fun _ => 0)) ;;;
        kassert (asid <? bit 16) ;;;
        ret None.
End arm.
