(* ===== verification/Refill.v ===== *)
(** * Scheduling contexts and their refills (sel4_task/src/sched_context.rs)

    The refills of a scheduling context are a ring buffer in the memory behind
    it: [scRefillMax] entries, of which those from [scRefillHead] to
    [scRefillTail] are in use.  The operations below work on one scheduling
    context ([self] of the source); the current time is an argument.  The
    buffer is shown to implement a list, and charging, unblocking and
    updating are shown to keep the budget. *)

From S2P Require Import Prelude Monad Config Objects State.

Section sched_context.
Context `{Config}.

(** ** Time (sel4_common/src/arch/*/timer.rs, platform/*.rs) *)

Definition TIMER_CLOCK_HZ : Z := match target_arch with RISCV64 => 10000000 | AARCH64 => 62500000 end.
Definition TIMER_CLOCK_KHZ : Z := TIMER_CLOCK_HZ / 1000.
Definition KHZ_IN_MHZ : Z := 1000.
Definition US_IN_MS : Z := 1000.
Definition TICKS_IN_US : Z := TIMER_CLOCK_HZ / (1000 * 1000).

Definition get_kernel_wcet_us : Z := 10.
Definition us_to_ticks (us : Z) : Z :=
  match target_arch with
  | RISCV64 => us *w TICKS_IN_US
  | AARCH64 => (us *w TIMER_CLOCK_KHZ) / KHZ_IN_MHZ
  end.
Definition ticks_to_us (ticks : Z) : Z :=
  match target_arch with
  | RISCV64 => ticks / TICKS_IN_US
  | AARCH64 => (ticks *w KHZ_IN_MHZ) / TIMER_CLOCK_KHZ
  end.
Definition get_max_ticks_to_us : Z :=
  match target_arch with RISCV64 => UINT64_MAX | AARCH64 => UINT64_MAX / TIMER_CLOCK_KHZ end.
Definition get_max_us_to_ticks : Z :=
  match target_arch with RISCV64 => UINT64_MAX / TICKS_IN_US | AARCH64 => UINT64_MAX / TIMER_CLOCK_KHZ end.
Definition get_timer_precision : Z :=
  match target_arch with RISCV64 => us_to_ticks 1 | AARCH64 => us_to_ticks 0 +w 0 end.
Definition get_kernel_wcet_ticks : Z := us_to_ticks get_kernel_wcet_us.

Definition MIN_REFILLS : Z := 2.
Definition min_budget_us : Z := (2 *w get_kernel_wcet_us) *w CONFIG_KERNEL_WCET_SCALE.
Definition min_budget : Z := (2 *w get_kernel_wcet_ticks) *w CONFIG_KERNEL_WCET_SCALE.
Definition max_period_us : Z := get_max_us_to_ticks / 8.
Definition max_release_time : Z := UINT64_MAX -w (5 *w us_to_ticks max_period_us).

(** [size_of::<sched_context_t>()] and [size_of::<refill_t>()]. *)
Definition refill_absolute_max (sc_cap : sched_context_cap) : Z :=
  (bit (capSCSizeBits sc_cap) -w 96) / 16.

(** ** The ring buffer *)

Definition R (A : Type) : Type := M sched_context A.

(** A refill past the end of the object is out of the program's memory. *)
Definition refill_index (i : Z) : R refill := fun sc =>
  match scRefills sc !! Z.to_nat i with Some r => Ok (r, sc) | None => Err EUndef end.
Definition mod_refill (i : Z) (f : refill -> refill) : R unit := fun sc =>
  match scRefills sc !! Z.to_nat i with
  | Some r => Ok (tt, sc <| scRefills := <[Z.to_nat i := f r]> (scRefills sc) |>)
  | None => Err EUndef
  end.

Definition is_round_robin (sc : sched_context) : bool := scPeriod sc =? 0.
Definition sc_active (sc : sched_context) : bool := 0 <? scRefillMax sc.
Definition sc_sporadic (sc : sched_context) : bool := sc_active sc && scSporadic sc.
Definition sc_constant_bandwidth (sc : sched_context) : bool := negb (scSporadic sc).

Definition refill_next (sc : sched_context) (index : Z) : Z :=
  if index =? scRefillMax sc -w 1 then 0 else index +w 1.
Definition refill_size (sc : sched_context) : Z :=
  if scRefillHead sc <=? scRefillTail sc then (scRefillTail sc -w scRefillHead sc) +w 1
  else (scRefillTail sc +w 1) +w (scRefillMax sc -w scRefillHead sc).
Definition refill_full (sc : sched_context) : bool := refill_size sc =? scRefillMax sc.
Definition refill_single (sc : sched_context) : bool := scRefillHead sc =? scRefillTail sc.

Definition refill_head : R refill := let* sc := gets id in refill_index (scRefillHead sc).
Definition refill_tail : R refill := let* sc := gets id in refill_index (scRefillTail sc).
Definition mod_head (f : refill -> refill) : R unit :=
  let* sc := gets id in mod_refill (scRefillHead sc) f.
Definition mod_tail (f : refill -> refill) : R unit :=
  let* sc := gets id in mod_refill (scRefillTail sc) f.

(** Returns the position of the old head, which stays readable. *)
Definition refill_pop_head : R Z :=
  let* sc := gets id in
  kassert (negb (refill_single sc)) ;;;
  let prev_size := refill_size sc in
  let* _ := refill_head in
  let refill_res := scRefillHead sc in
  modify (fun sc => sc <| scRefillHead := refill_next sc (scRefillHead sc) |>) ;;;
  let* sc := gets id in
  kassert (prev_size =? refill_size sc +w 1) ;;;
  kassert (scRefillHead sc <? scRefillMax sc) ;;;
  ret refill_res.

Definition refill_add_tail (rTime_ rAmount_ : Z) : R unit :=
  let* sc := gets id in
  kassert (refill_size sc <? scRefillMax sc) ;;;
  let new_tail := refill_next sc (scRefillTail sc) in
  modify (fun sc => sc <| scRefillTail := new_tail |>) ;;;
  mod_tail (fun r => r <| rAmount := rAmount_ |>) ;;;
  mod_tail (fun r => r <| rTime := rTime_ |>) ;;;
  kassert (new_tail <? scRefillMax sc).

Definition maybe_add_empty_tail : R unit :=
  let* sc := gets id in
  when (is_round_robin sc) (let* h := refill_head in refill_add_tail (rTime h) 0).

Definition refill_new (now max_refills budget period : Z) : R unit :=
  modify (fun sc => sc <| scPeriod := period |> <| scRefillHead := 0 |>
                       <| scRefillTail := 0 |> <| scRefillMax := max_refills |>) ;;;
  kassert (min_budget <=? budget) ;;;
  mod_head (fun r => r <| rAmount := budget |>) ;;;
  mod_head (fun r => r <| rTime := now |>) ;;;
  maybe_add_empty_tail.

Fixpoint refill_sum_loop (fuel : nat) (current sum : Z) : R Z :=
  match fuel with
  | O => fail EFuel
  | S n =>
      let* sc := gets id in
      if current =? scRefillTail sc then ret sum
      else
        let current := refill_next sc current in
        let* r := refill_index current in
        refill_sum_loop n current (sum +w rAmount r)
  end.
Definition refill_sum : R Z :=
  let* h := refill_head in
  let* sc := gets id in
  refill_sum_loop (Z.to_nat (scRefillMax sc)) (scRefillHead sc) (rAmount h).

Definition refill_capacity (usage : Z) : R Z :=
  let* h := refill_head in
  ret (if rAmount h <? usage then 0 else rAmount h -w usage).
Definition refill_sufficient (usage : Z) : R bool :=
  let* c := refill_capacity usage in ret (min_budget <=? c).
Definition refill_ready (now : Z) : R bool :=
  let* h := refill_head in ret (rTime h <=? now +w get_kernel_wcet_ticks).

Definition sc_released (now : Z) : R bool :=
  let* sc := gets id in
  if sc_active sc then
    let* b := refill_sufficient 0 in kassert b ;;; refill_ready now
  else ret false.

Definition refill_head_overlapping : R bool :=
  let* sc := gets id in
  if negb (refill_single sc) then
    let* h := refill_head in
    let tail := rTime h +w rAmount h in
    let* r := refill_index (refill_next sc (scRefillHead sc)) in
    ret (rTime r <=? tail)
  else ret false.

Fixpoint merge_overlapping (fuel : nat) : R unit :=
  match fuel with
  | O => fail EFuel
  | S n =>
      let* b := refill_head_overlapping in
      if (b : bool) then
        let* old := refill_pop_head in
        let* o := refill_index old in
        mod_head (fun r => r <| rTime := rTime o |>) ;;;
        mod_head (fun r => r <| rAmount := rAmount r +w rAmount o |>) ;;;
        merge_overlapping n
      else ret tt
  end.

(** [true] if the timer must be reprogrammed. *)
Definition refill_unblock_check (now : Z) : R bool :=
  let* sc := gets id in
  if is_round_robin sc then ret false
  else
    let* ready := refill_ready now in
    if (ready : bool) then
      mod_head (fun r => r <| rTime := now |>) ;;;
      merge_overlapping (S (Z.to_nat (scRefillMax sc))) ;;;
      let* b := refill_sufficient 0 in
      kassert b ;;;
      ret true
    else ret false.

Definition schedule_used (new_rTime new_rAmount : Z) : R unit :=
  let* t := refill_tail in
  let* sc := gets id in
  if new_rTime <=? rTime t +w rAmount t then
    mod_tail (fun r => r <| rAmount := rAmount r +w new_rAmount |>)
  else if negb (refill_full sc) then refill_add_tail new_rTime new_rAmount
  else
    mod_tail (fun r => r <| rTime := new_rTime -w rAmount r |>) ;;;
    mod_tail (fun r => r <| rAmount := rAmount r +w new_rAmount |>).

(** The first refill becomes a copy of the head. *)
Definition copy_head_to_first : R unit :=
  let* h := refill_head in
  mod_refill 0 (fun r => r <| rAmount := rAmount h |>) ;;;
  let* h := refill_head in
  mod_refill 0 (fun r => r <| rTime := rTime h |>).

Definition refill_update (now new_period new_budget new_max_refills : Z) : R unit :=
  let* sc := gets id in
  kassert (0 <? scRefillMax sc) ;;;
  copy_head_to_first ;;;
  modify (fun sc => sc <| scRefillHead := 0 |> <| scRefillTail := 0 |>
                       <| scRefillMax := new_max_refills |> <| scPeriod := new_period |>) ;;;
  let* ready := refill_ready now in
  when ready (mod_head (fun r => r <| rTime := now |>)) ;;;
  let* h := refill_head in
  if new_budget <=? rAmount h then
    mod_head (fun r => r <| rAmount := new_budget |>) ;;;
    maybe_add_empty_tail
  else refill_add_tail (rTime h +w new_period) (new_budget -w rAmount h).

(** ** Charging: [refill_budget_check] *)

(** The first loop: use up whole refills and schedule them a period later. *)
Fixpoint charge_loop (fuel : nat) (usage : Z) : R Z :=
  match fuel with
  | O => fail EFuel
  | S n =>
      let* h := refill_head in
      if (rAmount h <=? usage) && (rTime h <? max_release_time) then
        let usage := usage -w rAmount h in
        let* sc := gets id in
        if refill_single sc then
          mod_head (fun r => r <| rTime := rTime r +w scPeriod sc |>) ;;;
          charge_loop n usage
        else
          let* old := refill_pop_head in
          mod_refill old (fun r => r <| rTime := rTime r +w scPeriod sc |>) ;;;
          let* o := refill_index old in
          schedule_used (rTime o) (rAmount o) ;;;
          charge_loop n usage
      else ret usage
  end.

(** The last loop: merge refills until the head is large enough. *)
Fixpoint merge_small (fuel : nat) : R unit :=
  match fuel with
  | O => fail EFuel
  | S n =>
      let* h := refill_head in
      if rAmount h <? min_budget then
        let* old := refill_pop_head in
        let* o := refill_index old in
        mod_head (fun r => r <| rAmount := rAmount r +w rAmount o |>) ;;;
        mod_head (fun r => r <| rTime := rTime r -w rAmount o |>) ;;;
        merge_small n
      else ret tt
  end.

Definition refill_budget_check (usage : Z) : R unit :=
  let* sc := gets id in
  kassert (negb (is_round_robin sc)) ;;;
  let* usage := charge_loop (S (Z.to_nat usage)) usage in
  let* h := refill_head in
  when ((0 <? usage) && (rTime h <? max_release_time))
    (kassert (usage <? rAmount h) ;;;
     let new_rTime := rTime h +w scPeriod sc in
     mod_head (fun r => r <| rAmount := rAmount r -w usage |>) ;;;
     mod_head (fun r => r <| rTime := rTime r +w usage |>) ;;;
     schedule_used new_rTime usage) ;;;
  merge_small (S (Z.to_nat (scRefillMax sc))).

Definition sched_context_update_consumed : R Z :=
  let* sc := gets id in
  let consumed := scConsumed sc in
  if get_max_ticks_to_us <=? consumed then
    modify (fun sc => sc <| scConsumed := scConsumed sc -w get_max_ticks_to_us |>) ;;;
    ret (ticks_to_us get_max_ticks_to_us)
  else
    modify (fun sc => sc <| scConsumed := 0 |>) ;;;
    ret (ticks_to_us consumed).

End sched_context.

(** ** The ring buffer as a list *)

(** The position of the [k]-th refill in use. *)
Definition slot (sc : sched_context) (k : Z) : Z :=
  if scRefillHead sc + k <? scRefillMax sc then scRefillHead sc + k
  else scRefillHead sc + k - scRefillMax sc.

(** The refills in use are [l], oldest first. *)
Definition ring (sc : sched_context) (l : list refill) : Prop :=
  0 <= scRefillHead sc < scRefillMax sc /\
  scRefillMax sc <= Z.of_nat (length (scRefills sc)) /\ scRefillMax sc < word_size - 1 /\
  0 < Z.of_nat (length l) <= scRefillMax sc /\
  scRefillTail sc = slot sc (Z.of_nat (length l) - 1) /\
  forall k r, l !! k = Some r -> scRefills sc !! Z.to_nat (slot sc (Z.of_nat k)) = Some r.

(** Only the ring buffer differs. *)
Definition erase_refills (sc : sched_context) : sched_context :=
  sc <| scRefillHead := 0 |> <| scRefillTail := 0 |> <| scRefills := [] |>.
Definition only_refills (sc sc' : sched_context) : Prop :=
  erase_refills sc' = erase_refills sc /\ length (scRefills sc') = length (scRefills sc).

Fixpoint total (l : list refill) : Z :=
  match l with [] => 0 | r :: l' => rAmount r + total l' end.
Definition positive (l : list refill) : Prop := Forall (fun r => 0 < rAmount r) l.

#[export] Instance only_refills_refl : Reflexive only_refills.
Proof. done. Qed.
#[export] Instance only_refills_trans : Transitive only_refills.
Proof. intros x y z [H1 H2] [H3 H4]. split; congruence. Qed.

Lemma only_refills_fields sc sc' : only_refills sc sc' ->
  scPeriod sc' = scPeriod sc /\ scRefillMax sc' = scRefillMax sc.
Proof. intros [E _]. by injection E. Qed.

Lemma total_app l1 l2 : total (l1 ++ l2) = total l1 + total l2.
Proof. induction l1; cbn; lia. Qed.

Lemma total_insert l k r r' : l !! k = Some r ->
  total (<[k := r']> l) = total l - rAmount r + rAmount r'.
Proof.
  revert k. induction l as [|x l IH]; intros [|k] Hk; try done.
  - injection Hk as ->. cbn. lia.
  - specialize (IH k Hk). change (<[S k := r']> (x :: l)) with (x :: <[k := r']> l).
    cbn [total]. lia.
Qed.

Lemma total_nonneg l : positive l -> 0 <= total l.
Proof. induction 1; cbn; lia. Qed.

Lemma total_lookup l k r : positive l -> l !! k = Some r -> 0 < rAmount r <= total l.
Proof.
  intros Hp Hk. pose proof (total_insert l k r (mk_refill 0 0) Hk) as E. cbn in E.
  assert (0 <= total (<[k := mk_refill 0 0]> l)).
  { clear E. revert k Hk. induction Hp as [|x l Hx Hp IH]; intros [|k] Hk; try done.
    - apply (total_nonneg l Hp).
    - specialize (IH k Hk). change (0 <= rAmount x + total (<[k := mk_refill 0 0]> l)). lia. }
  pose proof (Forall_lookup_1 _ _ _ _ Hp Hk). cbn in *. lia.
Qed.

Lemma slot_range sc k : 0 <= scRefillHead sc < scRefillMax sc -> 0 <= k < scRefillMax sc ->
  0 <= slot sc k < scRefillMax sc.
Proof. intros. unfold slot. zcase; lia. Qed.

Lemma slot_inj sc i j : 0 <= scRefillHead sc < scRefillMax sc ->
  0 <= i < scRefillMax sc -> 0 <= j < scRefillMax sc -> slot sc i = slot sc j -> i = j.
Proof. intros H0 Hi Hj. unfold slot. zcase; zcase; lia. Qed.

Section ring.
Context `{Config} (sc : sched_context) (l : list refill).
Hypothesis Hring : ring sc l.

Lemma ring_next k : 0 <= k < scRefillMax sc -> refill_next sc (slot sc k) = slot sc (k + 1).
Proof.
  destruct Hring as (Hh & _ & Hm & _). intros Hk. pose proof (slot_range sc k Hh Hk) as Hs.
  unfold refill_next. rewrite wsub_small, wadd_small by (rewrite ?word_size_val in *; lia).
  clear Hs. unfold slot.
  destruct (Z.ltb_spec (scRefillHead sc + k) (scRefillMax sc)),
    (Z.ltb_spec (scRefillHead sc + (k + 1)) (scRefillMax sc)); zcase; lia.
Qed.

Lemma ring_tail : 0 <= scRefillTail sc < scRefillMax sc /\
  (scRefillTail sc = scRefillHead sc + Z.of_nat (length l) - 1 \/
   scRefillTail sc = scRefillHead sc + Z.of_nat (length l) - 1 - scRefillMax sc).
Proof. destruct Hring as (Hh & _ & _ & Hl & -> & _). unfold slot. zcase; lia. Qed.

Lemma ring_size : refill_size sc = Z.of_nat (length l).
Proof.
  destruct ring_tail as [Hs Ht]. destruct Hring as (Hh & _ & Hm & Hl & _ & _).
  unfold refill_size. rewrite word_size_val in Hm. zcase.
  - rewrite wsub_small, wadd_small by (rewrite ?word_size_val; lia). lia.
  - rewrite (wadd_small (scRefillTail sc) 1), wsub_small by (rewrite ?word_size_val; lia).
    rewrite wadd_small by (rewrite ?word_size_val; lia). lia.
Qed.

Lemma ring_single : refill_single sc = (Z.of_nat (length l) =? 1).
Proof.
  destruct ring_tail as [Hs Ht]. destruct Hring as (Hh & _ & _ & Hl & _).
  unfold refill_single. repeat zcase; lia.
Qed.

Lemma ring_slot_lt k r : l !! k = Some r -> 0 <= Z.of_nat k < scRefillMax sc.
Proof. destruct Hring as (_ & _ & _ & Hl & _). intros Hk%lookup_lt_Some. lia. Qed.

(** Reading and writing the [k]-th refill. *)
Lemma ring_get k r : l !! k = Some r -> refill_index (slot sc (Z.of_nat k)) sc = Ok (r, sc).
Proof.
  destruct Hring as (_ & _ & _ & _ & _ & Hlk). intros Hk. unfold refill_index. by rewrite (Hlk k r Hk).
Qed.

Lemma ring_mod k r f : l !! k = Some r ->
  exists sc', mod_refill (slot sc (Z.of_nat k)) f sc = Ok (tt, sc') /\
    ring sc' (<[k := f r]> l) /\ only_refills sc sc'.
Proof.
  intros Hk. pose proof Hring as (Hh & Hlen & Hm & Hl & Ht & Hlk).
  eexists. unfold mod_refill. rewrite (Hlk k r Hk). split; [done|].
  split; [|split; [done|apply length_insert]].
  split_and!; cbn; rewrite ?length_insert; try done; try lia. intros j r' Hj.
  change (slot _ (Z.of_nat j)) with (slot sc (Z.of_nat j)).
  pose proof (ring_slot_lt k r Hk) as Hkm. apply lookup_lt_Some in Hj as Hjm. rewrite length_insert in Hjm.
  destruct (decide (j = k)) as [->|Hne].
  - rewrite list_lookup_insert_eq in Hj by by eapply lookup_lt_Some. simplify_eq.
    apply list_lookup_insert_eq. pose proof (slot_range sc (Z.of_nat k) Hh Hkm). lia.
  - rewrite list_lookup_insert_ne in Hj by done. rewrite list_lookup_insert_ne; [by apply Hlk|].
    intros E. apply Hne. pose proof (slot_range sc (Z.of_nat k) Hh Hkm).
    pose proof (slot_range sc (Z.of_nat j) Hh ltac:(lia)).
    apply Nat2Z.inj, (slot_inj sc); [done|lia|lia|lia].
Qed.

(** Writing a position that is not in use. *)
Lemma ring_mod_out i f r : scRefills sc !! Z.to_nat i = Some r -> 0 <= i ->
  (forall k, 0 <= k < Z.of_nat (length l) -> slot sc k <> i) ->
  exists sc', mod_refill i f sc = Ok (tt, sc') /\ ring sc' l /\ only_refills sc sc' /\
    refill_index i sc' = Ok (f r, sc').
Proof.
  intros Hi Hi0 Hout. pose proof Hring as (Hh & Hlen & Hm & Hl & Ht & Hlk).
  eexists. unfold mod_refill, refill_index. rewrite Hi. split; [done|].
  split; [|split; [split; [done|apply length_insert]|]].
  - split_and!; cbn; rewrite ?length_insert; try done; try lia. intros k r' Hk.
    change (slot _ (Z.of_nat k)) with (slot sc (Z.of_nat k)).
    rewrite list_lookup_insert_ne; [by apply Hlk|]. pose proof (ring_slot_lt k r' Hk).
    pose proof (slot_range sc (Z.of_nat k) Hh ltac:(lia)). apply lookup_lt_Some in Hk.
    intros E. apply (Hout (Z.of_nat k)); lia.
  - cbn. rewrite list_lookup_insert_eq; [done|]. by eapply lookup_lt_Some.
Qed.
End ring.

(** ** The operations on the list *)

Section ring_ops.
Context `{Config}.
Implicit Types (sc : sched_context) (l : list refill) (r : refill).

Lemma slot_0 sc : 0 <= scRefillHead sc < scRefillMax sc -> slot sc 0 = scRefillHead sc.
Proof. intros. unfold slot. zcase; lia. Qed.

Lemma ring_nonempty sc l : ring sc l -> exists r l', l = r :: l'.
Proof. intros (_ & _ & _ & Hl & _). destruct l; [cbn in Hl; lia|eauto]. Qed.

Lemma ring_head sc r l : ring sc (r :: l) -> refill_head sc = Ok (r, sc).
Proof.
  intros Hr. pose proof Hr as (Hh & _). unfold refill_head, bind, gets, id.
  rewrite <- (slot_0 sc Hh). by apply (ring_get _ _ Hr 0).
Qed.

Lemma ring_tail_get sc l r : ring sc (l ++ [r]) -> refill_tail sc = Ok (r, sc).
Proof.
  intros Hr. pose proof Hr as (_ & _ & _ & _ & Ht & _). unfold refill_tail, bind, gets, id.
  rewrite Ht, length_app. cbn.
  replace (Z.of_nat (length l + 1) - 1) with (Z.of_nat (length l)) by lia.
  apply (ring_get _ _ Hr). by rewrite list_lookup_middle.
Qed.

Lemma ring_mod_head sc r l f : ring sc (r :: l) ->
  exists sc', mod_head f sc = Ok (tt, sc') /\ ring sc' (f r :: l) /\ only_refills sc sc'.
Proof.
  intros Hr. pose proof Hr as (Hh & _). unfold mod_head, bind, gets, id.
  rewrite <- (slot_0 sc Hh). by apply (ring_mod _ _ Hr 0 r f).
Qed.

Lemma ring_mod_tail sc l r f : ring sc (l ++ [r]) ->
  exists sc', mod_tail f sc = Ok (tt, sc') /\ ring sc' (l ++ [f r]) /\ only_refills sc sc'.
Proof.
  intros Hr. pose proof Hr as (_ & _ & _ & _ & Ht & _). unfold mod_tail, bind, gets, id.
  rewrite Ht, length_app. cbn.
  replace (Z.of_nat (length l + 1) - 1) with (Z.of_nat (length l)) by lia.
  destruct (ring_mod _ _ Hr (length l) r f) as (sc' & H1 & H2 & H3); [by rewrite list_lookup_middle|].
  exists sc'. split; [done|]. split; [|done]. by rewrite insert_app_r_alt, Nat.sub_diag in H2 by lia.
Qed.

(** Popping the head leaves the rest; the popped position is not in use. *)
Lemma ring_pop sc r l : ring sc (r :: l) -> l <> [] ->
  exists sc', refill_pop_head sc = Ok (scRefillHead sc, sc') /\ ring sc' l /\ only_refills sc sc' /\
    scRefills sc' = scRefills sc /\ scRefills sc !! Z.to_nat (scRefillHead sc) = Some r /\
    0 <= scRefillHead sc /\
    (forall k, 0 <= k < Z.of_nat (length l) -> slot sc' k <> scRefillHead sc).
Proof.
  intros Hr Hne. pose proof Hr as (Hh & Hlen & Hm & Hl & Ht & Hlk). cbn [length] in *.
  assert (Hl0 : (0 < length l)%nat) by (destruct l; [done|cbn; lia]).
  assert (Hnext : refill_next sc (scRefillHead sc) = slot sc 1).
  { rewrite <- (slot_0 sc Hh). apply (ring_next _ _ Hr). lia. }
  pose (sc' := sc <| scRefillHead := slot sc 1 |>).
  assert (Hslot : forall k, 0 <= k < scRefillMax sc - 1 -> slot sc' k = slot sc (k + 1)).
  { intros k Hk. unfold slot, sc'. cbn. unfold slot.
    destruct (Z.ltb_spec (scRefillHead sc + 1) (scRefillMax sc)); repeat zcase; lia. }
  assert (Hring' : ring sc' l).
  { split_and!; cbn; try done; try lia; try (apply slot_range; lia).
    - rewrite Ht. symmetry. rewrite Hslot by lia. f_equal. lia.
    - intros k x Hk. apply lookup_lt_Some in Hk as Hkl. rewrite Hslot by lia.
      replace (Z.of_nat k + 1) with (Z.of_nat (S k)) by lia. by apply Hlk. }
  exists sc'. split_and!; try done; try lia.
  - unfold refill_pop_head, bind, gets, id. rewrite (ring_single _ _ Hr).
    destruct (Z.eqb_spec (Z.of_nat (length (r :: l))) 1); [cbn in *; lia|]. cbn [negb kassert ret].
    unfold kassert, ret. rewrite (ring_head _ _ _ Hr). unfold modify. rewrite Hnext. fold sc'.
    rewrite (ring_size _ _ Hr), (ring_size _ _ Hring'), wadd_small by (rewrite ?word_size_val in *; lia).
    destruct (Z.eqb_spec (Z.of_nat (length (r :: l))) (Z.of_nat (length l) + 1)); [|cbn in *; lia].
    destruct Hring' as (Hh' & _). by destruct (Z.ltb_spec (scRefillHead sc') (scRefillMax sc')); [|lia].
  - rewrite <- (slot_0 sc Hh). apply (Hlk 0%nat). done.
  - intros k Hk. rewrite Hslot by lia. rewrite <- (slot_0 sc Hh).
    intros E. apply slot_inj in E; lia.
Qed.

Lemma ring_add_tail sc l t a : ring sc l -> Z.of_nat (length l) < scRefillMax sc ->
  exists sc', refill_add_tail t a sc = Ok (tt, sc') /\ ring sc' (l ++ [mk_refill t a]) /\ only_refills sc sc'.
Proof.
  intros Hr Hlt. pose proof Hr as (Hh & Hlen & Hm & Hl & Ht & Hlk).
  assert (Hnext : refill_next sc (scRefillTail sc) = slot sc (Z.of_nat (length l))).
  { rewrite Ht, (ring_next _ _ Hr) by lia. f_equal. lia. }
  pose proof (slot_range sc (Z.of_nat (length l)) Hh ltac:(lia)) as Hs.
  destruct (lookup_lt_is_Some_2 (scRefills sc) (Z.to_nat (slot sc (Z.of_nat (length l))))) as [x Hx]; [lia|].
  pose (sc1 := sc <| scRefillTail := slot sc (Z.of_nat (length l)) |>).
  assert (Hr1 : ring sc1 (l ++ [x])).
  { split_and!; cbn; rewrite ?length_app; cbn; try done; try lia.
    - change (slot sc1) with (slot sc). f_equal. lia.
    - intros k y Hk. change (slot sc1) with (slot sc). apply lookup_app_Some in Hk as [Hk|[Hk1 Hk2]]; [by apply Hlk|].
      apply list_lookup_singleton_Some in Hk2 as [E <-].
      replace k with (length l) by lia. done. }
  destruct (ring_mod_tail _ _ _ (fun r => r <| rAmount := a |>) Hr1) as (sc2 & H1 & Hr2 & Ho1).
  destruct (ring_mod_tail _ _ _ (fun r => r <| rTime := t |>) Hr2) as (sc3 & H2 & Hr3 & Ho2).
  exists sc3. split; [|split].
  - unfold refill_add_tail, bind, gets, id, kassert. rewrite (ring_size _ _ Hr).
    destruct (Z.ltb_spec (Z.of_nat (length l)) (scRefillMax sc)); [|lia]. unfold ret, modify.
    rewrite Hnext. fold sc1. rewrite H1, H2.
    by destruct (Z.ltb_spec (slot sc (Z.of_nat (length l))) (scRefillMax sc)); [|lia].
  - done.
  - trans sc2; [trans sc1|]; done.
Qed.

(** ** Keeping the budget *)

(** A well-formed buffer with a representable budget of positive refills. *)
Definition budgeted sc l : Prop := ring sc l /\ positive l /\ total l < word_size.

Lemma wadd_amount a b : 0 < a -> 0 < b -> a + b < word_size -> a +w b = a + b.
Proof. intros. apply wadd_small; lia. Qed.

Lemma positive_snoc l r : positive (l ++ [r]) <-> positive l /\ 0 < rAmount r.
Proof. unfold positive. by rewrite Forall_app, Forall_singleton. Qed.

Lemma total_snoc l r : total (l ++ [r]) = total l + rAmount r.
Proof. rewrite total_app. cbn. lia. Qed.

Lemma schedule_used_spec sc l t a :
  ring sc l -> positive l -> 0 < a -> total l + a < word_size ->
  exists sc' l', schedule_used t a sc = Ok (tt, sc') /\ ring sc' l' /\ positive l' /\
    total l' = total l + a /\ only_refills sc sc'.
Proof.
  intros Hr Hp Ha Hb. destruct l as [|x l _] using rev_ind; [by apply ring_nonempty in Hr as (? & ? & ?)|].
  apply positive_snoc in Hp as [Hp Hx]. rewrite total_snoc in *.
  pose proof (total_nonneg l Hp). unfold schedule_used.
  erewrite bind_ok by by eapply ring_tail_get. erewrite bind_ok by reflexivity. unfold id.
  destruct (t <=? rTime x +w rAmount x).
  - destruct (ring_mod_tail _ _ _ (fun r => r <| rAmount := rAmount r +w a |>) Hr) as (sc' & H1 & H2 & H3).
    exists sc'. eexists. split; [exact H1|]. split; [exact H2|].
    rewrite positive_snoc, total_snoc. cbn. rewrite wadd_amount by lia. split_and!; try done; lia.
  - unfold refill_full. rewrite (ring_size _ _ Hr). zcase; cbn [negb].
    + destruct (ring_mod_tail _ _ _ (fun r => r <| rTime := t -w rAmount r |>) Hr) as (sc1 & H1 & H2 & H3).
      destruct (ring_mod_tail _ _ _ (fun r => r <| rAmount := rAmount r +w a |>) H2) as (sc2 & H4 & H5 & H6).
      exists sc2. eexists. erewrite bind_ok by exact H1. split; [exact H4|]. split; [exact H5|].
      rewrite positive_snoc, total_snoc. cbn. rewrite wadd_amount by lia.
      split_and!; try done; try lia. by trans sc1.
    + destruct (ring_add_tail sc _ t a Hr) as (sc' & H1 & H2 & H3); [destruct Hr as (_ & _ & _ & ? & _); lia|].
      exists sc'. eexists. split; [exact H1|]. split; [exact H2|].
      rewrite positive_snoc, !total_snoc, positive_snoc. cbn. split_and!; try done; lia.
Qed.

(** The first loop terminates within [usage] steps and keeps the total. *)
Lemma charge_loop_spec fuel : forall usage sc l,
  budgeted sc l -> 0 <= usage < word_size -> usage < Z.of_nat fuel ->
  exists usage' sc' r l', charge_loop fuel usage sc = Ok (usage', sc') /\
    budgeted sc' (r :: l') /\ total (r :: l') = total l /\ only_refills sc sc' /\
    0 <= usage' <= usage /\ (rTime r < max_release_time -> usage' < rAmount r).
Proof.
  induction fuel as [|n IH]; intros usage sc l Hbud Hu Hf; [lia|].
  pose proof Hbud as (Hr & Hp & Hb).
  destruct (ring_nonempty sc l Hr) as (r & l' & ->). cbn [charge_loop].
  erewrite bind_ok by by eapply ring_head. apply Forall_cons in Hp as [Hpr Hpl]. cbn [total] in *.
  destruct (Z.leb_spec (rAmount r) usage) as [Hle|Hgt]; cbn [andb].
  2:{ exists usage, sc, r, l'. unfold ret. split_and!; try done; lia. }
  destruct (Z.ltb_spec (rTime r) max_release_time) as [Hlt|Hge].
  2:{ exists usage, sc, r, l'. unfold ret. split_and!; try done; lia. }
  rewrite wsub_small by lia. erewrite bind_ok by reflexivity. unfold id. rewrite (ring_single _ _ Hr).
  destruct (Z.eqb_spec (Z.of_nat (length (r :: l'))) 1) as [E1|E1].
  - destruct (ring_mod_head _ _ _ (fun r => r <| rTime := rTime r +w scPeriod sc |>) Hr) as (sc1 & H1 & H2 & H3).
    erewrite bind_ok by exact H1.
    edestruct (IH (usage - rAmount r) sc1) as (u & sc2 & r2 & l2 & HA & HB & HC & HD & HE & HF);
      [split; [exact H2|split; [by apply Forall_cons|cbn; lia]]|lia|lia|].
    exists u, sc2, r2, l2. split_and!; try done; [by trans sc1|lia|lia].
  - destruct (ring_pop _ _ _ Hr) as (sc1 & H1 & H2 & H3 & Hsame & Hold & Hpos & Hout); [by intros ->|].
    erewrite bind_ok by exact H1.
    destruct (ring_mod_out _ _ H2 (scRefillHead sc) (fun r => r <| rTime := rTime r +w scPeriod sc |>) r)
      as (sc2 & H4 & H5 & H6 & H7); [by rewrite Hsame|done|done|].
    erewrite bind_ok by exact H4. erewrite bind_ok by exact H7. cbn.
    destruct (schedule_used_spec sc2 l' (rTime r +w scPeriod sc) (rAmount r))
      as (sc3 & l3 & H8 & H9 & H10 & H11 & H12); [done..|lia|].
    erewrite bind_ok by exact H8.
    destruct (IH (usage - rAmount r) sc3 l3) as (u & sc4 & r4 & l4 & HA & HB & HC & HD & HE & HF);
      [split; [done|split; [done|lia]]|lia|lia|].
    exists u, sc4, r4, l4. split_and!; try done; [cbn in *; lia| |lia|lia].
    trans sc1; [done|]. trans sc2; [done|]. by trans sc3.
Qed.

(** The last loop terminates and makes the head large enough, since the whole
    budget is. *)
Lemma merge_small_spec fuel : forall sc l,
  budgeted sc l -> min_budget <= total l -> (length l < fuel)%nat ->
  exists sc' r l', merge_small fuel sc = Ok (tt, sc') /\ budgeted sc' (r :: l') /\
    total (r :: l') = total l /\ only_refills sc sc' /\ min_budget <= rAmount r.
Proof.
  induction fuel as [|n IH]; intros sc l Hbud Hmin Hf; [lia|].
  pose proof Hbud as (Hr & Hp & Hb).
  destruct (ring_nonempty sc l Hr) as (r & l' & ->). cbn [merge_small].
  erewrite bind_ok by by eapply ring_head. apply Forall_cons in Hp as [Hpr Hpl]. cbn [total length] in *.
  destruct (Z.ltb_spec (rAmount r) min_budget) as [Hlt|Hge].
  2:{ exists sc, r, l'. by split_and!. }
  assert (Hne : l' <> []) by (intros ->; cbn in *; lia).
  destruct (ring_pop _ _ _ Hr Hne) as (sc1 & H1 & H2 & H3 & Hsame & Hold & Hpos & Hout).
  erewrite bind_ok by exact H1.
  erewrite (bind_ok _ _ sc1 r sc1) by (unfold refill_index; by rewrite Hsame, Hold).
  destruct l' as [|r2 l2]; [done|]. apply Forall_cons in Hpl as [Hpr2 Hpl2]. cbn [total length] in *.
  pose proof (total_nonneg l2 Hpl2).
  destruct (ring_mod_head _ _ _ (fun x => x <| rAmount := rAmount x +w rAmount r |>) H2) as (sc2 & H4 & H5 & H6).
  destruct (ring_mod_head _ _ _ (fun x => x <| rTime := rTime x -w rAmount r |>) H5) as (sc3 & H7 & H8 & H9).
  erewrite bind_ok by exact H4. erewrite bind_ok by exact H7.
  edestruct (IH sc3) as (sc4 & r4 & l4 & HA & HB & HC & HD & HE).
  { split; [exact H8|split]; cbn; rewrite wadd_amount by lia; [|lia].
    apply Forall_cons. cbn. split; [lia|done]. }
  { cbn. rewrite wadd_amount by lia. lia. } { cbn. lia. }
  exists sc4, r4, l4. split_and!; try done; [rewrite HC; cbn; rewrite wadd_amount by lia; lia|].
  trans sc1; [done|]. trans sc2; [done|]. by trans sc3.
Qed.

Lemma budgeted_max sc l : budgeted sc l -> (length l < S (Z.to_nat (scRefillMax sc)))%nat.
Proof. intros ((_ & _ & _ & Hl & _) & _). lia. Qed.

(** The rest of the usage, smaller than the head, is split off the head. *)
Lemma charge_rest_spec sc r l u period :
  budgeted sc (r :: l) -> 0 <= u -> (rTime r < max_release_time -> u < rAmount r) ->
  exists sc' l', when ((0 <? u) && (rTime r <? max_release_time))
     (kassert (u <? rAmount r) ;;;
      mod_head (fun r => r <| rAmount := rAmount r -w u |>) ;;;
      mod_head (fun r => r <| rTime := rTime r +w u |>) ;;;
      schedule_used (rTime r +w period) u) sc = Ok (tt, sc') /\
    budgeted sc' l' /\ total l' = total (r :: l) /\ only_refills sc sc'.
Proof.
  intros Hbud Hu Hexit. pose proof Hbud as (Hr & Hp & Hb).
  destruct (Z.ltb_spec 0 u) as [H0|H0]; cbn [andb when]; [|by exists sc, (r :: l)].
  destruct (Z.ltb_spec (rTime r) max_release_time) as [Ht|Ht]; [|by exists sc, (r :: l)].
  specialize (Hexit Ht). apply Forall_cons in Hp as [Hpr Hpl]. pose proof (total_nonneg l Hpl).
  cbn [total] in *.
  destruct (ring_mod_head _ _ _ (fun r => r <| rAmount := rAmount r -w u |>) Hr) as (sa & Ha & Hra & Hoa).
  destruct (ring_mod_head _ _ _ (fun r => r <| rTime := rTime r +w u |>) Hra) as (sb & Hb' & Hrb & Hob).
  edestruct (schedule_used_spec sb _ (rTime r +w period) u Hrb) as (s3 & l3 & H3 & Hr3 & Hp3 & Ht3 & Ho3).
  { apply Forall_cons. cbn. rewrite wsub_small by lia. split; [lia|done]. }
  { lia. } { cbn. rewrite wsub_small by lia. lia. }
  cbn in Ht3. rewrite wsub_small in Ht3 by lia.
  exists s3, l3. cbn [when]. unfold kassert. apply Z.ltb_lt in Hexit as ->.
  erewrite bind_ok by reflexivity. erewrite bind_ok by exact Ha. erewrite bind_ok by exact Hb'.
  split; [exact H3|]. split; [split; [done|split; [done|lia]]|]. split; [lia|].
  trans sa; [done|]. by trans sb.
Qed.

(** C19. Charging a scheduling context keeps its budget: [refill_budget_check]
    terminates without a panic for every usage, the refills that remain add up
    to the same total, stay positive and well formed in the ring buffer, the
    head refill is at least the minimum budget, and no other field changes. *)
Theorem refill_budget_check_keeps_budget sc l usage :
  budgeted sc l -> min_budget <= total l -> scPeriod sc <> 0 -> 0 <= usage < word_size ->
  exists sc' r l', refill_budget_check usage sc = Ok (tt, sc') /\ budgeted sc' (r :: l') /\
    total (r :: l') = total l /\ min_budget <= rAmount r /\ only_refills sc sc'.
Proof.
  intros Hbud Hmin Hper Hu. unfold refill_budget_check. erewrite bind_ok by reflexivity. unfold id.
  unfold is_round_robin. apply Z.eqb_neq in Hper as ->. erewrite bind_ok by reflexivity.
  destruct (charge_loop_spec (S (Z.to_nat usage)) usage sc l Hbud Hu ltac:(lia))
    as (u & sc1 & r1 & l1 & Hrun1 & Hbud1 & Htot1 & Ho1 & Hu1 & Hexit).
  erewrite bind_ok by exact Hrun1. pose proof Hbud1 as (Hr1 & _).
  erewrite bind_ok by by eapply ring_head.
  destruct (charge_rest_spec sc1 r1 l1 u (scPeriod sc) Hbud1 ltac:(lia) Hexit)
    as (sc2 & l2 & Hrun2 & Hbud2 & Htot2 & Ho2).
  erewrite bind_ok by exact Hrun2.
  assert (Hmax : scRefillMax sc = scRefillMax sc2).
  { by destruct (only_refills_fields sc sc2 ltac:(by trans sc1)) as [_ ->]. }
  destruct (merge_small_spec (S (Z.to_nat (scRefillMax sc))) sc2 l2 Hbud2)
    as (sc3 & r & l' & Hrun3 & Hbud3 & Htot3 & Ho3 & Hhead); [lia|rewrite Hmax; by apply budgeted_max|].
  exists sc3, r, l'. split; [exact Hrun3|]. split; [done|]. split; [lia|]. split; [done|].
  trans sc1; [done|]. by trans sc2.
Qed.

Lemma merge_overlapping_spec fuel : forall sc l,
  budgeted sc l -> (length l < fuel)%nat ->
  exists sc' r l', merge_overlapping fuel sc = Ok (tt, sc') /\ budgeted sc' (r :: l') /\
    total (r :: l') = total l /\ only_refills sc sc' /\
    (forall r0 l0, l = r0 :: l0 -> rAmount r0 <= rAmount r).
Proof.
  induction fuel as [|n IH]; intros sc l Hbud Hf; [lia|]. pose proof Hbud as (Hr & Hp & Hb).
  destruct (ring_nonempty sc l Hr) as (r & l' & ->). cbn [merge_overlapping].
  unfold refill_head_overlapping at 1. rewrite bind_assoc. erewrite bind_ok by reflexivity. unfold id.
  rewrite (ring_single _ _ Hr). destruct (Z.eqb_spec (Z.of_nat (length (r :: l'))) 1) as [E1|E1]; cbn [negb].
  { erewrite bind_ok by reflexivity. exists sc, r, l'. split_and!; try done. intros; simplify_eq; lia. }
  destruct l' as [|r2 l2]; [done|]. rewrite !bind_assoc. erewrite bind_ok by by eapply ring_head.
  pose proof Hr as (Hh & _ & _ & Hl & _). cbn [length] in *.
  assert (Hnext : refill_next sc (scRefillHead sc) = slot sc 1).
  { rewrite <- (slot_0 sc Hh). apply (ring_next _ _ Hr). lia. }
  rewrite Hnext. rewrite bind_assoc. erewrite bind_ok by by apply (ring_get _ _ Hr 1).
  erewrite bind_ok by reflexivity. apply Forall_cons in Hp as [Hpr Hp]. apply Forall_cons in Hp as [Hpr2 Hpl].
  pose proof (total_nonneg l2 Hpl). cbn [total] in *.
  destruct (rTime r2 <=? rTime r +w rAmount r).
  2:{ exists sc, r, (r2 :: l2). split_and!; try done. intros; simplify_eq; lia. }
  destruct (ring_pop _ _ _ Hr) as (sc1 & H1 & H2 & H3 & Hsame & Hold & Hpos & Hout); [done|].
  erewrite bind_ok by exact H1.
  erewrite (bind_ok _ _ sc1 r sc1) by (unfold refill_index; by rewrite Hsame, Hold).
  destruct (ring_mod_head _ _ _ (fun x => x <| rTime := rTime r |>) H2) as (sc2 & H4 & H5 & H6).
  destruct (ring_mod_head _ _ _ (fun x => x <| rAmount := rAmount x +w rAmount r |>) H5) as (sc3 & H7 & H8 & H9).
  erewrite bind_ok by exact H4. erewrite bind_ok by exact H7. cbn in H8. rewrite wadd_amount in H8 by lia.
  edestruct (IH sc3) as (sc4 & r4 & l4 & HA & HB & HC & HD & HE).
  { split; [exact H8|split; [|cbn; lia]]. apply Forall_cons. cbn. split; [lia|done]. } { cbn. lia. }
  exists sc4, r4, l4. split_and!; try done; [rewrite HC; cbn; lia| |].
  - trans sc1; [done|]. trans sc2; [done|]. by trans sc3.
  - intros r0 l0 E. injection E as <- <-. specialize (HE _ _ eq_refl). cbn in HE. lia.
Qed.

(** C32. Unblocking keeps the budget: for a context that is not round robin,
    [refill_unblock_check] terminates, merges overlapping refills without
    changing the total, and never panics when the head refill is sufficient. *)
Theorem refill_unblock_check_keeps_budget sc r l now :
  budgeted sc (r :: l) -> min_budget <= rAmount r ->
  exists b sc' r' l', refill_unblock_check now sc = Ok (b, sc') /\ budgeted sc' (r' :: l') /\
    total (r' :: l') = total (r :: l) /\ min_budget <= rAmount r' /\ only_refills sc sc'.
Proof.
  intros Hbud Hmin. pose proof Hbud as (Hr & Hp & Hb). unfold refill_unblock_check.
  erewrite bind_ok by reflexivity. unfold id.
  destruct (is_round_robin sc); [by exists false, sc, r, l|]. unfold refill_ready at 1.
  rewrite bind_assoc. erewrite bind_ok by by eapply ring_head. erewrite bind_ok by reflexivity.
  destruct (rTime r <=? now +w get_kernel_wcet_ticks); [|by exists false, sc, r, l].
  destruct (ring_mod_head _ _ _ (fun r => r <| rTime := now |>) Hr) as (sc1 & H1 & H2 & H3).
  erewrite bind_ok by exact H1.
  assert (Hbud1 : budgeted sc1 (r <| rTime := now |> :: l)).
  { split; [done|]. apply Forall_cons in Hp as [Hp1 Hp2]. split; [by apply Forall_cons|done]. }
  assert (Hmax : scRefillMax sc = scRefillMax sc1) by (by destruct (only_refills_fields _ _ H3) as [_ ->]).
  destruct (merge_overlapping_spec (S (Z.to_nat (scRefillMax sc))) sc1 _ Hbud1)
    as (sc2 & r2 & l2 & H4 & Hbud2 & Htot & Ho & Hge); [rewrite Hmax; by eapply budgeted_max|].
  erewrite bind_ok by exact H4. unfold refill_sufficient, refill_capacity. rewrite !bind_assoc.
  pose proof Hbud2 as (Hr2 & Hp2 & Hb2).
  erewrite bind_ok by by eapply ring_head. erewrite bind_ok by reflexivity.
  specialize (Hge _ _ eq_refl). cbn [rAmount] in Hge.
  destruct (total_lookup _ 0 r2 Hp2 eq_refl) as [Hpos Hle].
  assert (Hcap : (if rAmount r2 <? 0 then 0 else rAmount r2 -w 0) = rAmount r2).
  { destruct (Z.ltb_spec (rAmount r2) 0); [lia|]. rewrite wsub_small; lia. }
  erewrite bind_ok by reflexivity. rewrite Hcap. unfold kassert. cbn in Hge.
  destruct (Z.leb_spec min_budget (rAmount r2)); [|lia].
  exists true, sc2, r2, l2. split; [reflexivity|]. split; [done|]. split; [done|]. split; [lia|].
  by trans sc1.
Qed.

(** [refill_new] gives a context exactly the given budget: after it the
    ring buffer holds one refill of the whole budget available now, followed
    for a round-robin context by an empty one. *)
Theorem refill_new_budget sc now max_refills budget period :
  2 <= max_refills <= Z.of_nat (length (scRefills sc)) -> max_refills < word_size - 1 ->
  min_budget <= budget ->
  exists sc', refill_new now max_refills budget period sc = Ok (tt, sc') /\
    ring sc' (mk_refill now budget :: (if period =? 0 then [mk_refill now 0] else [])) /\
    scPeriod sc' = period /\ scRefillMax sc' = max_refills.
Proof.
  intros Hm Hw Hb. unfold refill_new. erewrite bind_ok by reflexivity. unfold kassert.
  apply Z.leb_le in Hb as ->. erewrite bind_ok by reflexivity.
  set (sc0 := sc <| scPeriod := period |> <| scRefillHead := 0 |> <| scRefillTail := 0 |>
                 <| scRefillMax := max_refills |>).
  destruct (lookup_lt_is_Some_2 (scRefills sc) 0) as [x Hx]; [lia|].
  assert (Hr0 : ring sc0 [x]).
  { split_and!; cbn; try done; try lia.
    - unfold slot, sc0. cbn. zcase; lia.
    - intros [|k] y Hk; [|done]. injection Hk as <-. unfold slot, sc0. cbn. zcase; [done|lia]. }
  destruct (ring_mod_head _ _ _ (fun r => r <| rAmount := budget |>) Hr0) as (sc1 & H1 & H2 & H3).
  destruct (ring_mod_head _ _ _ (fun r => r <| rTime := now |>) H2) as (sc2 & H4 & H5 & H6).
  erewrite bind_ok by exact H1. erewrite bind_ok by exact H4.
  assert (Ho : only_refills sc0 sc2) by by trans sc1.
  destruct (only_refills_fields _ _ Ho) as [Ep Em]. cbn in Ep, Em.
  unfold maybe_add_empty_tail. erewrite bind_ok by reflexivity. unfold id, is_round_robin. rewrite Ep.
  destruct (period =? 0); cbn [when]; [|by exists sc2].
  erewrite bind_ok by by eapply ring_head.
  destruct (ring_add_tail sc2 _ now 0 H5) as (sc3 & H7 & H8 & H9); [rewrite Em; cbn; lia|].
  exists sc3. destruct (only_refills_fields _ _ H9) as [-> ->]. by split_and!.
Qed.

Lemma refill_sum_loop_spec sc l : budgeted sc l -> forall n k,
  (k < length l)%nat -> (length l - k <= n)%nat ->
  refill_sum_loop n (slot sc (Z.of_nat k)) (total (take (S k) l)) sc = Ok (total l, sc).
Proof.
  intros (Hr & Hp & Hb). pose proof Hr as (Hh & _ & _ & Hl & Ht & _).
  induction n as [|n IH]; intros k Hk Hn; [lia|]. cbn [refill_sum_loop].
  erewrite bind_ok by reflexivity. unfold id. rewrite Ht.
  destruct (Z.eqb_spec (slot sc (Z.of_nat k)) (slot sc (Z.of_nat (length l) - 1))) as [E|E].
  - apply slot_inj in E; [|lia..]. unfold ret. by rewrite take_ge by lia.
  - destruct (lookup_lt_is_Some_2 l (S k)) as [r Hlk].
    { destruct (decide (S k = length l)); [|lia]. exfalso. apply E. f_equal. lia. }
    rewrite (ring_next _ _ Hr) by lia. replace (Z.of_nat k + 1) with (Z.of_nat (S k)) by lia.
    erewrite bind_ok by by eapply ring_get. apply lookup_lt_Some in Hlk as Hlt.
    pose proof (take_S_r l (S k) r Hlk) as Etk.
    assert (Hsum : total (take (S k) l) +w rAmount r = total (take (S (S k)) l)).
    { rewrite Etk, total_snoc. pose proof (total_lookup l (S k) r Hp Hlk).
      assert (positive (take (S k) l)) by by apply Forall_take.
      assert (Hle : total (take (S (S k)) l) <= total l).
      { rewrite <- (take_drop (S (S k)) l) at 2. rewrite total_app.
        pose proof (total_nonneg (drop (S (S k)) l) ltac:(by apply Forall_drop)). lia. }
      rewrite Etk, total_snoc in Hle. pose proof (total_nonneg (take (S k) l) ltac:(done)).
      apply wadd_small; lia. }
    rewrite Hsum. apply IH; lia.
Qed.

(** [refill_sum] computes the budget: it walks the ring buffer once from
    head to tail and returns the exact sum of the amounts in use. *)
Lemma refill_sum_total sc l :
  budgeted sc l -> refill_sum sc = Ok (total l, sc).
Proof.
  intros Hbud. pose proof Hbud as (Hr & Hp & Hb). pose proof Hr as (Hh & _ & _ & Hl & _).
  destruct (ring_nonempty sc l Hr) as (r & l' & ->). unfold refill_sum.
  erewrite bind_ok by by eapply ring_head. erewrite bind_ok by reflexivity. unfold id.
  rewrite <- (slot_0 sc Hh) at 1.
  assert (E : total (take 1 (r :: l')) = rAmount r) by apply Z.add_0_r. rewrite <- E.
  apply (refill_sum_loop_spec sc (r :: l') Hbud _ 0); cbn [length] in *; lia.
Qed.

Lemma mod_refill_run sc i r f : scRefills sc !! i = Some r ->
  mod_refill (Z.of_nat i) f sc = Ok (tt, sc <| scRefills := <[i := f r]> (scRefills sc) |>).
Proof. intros E. unfold mod_refill. by rewrite Nat2Z.id, E. Qed.

Lemma copy_head_spec sc r l : ring sc (r :: l) ->
  exists rs, copy_head_to_first sc = Ok (tt, sc <| scRefills := rs |>) /\
    length rs = length (scRefills sc) /\ rs !! 0%nat = Some r.
Proof.
  intros Hr. pose proof Hr as (Hh & Hlen & _ & _ & _ & Hlk).
  specialize (Hlk 0%nat r eq_refl). change (Z.of_nat 0) with 0 in Hlk. rewrite (slot_0 sc Hh) in Hlk.
  unfold copy_head_to_first. erewrite bind_ok by by eapply ring_head.
  destruct (lookup_lt_is_Some_2 (scRefills sc) 0) as [x Hx]; [lia|].
  erewrite bind_ok by by apply (mod_refill_run sc 0 x).
  set (sc1 := sc <| scRefills := <[0%nat := x <| rAmount := rAmount r |>]> (scRefills sc) |>).
  assert (Hhd : exists h, refill_head sc1 = Ok (h, sc1) /\ rTime h = rTime r).
  { unfold refill_head, bind, gets, id, refill_index. cbn [scRefills scRefillHead sc1].
    change (scRefills sc1) with (<[0%nat := x <| rAmount := rAmount r |>]> (scRefills sc)).
    change (scRefillHead sc1) with (scRefillHead sc).
    destruct (decide (Z.to_nat (scRefillHead sc) = 0%nat)) as [E|E].
    - rewrite E in *. rewrite Hx in Hlk. injection Hlk as ->.
      rewrite list_lookup_insert_eq by lia. by eexists.
    - rewrite list_lookup_insert_ne by done. rewrite Hlk. by eexists. }
  destruct Hhd as (h & Hhd & Eh). erewrite bind_ok by exact Hhd. rewrite Eh.
  assert (H1 : scRefills sc1 !! 0%nat = Some (x <| rAmount := rAmount r |>))
    by (apply list_lookup_insert_eq; lia).
  eexists. split; [by apply (mod_refill_run sc1 0 _ _ H1)|]. cbn [scRefills sc1].
  change (scRefills sc1) with (<[0%nat := x <| rAmount := rAmount r |>]> (scRefills sc)).
  rewrite !length_insert. split; [done|].
  rewrite list_lookup_insert_eq by (rewrite length_insert; lia). by destruct r, x.
Qed.

(** C31. [refill_update] makes the budget of an active context the new one: the
    buffer is truncated to the old head, and afterwards its one or two
    refills add up to exactly [new_budget]. *)
Theorem refill_update_budget sc r l now new_period new_budget new_max :
  ring sc (r :: l) -> 0 <= rAmount r -> 2 <= new_max <= Z.of_nat (length (scRefills sc)) ->
  new_max < word_size - 1 -> 0 <= new_budget < word_size ->
  exists sc' l', refill_update now new_period new_budget new_max sc = Ok (tt, sc') /\
    ring sc' l' /\ total l' = new_budget /\ (length l' <= 2)%nat /\
    scPeriod sc' = new_period /\ scRefillMax sc' = new_max.
Proof.
  intros Hr Ha Hm Hw Hb. destruct (copy_head_spec sc r l Hr) as (rs & Hrun & Hlen & Hrs).
  pose proof Hr as (Hh & _). unfold refill_update. erewrite bind_ok by reflexivity. unfold id, kassert.
  destruct (Z.ltb_spec 0 (scRefillMax sc)); [|lia]. erewrite bind_ok by reflexivity.
  erewrite bind_ok by exact Hrun. erewrite bind_ok by reflexivity.
  set (sc0 := sc <| scRefills := rs |> <| scRefillHead := 0 |> <| scRefillTail := 0 |>
                 <| scRefillMax := new_max |> <| scPeriod := new_period |>).
  assert (Hr0 : ring sc0 [r]).
  { split_and!; cbn; try done; try lia.
    - unfold slot. cbn. zcase; lia.
    - intros [|k] y Hk; [|done]. injection Hk as <-. unfold slot. cbn. zcase; [done|lia]. }
  unfold refill_ready. rewrite bind_assoc. erewrite bind_ok by by eapply ring_head.
  erewrite bind_ok by reflexivity.
  assert (exists sc1 t, when (rTime r <=? now +w get_kernel_wcet_ticks) (mod_head (fun r => r <| rTime := now |>)) sc0
    = Ok (tt, sc1) /\ ring sc1 [mk_refill t (rAmount r)] /\ only_refills sc0 sc1) as (sc1 & t & H1 & Hr1 & Ho1).
  { destruct (rTime r <=? _); cbn [when].
    - destruct (ring_mod_head _ _ _ (fun r => r <| rTime := now |>) Hr0) as (sc1 & ? & ? & ?). eauto.
    - exists sc0, (rTime r). destruct r. by split_and!. }
  erewrite bind_ok by exact H1. erewrite bind_ok by by eapply ring_head. cbn [rAmount rTime].
  destruct (only_refills_fields _ _ Ho1) as [Ep Em]. cbn in Ep, Em.
  destruct (Z.leb_spec new_budget (rAmount r)) as [Hle|Hgt].
  - destruct (ring_mod_head _ _ _ (fun r => r <| rAmount := new_budget |>) Hr1) as (sc2 & H2 & Hr2 & Ho2).
    destruct (only_refills_fields _ _ Ho2) as [Ep2 Em2].
    erewrite bind_ok by exact H2. unfold maybe_add_empty_tail. erewrite bind_ok by reflexivity. unfold id.
    destruct (is_round_robin sc2); cbn [when].
    + erewrite bind_ok by by eapply ring_head. cbn [rTime].
      destruct (ring_add_tail sc2 _ t 0 Hr2) as (sc3 & H3 & Hr3 & Ho3); [rewrite Em2, Em; cbn; lia|].
      destruct (only_refills_fields _ _ Ho3) as [Ep3 Em3].
      exists sc3. eexists. split; [exact H3|]. split; [exact Hr3|]. cbn. split_and!; lia.
    + exists sc2. eexists. split; [done|]. split; [exact Hr2|]. cbn. split_and!; lia.
  - destruct (ring_add_tail sc1 _ (t +w new_period) (new_budget -w rAmount r) Hr1) as (sc3 & H3 & Hr3 & Ho3);
      [rewrite Em; cbn; lia|].
    destruct (only_refills_fields _ _ Ho3) as [Ep3 Em3].
    exists sc3. eexists. split; [exact H3|]. split; [exact Hr3|]. cbn.
    rewrite wsub_small by lia. split_and!; lia.
Qed.
End ring_ops.

(** ** A concrete scheduling context

    Three of four refills in use, the last one wrapped around. *)

Module RefillExample.
Definition sc : sched_context :=
  mk_sched_context 10000 0 0 0 0 0 0 0 4 2 0 false
    [mk_refill 9000 300; mk_refill 7 7; mk_refill 1000 500; mk_refill 5000 250].
Definition refills : list refill := [mk_refill 1000 500; mk_refill 5000 250; mk_refill 9000 300].

Lemma sc_ring : ring sc refills.
Proof.
  split; [cbn; lia|]. split; [cbn; lia|]. split; [rewrite word_size_val; cbn; lia|].
  split; [cbn; lia|]. split; [reflexivity|].
  intros [|[|[|k]]] r Hk; cbn in Hk; simplify_eq; reflexivity.
Qed.

Lemma sc_budgeted : budgeted sc refills.
Proof. split; [exact sc_ring|]. split; [repeat constructor; cbn; lia|rewrite word_size_val; cbn; lia]. Qed.
End RefillExample.

Lemma refill_budget_check_keeps_budget_witness :
  exists sc' r l', @refill_budget_check riscv_mcs_config 600 RefillExample.sc = Ok (tt, sc') /\
    budgeted sc' (r :: l') /\ total (r :: l') = 1050.
Proof.
  destruct (@refill_budget_check_keeps_budget riscv_mcs_config RefillExample.sc RefillExample.refills 600)
    as (sc' & r & l' & H1 & H2 & H3 & _);
    [exact RefillExample.sc_budgeted|vm_compute; discriminate|discriminate|rewrite word_size_val; lia|].
  exists sc', r, l'. split; [exact H1|]. split; [exact H2|exact H3].
Defined.

Lemma refill_unblock_check_keeps_budget_witness :
  exists b sc' r l', @refill_unblock_check riscv_mcs_config 8000 RefillExample.sc = Ok (b, sc') /\
    budgeted sc' (r :: l') /\ total (r :: l') = 1050.
Proof.
  destruct (@refill_unblock_check_keeps_budget riscv_mcs_config RefillExample.sc (mk_refill 1000 500)
    [mk_refill 5000 250; mk_refill 9000 300] 8000) as (b & sc' & r & l' & H1 & H2 & H3 & _);
    [exact RefillExample.sc_budgeted|vm_compute; discriminate|].
  exists b, sc', r, l'. split; [exact H1|]. split; [exact H2|exact H3].
Defined.

Lemma refill_new_budget_witness :
  exists sc', @refill_new riscv_mcs_config 77 2 400 0 RefillExample.sc = Ok (tt, sc') /\
    ring sc' [mk_refill 77 400; mk_refill 77 0].
Proof.
  destruct (@refill_new_budget riscv_mcs_config RefillExample.sc 77 2 400 0) as (sc' & H1 & H2 & _);
    [cbn; lia|rewrite word_size_val; lia|vm_compute; discriminate|].
  exists sc'. split; [exact H1|exact H2].
Defined.

Lemma refill_sum_total_witness : refill_sum RefillExample.sc = Ok (1050, RefillExample.sc).
Proof. exact (refill_sum_total RefillExample.sc RefillExample.refills RefillExample.sc_budgeted). Defined.

Lemma refill_update_budget_witness :
  exists sc' l', @refill_update riscv_mcs_config 50 20000 900 3 RefillExample.sc = Ok (tt, sc') /\
    ring sc' l' /\ total l' = 900.
Proof.
  destruct (@refill_update_budget riscv_mcs_config RefillExample.sc (mk_refill 1000 500)
    [mk_refill 5000 250; mk_refill 9000 300] 50 20000 900 3) as (sc' & l' & H1 & H2 & H3 & _);
    [exact RefillExample.sc_ring|cbn; lia|cbn; lia|rewrite word_size_val; lia|rewrite word_size_val; lia|].
  exists sc', l'. split; [exact H1|]. split; [exact H2|exact H3].
Defined.
