(* ===== verification/TcbQueue.v ===== *)
(** * TCB queues (sel4_task/src/tcb_queue.rs)

    A queue is a head and a tail pointer; its links are fields of the queued
    TCBs: [tcbSchedPrev]/[tcbSchedNext] for the scheduler queues,
    [tcbEPPrev]/[tcbEPNext] for endpoint and notification queues.  The
    operations run in the monad of the TCB heap and return the new queue.
    Each is shown to implement an operation on lists. *)

From stdpp Require Import sorting.
From S2P Require Import Prelude Monad DList Config Objects State.

Definition T (A : Type) : Type := M (gmap Z tcb_t) A.

Definition set_SchedNext (v : Z) (t : tcb_t) : tcb_t := t <| tcbSchedNext := v |>.
Definition set_SchedPrev (v : Z) (t : tcb_t) : tcb_t := t <| tcbSchedPrev := v |>.
Definition set_EPNext (v : Z) (t : tcb_t) : tcb_t := t <| tcbEPNext := v |>.
Definition set_EPPrev (v : Z) (t : tcb_t) : tcb_t := t <| tcbEPPrev := v |>.

Definition empty (q : tcb_queue_t) : bool := head q =? 0.

Section tcb_queue.
Context `{Config}.

(** [ep_append] without MCS: first come, first served. *)
Definition ep_append_fifo (q : tcb_queue_t) (tcb : Z) : T tcb_queue_t :=
  let* q := (if head q =? 0 then ret (q <| head := tcb |>)
             else hmod (tail q) (set_EPNext tcb) ;;; ret q) in
  hmod tcb (fun t => set_EPNext 0 (set_EPPrev (tail q) t)) ;;;
  ret (q <| tail := tcb |>).

(** The loop of [ep_append] with MCS: walk back from the tail over threads of
    lower priority.  The number of TCBs bounds the length of any queue. *)
Fixpoint ep_find_place (fuel : nat) (prio before_ptr after_ptr : Z) : T (Z * Z) :=
  match fuel with
  | O => fail EFuel
  | S n =>
      if before_ptr =? 0 then ret (before_ptr, after_ptr)
      else
        let* b := hget before_ptr in
        if tcbPriority b <? prio then ep_find_place n prio (tcbEPPrev b) before_ptr
        else ret (before_ptr, after_ptr)
  end.

Definition ep_append_prio (q : tcb_queue_t) (tcb : Z) : T tcb_queue_t :=
  let* t := hget tcb in
  let* fuel := gets (fun h => S (size h)) in
  let* place := ep_find_place fuel (tcbPriority t) (tail q) 0 in
  let before_ptr := fst place in
  let after_ptr := snd place in
  let* q := (if before_ptr =? 0 then ret (q <| head := tcb |>)
             else hmod before_ptr (set_EPNext tcb) ;;; ret q) in
  let* q := (if after_ptr =? 0 then ret (q <| tail := tcb |>)
             else hmod after_ptr (set_EPPrev tcb) ;;; ret q) in
  hmod tcb (fun t => set_EPPrev before_ptr (set_EPNext after_ptr t)) ;;;
  ret q.

Definition ep_append (q : tcb_queue_t) (tcb : Z) : T tcb_queue_t :=
  if kernel_mcs then ep_append_prio q tcb else ep_append_fifo q tcb.

Definition ep_dequeue (q : tcb_queue_t) (tcb : Z) : T tcb_queue_t :=
  let* t := hget tcb in
  let* q := (if negb (tcbEPPrev t =? 0)
             then hmod (tcbEPPrev t) (set_EPNext (tcbEPNext t)) ;;; ret q
             else ret (q <| head := tcbEPNext t |>)) in
  if negb (tcbEPNext t =? 0)
  then hmod (tcbEPNext t) (set_EPPrev (tcbEPPrev t)) ;;; ret q
  else ret (q <| tail := tcbEPPrev t |>).

Definition prepend (q : tcb_queue_t) (tcb : Z) : T tcb_queue_t :=
  let* q := (if empty q then ret (q <| tail := tcb |>)
             else hmod tcb (set_SchedNext (head q)) ;;;
                  hmod (head q) (set_SchedPrev tcb) ;;; ret q) in
  ret (q <| head := tcb |>).

Definition append (q : tcb_queue_t) (tcb : Z) : T tcb_queue_t :=
  let* q := (if empty q then ret (q <| head := tcb |>)
             else hmod tcb (set_SchedPrev (tail q)) ;;;
                  hmod (tail q) (set_SchedNext tcb) ;;; ret q) in
  ret (q <| tail := tcb |>).

Definition remove (q : tcb_queue_t) (tcb : Z) : T tcb_queue_t :=
  let* t := hget tcb in
  let before := tcbSchedPrev t in
  let after := tcbSchedNext t in
  if (head q =? tcb) && (tail q =? tcb) then ret (mk_tcb_queue 0 0)
  else if head q =? tcb then
    hmod after (set_SchedPrev 0) ;;;
    hmod tcb (set_SchedNext 0) ;;;
    ret (q <| head := after |>)
  else if tail q =? tcb then
    hmod before (set_SchedNext 0) ;;;
    hmod tcb (set_SchedPrev 0) ;;;
    ret (q <| tail := before |>)
  else
    hmod before (set_SchedNext after) ;;;
    hmod after (set_SchedPrev before) ;;;
    hmod tcb (set_SchedPrev 0) ;;;
    hmod tcb (set_SchedNext 0) ;;;
    ret q.

(** [tcb_t::queue_insert] (tcb.rs): link [tcb] in front of [tcb_after]. *)
Definition queue_insert (tcb tcb_after : Z) : T unit :=
  let* a := hget tcb_after in
  let before := tcbSchedPrev a in
  kassert (negb (before =? 0)) ;;;
  kassert (negb (before =? tcb_after)) ;;;
  hmod tcb (fun t => set_SchedNext tcb_after (set_SchedPrev before t)) ;;;
  hmod tcb_after (set_SchedPrev tcb) ;;;
  hmod before (set_SchedNext tcb).

End tcb_queue.

(** ** Queues as lists *)

Definition sched_links (h : gmap Z tcb_t) : links := fun a =>
  (fun t => (tcbSchedPrev t, tcbSchedNext t)) <$> h !! a.
Definition ep_links (h : gmap Z tcb_t) : links := fun a =>
  (fun t => (tcbEPPrev t, tcbEPNext t)) <$> h !! a.

(** The queue [q] holds the threads [l] in order. *)
Definition queue_rel (L : links) (q : tcb_queue_t) (l : list Z) : Prop :=
  dlist L l /\ head q = headz 0 l /\ tail q = lastz 0 l.

(** A TCB with its scheduler (endpoint) links erased: what queue operations
    leave alone. *)
Definition erase_sched (t : tcb_t) : tcb_t := t <| tcbSchedNext := 0 |> <| tcbSchedPrev := 0 |>.
Definition erase_ep (t : tcb_t) : tcb_t := t <| tcbEPNext := 0 |> <| tcbEPPrev := 0 |>.

Definition same_but_sched (h h' : gmap Z tcb_t) (touched : list Z) : Prop :=
  (forall a, erase_sched <$> h' !! a = erase_sched <$> h !! a) /\
  (forall a, a ∉ touched -> h' !! a = h !! a).
Definition same_but_ep (h h' : gmap Z tcb_t) (touched : list Z) : Prop :=
  (forall a, erase_ep <$> h' !! a = erase_ep <$> h !! a) /\
  (forall a, a ∉ touched -> h' !! a = h !! a).

Lemma queue_empty L q l : queue_rel L q l -> empty q = bool_decide (l = []).
Proof.
  intros ((_ & H0 & _) & Hh & _). unfold empty. rewrite Hh.
  destruct (Z.eqb_spec (headz 0 l) 0) as [E|E].
  - apply headz_zero in E; [|done]. by rewrite bool_decide_true.
  - rewrite bool_decide_false; [done|]. intros ->. done.
Qed.

Lemma sched_links_Some h a p n :
  sched_links h a = Some (p, n) ->
  exists t, h !! a = Some t /\ tcbSchedPrev t = p /\ tcbSchedNext t = n.
Proof. unfold sched_links. destruct (h !! a) as [t|]; cbn; [|done]. intros. simplify_eq. eauto. Qed.

Lemma ep_links_Some h a p n :
  ep_links h a = Some (p, n) ->
  exists t, h !! a = Some t /\ tcbEPPrev t = p /\ tcbEPNext t = n.
Proof. unfold ep_links. destruct (h !! a) as [t|]; cbn; [|done]. intros. simplify_eq. eauto. Qed.

Lemma sched_list_dom h l a : dlist (sched_links h) l -> a ∈ l -> is_Some (h !! a).
Proof.
  intros (_ & _ & Hs) Ha. destruct (dseg_dom _ _ _ _ _ Hs Ha) as [[p n] E].
  apply sched_links_Some in E as (t & -> & _). eauto.
Qed.

Lemma ep_list_dom h l a : dlist (ep_links h) l -> a ∈ l -> is_Some (h !! a).
Proof.
  intros (_ & _ & Hs) Ha. destruct (dseg_dom _ _ _ _ _ Hs Ha) as [[p n] E].
  apply ep_links_Some in E as (t & -> & _). eauto.
Qed.

(** Compute the links, or one TCB, of a heap built by [alter]s. *)
Ltac tcb_alter :=
  rewrite ?lookup_alter_case; repeat case_decide; simplify_eq;
  repeat match goal with H : ?h !! ?a = Some _ |- context [?h !! ?a] => rewrite H end;
  cbn; try done; try congruence.

Ltac erase_alter a h :=
  rewrite !lookup_alter_case; repeat case_decide; by destruct (h !! a).

Lemma same_but_sched_refl h l : same_but_sched h h l.
Proof. done. Qed.

Section sched_queue.
Context (h : gmap Z tcb_t) (q : tcb_queue_t).
Hypothesis H0 : h !! 0 = None.

Lemma prepend_spec l p t :
  queue_rel (sched_links h) q l -> h !! p = Some t -> p ∉ l ->
  tcbSchedPrev t = 0 -> tcbSchedNext t = 0 ->
  exists q' h', prepend q p h = Ok (q', h') /\
    queue_rel (sched_links h') q' (p :: l) /\ same_but_sched h h' (p :: l).
Proof.
  intros Hq Hp Hpl Hprev Hnext. pose proof Hq as (Hd & Hh & Ht).
  assert (Hp0 : p <> 0) by by eapply lookup_nonzero.
  unfold prepend. rewrite (queue_empty _ _ _ Hq). case_bool_decide as El.
  - subst l. do 2 eexists. split; [reflexivity|]. split; [|done]. split; [|done].
    apply (dlist_insert (sched_links h) (sched_links h) [] p []); [done|done|done| |set_solver].
    unfold sched_links. rewrite Hp. cbn. by rewrite Hprev, Hnext.
  - assert (Hhl : headz 0 l ∈ l) by by apply headz_in.
    assert (Hhs : is_Some (h !! head q)) by (rewrite Hh; by eapply sched_list_dom).
    assert (Hhz : head q <> 0) by (rewrite Hh; by rewrite headz_zero by apply Hd).
    assert (Hhp : head q <> p) by (rewrite Hh; intros E; congruence).
    do 2 eexists. split.
    { erewrite bind_ok; [reflexivity|]. hstep. hstep. reflexivity. }
    split; [split; [|split]|split].
    + apply (dlist_insert (sched_links h) _ [] p l); [done|done|done| |].
      * unfold sched_links. tcb_alter.
      * intros b pb nb Hb HL. apply sched_links_Some in HL as (tb & Htb & <- & <-).
        assert (b <> p) by (intros ->; done). rewrite Hh.
        rewrite (decide_False (P := b = lastz 0 [])) by (intros ->; by apply Hd in Hb).
        unfold sched_links. tcb_alter.
    + done.
    + cbn. rewrite lastz_cons, Ht. by apply lastz_default.
    + intros a. erase_alter a h.
    + intros a Ha. rewrite !lookup_alter_ne; [done|set_solver|]. rewrite Hh. set_solver.
Qed.

Lemma append_spec l p t :
  queue_rel (sched_links h) q l -> h !! p = Some t -> p ∉ l ->
  tcbSchedPrev t = 0 -> tcbSchedNext t = 0 ->
  exists q' h', append q p h = Ok (q', h') /\
    queue_rel (sched_links h') q' (l ++ [p]) /\ same_but_sched h h' (l ++ [p]).
Proof.
  intros Hq Hp Hpl Hprev Hnext. pose proof Hq as (Hd & Hh & Ht).
  assert (Hp0 : p <> 0) by by eapply lookup_nonzero.
  unfold append. rewrite (queue_empty _ _ _ Hq). case_bool_decide as El.
  - subst l. do 2 eexists. split; [reflexivity|]. split; [|done]. split; [|done].
    apply (dlist_insert (sched_links h) (sched_links h) [] p []); [done|done|done| |set_solver].
    unfold sched_links. rewrite Hp. cbn. by rewrite Hprev, Hnext.
  - assert (Hhl : lastz 0 l ∈ l) by by apply lastz_in.
    assert (Hhs : is_Some (h !! tail q)) by (rewrite Ht; by eapply sched_list_dom).
    assert (Hhz : tail q <> 0) by (rewrite Ht; by rewrite lastz_zero by apply Hd).
    assert (Hhp : tail q <> p) by (rewrite Ht; intros E; congruence).
    do 2 eexists. split.
    { erewrite bind_ok; [reflexivity|]. hstep. hstep. reflexivity. }
    split; [split; [|split]|split].
    + apply (dlist_insert (sched_links h) _ l p []); [by rewrite app_nil_r|set_solver|done| |].
      * unfold sched_links. tcb_alter.
      * intros b pb nb Hb HL. rewrite app_nil_r in Hb.
        apply sched_links_Some in HL as (tb & Htb & <- & <-).
        assert (b <> p) by (intros ->; done). rewrite Ht.
        rewrite (decide_False (P := b = headz 0 [])) by (intros ->; by apply Hd in Hb).
        unfold sched_links. tcb_alter.
    + cbn. rewrite Hh, headz_app. by destruct l.
    + cbn. by rewrite lastz_snoc.
    + intros a. erase_alter a h.
    + intros a Ha. rewrite !lookup_alter_ne; [done|set_solver|]. rewrite Ht. set_solver.
Qed.

(** The element of a queue and its neighbours. *)
Lemma queue_elem l1 p l2 :
  queue_rel (sched_links h) q (l1 ++ p :: l2) ->
  exists t, h !! p = Some t /\ p <> 0 /\
    tcbSchedPrev t = lastz 0 l1 /\ tcbSchedNext t = headz 0 l2 /\
    (head q = p <-> l1 = []) /\ (tail q = p <-> l2 = []) /\
    (l1 <> [] -> lastz 0 l1 <> 0 /\ is_Some (h !! lastz 0 l1)) /\
    (l2 <> [] -> headz 0 l2 <> 0 /\ is_Some (h !! headz 0 l2)) /\
    (forall b, b ∈ l1 ++ l2 -> b <> p /\ b <> 0).
Proof.
  intros (Hd & Hh & Ht). pose proof Hd as (_ & _ & Hs).
  apply dseg_lookup in Hs. apply sched_links_Some in Hs as (t & Hp & Hpv & Hnx).
  pose proof (dlist_nodup_app _ _ _ _ Hd) as (_ & _ & Hp1 & Hp2 & _ & Hp0 & H01 & H02).
  exists t. do 4 (split; [done|]). split; [|split; [|split; [|split]]].
  - rewrite Hh, headz_app. destruct l1 as [|x l1]; [done|]. cbn. split; [set_solver|done].
  - rewrite Ht, lastz_app, lastz_cons. destruct l2 as [|x l2 _] using rev_ind; [done|].
    rewrite lastz_snoc. split; [set_solver|by destruct l2].
  - intros Hl. pose proof (lastz_in 0 l1 Hl) as Hin.
    split; [by rewrite lastz_zero|]. eapply sched_list_dom; [exact Hd|]. set_solver.
  - intros Hl. pose proof (headz_in 0 l2 Hl) as Hin.
    split; [by rewrite headz_zero|]. eapply sched_list_dom; [exact Hd|]. set_solver.
  - intros b Hb. split; intros ->; set_solver.
Qed.

(** The heap after unlinking [p] from between [b] and [a]. *)
Definition unlinked (b p a : Z) : gmap Z tcb_t :=
  alter erase_sched p (alter (set_SchedPrev b) a (alter (set_SchedNext a) b h)).

Lemma unlinked_rel l1 p l2 :
  queue_rel (sched_links h) q (l1 ++ p :: l2) ->
  dlist (sched_links (unlinked (lastz 0 l1) p (headz 0 l2))) (l1 ++ l2) /\
  same_but_sched h (unlinked (lastz 0 l1) p (headz 0 l2)) (l1 ++ p :: l2).
Proof.
  intros Hq. destruct (queue_elem _ _ _ Hq) as (t & _ & Hp0 & _ & _ & _ & _ & _ & _ & Hoth).
  destruct Hq as (Hd & _ & _). unfold unlinked. split; [|split].
  - eapply dlist_remove; [exact Hd|]. intros b pb nb Hb HL.
    apply sched_links_Some in HL as (tb & Htb & <- & <-).
    destruct (Hoth b Hb). unfold sched_links. tcb_alter.
  - intros c. erase_alter c h.
  - intros c Hc. rewrite lookup_alter_ne by set_solver. rewrite !lookup_alter_case.
    destruct (decide (c = 0)) as [->|Hc0]; [by rewrite H0; repeat case_decide|].
    rewrite !decide_False; [done|intros <-..]; apply Hc, elem_of_app.
    + left. apply lastz_in. by intros ->.
    + right. apply elem_of_cons. right. apply headz_in. by intros ->.
Qed.

(** Each branch of [remove] produces that heap. *)
Lemma remove_heap l1 p l2 :
  queue_rel (sched_links h) q (l1 ++ p :: l2) ->
  exists q', remove q p h = Ok (q', unlinked (lastz 0 l1) p (headz 0 l2)) /\
    head q' = headz 0 (l1 ++ l2) /\ tail q' = lastz 0 (l1 ++ l2).
Proof.
  intros Hq. destruct (queue_elem _ _ _ Hq)
    as (t & Hp & Hp0 & Hpv & Hnx & Hhd & Htl & Hbf & Haf & Hoth).
  destruct Hq as (_ & Hh & Ht). unfold remove, unlinked. hstep. rewrite Hpv, Hnx.
  assert (Ehd : (head q =? p) = bool_decide (l1 = [])).
  { apply eq_bool_prop_intro. by rewrite Is_true_true, Z.eqb_eq, bool_decide_spec. }
  assert (Etl : (tail q =? p) = bool_decide (l2 = [])).
  { apply eq_bool_prop_intro. by rewrite Is_true_true, Z.eqb_eq, bool_decide_spec. }
  rewrite Ehd, Etl. rewrite headz_app, lastz_app in *. rewrite lastz_cons in Ht.
  assert (Hbp : l1 <> [] -> lastz 0 l1 <> p)
    by (intros E; apply Hoth, elem_of_app; left; by apply lastz_in).
  assert (Hap : l2 <> [] -> headz 0 l2 <> p)
    by (intros E; apply Hoth, elem_of_app; right; by apply headz_in).
  assert (Hz : forall f, alter f 0 h = h) by (intros; by apply alter_id_None).
  destruct (decide (l1 = [])) as [->|E1], (decide (l2 = [])) as [->|E2];
    rewrite ?bool_decide_true, ?bool_decide_false by done; cbn;
    change (lastz 0 []) with 0 in *; change (headz 0 []) with 0 in *.
  - exists (mk_tcb_queue 0 0). rewrite !Hz. split; [|done]. unfold ret. do 2 f_equal.
    symmetry. eapply alter_same; [done|]. destruct t; cbn in *. by subst.
  - specialize (Hap E2). destruct (Haf E2) as [Ha0 Has].
    eexists. split; [do 2 hstep; unfold ret; do 2 f_equal; rewrite Hz|cbn].
    + heap_eq h.
    + rewrite Ht. split; [by destruct l2|]. by apply lastz_default.
  - destruct (Hbf E1) as [Hb0 Hbs]. specialize (Hbp E1).
    eexists. split; [do 2 hstep; unfold ret; do 2 f_equal; rewrite (alter_id_None _ 0) by auto with heap|cbn].
    + heap_eq h.
    + rewrite Hh. split; [by destruct l1|done].
  - specialize (Hap E2). destruct (Haf E2) as [Ha0 Has], (Hbf E1) as [Hb0 Hbs]. specialize (Hbp E1).
    eexists. split; [do 4 hstep; unfold ret; do 2 f_equal|cbn].
    + heap_eq h.
    + rewrite Hh, Ht. split; [by destruct l1|]. by destruct l2 as [|x l2 _] using rev_ind; rewrite ?lastz_snoc.
Qed.

Lemma remove_spec l1 p l2 :
  queue_rel (sched_links h) q (l1 ++ p :: l2) ->
  exists q' h' t', remove q p h = Ok (q', h') /\
    queue_rel (sched_links h') q' (l1 ++ l2) /\ same_but_sched h h' (l1 ++ p :: l2) /\
    h' !! p = Some t' /\ tcbSchedPrev t' = 0 /\ tcbSchedNext t' = 0.
Proof.
  intros Hq. destruct (remove_heap _ _ _ Hq) as (q' & Hrun & Hh & Ht).
  destruct (unlinked_rel _ _ _ Hq) as [Hd Hs].
  destruct (queue_elem _ _ _ Hq) as (t & Hp & _).
  destruct (alter_is_Some_2 (alter (set_SchedNext (headz 0 l2)) (lastz 0 l1) h)
    (headz 0 l2) (set_SchedPrev (lastz 0 l1)) p) as [t' Ht']; [eauto with heap|].
  eexists q', _, _. split; [exact Hrun|]. split; [done|]. split; [done|].
  unfold unlinked. by rewrite lookup_alter_eq, Ht'.
Qed.
End sched_queue.

Section ep_queue.
Context (h : gmap Z tcb_t) (q : tcb_queue_t).
Hypothesis H0 : h !! 0 = None.

(** The heap after linking [p] between [b] and [a]. *)
Definition ep_linked (b p a : Z) : gmap Z tcb_t :=
  alter (fun t => set_EPPrev b (set_EPNext a t)) p
    (alter (set_EPPrev p) a (alter (set_EPNext p) b h)).

Lemma queue_ends l1 l2 :
  dlist (ep_links h) (l1 ++ l2) ->
  (lastz 0 l1 = 0 -> l1 = []) /\ (headz 0 l2 = 0 -> l2 = []) /\
  (lastz 0 l1 <> 0 -> is_Some (h !! lastz 0 l1)) /\
  (headz 0 l2 <> 0 -> is_Some (h !! headz 0 l2)).
Proof.
  intros Hd. pose proof Hd as (_ & H0l & _). split_and!.
  - apply lastz_zero. set_solver.
  - apply headz_zero. set_solver.
  - intros E. eapply ep_list_dom; [exact Hd|]. apply elem_of_app. left. apply lastz_in. by intros ->.
  - intros E. eapply ep_list_dom; [exact Hd|]. apply elem_of_app. right. apply headz_in. by intros ->.
Qed.

(** The neighbours of the cut between [l1] and [l2] are linked to [p]. *)
Lemma ep_linked_rel l1 l2 p t :
  dlist (ep_links h) (l1 ++ l2) -> h !! p = Some t -> p ∉ l1 ++ l2 ->
  dlist (ep_links (ep_linked (lastz 0 l1) p (headz 0 l2))) (l1 ++ p :: l2) /\
  same_but_ep h (ep_linked (lastz 0 l1) p (headz 0 l2)) (l1 ++ p :: l2).
Proof.
  intros Hd Hp Hpl. pose proof Hd as (_ & H0l & _).
  assert (Hbl : forall b, b ∈ l1 ++ l2 -> b <> p) by (intros b Hb ->; done).
  unfold ep_linked. split; [|split].
  - apply (dlist_insert (ep_links h) _ l1 p l2); [done|done|by eapply lookup_nonzero| |].
    + unfold ep_links. tcb_alter.
    + intros b pb nb Hb HL. apply ep_links_Some in HL as (tb & Htb & <- & <-).
      specialize (Hbl b Hb). unfold ep_links. tcb_alter.
  - intros c. erase_alter c h.
  - intros c Hc. rewrite lookup_alter_ne by set_solver. rewrite !lookup_alter_case.
    destruct (decide (c = 0)) as [->|Hc0]; [by rewrite H0; repeat case_decide|].
    rewrite !decide_False; [done|intros <-..]; apply Hc, elem_of_app.
    + left. apply lastz_in. by intros ->.
    + right. apply elem_of_cons. right. apply headz_in. by intros ->.
Qed.

Lemma ep_append_fifo_spec l p t :
  queue_rel (ep_links h) q l -> h !! p = Some t -> p ∉ l ->
  exists q' h', ep_append_fifo q p h = Ok (q', h') /\
    queue_rel (ep_links h') q' (l ++ [p]) /\ same_but_ep h h' (l ++ [p]).
Proof.
  intros Hq Hp Hpl. pose proof Hq as (Hd & Hh & Ht).
  destruct (ep_linked_rel l [] p t) as [Hd' Hs]; rewrite ?app_nil_r; [done..|].
  exists (mk_tcb_queue (headz 0 (l ++ [p])) p), (ep_linked (lastz 0 l) p 0).
  split; [|split; [|done]]; [|split; [done|]; split; [done|]; by rewrite lastz_snoc].
  unfold ep_append_fifo. change (head q =? 0) with (empty q). rewrite (queue_empty _ _ _ Hq).
  assert (Ep : forall f, alter f 0 h = h) by (intros; by apply alter_id_None).
  case_bool_decide as El.
  - subst l. cbn. hstep. unfold ret, ep_linked. cbn in *. rewrite !Ep, Ht. done.
  - destruct (queue_ends l []) as (_ & _ & Hl2 & _); [by rewrite app_nil_r|].
    assert (Htz : tail q <> 0) by (rewrite Ht; by rewrite lastz_zero by apply Hd).
    rewrite <- Ht in *. erewrite bind_ok; [|hstep; reflexivity]. cbn. hstep.
    unfold ret, ep_linked. rewrite headz_app, (alter_id_None _ 0) by auto with heap.
    destruct l; [done|]. cbn in *. by rewrite <- Hh.
Qed.

(** The loop of the priority queue: it stops between the threads of at least
    the given priority and the suffix of strictly lower ones. *)
Definition prio_of (a : Z) : Z := default 0 (tcbPriority <$> h !! a).

Lemma ep_find_place_spec prio l1 : forall fuel l2,
  dlist (ep_links h) (l1 ++ l2) -> (length l1 < fuel)%nat ->
  Forall (fun a => prio_of a < prio) l2 ->
  exists l1' l2', l1 ++ l2 = l1' ++ l2' /\
    ep_find_place fuel prio (lastz 0 l1) (headz 0 l2) h = Ok ((lastz 0 l1', headz 0 l2'), h) /\
    Forall (fun a => prio_of a < prio) l2' /\
    (forall l0 a, l1' = l0 ++ [a] -> prio <= prio_of a).
Proof.
  induction l1 as [|x l1 IH] using rev_ind; intros fuel l2 Hd Hf Hlow;
    (destruct fuel as [|fuel]; [lia|]); cbn [ep_find_place].
  - exists [], l2. split; [done|]. split; [done|]. split; [done|]. by intros [].
  - rewrite lastz_snoc. rewrite <- app_assoc in Hd. cbn in Hd. rewrite length_app in Hf. cbn in Hf.
    pose proof Hd as (_ & H0l & Hs). apply dseg_lookup in Hs.
    apply ep_links_Some in Hs as (t & Hx & Hpv & _).
    assert (x <> 0) by by eapply lookup_nonzero.
    destruct (Z.eqb_spec x 0); [done|]. hstep. rewrite Hpv.
    destruct (Z.ltb_spec (tcbPriority t) prio).
    + rewrite <- app_assoc. apply (IH fuel (x :: l2)); [done|lia|].
      constructor; [|done]. unfold prio_of. by rewrite Hx.
    + exists (l1 ++ [x]), l2. rewrite lastz_snoc. split; [done|]. split; [done|]. split; [done|].
      intros l0 a E. apply app_inj_tail in E as [_ <-]. unfold prio_of. by rewrite Hx.
Qed.

Lemma ep_list_size l : dlist (ep_links h) l -> (length l <= size h)%nat.
Proof.
  intros Hd. apply NoDup_length_dom; [apply Hd|]. intros a Ha. by eapply ep_list_dom.
Qed.

Lemma ep_append_prio_spec l p t :
  queue_rel (ep_links h) q l -> h !! p = Some t -> p ∉ l ->
  exists q' h' l1 l2, l = l1 ++ l2 /\ ep_append_prio q p h = Ok (q', h') /\
    queue_rel (ep_links h') q' (l1 ++ p :: l2) /\ same_but_ep h h' (l1 ++ p :: l2) /\
    Forall (fun a => prio_of a < prio_of p) l2 /\
    (forall l0 a, l1 = l0 ++ [a] -> prio_of p <= prio_of a).
Proof.
  intros Hq Hp Hpl. pose proof Hq as (Hd & Hh & Ht).
  destruct (ep_find_place_spec (tcbPriority t) l (S (size h)) []) as (l1 & l2 & E & Hrun & Hlow & Hhigh).
  { by rewrite app_nil_r. } { apply ep_list_size in Hd. lia. } { done. }
  rewrite app_nil_r in E. subst l.
  destruct (ep_linked_rel l1 l2 p t) as [Hd' Hs]; [done..|].
  assert (Hpr : tcbPriority t = prio_of p) by (unfold prio_of; by rewrite Hp).
  exists (mk_tcb_queue (headz 0 (l1 ++ p :: l2)) (lastz 0 (l1 ++ p :: l2))),
    (ep_linked (lastz 0 l1) p (headz 0 l2)), l1, l2.
  split; [done|]. split; [|rewrite <- Hpr; by split_and!].
  unfold ep_append_prio. hstep. erewrite bind_ok by reflexivity. rewrite Ht.
  erewrite bind_ok by exact Hrun. cbn. pose proof Hd as (_ & H0l & _).
  rewrite headz_app in Hh. rewrite lastz_app in Ht. rewrite headz_app, lastz_app, lastz_cons. cbn.
  destruct (queue_ends l1 l2) as (HE1 & HE2 & Hs1 & Hs2); [done|].
  erewrite (bind_ok _ _ h (mk_tcb_queue (headz p l1) (tail q))
    (alter (set_EPNext p) (lastz 0 l1) h)).
  2:{ destruct (Z.eqb_spec (lastz 0 l1) 0) as [E|E]; unfold ret.
      - rewrite HE1, alter_id_None by done. done.
      - hstep. unfold ret. destruct l1; [done|]. cbn in *. by rewrite <- Hh; destruct q. }
  erewrite (bind_ok _ _ _ (mk_tcb_queue (headz p l1) (lastz p l2))
    (alter (set_EPPrev p) (headz 0 l2) (alter (set_EPNext p) (lastz 0 l1) h))).
  2:{ destruct (Z.eqb_spec (headz 0 l2) 0) as [E|E]; unfold ret.
      - rewrite HE2, (alter_id_None _ 0) by auto with heap. done.
      - hstep. unfold ret. destruct l2 as [|x l2]; [done|]. rewrite Ht. by rewrite (lastz_default _ p). }
  hstep. done.
Qed.

Lemma ep_dequeue_spec l1 p l2 :
  queue_rel (ep_links h) q (l1 ++ p :: l2) ->
  exists q' h', ep_dequeue q p h = Ok (q', h') /\
    queue_rel (ep_links h') q' (l1 ++ l2) /\ same_but_ep h h' (l1 ++ l2).
Proof.
  intros (Hd & Hh & Ht). pose proof (dlist_nodup_app _ _ _ _ Hd)
    as (_ & _ & Hp1 & Hp2 & Hdisj & Hp0 & H01 & H02).
  pose proof Hd as (_ & _ & Hs). apply dseg_lookup in Hs.
  apply ep_links_Some in Hs as (t & Hp & Hpv & Hnx).
  destruct (queue_ends l1 (p :: l2)) as (HE1 & _ & Hs1 & _); [done|].
  destruct (queue_ends (l1 ++ [p]) l2) as (_ & HE2 & _ & Hs2); [by rewrite <- app_assoc|].
  exists (mk_tcb_queue (headz 0 (l1 ++ l2)) (lastz 0 (l1 ++ l2))),
    (alter (set_EPPrev (lastz 0 l1)) (headz 0 l2) (alter (set_EPNext (headz 0 l2)) (lastz 0 l1) h)).
  split; [|split; [split; [|done]|split]].
  - unfold ep_dequeue. hstep. rewrite Hpv, Hnx, headz_app, lastz_app.
    rewrite headz_app in Hh. rewrite lastz_app, lastz_cons in Ht. cbn in Hh.
    erewrite (bind_ok _ _ h (mk_tcb_queue (headz (headz 0 l2) l1) (tail q))
      (alter (set_EPNext (headz 0 l2)) (lastz 0 l1) h)).
    2:{ destruct (Z.eqb_spec (lastz 0 l1) 0) as [E|E]; unfold ret; cbn.
        - rewrite E, (HE1 E), alter_id_None by done. done.
        - hstep. unfold ret. destruct l1; [done|]. cbn in *. by rewrite <- Hh; destruct q. }
    destruct (Z.eqb_spec (headz 0 l2) 0) as [E|E]; unfold ret; cbn.
    + rewrite E, (HE2 E), (alter_id_None _ 0) by auto with heap. done.
    + hstep. unfold ret. rewrite Ht. destruct l2 as [|x l2]; [done|].
      by rewrite (lastz_default p (lastz 0 l1)).
  - eapply dlist_remove; [exact Hd|]. intros b pb nb Hb HL.
    apply ep_links_Some in HL as (tb & Htb & <- & <-). unfold ep_links. tcb_alter.
  - intros c. erase_alter c h.
  - intros c Hc. rewrite !lookup_alter_case.
    destruct (decide (c = 0)) as [->|Hc0]; [by rewrite H0; repeat case_decide|].
    rewrite !decide_False; [done|intros <-..]; apply Hc, elem_of_app.
    + left. apply lastz_in. by intros ->.
    + right. apply headz_in. by intros ->.
Qed.
End ep_queue.

(** Descending priority along a queue. *)
Definition prio_sorted (h : gmap Z tcb_t) (l : list Z) : Prop :=
  StronglySorted (fun a b => prio_of h b <= prio_of h a) l.

Lemma same_but_ep_prio h h' ts a : same_but_ep h h' ts -> prio_of h' a = prio_of h a.
Proof.
  intros [He _]. specialize (He a). unfold prio_of.
  destruct (h !! a) as [t|], (h' !! a) as [t'|]; cbn in *; try done.
  injection He. congruence.
Qed.

Lemma sorted_last_bound h l1 l0 a b :
  prio_sorted h (l0 ++ [a]) -> l1 = l0 ++ [a] -> b ∈ l1 -> prio_of h a <= prio_of h b.
Proof.
  intros Hs -> Hb. apply elem_of_app in Hb as [Hb|Hb%list_elem_of_singleton]; [|subst; lia].
  apply list_elem_of_split in Hb as (l & l' & ->). unfold prio_sorted in Hs.
  induction l as [|c l IH]; cbn in Hs; apply StronglySorted_inv in Hs as [Hs Hall]; [|auto].
  rewrite Forall_forall in Hall. apply Hall. set_solver.
Qed.

Lemma prio_sorted_insert h l1 p l2 :
  prio_sorted h (l1 ++ l2) -> (forall a, a ∈ l1 -> prio_of h p <= prio_of h a) ->
  Forall (fun a => prio_of h a < prio_of h p) l2 -> prio_sorted h (l1 ++ p :: l2).
Proof.
  intros Hs Hh Hl. unfold prio_sorted in *. induction l1 as [|x l1 IH]; cbn in *.
  - constructor; [done|]. eapply Forall_impl; [exact Hl|]. cbn. lia.
  - apply StronglySorted_inv in Hs as [Hs Hall]. constructor; [apply IH; [done|set_solver]|].
    rewrite Forall_app, Forall_cons in *. split_and!; [by destruct Hall| |by destruct Hall].
    apply Hh. set_solver.
Qed.

Lemma prio_sorted_ext h h' l :
  (forall a, prio_of h' a = prio_of h a) -> prio_sorted h l -> prio_sorted h' l.
Proof.
  intros E Hs. unfold prio_sorted in *. induction Hs as [|a l Hs IH Hall]; constructor; [done|].
  eapply Forall_impl; [exact Hall|]. cbn. intros b. by rewrite !E.
Qed.

(** Removing a thread from any position of a scheduler queue (the only
    element, the head, the tail or the middle) succeeds without a panic,
    leaves the queue of the other threads in their order with consistent
    links, clears both links of the thread and changes nothing but scheduler
    links of the queue's own threads. *)
Theorem sched_queue_remove h q l1 p l2 :
  h !! 0 = None -> queue_rel (sched_links h) q (l1 ++ p :: l2) ->
  exists q' h' t', remove q p h = Ok (q', h') /\
    queue_rel (sched_links h') q' (l1 ++ l2) /\ same_but_sched h h' (l1 ++ p :: l2) /\
    h' !! p = Some t' /\ tcbSchedPrev t' = 0 /\ tcbSchedNext t' = 0.
Proof. intros H0. by apply remove_spec. Qed.

(** C33. With MCS an endpoint queue is a stable priority queue: adding a thread
    terminates, puts it behind every queued thread of the same or a higher
    priority and in front of every thread of a strictly lower one, keeps the
    queue sorted by descending priority and touches only endpoint links. *)
Theorem ep_append_stable_priority `{Config} h q l p t :
  kernel_mcs = true -> h !! 0 = None ->
  queue_rel (ep_links h) q l -> h !! p = Some t -> p ∉ l -> prio_sorted h l ->
  exists q' h' l1 l2, l = l1 ++ l2 /\ ep_append q p h = Ok (q', h') /\
    queue_rel (ep_links h') q' (l1 ++ p :: l2) /\
    (forall a, a ∈ l1 -> prio_of h p <= prio_of h a) /\
    (forall a, a ∈ l2 -> prio_of h a < prio_of h p) /\
    prio_sorted h' (l1 ++ p :: l2) /\ same_but_ep h h' (l1 ++ p :: l2).
Proof.
  intros Hm H0 Hq Hp Hpl Hs.
  destruct (ep_append_prio_spec h q H0 l p t Hq Hp Hpl)
    as (q' & h' & l1 & l2 & -> & Hrun & Hq' & Hsame & Hlow & Hhigh).
  assert (Hge : forall a, a ∈ l1 -> prio_of h p <= prio_of h a).
  { intros a Ha. destruct l1 as [|x l1 _] using rev_ind; [set_solver|].
    trans (prio_of h x); [by eapply Hhigh|]. eapply sorted_last_bound; [|done|done].
    unfold prio_sorted in *. by apply StronglySorted_app_1_l in Hs. }
  exists q', h', l1, l2. unfold ep_append. rewrite Hm. split_and!; try done.
  - by rewrite Forall_forall in Hlow.
  - eapply prio_sorted_ext; [intros a; by eapply same_but_ep_prio|]. by apply prio_sorted_insert.
Qed.

(** Taking a thread out of an endpoint queue leaves the queue of the other
    threads in their order, with head and tail updated when the thread was at
    an end, and changes only endpoint links of its neighbours. *)
Theorem ep_dequeue_correct h q l1 p l2 :
  h !! 0 = None -> queue_rel (ep_links h) q (l1 ++ p :: l2) ->
  exists q' h', ep_dequeue q p h = Ok (q', h') /\
    queue_rel (ep_links h') q' (l1 ++ l2) /\ same_but_ep h h' (l1 ++ l2).
Proof. intros H0. by apply ep_dequeue_spec. Qed.

(** ** Concrete queues *)

Module QueueExample.
(** A running thread with the given priority and links. *)
Definition thread (prio sprev snext eprev enext : Z) : tcb_t :=
  mk_tcb (mk_ArchTCB []) (mk_thread_state ThreadStateRunning 0 0 0 0 0 0 0 0) 0
    seL4_Fault_NullFault invalid_root 0 prio prio 0 0 0 0 0 0 snext sprev enext eprev.

(** Three threads queued both in a scheduler and in an endpoint queue, and a
    fourth one in no queue. *)
Definition threads : gmap Z tcb_t :=
  <[1024 := thread 9 0 2048 0 2048]> (<[2048 := thread 7 1024 3072 1024 3072]>
  (<[3072 := thread 3 2048 0 2048 0]> (<[4096 := thread 7 0 0 0 0]> ∅))).
Definition queue : tcb_queue_t := mk_tcb_queue 1024 3072.

Lemma sched_ok : queue_rel (sched_links threads) queue ([1024] ++ 2048 :: [3072]).
Proof. split; [|done]. split; [by apply (bool_decide_unpack _)|]. split; [set_solver|done]. Qed.

Lemma ep_ok : queue_rel (ep_links threads) queue ([1024] ++ 2048 :: [3072]).
Proof. split; [|done]. split; [by apply (bool_decide_unpack _)|]. split; [set_solver|done]. Qed.

Lemma sorted_ok : prio_sorted threads [1024; 2048; 3072].
Proof. repeat constructor; done. Qed.
End QueueExample.

Lemma sched_queue_remove_witness :
  exists q' h', remove QueueExample.queue 2048 QueueExample.threads = Ok (q', h') /\
    queue_rel (sched_links h') q' [1024; 3072].
Proof.
  destruct (sched_queue_remove QueueExample.threads QueueExample.queue [1024] 2048 [3072])
    as (q' & h' & t' & H1 & H2 & _); [reflexivity|exact QueueExample.sched_ok|].
  exists q', h'. split; [exact H1|exact H2].
Defined.

Lemma ep_append_stable_priority_witness :
  exists q' h' l1 l2, [1024; 2048; 3072] = l1 ++ l2 /\
    @ep_append riscv_mcs_config QueueExample.queue 4096 QueueExample.threads = Ok (q', h') /\
    queue_rel (ep_links h') q' (l1 ++ 4096 :: l2).
Proof.
  destruct (@ep_append_stable_priority riscv_mcs_config QueueExample.threads QueueExample.queue
      [1024; 2048; 3072] 4096 (QueueExample.thread 7 0 0 0 0))
    as (q' & h' & l1 & l2 & E & H1 & H2 & _);
    [reflexivity|reflexivity|exact QueueExample.ep_ok|reflexivity|set_solver|exact QueueExample.sorted_ok|].
  exists q', h', l1, l2. split; [exact E|]. split; [exact H1|exact H2].
Defined.

Lemma ep_dequeue_correct_witness :
  exists q' h', ep_dequeue QueueExample.queue 2048 QueueExample.threads = Ok (q', h') /\
    queue_rel (ep_links h') q' [1024; 3072].
Proof.
  destruct (ep_dequeue_correct QueueExample.threads QueueExample.queue [1024] 2048 [3072])
    as (q' & h' & H1 & H2 & _); [reflexivity|exact QueueExample.ep_ok|].
  exists q', h'. split; [exact H1|exact H2].
Defined.
