(* ===== verification/Sched.v ===== *)
(** * Ready queues and the scheduler's bookkeeping (sel4_task/src/tcb.rs, scheduler.rs)

    Threads that can run wait in one queue per priority; a two-level bitmap
    tells which queues are not empty.  [ksSchedulerAction] says what the next
    call of [schedule] does.  With MCS, threads whose budget is not yet
    available wait in the release queue, ordered by the time of their next
    refill.  The deeper code is shown at the top of Schedule.v. *)

From S2P Require Import Prelude Monad Config Objects State Refill TcbQueue.

(** Functions of other crates that sel4_task calls back (sel4_task/src/ffi.rs). *)
Class TaskDeps : Type := {
  reorder_ep : Z -> Z -> K unit;
  reorder_ntfn : Z -> Z -> K unit;
  handleTimeout : Z -> K unit
}.

Definition SCHEDULER_ACTION_RESUME_CURRENT_THREAD : Z := 0.
Definition SCHEDULER_ACTION_CHOOSE_NEW_THREAD : Z := 1.

(** An operation on the scheduling context at [p]. *)
Definition on_sc {A} (p : Z) (m : R A) : K A :=
  on_scs (let* sc := hget p in
          match m sc with
          | Ok (a, sc') => hmod p (fun _ => sc') ;;; ret a
          | Err e => fail e
          end).

Definition set_tcb_state (f : thread_state -> thread_state) (t : tcb_t) : tcb_t :=
  t <| tcbState := f (tcbState t) |>.
Definition set_queued (v : Z) (t : tcb_t) : tcb_t :=
  set_tcb_state (fun st => st <| tcbQueued := v |>) t.
Definition set_in_release (v : Z) (t : tcb_t) : tcb_t :=
  set_tcb_state (fun st => st <| tcbInReleaseQueue := v |>) t.
Definition set_tsType (v : ThreadState) (t : tcb_t) : tcb_t :=
  set_tcb_state (fun st => st <| tsType := v |>) t.

Definition get_state (t : tcb_t) : ThreadState := tsType (tcbState t).

Definition is_stopped (t : tcb_t) : bool :=
  match get_state t with
  | ThreadStateInactive | ThreadStateBlockedOnNotification | ThreadStateBlockedOnReceive
  | ThreadStateBlockedOnReply | ThreadStateBlockedOnSend => true
  | _ => false
  end.
Definition is_runnable (t : tcb_t) : bool :=
  match get_state t with ThreadStateRunning | ThreadStateRestart => true | _ => false end.
Definition is_blocked (t : tcb_t) : bool :=
  match get_state t with
  | ThreadStateBlockedOnReceive | ThreadStateBlockedOnSend
  | ThreadStateBlockedOnNotification | ThreadStateBlockedOnReply => true
  | _ => false
  end.

Section sched.
Context `{Config}.

Definition is_schedulable (self : Z) : K bool :=
  let* t := get_tcb self in
  if kernel_mcs then
    if is_runnable t && negb (tcbSchedContext t =? 0) then
      let* sc := get_sc (tcbSchedContext t) in
      ret ((0 <? scRefillMax sc) && (tcbInReleaseQueue (tcbState t) =? 0))
    else ret false
  else ret (is_runnable t).

Definition is_current (self : Z) : K bool :=
  let* cur := gets ksCurThread in ret (self =? cur).

(** ** Priorities and the bitmap *)

Definition ready_queues_index (dom prio : Z) : Z := (dom *w CONFIG_NUM_PRIORITIES) +w prio.
Definition prio_to_l1index (prio : Z) : Z := prio >>w WORD_RADIX.
Definition l1index_to_prio (l1index : Z) : Z := l1index <<w WORD_RADIX.
Definition invert_l1index (l1index : Z) : Z := (L2_BITMAP_SIZE -w 1) -w l1index.

Definition get_l1 (dom : Z) : K Z :=
  let* l1 := gets ksReadyQueuesL1Bitmap in lift_res (array_get l1 dom).
Definition set_l1 (dom v : Z) : K unit :=
  let* l1 := gets ksReadyQueuesL1Bitmap in
  let* l1' := lift_res (array_set l1 dom v) in
  modify (fun s => s <| ksReadyQueuesL1Bitmap := l1' |>).
Definition get_l2 (dom i : Z) : K Z :=
  let* l2 := gets ksReadyQueuesL2Bitmap in
  let* row := lift_res (array_get l2 dom) in
  lift_res (array_get row i).
Definition set_l2 (dom i v : Z) : K unit :=
  let* l2 := gets ksReadyQueuesL2Bitmap in
  let* row := lift_res (array_get l2 dom) in
  let* row' := lift_res (array_set row i v) in
  let* l2' := lift_res (array_set l2 dom row') in
  modify (fun s => s <| ksReadyQueuesL2Bitmap := l2' |>).

Definition get_highest_prio (dom : Z) : K Z :=
  let* l1 := get_l1 dom in
  let l1index := (WORD_BITS -w 1) -w leading_zeros l1 in
  let l1index_inverted := invert_l1index l1index in
  let* l2 := get_l2 dom l1index_inverted in
  let l2index := (WORD_BITS -w 1) -w leading_zeros l2 in
  ret (Z.lor (l1index_to_prio l1index) l2index).

Definition is_highest_prio (dom prio : Z) : K bool :=
  let* l1 := get_l1 dom in
  if l1 =? 0 then ret true
  else let* h := get_highest_prio dom in ret (h <=? prio).

Definition add_to_bitmap (dom prio : Z) : K unit :=
  let l1index := prio_to_l1index prio in
  let l1index_inverted := invert_l1index l1index in
  let* l1 := get_l1 dom in
  set_l1 dom (Z.lor l1 (bit l1index)) ;;;
  let* l2 := get_l2 dom l1index_inverted in
  set_l2 dom l1index_inverted (Z.lor l2 (bit (Z.land prio (mask_bits WORD_RADIX)))).

Definition remove_from_bigmap (dom prio : Z) : K unit :=
  let l1index := prio_to_l1index prio in
  let l1index_inverted := invert_l1index l1index in
  let* l2 := get_l2 dom l1index_inverted in
  set_l2 dom l1index_inverted (Z.land l2 (wnot (bit (Z.land prio (mask_bits WORD_RADIX))))) ;;;
  let* l2 := get_l2 dom l1index_inverted in
  when (l2 =? 0)
    (let* l1 := get_l1 dom in set_l1 dom (Z.land l1 (wnot (bit l1index)))).

(** ** Ready queues *)

Definition get_sched_queue (idx : Z) : K tcb_queue_t :=
  let* qs := gets ksReadyQueues in lift_res (array_get qs idx).
Definition set_sched_queue (idx : Z) (q : tcb_queue_t) : K unit :=
  let* qs := gets ksReadyQueues in
  let* qs' := lift_res (array_set qs idx q) in
  modify (fun s => s <| ksReadyQueues := qs' |>).

(** The assertions of the MCS kernel. *)
Definition assert_sufficient (self : Z) : K unit :=
  let* t := get_tcb self in
  let* b := on_sc (tcbSchedContext t) (refill_sufficient 0) in kassert b.
Definition assert_ready (self : Z) : K unit :=
  let* t := get_tcb self in
  let* now := gets ksCurTime in
  let* b := on_sc (tcbSchedContext t) (refill_ready now) in kassert b.

Definition enqueue_asserts (self : Z) : K unit :=
  when kernel_mcs
    (let* b := is_schedulable self in kassert b ;;; assert_sufficient self).

Definition sched_enqueue (self : Z) : K unit :=
  enqueue_asserts self ;;;
  let* t := get_tcb self in
  when (tcbQueued (tcbState t) =? 0)
    (let dom := domain t in
     let prio := tcbPriority t in
     let idx := ready_queues_index dom prio in
     let* queue := get_sched_queue idx in
     when (empty queue) (add_to_bitmap dom prio) ;;;
     let* queue := on_tcbs (prepend queue self) in
     set_sched_queue idx queue ;;;
     mod_tcb self (set_queued 1)).

Definition sched_dequeue (self : Z) : K unit :=
  let* t := get_tcb self in
  when (negb (tcbQueued (tcbState t) =? 0))
    (let dom := domain t in
     let prio := tcbPriority t in
     let idx := ready_queues_index dom prio in
     let* queue := get_sched_queue idx in
     let* queue := on_tcbs (remove queue self) in
     set_sched_queue idx queue ;;;
     mod_tcb self (set_queued 0) ;;;
     when (head queue =? 0) (remove_from_bigmap dom prio)).

Definition append_asserts (self : Z) : K unit :=
  when kernel_mcs
    (let* b := is_schedulable self in kassert b ;;; assert_sufficient self ;;; assert_ready self).

Definition sched_append (self : Z) : K unit :=
  append_asserts self ;;;
  let* t := get_tcb self in
  when (tcbQueued (tcbState t) =? 0)
    (let dom := domain t in
     let prio := tcbPriority t in
     let idx := ready_queues_index dom prio in
     let* queue := get_sched_queue idx in
     let* queue := (if head queue =? 0
                    then add_to_bitmap dom prio ;;; ret (queue <| head := self |>)
                    else mod_tcb (tail queue) (set_SchedNext self) ;;; ret queue) in
     mod_tcb self (set_SchedPrev (tail queue)) ;;;
     mod_tcb self (set_SchedNext 0) ;;;
     set_sched_queue idx (queue <| tail := self |>) ;;;
     mod_tcb self (set_queued 1)).

(** ** Requests to the scheduler *)

Definition reschedule_required : K unit :=
  let* action := gets ksSchedulerAction in
  when (negb (action =? SCHEDULER_ACTION_RESUME_CURRENT_THREAD) &&
        negb (action =? SCHEDULER_ACTION_CHOOSE_NEW_THREAD))
    (if kernel_mcs then
       let* b := is_schedulable action in
       when b (assert_sufficient action ;;; assert_ready action ;;; sched_enqueue action)
     else sched_enqueue action) ;;;
  modify (fun s => s <| ksSchedulerAction := SCHEDULER_ACTION_CHOOSE_NEW_THREAD |>).

Definition schedule_tcb (self : Z) : K unit :=
  let* cur := gets ksCurThread in
  let* action := gets ksSchedulerAction in
  if (self =? cur) && (action =? SCHEDULER_ACTION_RESUME_CURRENT_THREAD) then
    let* b := is_schedulable self in
    when (negb b) reschedule_required
  else ret tt.

Definition set_thread_state (self : Z) (state : ThreadState) : K unit :=
  mod_tcb self (set_tsType state) ;;;
  schedule_tcb self.

Definition possible_switch_to (target : Z) : K unit :=
  let* t := get_tcb target in
  when (negb kernel_mcs ||
        (negb (tcbSchedContext t =? 0) && (tcbInReleaseQueue (tcbState t) =? 0)))
    (let* dom := gets ksCurDomain in
     let* action := gets ksSchedulerAction in
     if negb (dom =? domain t) then sched_enqueue target
     else if negb (action =? SCHEDULER_ACTION_RESUME_CURRENT_THREAD) then
       reschedule_required ;;; sched_enqueue target
     else modify (fun s => s <| ksSchedulerAction := target |>)).

(** ** Thread attributes *)

Definition set_mc_priority (self mcp : Z) : K unit := mod_tcb self (fun t => t <| tcbMCP := mcp |>).

Definition set_prio (self priority : Z) : K unit :=
  mod_tcb self (fun t => t <| tcbPriority := priority |>).

Definition set_priority `{TaskDeps} (self priority : Z) : K unit :=
  if kernel_mcs then
    let* t := get_tcb self in
    match get_state t with
    | ThreadStateRunning | ThreadStateRestart =>
        let* cur := is_current self in
        if negb (tcbQueued (tcbState t) =? 0) || cur then
          sched_dequeue self ;;; set_prio self priority ;;; sched_enqueue self ;;; reschedule_required
        else set_prio self priority
    | ThreadStateBlockedOnReceive | ThreadStateBlockedOnSend =>
        set_prio self priority ;;; reorder_ep (blockingObject (tcbState t)) self
    | ThreadStateBlockedOnNotification =>
        set_prio self priority ;;; reorder_ntfn (blockingObject (tcbState t)) self
    | _ => set_prio self priority
    end
  else
    sched_dequeue self ;;;
    set_prio self priority ;;;
    let* t := get_tcb self in
    when (is_runnable t)
      (let* cur := is_current self in
       if (cur : bool) then reschedule_required else possible_switch_to self).

Definition set_domain (self dom : Z) : K unit :=
  sched_dequeue self ;;;
  mod_tcb self (fun t => t <| domain := dom |>) ;;;
  let* b := is_schedulable self in
  when b (sched_enqueue self) ;;;
  let* cur := is_current self in
  when cur reschedule_required.

Definition bind_notification (self addr : Z) : K unit :=
  mod_tcb self (fun t => t <| tcbBoundNotification := addr |>).
Definition unbind_notification (self : Z) : K unit :=
  mod_tcb self (fun t => t <| tcbBoundNotification := 0 |>).

(** ** The release queue (MCS) *)

Definition set_reprogram : K unit := modify (fun s => s <| ksReprogram := true |>).

Definition Ready_Time (self : Z) : K Z :=
  let* t := get_tcb self in
  let* r := on_sc (tcbSchedContext t) refill_head in ret (rTime r).
Definition time_after (self new_time : Z) : K bool :=
  let* r := Ready_Time self in ret (r <=? new_time).

Fixpoint find_time_after (fuel : nat) (after new_time : Z) : K Z :=
  match fuel with
  | O => fail EFuel
  | S n =>
      let* b := time_after after new_time in
      if (b : bool) then
        let* t := get_tcb after in
        if negb (tcbSchedNext t =? 0) then find_time_after n (tcbSchedNext t) new_time
        else ret after
      else ret after
  end.

Definition release_remove (self : Z) : K unit :=
  let* t := get_tcb self in
  when (negb (tcbInReleaseQueue (tcbState t) =? 0))
    (let* queue := gets ksReleaseQueue in
     when (head queue =? self) set_reprogram ;;;
     let* queue := on_tcbs (remove queue self) in
     modify (fun s => s <| ksReleaseQueue := queue |>) ;;;
     mod_tcb self (set_in_release 0)).

Definition release_enqueue (self : Z) : K unit :=
  let* t := get_tcb self in
  kassert (tcbInReleaseQueue (tcbState t) =? 0) ;;;
  kassert (tcbQueued (tcbState t) =? 0) ;;;
  let* new_time := Ready_Time self in
  let* queue := gets ksReleaseQueue in
  let* first := (if empty queue then ret true
                 else let* r := Ready_Time (head queue) in ret (new_time <? r)) in
  (if (first : bool) then
     let* queue := on_tcbs (prepend queue self) in
     modify (fun s => s <| ksReleaseQueue := queue |>) ;;;
     set_reprogram
   else
     let* r := Ready_Time (tail queue) in
     if r <? new_time then
       let* queue := on_tcbs (append queue self) in
       modify (fun s => s <| ksReleaseQueue := queue |>)
     else
       let* fuel := gets (fun s => S (size (tcbs s))) in
       let* after := find_time_after fuel (head queue) new_time in
       on_tcbs (queue_insert self after)) ;;;
  mod_tcb self (set_in_release 1).

Definition tcb_release_dequeue : K Z :=
  let* queue := gets ksReleaseQueue in
  kassert (negb (head queue =? 0)) ;;;
  let* t := get_tcb (head queue) in
  kassert (tcbSchedPrev t =? 0) ;;;
  let awakened := head queue in
  let* cur := gets ksCurThread in
  kassert (negb (awakened =? cur)) ;;;
  release_remove awakened ;;;
  set_reprogram ;;;
  ret awakened.

End sched.
