(* ===== verification/Frame.v ===== *)
(** * What an operation leaves alone

    [frame R m]: every successful run of [m] relates the states before and
    after by the preorder [R].  The tactic [frame_tac] descends into the
    program text with the rules below, unfolding definitions it is given, so
    that one line shows, say, that changing a thread's state touches no
    capability slot. *)

From S2P Require Import Prelude Monad Config Objects State Refill TcbQueue Sched.

Definition frame (R : relation kstate) {A} (m : K A) : Prop :=
  forall s a s', m s = Ok (a, s') -> R s s'.

(** The same value of [f] before and after. *)
Definition same {B} (f : kstate -> B) : relation kstate := fun s s' => f s' = f s.
#[export] Instance same_preorder {B} (f : kstate -> B) : PreOrder (same f).
Proof. split; [done|]. intros s1 s2 s3 E1 E2. unfold same in *. congruence. Qed.

Section rules.
Context (R : relation kstate) `{!PreOrder R}.

Lemma frame_ret {A} (a : A) : frame R (ret a).
Proof. intros s b s' E. apply ret_inv in E as [_ ->]. reflexivity. Qed.

Lemma frame_fail {A} e : frame R (A := A) (fail e).
Proof. intros s a s' E. discriminate E. Qed.

Lemma frame_gets {A} (f : kstate -> A) : frame R (gets f).
Proof. intros s a s' E. unfold gets in E. injection E as _ <-. reflexivity. Qed.

Lemma frame_modify g : (forall s, R s (g s)) -> frame R (modify g).
Proof. intros Hg s a s' E. unfold modify in E. injection E as _ <-. apply Hg. Qed.

Lemma frame_kassert b : frame R (kassert b).
Proof. intros s a s' E. apply kassert_inv in E as [_ ->]. reflexivity. Qed.

Lemma frame_lift_res {A} (r : res A) : frame R (lift_res r).
Proof. intros s a s' E. apply lift_res_inv in E as [_ ->]. reflexivity. Qed.

Lemma frame_bind {A B} (m : K A) (k : A -> K B) :
  frame R m -> (forall a, frame R (k a)) -> frame R (bind m k).
Proof.
  intros Hm Hk s b s' E. apply bind_inv in E as (a & s1 & E1 & E2).
  etrans; [by eapply Hm|by eapply Hk].
Qed.

Lemma frame_when b (m : K unit) : frame R m -> frame R (when b m).
Proof. destruct b; [done|]. intros _. apply frame_ret. Qed.

Lemma frame_lift_part {P A} (get : kstate -> P) put (m : M P A) :
  (forall p s, R s (put p s)) -> frame R (lift_part get put m).
Proof.
  intros Hp s a s' E. unfold lift_part in E. destruct (m (get s)) as [[x p]|]; [|done].
  injection E as _ <-. apply Hp.
Qed.

Lemma frame_for_range n i (body : Z -> K unit) : (forall j, frame R (body j)) -> frame R (for_range n i body).
Proof.
  intros Hb. revert i. induction n as [|n IH]; intros i; [apply frame_ret|].
  apply frame_bind; [apply Hb|intros; apply IH].
Qed.

Lemma frame_while {X} fuel cond (body : X -> K X) x :
  (forall y, frame R (cond y)) -> (forall y, frame R (body y)) -> frame R (while fuel cond body x).
Proof.
  intros Hc Hb. revert x. induction fuel as [|n IH]; intros x; [apply frame_fail|].
  apply frame_bind; [apply Hc|intros [|]; [|apply frame_ret]].
  apply frame_bind; [apply Hb|apply IH].
Qed.
End rules.

Create HintDb frame discriminated.

(** One step of [frame_tac]; what remains is a call to unfold or a lemma of
    the hint database. *)
Ltac frame_step :=
  match goal with
  | |- frame _ (bind _ _) => apply frame_bind; [exact _| |intros ?]
  | |- frame _ (ret _) => apply frame_ret; exact _
  | |- frame _ (gets _) => apply frame_gets; exact _
  | |- frame _ (fail _) => apply frame_fail
  | |- frame _ (kassert _) => apply frame_kassert; exact _
  | |- frame _ (lift_res _) => apply frame_lift_res; exact _
  | |- frame _ (when _ _) => apply frame_when; [exact _|]
  | |- frame _ (modify _) => apply frame_modify; intros ?; first [reflexivity | done]
  | |- frame _ (lift_part _ _ _) => apply frame_lift_part; intros ? ?; first [reflexivity | done]
  | |- frame _ (for_range _ _ _) => apply frame_for_range; [exact _|intros ?]
  | |- frame _ (match ?x with _ => _ end) => destruct x
  | |- frame _ _ => solve [eauto with frame typeclass_instances nocore]
  | |- frame _ (let x := _ in _) => cbv zeta
  end.
Ltac frame_tac := repeat (frame_step; cbv beta).

(** ** Scheduling requests

    They write threads, scheduling contexts, the ready queues and the
    scheduler's action.  A preorder that ignores those fields is kept. *)

Class SchedFrame (R : relation kstate) : Prop := {
  sf_preorder :: PreOrder R;
  sf_tcbs : forall s h, R s (s <| tcbs := h |>);
  sf_scs : forall s h, R s (s <| scs := h |>);
  sf_queues : forall s v, R s (s <| ksReadyQueues := v |>);
  sf_l1 : forall s v, R s (s <| ksReadyQueuesL1Bitmap := v |>);
  sf_l2 : forall s v, R s (s <| ksReadyQueuesL2Bitmap := v |>);
  sf_action : forall s v, R s (s <| ksSchedulerAction := v |>) }.

#[export] Instance same_ctes : SchedFrame (same ctes).
Proof. split; first [exact _ | done]. Qed.

Section sched.
Context `{Config} (R : relation kstate) `{!SchedFrame R}.

Lemma frame_on_tcbs {A} (m : T A) : frame R (on_tcbs m).
Proof. apply frame_lift_part. intros. apply sf_tcbs. Qed.
Lemma frame_get_tcb p : frame R (get_tcb p).
Proof. apply frame_on_tcbs. Qed.
Lemma frame_mod_tcb p g : frame R (mod_tcb p g).
Proof. apply frame_on_tcbs. Qed.
Lemma frame_on_sc {A} p (m : Refill.R A) : frame R (on_sc p m).
Proof. apply frame_lift_part. intros. apply sf_scs. Qed.
Lemma frame_get_sc p : frame R (get_sc p).
Proof. apply frame_lift_part. intros. apply sf_scs. Qed.
Hint Resolve frame_on_tcbs frame_get_tcb frame_mod_tcb frame_on_sc frame_get_sc : frame.

Lemma frame_is_schedulable p : frame R (is_schedulable p).
Proof. unfold is_schedulable. frame_tac. Qed.
Hint Resolve frame_is_schedulable : frame.

Lemma frame_sched_enqueue p : frame R (sched_enqueue p).
Proof.
  unfold sched_enqueue, enqueue_asserts, assert_sufficient, assert_ready, get_sched_queue,
    set_sched_queue, add_to_bitmap, get_l1, set_l1, get_l2, set_l2.
  frame_tac; apply frame_modify; intros s; first [apply sf_queues | apply sf_l1 | apply sf_l2].
Qed.
Hint Resolve frame_sched_enqueue : frame.

Lemma frame_reschedule_required : frame R reschedule_required.
Proof.
  unfold reschedule_required, assert_sufficient, assert_ready.
  frame_tac; apply frame_modify; intros s; apply sf_action.
Qed.
Hint Resolve frame_reschedule_required : frame.

Lemma frame_set_thread_state p st : frame R (set_thread_state p st).
Proof. unfold set_thread_state, schedule_tcb. frame_tac. Qed.
End sched.
#[export] Hint Resolve frame_on_tcbs frame_get_tcb frame_mod_tcb frame_on_sc frame_get_sc
  frame_is_schedulable frame_sched_enqueue frame_reschedule_required frame_set_thread_state : frame.
