(* ===== verification/SchedProps.v ===== *)
(** * The ready queues are a priority queue

    The two-level bitmap marks exactly the non-empty queues, so the search
    for the highest bit finds the highest ready priority; enqueueing,
    appending and dequeueing a thread keep the queues, their bitmap and the
    flags of the threads consistent. *)

From S2P Require Import Prelude Monad DList Config Objects State Refill TcbQueue Sched.

(** ** The bitmap *)

(** The bitmap of domain 0 marks the priorities in [busy]. *)
Definition bitmap_ok (s : kstate) (busy : Z -> bool) : Prop :=
  exists l1 l2, ksReadyQueuesL1Bitmap s = [l1] /\ ksReadyQueuesL2Bitmap s = [l2] /\
    length l2 = 4%nat /\ is_word l1 /\
    (forall i, 4 <= i -> Z.testbit l1 i = false) /\
    (forall i, 0 <= i < 4 -> exists w, l2 !! Z.to_nat (3 - i) = Some w /\ is_word w /\
       Z.testbit l1 i = negb (w =? 0) /\
       forall j, 0 <= j < 64 -> Z.testbit w j = busy (64 * i + j)).

Definition only_bitmap (s s' : kstate) : Prop :=
  exists l1 l2, s' = s <| ksReadyQueuesL1Bitmap := l1 |> <| ksReadyQueuesL2Bitmap := l2 |>.

Lemma only_bitmap_refl s : only_bitmap s s.
Proof. exists (ksReadyQueuesL1Bitmap s), (ksReadyQueuesL2Bitmap s). by destruct s. Qed.

Section bitmap.
Context `{Config}.

Lemma highest_bit x : is_word x -> x <> 0 ->
  (WORD_BITS -w 1) -w leading_zeros x = Z.log2 x /\ 0 <= Z.log2 x < 64 /\
  Z.testbit x (Z.log2 x) = true /\ forall j, Z.log2 x < j -> Z.testbit x j = false.
Proof.
  intros [H0 Hw] Hx. pose proof (Z.log2_nonneg x) as Hl.
  assert (Hl' : Z.log2 x < 64) by (apply Z.log2_lt_pow2; [lia|exact Hw]).
  split; [|split; [lia|split; [apply Z.bit_log2; lia|intros; apply Z.bits_above_log2; lia]]].
  unfold leading_zeros. apply Z.eqb_neq in Hx as ->. change (WORD_BITS -w 1) with 63.
  rewrite wsub_small; rewrite ?word_size_val; lia.
Qed.

Lemma nonzero_bit x : is_word x -> x <> 0 -> exists j, 0 <= j < 64 /\ Z.testbit x j = true.
Proof. intros Hw Hx. destruct (highest_bit x Hw Hx) as (_ & Hl & Hb & _). eauto. Qed.

Lemma lor_low_high i j : 0 <= i < 4 -> 0 <= j < 64 -> Z.lor (l1index_to_prio i) j = 64 * i + j.
Proof.
  intros Hi Hj. unfold l1index_to_prio. rewrite wshl_mul by (rewrite ?word_size_val; unfold WORD_RADIX; lia).
  change (2 ^ WORD_RADIX) with (2 ^ 6). rewrite <- Z.shiftl_mul_pow2 by lia.
  rewrite <- Z.lxor_lor, <- Z.add_nocarry_lxor; rewrite ?Z.shiftl_mul_pow2 by lia; [lia|..];
    apply Z.bits_inj'; intros n Hn; rewrite Z.land_spec, Z.bits_0;
    (destruct (decide (n < 6)); [by rewrite Z.mul_pow2_bits_low by lia|]);
    rewrite (Z.bits_above_log2 j n), andb_false_r; try done; try lia;
    (destruct (decide (j = 0)) as [->|]; [cbn; lia|apply Z.log2_lt_pow2; [lia|]];
     apply Z.lt_le_trans with (2 ^ 6); [lia|apply Z.pow_le_mono_r; lia]).
Qed.

Lemma get_l1_run s l1 : ksReadyQueuesL1Bitmap s = [l1] -> get_l1 0 s = Ok (l1, s).
Proof. intros E. unfold get_l1, bind, gets, lift_res. by rewrite E. Qed.

Lemma get_l2_run s l2 i w : ksReadyQueuesL2Bitmap s = [l2] -> 0 <= i -> l2 !! Z.to_nat i = Some w ->
  get_l2 0 i s = Ok (w, s).
Proof.
  intros E Hi Hw. unfold get_l2, bind, gets, lift_res. rewrite E.
  change (array_get [l2] 0) with (Ok l2). cbv beta iota. by rewrite (array_get_ok l2 i w).
Qed.

Lemma invert_small i : 0 <= i < 4 -> invert_l1index i = 3 - i.
Proof.
  intros. unfold invert_l1index. change (L2_BITMAP_SIZE -w 1) with 3.
  apply wsub_small; rewrite ?word_size_val; lia.
Qed.

(** The search finds the highest busy priority. *)
Lemma get_highest_prio_spec s busy : bitmap_ok s busy ->
  (exists p, 0 <= p < 256 /\ busy p = true) ->
  exists p, get_highest_prio 0 s = Ok (p, s) /\ 0 <= p < 256 /\ busy p = true /\
    forall p', p < p' < 256 -> busy p' = false.
Proof.
  intros (l1 & l2 & E1 & E2 & Hlen & Hw1 & Hhigh & Hrow) (p0 & Hp0 & Hb0).
  assert (Hl1 : l1 <> 0).
  { intros ->. destruct (Hrow (p0 / 64)) as (w & _ & _ & Hz & Hbits);
      [split; [apply Z.div_pos; lia|apply Z.div_lt_upper_bound; lia]|].
    rewrite Z.bits_0 in Hz. symmetry in Hz. apply negb_false_iff, Z.eqb_eq in Hz. subst w.
    specialize (Hbits (p0 mod 64) ltac:(apply Z.mod_pos_bound; lia)).
    rewrite Z.bits_0, <- Z.div_mod in Hbits by lia. congruence. }
  destruct (highest_bit l1 Hw1 Hl1) as (Ei & Hi & Hbi & Habove). set (i := Z.log2 l1) in *.
  assert (Hi4 : i < 4). { destruct (decide (i < 4)); [done|]. rewrite Hhigh in Hbi by lia. done. }
  destruct (Hrow i ltac:(lia)) as (w & Hw & Hww & Hnz & Hbits).
  rewrite Hbi in Hnz. symmetry in Hnz. apply negb_true_iff, Z.eqb_neq in Hnz.
  destruct (highest_bit w Hww Hnz) as (Ej & Hj & Hbj & Habovej). set (j := Z.log2 w) in *.
  exists (64 * i + j). split; [|split; [lia|split]].
  - unfold get_highest_prio. erewrite bind_ok by by apply get_l1_run. rewrite Ei, invert_small by lia.
    erewrite bind_ok by (by eapply get_l2_run; [|lia|]). by rewrite Ej, lor_low_high by lia.
  - by rewrite <- Hbits by lia.
  - intros p' Hp'. pose proof (Z.div_mod p' 64 ltac:(lia)) as Ep.
    pose proof (Z.mod_pos_bound p' 64 ltac:(lia)) as Hm.
    destruct (Hrow (p' / 64) ltac:(lia)) as (w' & Hw' & _ & Hz' & Hbits').
    rewrite Ep, <- Hbits' by lia. destruct (decide (p' / 64 = i)) as [E|Hne].
    + rewrite E in Hw'. simplify_eq. apply Habovej. lia.
    + rewrite Habove in Hz' by lia. symmetry in Hz'. apply negb_false_iff, Z.eqb_eq in Hz'.
      subst w'. apply Z.bits_0.
Qed.

Lemma testbit_set x k n : 0 <= k < 64 -> 0 <= n ->
  Z.testbit (Z.lor x (bit k)) n = Z.testbit x n || (n =? k).
Proof. intros Hk Hn. rewrite Z.lor_spec, bit_pow, Z.pow2_bits_eqb by lia. by rewrite (Z.eqb_sym k n). Qed.

Lemma testbit_clear x k n : is_word x -> 0 <= k < 64 -> 0 <= n ->
  Z.testbit (Z.land x (wnot (bit k))) n = Z.testbit x n && negb (n =? k).
Proof.
  intros Hx Hk Hn. rewrite land_wnot, Z.ldiff_spec, bit_pow, Z.pow2_bits_eqb by (done || lia).
  by rewrite (Z.eqb_sym k n).
Qed.

Lemma bit_word k : 0 <= k < 64 -> is_word (bit k).
Proof. intros Hk. rewrite bit_pow by done. pose proof (pow2_lt_word k Hk). pose proof (pow2_pos k). split; lia. Qed.

Lemma set_l1_run s l1 v : ksReadyQueuesL1Bitmap s = [l1] ->
  set_l1 0 v s = Ok (tt, s <| ksReadyQueuesL1Bitmap := [v] |>).
Proof. intros E. unfold set_l1, bind, gets, lift_res, modify. by rewrite E. Qed.

Lemma set_l2_run s l2 i v : ksReadyQueuesL2Bitmap s = [l2] -> 0 <= i < Z.of_nat (length l2) ->
  set_l2 0 i v s = Ok (tt, s <| ksReadyQueuesL2Bitmap := [<[Z.to_nat i := v]> l2] |>).
Proof.
  intros E Hi. unfold set_l2, bind, gets, lift_res, modify. rewrite E.
  change (array_get [l2] 0) with (Ok l2). cbv beta iota. by rewrite array_set_ok by done.
Qed.

Lemma prio_split p : 0 <= p < 256 ->
  prio_to_l1index p = p / 64 /\ Z.land p (mask_bits WORD_RADIX) = p mod 64 /\
  0 <= p / 64 < 4 /\ 0 <= p mod 64 < 64 /\ p = 64 * (p / 64) + p mod 64.
Proof.
  intros Hp. unfold prio_to_l1index. rewrite wshr_div, land_mask by (unfold WORD_RADIX; lia).
  change (2 ^ WORD_RADIX) with 64. pose proof (Z.div_mod p 64). pose proof (Z.mod_pos_bound p 64). lia.
Qed.

(** One row of the bitmap gets the value [w'], and the matching bit of the
    first level says whether it is empty. *)
Lemma bitmap_update s busy l1 l2 i w w' l1' (busy' : Z -> bool) :
  ksReadyQueuesL1Bitmap s = [l1] -> ksReadyQueuesL2Bitmap s = [l2] -> length l2 = 4%nat ->
  (forall k, 4 <= k -> Z.testbit l1 k = false) ->
  (forall k, 0 <= k < 4 -> exists w, l2 !! Z.to_nat (3 - k) = Some w /\ is_word w /\
     Z.testbit l1 k = negb (w =? 0) /\ forall j, 0 <= j < 64 -> Z.testbit w j = busy (64 * k + j)) ->
  0 <= i < 4 -> l2 !! Z.to_nat (3 - i) = Some w -> is_word w' -> is_word l1' ->
  (forall k, 0 <= k -> Z.testbit l1' k = if k =? i then negb (w' =? 0) else Z.testbit l1 k) ->
  (forall j, 0 <= j < 64 -> Z.testbit w' j = busy' (64 * i + j)) ->
  (forall k j, 0 <= k < 4 -> k <> i -> 0 <= j < 64 -> busy' (64 * k + j) = busy (64 * k + j)) ->
  bitmap_ok (s <| ksReadyQueuesL1Bitmap := [l1'] |>
               <| ksReadyQueuesL2Bitmap := [<[Z.to_nat (3 - i) := w']> l2] |>) busy'.
Proof.
  intros E1 E2 Hlen Hhigh Hrow Hi Hw Hw' Hl1' Hbits1 Hbits Hother.
  exists l1', (<[Z.to_nat (3 - i) := w']> l2). split_and!; try done; [by rewrite length_insert| |].
  - intros k Hk. rewrite Hbits1 by lia. destruct (Z.eqb_spec k i); [lia|by apply Hhigh].
  - intros k Hk. rewrite Hbits1 by lia. destruct (Z.eqb_spec k i) as [->|Hne].
    + exists w'. rewrite list_lookup_insert_eq by (by eapply lookup_lt_Some). by split_and!.
    + destruct (Hrow k Hk) as (wk & H1 & H2 & H3 & H4). exists wk.
      rewrite list_lookup_insert_ne by lia. split_and!; try done.
      intros j Hj. rewrite H4, Hother by done. done.
Qed.

Lemma add_to_bitmap_spec s busy p : bitmap_ok s busy -> 0 <= p < 256 ->
  exists s', add_to_bitmap 0 p s = Ok (tt, s') /\ only_bitmap s s' /\
    bitmap_ok s' (fun q => busy q || (q =? p)).
Proof.
  intros (l1 & l2 & E1 & E2 & Hlen & Hw1 & Hhigh & Hrow) Hp.
  destruct (prio_split p Hp) as (Ei & Ej & Hi & Hj & Ep).
  destruct (Hrow (p / 64) Hi) as (w & Hw & Hww & Hnz & Hbits).
  eexists. split; [|split].
  - unfold add_to_bitmap. rewrite Ei, Ej, invert_small by done.
    erewrite bind_ok by by apply get_l1_run. erewrite bind_ok by by eapply set_l1_run.
    erewrite bind_ok by (by eapply get_l2_run; [exact E2|lia|]).
    eapply set_l2_run; [exact E2|lia].
  - by do 2 eexists.
  - set (w' := Z.lor w (bit (p mod 64))).
    assert (Hbit : Z.testbit w' (p mod 64) = true)
      by (unfold w'; rewrite testbit_set, Z.eqb_refl, orb_true_r by lia; done).
    eapply bitmap_update; try done.
    + apply lor_word; [done|by apply bit_word].
    + apply lor_word; [done|apply bit_word; lia].
    + intros k Hk. rewrite testbit_set by lia. destruct (Z.eqb_spec k (p / 64)) as [->|]; [|apply orb_false_r].
      rewrite orb_true_r. symmetry. apply negb_true_iff, Z.eqb_neq. intros E0. fold w' in E0.
      rewrite E0, Z.bits_0 in Hbit. done.
    + intros j Hj'. cbv beta. unfold w'. rewrite testbit_set, Hbits by lia. f_equal. apply eq_bool_prop_intro.
      rewrite !Is_true_true, !Z.eqb_eq. lia.
    + intros k j Hk Hne Hj'. cbv beta. destruct (Z.eqb_spec (64 * k + j) p); [|by rewrite orb_false_r].
      exfalso. apply Hne. subst p. rewrite Z.mul_comm, Z.div_add_l, Z.div_small by lia. lia.
Qed.

Lemma remove_from_bigmap_spec s busy p : bitmap_ok s busy -> 0 <= p < 256 ->
  exists s', remove_from_bigmap 0 p s = Ok (tt, s') /\ only_bitmap s s' /\
    bitmap_ok s' (fun q => busy q && negb (q =? p)).
Proof.
  intros (l1 & l2 & E1 & E2 & Hlen & Hw1 & Hhigh & Hrow) Hp.
  destruct (prio_split p Hp) as (Ei & Ej & Hi & Hj & Ep).
  destruct (Hrow (p / 64) Hi) as (w & Hw & Hww & Hnz & Hbits).
  set (w' := Z.land w (wnot (bit (p mod 64)))).
  assert (Hw' : is_word w') by by apply land_word_l.
  set (l1' := if w' =? 0 then Z.land l1 (wnot (bit (p / 64))) else l1).
  exists (s <| ksReadyQueuesL1Bitmap := [l1'] |>
            <| ksReadyQueuesL2Bitmap := [<[Z.to_nat (3 - p / 64) := w']> l2] |>).
  split; [|split].
  - unfold remove_from_bigmap. rewrite Ei, Ej, invert_small by done.
    erewrite bind_ok by (by eapply get_l2_run; [exact E2|lia|]). fold w'.
    erewrite bind_ok by (eapply set_l2_run; [exact E2|lia]).
    erewrite bind_ok by (eapply get_l2_run; [reflexivity|lia|apply list_lookup_insert_eq; lia]).
    unfold l1'. destruct (w' =? 0); cbn [when]; [|by unfold ret; destruct s; cbn in *; subst].
    erewrite bind_ok by by apply get_l1_run. by erewrite set_l1_run by done.
  - by do 2 eexists.
  - eapply bitmap_update; try done.
    + unfold l1'. destruct (w' =? 0); [by apply land_word_l|done].
    + intros k Hk. unfold l1'. destruct (Z.eqb_spec w' 0) as [E0|E0].
      * rewrite testbit_clear by (done || lia). destruct (Z.eqb_spec k (p / 64)); [by rewrite andb_false_r|].
        apply andb_true_r.
      * destruct (Z.eqb_spec k (p / 64)) as [->|]; [|done]. rewrite Hnz. f_equal.
        destruct (Z.eqb_spec w 0) as [->|]; [|done]. exfalso. apply E0. unfold w'. apply Z.land_0_l.
    + intros j Hj'. cbv beta. unfold w'. rewrite testbit_clear, Hbits by (done || lia). do 2 f_equal.
      apply eq_bool_prop_intro. rewrite !Is_true_true, !Z.eqb_eq. lia.
    + intros k j Hk Hne Hj'. cbv beta. destruct (Z.eqb_spec (64 * k + j) p); [|by rewrite andb_true_r].
      exfalso. apply Hne. subst p. rewrite Z.mul_comm, Z.div_add_l, Z.div_small by lia. lia.
Qed.
End bitmap.

(** ** The ready queues *)

(** Priority [p] has the queue [Q p]; [rel] is the release queue.  The flags of
    the threads say where they are, and a thread in no queue has no links. *)
Definition ready_ok (s : kstate) (Q : Z -> list Z) (rel : list Z) : Prop :=
  tcbs s !! 0 = None /\
  length (ksReadyQueues s) = 256%nat /\
  (forall p, 0 <= p < 256 -> exists q, ksReadyQueues s !! Z.to_nat p = Some q /\
     queue_rel (sched_links (tcbs s)) q (Q p)) /\
  queue_rel (sched_links (tcbs s)) (ksReleaseQueue s) rel /\
  (forall a t, tcbs s !! a = Some t ->
     domain t = 0 /\ 0 <= tcbPriority t < 256 /\
     (forall p, 0 <= p < 256 -> a ∈ Q p <-> tcbQueued (tcbState t) <> 0 /\ tcbPriority t = p) /\
     (a ∈ rel <-> tcbInReleaseQueue (tcbState t) <> 0) /\
     (tcbQueued (tcbState t) <> 0 -> tcbInReleaseQueue (tcbState t) = 0) /\
     (tcbQueued (tcbState t) = 0 -> tcbInReleaseQueue (tcbState t) = 0 ->
        tcbSchedPrev t = 0 /\ tcbSchedNext t = 0)) /\
  bitmap_ok s (fun p => negb (bool_decide (Q p = []))).

(** What the ready-queue operations leave alone. *)
Definition strip (t : tcb_t) : tcb_t := erase_sched (set_queued 0 t).
Definition sched_frame (s s' : kstate) : Prop :=
  (exists h qs l1 l2, s' = s <| tcbs := h |> <| ksReadyQueues := qs |>
     <| ksReadyQueuesL1Bitmap := l1 |> <| ksReadyQueuesL2Bitmap := l2 |>) /\
  forall a, strip <$> tcbs s' !! a = strip <$> tcbs s !! a.

Definition upd (Q : Z -> list Z) (p : Z) (l : list Z) : Z -> list Z :=
  fun x => if x =? p then l else Q x.

Lemma bitmap_ok_ext s f g : (forall p, 0 <= p < 256 -> f p = g p) -> bitmap_ok s f -> bitmap_ok s g.
Proof.
  intros E (l1 & l2 & H1 & H2 & H3 & H4 & H5 & H6). exists l1, l2. split_and!; try done.
  intros i Hi. destruct (H6 i Hi) as (w & Hw & Hww & Hz & Hb). exists w. split_and!; try done.
  intros j Hj. rewrite Hb, E by lia. done.
Qed.

Lemma queue_rel_ext h h' q l :
  (forall a, a ∈ l -> sched_links h' a = sched_links h a) ->
  queue_rel (sched_links h) q l -> queue_rel (sched_links h') q l.
Proof.
  intros E ((Hnd & H0 & Hs) & Hh & Ht). split; [|done]. split; [done|]. split; [done|].
  eapply dseg_ext; [|exact Hs]. intros a Ha. by apply E.
Qed.

Lemma sched_links_flag h self f a :
  (forall t, tcbSchedPrev (f t) = tcbSchedPrev t /\ tcbSchedNext (f t) = tcbSchedNext t) ->
  sched_links (alter f self h) a = sched_links h a.
Proof.
  intros Hf. unfold sched_links. rewrite lookup_alter_case. case_decide; [|done].
  destruct (h !! a) as [t|]; [|done]. cbn. by destruct (Hf t) as [-> ->].
Qed.

Lemma same_but_sched_lookup h h' ts a t' : same_but_sched h h' ts -> h' !! a = Some t' ->
  exists t, h !! a = Some t /\ erase_sched t' = erase_sched t.
Proof.
  intros [He _] Ha. specialize (He a). rewrite Ha in He. destruct (h !! a) as [t|]; [|done].
  change (Some (erase_sched t') = Some (erase_sched t)) in He. exists t. split; [done|congruence].
Qed.

Lemma erase_sched_fields t t' : erase_sched t' = erase_sched t ->
  tcbState t' = tcbState t /\ tcbPriority t' = tcbPriority t /\ domain t' = domain t.
Proof. intros E. by injection E. Qed.

Section ready.
Context (s s1 : kstate) (Q : Z -> list Z) (rel : list Z) (p self : Z) (t : tcb_t).
Context (h1 : gmap Z tcb_t) (q' : tcb_queue_t) (l' : list Z) (v : Z).
Hypothesis Hok : ready_ok s Q rel.
Hypothesis Hself : tcbs s !! self = Some t.
Hypothesis Hp : tcbPriority t = p.
Hypothesis Hrel : tcbInReleaseQueue (tcbState t) = 0.
Hypothesis Hsame : same_but_sched (tcbs s) h1 (self :: Q p).
Hypothesis Hq' : queue_rel (sched_links h1) q' l'.
Hypothesis Hl' : forall a, a ∈ l' <-> (a = self /\ v <> 0) \/ (a <> self /\ a ∈ Q p).
Hypothesis Hlinks : v = 0 -> exists t1, h1 !! self = Some t1 /\ tcbSchedPrev t1 = 0 /\ tcbSchedNext t1 = 0.
Hypothesis Hbm : only_bitmap s s1.
Hypothesis Hbm' : bitmap_ok s1 (fun x => negb (bool_decide (upd Q p l' x = []))).

Definition ready_after : kstate :=
  s1 <| tcbs := alter (set_queued v) self h1 |>
     <| ksReadyQueues := <[Z.to_nat p := q']> (ksReadyQueues s) |>.

Lemma ready_p : 0 <= p < 256.
Proof. destruct Hok as (_ & _ & _ & _ & Ht & _). destruct (Ht _ _ Hself) as (_ & ? & _). lia. Qed.

(** A member of another queue is not touched. *)
Lemma ready_untouched a ta : tcbs s !! a = Some ta -> a <> self -> a ∉ Q p ->
  alter (set_queued v) self h1 !! a = Some ta.
Proof.
  intros Ha Hne Hnin. rewrite lookup_alter_ne by done.
  destruct Hsame as [_ Hout]. rewrite Hout; [done|]. set_solver.
Qed.

Lemma ready_links_out a : a <> self -> a ∉ Q p ->
  sched_links (alter (set_queued v) self h1) a = sched_links (tcbs s) a.
Proof.
  intros Hne Hnin. rewrite sched_links_flag by done. unfold sched_links.
  destruct Hsame as [_ Hout]. rewrite Hout; [done|]. set_solver.
Qed.

Lemma ready_member a ta : tcbs s !! a = Some ta -> forall x, 0 <= x < 256 -> a ∈ Q x -> x = tcbPriority ta.
Proof.
  intros Ha x Hx Hin. destruct Hok as (_ & _ & _ & _ & Ht & _).
  destruct (Ht _ _ Ha) as (_ & _ & Hq & _). apply Hq in Hin; [|done]. by destruct Hin as [_ ->].
Qed.

Lemma ready_dom x a : 0 <= x < 256 -> a ∈ Q x -> exists ta, tcbs s !! a = Some ta.
Proof.
  intros Hx Ha. destruct Hok as (_ & _ & Hq & _). destruct (Hq x Hx) as (q & _ & Hd & _).
  by apply (sched_list_dom _ _ _ Hd) in Ha as [ta ->]; eauto.
Qed.

Lemma ready_after_ok : ready_ok ready_after (upd Q p l') rel.
Proof.
  pose proof ready_p as Hpr. pose proof Hok as (H0 & Hlen & HQ & HR & Ht & _).
  destruct Hbm as (b1 & b2 & Es1). unfold ready_after. split_and!; cbn.
  - rewrite lookup_alter_case. case_decide; [subst; congruence|]. destruct Hsame as [He _].
    specialize (He 0). rewrite H0 in He. by destruct (h1 !! 0).
  - by rewrite length_insert.
  - intros x Hx. unfold upd. destruct (Z.eqb_spec x p) as [->|Hne].
    + exists q'. rewrite list_lookup_insert_eq by lia. split; [done|].
      eapply queue_rel_ext; [|exact Hq']. intros a _. by apply sched_links_flag.
    + destruct (HQ x Hx) as (q & Hq & Hqr). exists q. rewrite list_lookup_insert_ne by lia. split; [done|].
      eapply queue_rel_ext; [|exact Hqr]. intros a Ha.
      destruct (ready_dom x a Hx Ha) as [ta Hta]. apply ready_links_out.
      * intros ->. pose proof (ready_member _ _ Hta x Hx Ha). congruence.
      * intros Hap. pose proof (ready_member _ _ Hta x Hx Ha). pose proof (ready_member _ _ Hta p Hpr Hap). lia.
  - rewrite Es1. cbn. eapply queue_rel_ext; [|exact HR]. intros a Ha. apply ready_links_out.
    + intros ->. apply (Ht _ _ Hself) in Ha. done.
    + intros Hap. destruct (ready_dom p a Hpr Hap) as [ta Hta].
      destruct (Ht _ _ Hta) as (_ & _ & Hm & Hr & Hex & _). destruct (proj1 (Hm p Hpr) Hap) as [Hqd _].
      apply (proj1 Hr Ha), Hex, Hqd.
  - intros a ta'. rewrite lookup_alter_case. case_decide as Ea.
    + subst a. destruct (h1 !! self) as [t1|] eqn:E1; [|done]. cbn. intros. simplify_eq.
      destruct (same_but_sched_lookup _ _ _ _ _ Hsame E1) as (t0 & E0 & Est).
      apply erase_sched_fields in Est as (Ef1 & Ef2 & Ef3). simplify_eq. cbn. rewrite Ef1, Ef2, Ef3.
      destruct (Ht _ _ Hself) as (Hd & Hpp & Hm & Hr & Hex & Hz).
      split; [done|split; [done|split; [|split; [done|split; [done|]]]]].
      * intros x Hx. unfold upd. destruct (Z.eqb_spec x (tcbPriority t)) as [->|Hne].
        -- rewrite Hl'. split; [intros [[_ Hv]|[? _]]; done|]. intros [Hv _]. by left.
        -- rewrite Hm by done. split; [intros [_ ?]|intros [_ ?]]; congruence.
      * intros Hv _. destruct (Hlinks Hv) as (t2 & ? & ? & ?). by simplify_eq.
    + intros Ha'. destruct (same_but_sched_lookup _ _ _ _ _ Hsame Ha') as (ta & Hta & Est).
      apply erase_sched_fields in Est as (Ef1 & Ef2 & Ef3). rewrite Ef1, Ef2, Ef3.
      destruct (Ht _ _ Hta) as (Hd & Hpp & Hm & Hr & Hex & Hz).
      split; [done|split; [done|split; [|split; [done|split; [done|]]]]].
      * intros x Hx. unfold upd. destruct (Z.eqb_spec x p) as [->|Hne]; [|by apply Hm].
        rewrite Hl', <- Hm by done. split; [intros [[? _]|[_ ?]]; congruence|]. intros ?. right. done.
      * intros Hq0 Hr0. destruct (decide (a ∈ Q p)) as [Hin|Hnin].
        { apply Hm in Hin as [? _]; [congruence|done]. }
        destruct Hsame as [_ Hout]. rewrite Hout in Ha' by set_solver. simplify_eq. by apply Hz.
  - eapply bitmap_ok_ext; [|exact Hbm']. done.
Qed.

Lemma ready_after_frame : sched_frame s ready_after.
Proof.
  destruct Hbm as (b1 & b2 & Es1). unfold ready_after. rewrite Es1. split.
  - by do 4 eexists.
  - intros a. cbn. rewrite lookup_alter_case. destruct Hsame as [He _]. specialize (He a).
    transitivity (set_queued 0 <$> (erase_sched <$> h1 !! a)).
    { case_decide; subst; by destruct (h1 !! a). }
    rewrite He. by destruct (tcbs s !! a).
Qed.

Lemma ready_after_spec : sched_frame s ready_after /\ ready_ok ready_after (upd Q p l') rel.
Proof. split; [apply ready_after_frame|apply ready_after_ok]. Qed.
End ready.

(** ** The operations *)

Section ops.
Context `{Config}.

Lemma ready_queues_index_0 p : 0 <= p < 256 -> ready_queues_index 0 p = p.
Proof.
  intros. unfold ready_queues_index. change (0 *w CONFIG_NUM_PRIORITIES) with 0.
  apply wadd_small; rewrite ?word_size_val; lia.
Qed.

Lemma get_sched_queue_run s p q : 0 <= p -> ksReadyQueues s !! Z.to_nat p = Some q ->
  get_sched_queue p s = Ok (q, s).
Proof. intros Hp Hq. unfold get_sched_queue, bind, gets, lift_res. by rewrite (array_get_ok _ _ q). Qed.

Lemma set_sched_queue_run s p q : 0 <= p < Z.of_nat (length (ksReadyQueues s)) ->
  set_sched_queue p q s = Ok (tt, s <| ksReadyQueues := <[Z.to_nat p := q]> (ksReadyQueues s) |>).
Proof. intros Hp. unfold set_sched_queue, bind, gets, lift_res, modify. by rewrite array_set_ok. Qed.

(** What an operation on an unqueued thread starts from. *)
Lemma ready_unqueued s Q rel self t : ready_ok s Q rel -> tcbs s !! self = Some t ->
  self <> 0 /\ domain t = 0 /\ 0 <= tcbPriority t < 256 /\
  (exists q, ksReadyQueues s !! Z.to_nat (tcbPriority t) = Some q /\
     queue_rel (sched_links (tcbs s)) q (Q (tcbPriority t))) /\
  (tcbQueued (tcbState t) = 0 -> self ∉ Q (tcbPriority t)) /\
  (tcbQueued (tcbState t) = 0 -> tcbInReleaseQueue (tcbState t) = 0 ->
     tcbSchedPrev t = 0 /\ tcbSchedNext t = 0) /\
  Z.of_nat (length (ksReadyQueues s)) = 256.
Proof.
  intros (H0 & Hlen & HQ & _ & Ht & _) Hs. destruct (Ht _ _ Hs) as (Hd & Hp & Hm & _ & _ & Hz).
  split; [by eapply lookup_nonzero|]. split; [done|]. split; [done|]. split; [by apply HQ|].
  split; [|split; [done|lia]]. intros Hq Hin. apply Hm in Hin as [? _]; [congruence|done].
Qed.

(** Queueing a thread in a queue that was empty marks the priority. *)
Lemma mark_busy s Q rel p (q : tcb_queue_t) l : ready_ok s Q rel -> 0 <= p < 256 ->
  queue_rel (sched_links (tcbs s)) q (Q p) -> l <> [] ->
  exists s1, when (empty q) (add_to_bitmap 0 p) s = Ok (tt, s1) /\ only_bitmap s s1 /\
    bitmap_ok s1 (fun x => negb (bool_decide (upd Q p l x = []))).
Proof.
  intros Hok Hp Hq Hl. pose proof Hok as (_ & _ & _ & _ & _ & Hbm).
  rewrite (queue_empty _ _ _ Hq). case_bool_decide as E; cbn [when].
  - destruct (add_to_bitmap_spec s _ p Hbm Hp) as (s1 & Hrun & Ho & Hbm1). exists s1. split_and!; try done.
    eapply bitmap_ok_ext; [|exact Hbm1]. intros x _. cbn. unfold upd.
    destruct (Z.eqb_spec x p) as [->|]; [|apply orb_false_r].
    rewrite orb_true_r. by rewrite bool_decide_false.
  - exists s. split; [done|]. split; [apply only_bitmap_refl|].
    eapply bitmap_ok_ext; [|exact Hbm]. intros x _. cbn. unfold upd.
    destruct (Z.eqb_spec x p) as [->|]; [|done]. by rewrite !bool_decide_false.
Qed.

Lemma only_bitmap_fields s s1 : only_bitmap s s1 -> tcbs s1 = tcbs s /\ ksReadyQueues s1 = ksReadyQueues s.
Proof. by intros (l1 & l2 & ->). Qed.

Lemma sched_enqueue_spec s Q rel self t :
  ready_ok s Q rel -> tcbs s !! self = Some t -> tcbInReleaseQueue (tcbState t) = 0 ->
  enqueue_asserts self s = Ok (tt, s) -> tcbQueued (tcbState t) = 0 ->
  exists s', sched_enqueue self s = Ok (tt, s') /\ sched_frame s s' /\
    ready_ok s' (upd Q (tcbPriority t) (self :: Q (tcbPriority t))) rel.
Proof.
  intros Hok Hs Hrel Has Hq0. destruct (ready_unqueued _ _ _ _ _ Hok Hs)
    as (Hs0 & Hd & Hp & (q & Hq & Hqr) & Hnin & Hz & Hlen).
  specialize (Hnin Hq0). destruct (Hz Hq0 Hrel) as [Hz1 Hz2]. pose proof Hok as (H0 & _).
  destruct (mark_busy s Q rel (tcbPriority t) q (self :: Q (tcbPriority t)) Hok Hp Hqr) as (s1 & Hrun1 & Ho & Hbm); [done|].
  destruct (only_bitmap_fields _ _ Ho) as [Et Eq].
  destruct (prepend_spec (tcbs s) q H0 _ self t Hqr Hs Hnin Hz1 Hz2) as (q' & h1 & Hrun2 & Hq' & Hsame).
  assert (Hh1 : is_Some (h1 !! self)).
  { destruct Hsame as [He _]. specialize (He self). rewrite Hs in He. destruct (h1 !! self); [eauto|done]. }
  exists (ready_after s s1 (tcbPriority t) self h1 q' 1). split.
  - unfold sched_enqueue. erewrite bind_ok by exact Has. erewrite bind_ok by by apply get_tcb_ok.
    rewrite Hq0, Hd, ready_queues_index_0 by done. cbn [when Z.eqb].
    erewrite bind_ok by (by apply get_sched_queue_run; [lia|]). erewrite bind_ok by exact Hrun1.
    erewrite bind_ok by (apply on_tcbs_ok; rewrite Et; exact Hrun2).
    erewrite bind_ok by (apply set_sched_queue_run; cbn; rewrite Eq; lia). cbn. rewrite Eq.
    by rewrite mod_tcb_ok by done.
  - eapply (ready_after_spec _ _ Q); try done. intros a. rewrite elem_of_cons. split.
    + intros [->|Ha]; [by left|right]. split; [|done]. by intros ->.
    + intros [[-> _]|[_ Ha]]; auto.
Qed.

Lemma bitmap_ok_fields s s' f : ksReadyQueuesL1Bitmap s' = ksReadyQueuesL1Bitmap s ->
  ksReadyQueuesL2Bitmap s' = ksReadyQueuesL2Bitmap s -> bitmap_ok s f -> bitmap_ok s' f.
Proof. intros E1 E2 (l1 & l2 & Hb). exists l1, l2. by rewrite E1, E2. Qed.

(** Taking the last thread out of a queue unmarks the priority. *)
Lemma unmark_empty s Q rel p (q : tcb_queue_t) l s2 :
  ready_ok s Q rel -> 0 <= p < 256 -> Q p <> [] -> queue_rel (sched_links (tcbs s2)) q l ->
  ksReadyQueuesL1Bitmap s2 = ksReadyQueuesL1Bitmap s ->
  ksReadyQueuesL2Bitmap s2 = ksReadyQueuesL2Bitmap s ->
  exists s3, when (head q =? 0) (remove_from_bigmap 0 p) s2 = Ok (tt, s3) /\ only_bitmap s2 s3 /\
    bitmap_ok s3 (fun x => negb (bool_decide (upd Q p l x = []))).
Proof.
  intros (_ & _ & _ & _ & _ & Hbm) Hp Hne Hq E1 E2. apply (bitmap_ok_fields s s2) in Hbm; [|done..].
  change (head q =? 0) with (empty q). rewrite (queue_empty _ _ _ Hq). case_bool_decide as E; cbn [when].
  - destruct (remove_from_bigmap_spec s2 _ p Hbm Hp) as (s3 & Hrun & Ho & Hbm3). exists s3. split_and!; try done.
    eapply bitmap_ok_ext; [|exact Hbm3]. intros x _. cbn. unfold upd.
    destruct (Z.eqb_spec x p) as [->|]; [|apply andb_true_r]. rewrite andb_false_r. by rewrite bool_decide_true.
  - exists s2. split; [done|]. split; [apply only_bitmap_refl|].
    eapply bitmap_ok_ext; [|exact Hbm]. intros x _. cbn. unfold upd.
    destruct (Z.eqb_spec x p) as [->|]; [|done]. by rewrite !bool_decide_false.
Qed.

Lemma sched_dequeue_spec s Q rel self t :
  ready_ok s Q rel -> tcbs s !! self = Some t -> tcbQueued (tcbState t) <> 0 ->
  exists s' l1 l2, Q (tcbPriority t) = l1 ++ self :: l2 /\ sched_dequeue self s = Ok (tt, s') /\
    sched_frame s s' /\ ready_ok s' (upd Q (tcbPriority t) (l1 ++ l2)) rel.
Proof.
  intros Hok Hs Hq1. destruct (ready_unqueued _ _ _ _ _ Hok Hs)
    as (Hs0 & Hd & Hp & (q & Hq & Hqr) & _ & _ & Hlen).
  pose proof Hok as (H0 & _ & _ & _ & Ht & _). destruct (Ht _ _ Hs) as (_ & _ & Hm & _ & Hex & _).
  assert (Hin : self ∈ Q (tcbPriority t)) by by apply Hm.
  apply list_elem_of_split in Hin as (l1 & l2 & EQ). rewrite EQ in Hqr.
  destruct (remove_spec (tcbs s) q H0 l1 self l2 Hqr) as (q' & h1 & t1 & Hrun1 & Hq' & Hsame & Ht1 & Hz1 & Hz2).
  pose proof Hqr as ((Hnd & _) & _). apply NoDup_app in Hnd as (_ & Hd1 & Hnd2).
  apply NoDup_cons in Hnd2 as [Hd2 _].
  set (s2 := s <| tcbs := alter (set_queued 0) self h1 |>
               <| ksReadyQueues := <[Z.to_nat (tcbPriority t) := q']> (ksReadyQueues s) |>).
  destruct (unmark_empty s Q rel (tcbPriority t) q' (l1 ++ l2) s2 Hok Hp) as (s3 & Hrun2 & Ho & Hbm).
  { rewrite EQ. by destruct l1. }
  { eapply queue_rel_ext; [|exact Hq']. intros a _. by apply sched_links_flag. } { done. } { done. }
  destruct Ho as (b1 & b2 & ->).
  set (s1 := s <| ksReadyQueuesL1Bitmap := b1 |> <| ksReadyQueuesL2Bitmap := b2 |>).
  exists (ready_after s s1 (tcbPriority t) self h1 q' 0), l1, l2. split; [done|split].
  - unfold sched_dequeue. erewrite bind_ok by by apply get_tcb_ok.
    apply Z.eqb_neq in Hq1 as ->. rewrite Hd, ready_queues_index_0 by done. cbn [when negb].
    erewrite bind_ok by (by apply get_sched_queue_run; [lia|]).
    erewrite bind_ok by (apply on_tcbs_ok; exact Hrun1).
    erewrite bind_ok by (apply set_sched_queue_run; cbn; lia).
    erewrite bind_ok by (apply mod_tcb_ok; cbn; eauto). exact Hrun2.
  - eapply (ready_after_spec s s1 Q); try done; eauto.
    + rewrite EQ. destruct Hsame as [He Hout]. split; [done|]. intros a Ha. apply Hout. set_solver.
    + intros a. rewrite EQ. split; [intros Ha; right; split; set_solver|set_solver].
    + by do 2 eexists.
Qed.

(** The code of [sched_append] links the thread by hand; this is the [append] of
    the queue type. *)
Lemma append_by_hand s s1 q l self t q' h1 p :
  tcbs s !! 0 = None -> queue_rel (sched_links (tcbs s)) q l -> tcbs s !! self = Some t -> self ∉ l ->
  tcbSchedPrev t = 0 -> tcbSchedNext t = 0 ->
  when (empty q) (add_to_bitmap 0 p) s = Ok (tt, s1) -> only_bitmap s s1 ->
  append q self (tcbs s) = Ok (q', h1) ->
  exists q0 s2, (if head q =? 0 then add_to_bitmap 0 p ;;; ret (q <| head := self |>)
              else mod_tcb (tail q) (set_SchedNext self) ;;; ret q) s = Ok (q0, s2) /\
    q0 <| tail := self |> = q' /\
    (let* _ := mod_tcb self (set_SchedPrev (tail q0)) in mod_tcb self (set_SchedNext 0)) s2 =
      Ok (tt, s1 <| tcbs := h1 |>).
Proof.
  intros H0 Hq Hs Hnin Hz1 Hz2 Hrun Ho Happ. destruct (only_bitmap_fields _ _ Ho) as [Et _].
  pose proof Hq as (Hd & Hh & Ht). assert (Hs0 : self <> 0) by by eapply lookup_nonzero.
  change (head q =? 0) with (empty q). revert Hrun Happ. unfold append.
  rewrite (queue_empty _ _ _ Hq). case_bool_decide as E; cbn [when]; intros Hrun Happ.
  - injection Happ as <- <-. subst l. rewrite (bind_ok _ _ _ _ _ Hrun). eexists _, _. split; [reflexivity|].
    split; [done|]. erewrite bind_ok by (apply mod_tcb_ok; [done|rewrite Et; eauto]).
    rewrite mod_tcb_ok; [|done|cbn; rewrite lookup_alter_eq, Et, Hs; cbn; eauto].
    change (tail (q <| head := self |>)) with (tail q). rewrite Ht, Et. cbn [lastz List.last].
    rewrite (alter_same _ self t (set_SchedPrev 0)); [|done|by destruct t; cbn in *; subst].
    rewrite (alter_same _ self t (set_SchedNext 0)); [|done|by destruct t; cbn in *; subst].
    by destruct s1; cbn in *; subst.
  - assert (Hhs : is_Some (tcbs s !! tail q)) by (rewrite Ht; eapply sched_list_dom; [done|by apply lastz_in]).
    assert (Hhz : tail q <> 0) by (rewrite Ht; by rewrite lastz_zero by apply Hd).
    assert (Hhp : tail q <> self) by (rewrite Ht; intros <-; by apply Hnin, lastz_in).
    injection Hrun as <-. erewrite bind_ok in Happ; [|hstep; hstep; reflexivity].
    injection Happ as <- <-. erewrite bind_ok by by apply mod_tcb_ok. eexists _, _. split; [reflexivity|].
    split; [done|]. erewrite bind_ok; [|apply mod_tcb_ok; [done|cbn; rewrite lookup_alter_ne; eauto]].
    rewrite mod_tcb_ok; [|done|cbn; rewrite lookup_alter_eq, lookup_alter_ne, Hs by done; cbn; eauto].
    assert (E2 : alter (set_SchedNext 0) self (alter (set_SchedPrev (tail q)) self
                   (alter (set_SchedNext self) (tail q) (tcbs s))) =
                 alter (set_SchedNext self) (tail q) (alter (set_SchedPrev (tail q)) self (tcbs s)))
      by heap_eq (tcbs s). cbn. by rewrite E2.
Qed.

Lemma sched_append_spec s Q rel self t :
  ready_ok s Q rel -> tcbs s !! self = Some t -> tcbInReleaseQueue (tcbState t) = 0 ->
  append_asserts self s = Ok (tt, s) -> tcbQueued (tcbState t) = 0 ->
  exists s', sched_append self s = Ok (tt, s') /\ sched_frame s s' /\
    ready_ok s' (upd Q (tcbPriority t) (Q (tcbPriority t) ++ [self])) rel.
Proof.
  intros Hok Hs Hrel Has Hq0. destruct (ready_unqueued _ _ _ _ _ Hok Hs)
    as (Hs0 & Hd & Hp & (q & Hq & Hqr) & Hnin & Hz & Hlen).
  specialize (Hnin Hq0). destruct (Hz Hq0 Hrel) as [Hz1 Hz2]. pose proof Hok as (H0 & _).
  destruct (mark_busy s Q rel (tcbPriority t) q (Q (tcbPriority t) ++ [self]) Hok Hp Hqr)
    as (s1 & Hrun1 & Ho & Hbm); [by destruct (Q _)|].
  destruct (only_bitmap_fields _ _ Ho) as [Et Eq].
  destruct (append_spec (tcbs s) q H0 _ self t Hqr Hs Hnin Hz1 Hz2) as (q' & h1 & Hrun2 & Hq' & Hsame).
  destruct (append_by_hand s s1 q _ self t q' h1 (tcbPriority t) H0 Hqr Hs Hnin Hz1 Hz2 Hrun1 Ho Hrun2)
    as (q0 & s2 & Hrun3 & Hq0' & Hrun4).
  assert (Hh1 : is_Some (h1 !! self)).
  { destruct Hsame as [He _]. specialize (He self). rewrite Hs in He. destruct (h1 !! self); [eauto|done]. }
  exists (ready_after s s1 (tcbPriority t) self h1 q' 1). split.
  - unfold sched_append. erewrite bind_ok by exact Has. erewrite bind_ok by by apply get_tcb_ok.
    rewrite Hq0, Hd, ready_queues_index_0 by done. cbn [when Z.eqb].
    erewrite bind_ok by (by apply get_sched_queue_run; [lia|]). erewrite bind_ok by exact Hrun3.
    rewrite <- (bind_assoc _ (fun _ => mod_tcb self (set_SchedNext 0))), (bind_ok _ _ _ _ _ Hrun4), Hq0'.
    erewrite bind_ok by (apply set_sched_queue_run; cbn; rewrite Eq; lia). cbn. rewrite Eq.
    by rewrite mod_tcb_ok by done.
  - eapply (ready_after_spec _ _ Q); try done.
    + destruct Hsame as [He Hout]. split; [done|]. intros a Ha. apply Hout. set_solver.
    + intros a. split; [|set_solver]. intros Ha. destruct (decide (a = self)) as [->|]; [by left|right; set_solver].
Qed.
End ops.

(** The state before any thread is queued. *)
Lemma no_thread_queued s :
  tcbs s !! 0 = None -> ksReadyQueues s = replicate 256 (mk_tcb_queue 0 0) ->
  ksReleaseQueue s = mk_tcb_queue 0 0 ->
  ksReadyQueuesL1Bitmap s = [0] -> ksReadyQueuesL2Bitmap s = [[0; 0; 0; 0]] ->
  (forall a t, tcbs s !! a = Some t -> domain t = 0 /\ 0 <= tcbPriority t < 256 /\
     tcbQueued (tcbState t) = 0 /\ tcbInReleaseQueue (tcbState t) = 0 /\
     tcbSchedPrev t = 0 /\ tcbSchedNext t = 0) ->
  ready_ok s (fun _ => []) [].
Proof.
  intros H0 Eq Er E1 E2 Ht.
  assert (Hnil : forall L, queue_rel L (mk_tcb_queue 0 0) []) by (intros; split; [apply dlist_nil|done]).
  split; [done|]. split; [by rewrite Eq, length_replicate|]. split; [|split; [rewrite Er; apply Hnil|split]].
  - intros p Hp. exists (mk_tcb_queue 0 0). split; [|apply Hnil]. rewrite Eq. apply lookup_replicate_2. lia.
  - intros a t Ha. destruct (Ht a t Ha) as (Hd & Hp & Hq & Hr & Hl). rewrite Hq, Hr. set_solver.
  - exists 0, [0; 0; 0; 0]. do 4 (split; [done|]). split; [intros; apply Z.bits_0|].
    intros i Hi. exists 0. split; [|split; [done|split; [apply Z.bits_0|intros; apply Z.bits_0]]].
    by assert (i = 0 \/ i = 1 \/ i = 2 \/ i = 3) as [-> | [-> | [-> | ->]]] by lia.
Qed.

(** ** Refinement of an abstract priority queue *)

(** The ready-queue operations, as requests on a thread. *)
Inductive ready_op : Type :=
| Enqueue (a : Z)
| Append (a : Z)
| Dequeue (a : Z).

Definition op_thread (o : ready_op) : Z := match o with Enqueue a | Append a | Dequeue a => a end.

Definition run_op `{Config} (o : ready_op) : K unit :=
  match o with
  | Enqueue a => sched_enqueue a
  | Append a => sched_append a
  | Dequeue a => sched_dequeue a
  end.

Fixpoint run_ops `{Config} (l : list ready_op) : K unit :=
  match l with [] => ret tt | o :: l => run_op o ;;; run_ops l end.

(** The same request on the abstract queues: a thread is in at most one place
    of the queue of its priority. *)
Definition abs_op (prio : Z -> Z) (Q : Z -> list Z) (o : ready_op) : Z -> list Z :=
  let l := Q (prio (op_thread o)) in
  match o with
  | Enqueue a => if bool_decide (a ∈ l) then Q else upd Q (prio a) (a :: l)
  | Append a => if bool_decide (a ∈ l) then Q else upd Q (prio a) (l ++ [a])
  | Dequeue a => if bool_decide (a ∈ l) then upd Q (prio a) (filter (.≠ a) l) else Q
  end.

(** A thread that no release queue holds. *)
Definition known (s : kstate) (prio : Z -> Z) (a : Z) : Prop :=
  exists t, tcbs s !! a = Some t /\ tcbPriority t = prio a /\ tcbInReleaseQueue (tcbState t) = 0.

Lemma sched_frame_refl s : sched_frame s s.
Proof. split; [|done]. exists (tcbs s), (ksReadyQueues s), (ksReadyQueuesL1Bitmap s), (ksReadyQueuesL2Bitmap s). by destruct s. Qed.

Lemma sched_frame_trans s1 s2 s3 : sched_frame s1 s2 -> sched_frame s2 s3 -> sched_frame s1 s3.
Proof.
  intros [(h & qs & l1 & l2 & ->) E1] [(h' & qs' & l1' & l2' & ->) E2]. split; [by exists h', qs', l1', l2'|].
  intros a. by rewrite E2, E1.
Qed.

Lemma sched_frame_lookup s s' a t : sched_frame s s' -> tcbs s !! a = Some t ->
  exists t', tcbs s' !! a = Some t' /\ strip t' = strip t.
Proof.
  intros [_ E] Ha. specialize (E a). rewrite Ha in E. destruct (tcbs s' !! a) as [t'|]; [|done].
  exists t'. split; [done|]. by apply (inj Some) in E.
Qed.

Lemma strip_fields t t' : strip t' = strip t ->
  tcbPriority t' = tcbPriority t /\ tcbInReleaseQueue (tcbState t') = tcbInReleaseQueue (tcbState t).
Proof.
  intros E. split; [exact (f_equal tcbPriority E)|].
  exact (f_equal (fun t => tcbInReleaseQueue (tcbState t)) E).
Qed.

Lemma known_frame s s' prio a : sched_frame s s' -> known s prio a -> known s' prio a.
Proof.
  intros Hf (t & Ht & Hp & Hr). destruct (sched_frame_lookup _ _ _ _ Hf Ht) as (t' & Ht' & Es).
  destruct (strip_fields _ _ Es) as [E1 E2]. exists t'. by rewrite E1, E2.
Qed.

Section refinement.
Context `{Config}.

Lemma filter_none (l : list Z) a : a ∉ l -> filter (.≠ a) l = l.
Proof.
  induction l as [|b l IH]; [done|]. rewrite not_elem_of_cons. intros [Hb Hl].
  by rewrite filter_cons_True, IH.
Qed.

Lemma filter_middle (l1 l2 : list Z) a : NoDup (l1 ++ a :: l2) -> filter (.≠ a) (l1 ++ a :: l2) = l1 ++ l2.
Proof.
  intros Hnd. apply NoDup_app in Hnd as (_ & Hd & Hnd). apply NoDup_cons in Hnd as [Ha _].
  rewrite filter_app, filter_cons_False by auto.
  rewrite !filter_none; [done|done|]. intros Hx. apply (Hd a Hx). by left.
Qed.

(** On a queued thread the insertions do nothing, on another one the removal. *)
Lemma run_op_noop s a t : kernel_mcs = false -> a <> 0 -> tcbs s !! a = Some t ->
  (tcbQueued (tcbState t) <> 0 -> sched_enqueue a s = Ok (tt, s) /\ sched_append a s = Ok (tt, s)) /\
  (tcbQueued (tcbState t) = 0 -> sched_dequeue a s = Ok (tt, s)).
Proof.
  intros Hm Ha Ht. unfold sched_enqueue, sched_append, sched_dequeue, enqueue_asserts, append_asserts.
  rewrite Hm. cbn [when]. pose proof (fun k : tcb_t -> K unit => bind_ok _ k _ _ _ (get_tcb_ok _ _ _ Ha Ht)) as Hg.
  split; [intros Hq|intros Hq].
  - apply Z.eqb_neq in Hq. split; erewrite bind_ok by done; by rewrite Hg, Hq.
  - by rewrite Hg, Hq.
Qed.

Lemma run_op_spec s Q prio o : kernel_mcs = false -> ready_ok s Q [] -> known s prio (op_thread o) ->
  exists s', run_op o s = Ok (tt, s') /\ sched_frame s s' /\ ready_ok s' (abs_op prio Q o) [].
Proof.
  intros Hm Hok (t & Ht & Hp & Hr). pose proof Hok as (_ & _ & Hqs & _ & Hts & _).
  destruct (Hts _ _ Ht) as (_ & Hp256 & Hmem & _). specialize (Hmem _ Hp256).
  destruct (Hqs _ Hp256) as (q & _ & (Hnd & _) & _). destruct (ready_unqueued _ _ _ _ _ Hok Ht) as (Ha0 & _).
  destruct (run_op_noop _ _ _ Hm Ha0 Ht) as [Hno1 Hno2]. unfold abs_op. rewrite <- Hp.
  destruct (decide (tcbQueued (tcbState t) = 0)) as [Hq|Hq].
  - assert (Hin : op_thread o ∉ Q (tcbPriority t)) by (rewrite Hmem; by intros []).
    destruct o as [a|a|a]; cbn [op_thread run_op] in *; rewrite bool_decide_false, <- ?Hp by done.
    + apply (sched_enqueue_spec _ _ _ _ t); try done. unfold enqueue_asserts. by rewrite Hm.
    + apply (sched_append_spec _ _ _ _ t); try done. unfold append_asserts. by rewrite Hm.
    + exists s. split; [auto|]. auto using sched_frame_refl.
  - assert (Hin : op_thread o ∈ Q (tcbPriority t)) by by rewrite Hmem.
    destruct o as [a|a|a]; cbn [op_thread run_op] in *; rewrite bool_decide_true, <- ?Hp by done;
      try (exists s; split; [by apply Hno1|auto using sched_frame_refl]).
    destruct (sched_dequeue_spec _ _ _ _ _ Hok Ht Hq) as (s' & l1 & l2 & E & Hrun & Hf & Hok').
    exists s'. split_and!; try done. rewrite E in *. by rewrite filter_middle.
Qed.

Lemma run_ops_spec prio ops : forall s Q, kernel_mcs = false -> ready_ok s Q [] ->
  Forall (fun o => known s prio (op_thread o)) ops ->
  exists s', run_ops ops s = Ok (tt, s') /\ sched_frame s s' /\ ready_ok s' (foldl (abs_op prio) Q ops) [].
Proof.
  induction ops as [|o ops IH]; intros s Q Hm Hok Hk.
  - exists s. split; [done|]. auto using sched_frame_refl.
  - apply Forall_cons in Hk as [Ho Hk]. destruct (run_op_spec s Q prio o Hm Hok Ho) as (s1 & Hrun & Hf & Hok1).
    destruct (IH s1 (abs_op prio Q o) Hm Hok1) as (s2 & Hrun2 & Hf2 & Hok2).
    { eapply Forall_impl; [exact Hk|]. intros o' Ho'. by eapply known_frame. }
    exists s2. cbn. rewrite (bind_ok _ _ _ _ _ Hrun). eauto using sched_frame_trans.
Qed.
End refinement.

(** C13. Without MCS, where the release queue is empty, the ready queues
    implement an abstract priority queue: any sequence of enqueue, append and
    dequeue requests succeeds, leaves everything but the queues, their bitmap
    and the queue fields of the threads alone, and has on the linked queues
    the effect that the abstract operations have on lists ([sched_enqueue] puts
    a thread in front of the queue of its priority, [sched_append] behind it,
    both ignore a thread already queued, and [sched_dequeue] takes it out
    wherever it is). *)
Theorem ready_queues_refine `{Config} prio ops s Q :
  kernel_mcs = false -> ready_ok s Q [] -> Forall (fun o => known s prio (op_thread o)) ops ->
  exists s', run_ops ops s = Ok (tt, s') /\ sched_frame s s' /\
    ready_ok s' (foldl (abs_op prio) Q ops) [].
Proof. apply run_ops_spec. Qed.

(** C34. Whatever the kernel's configuration, dequeueing a queued thread takes
    exactly that thread out of the queue of its priority, and the bitmap marks
    the priority afterwards if and only if a thread is left. *)
Theorem sched_dequeue_correct s Q rel self t :
  ready_ok s Q rel -> tcbs s !! self = Some t -> tcbQueued (tcbState t) <> 0 ->
  exists s' l1 l2, Q (tcbPriority t) = l1 ++ self :: l2 /\ sched_dequeue self s = Ok (tt, s') /\
    sched_frame s s' /\ ready_ok s' (upd Q (tcbPriority t) (l1 ++ l2)) rel.
Proof. apply sched_dequeue_spec. Qed.

(** ** Witnesses *)

Module ReadyExample.
Import QueueExample.
(** Three threads in no queue. *)
Definition state : kstate :=
  mk_kstate (<[1024 := thread 9 0 0 0 0]> (<[2048 := thread 7 0 0 0 0]> (<[3072 := thread 9 0 0 0 0]> ∅)))
    ∅ ∅ ∅ ∅ ∅ ∅ (mk_vspace [] ∅ ∅ ∅ 0)
    (replicate 256 (mk_tcb_queue 0 0)) [0] [[0; 0; 0; 0]] 1024 0 0 (mk_tcb_queue 0 0)
    0 0 0 0 false 0 0 0 0 seL4_Fault_NullFault invalid_root
    (mk_syscall_error 0 0 0 0 0 0 0) [] 0 0
    (mk_irq_state [] 0 0 ∅ 0 0).
Definition prio (a : Z) : Z := if a =? 2048 then 7 else 9.
Definition requests : list ready_op := [Enqueue 1024; Append 3072; Append 2048; Enqueue 1024; Dequeue 1024].

Lemma state_thread a t : tcbs state !! a = Some t ->
  exists p, t = thread p 0 0 0 0 /\ p = prio a /\ a ∈ [1024; 2048; 3072].
Proof.
  cbn. rewrite !lookup_insert_Some, lookup_empty. unfold prio. set_unfold.
  destruct (Z.eqb_spec a 2048); naive_solver.
Qed.

Lemma ready_state_ok : ready_ok state (fun _ => []) [].
Proof.
  apply no_thread_queued; try done. intros a t Ha. destruct (state_thread _ _ Ha) as (p & -> & -> & _).
  cbn. unfold prio. split; [done|]. by destruct (a =? 2048).
Qed.

Lemma known_ok : Forall (fun o => known state prio (op_thread o)) requests.
Proof. repeat constructor; by eexists. Qed.

(** Thread 3072 is queued behind thread 1024. *)
Definition queued_state : kstate :=
  match @run_ops riscv_config [Enqueue 1024; Append 3072] state with Ok (_, s) => s | Err _ => state end.

Lemma queued_ok : ready_ok queued_state (upd (upd (fun _ => []) 9 [1024]) 9 [1024; 3072]) [].
Proof.
  destruct (@run_ops_spec riscv_config prio [Enqueue 1024; Append 3072] state (fun _ => [])) as (s & Hrun & _ & Hok);
    [done|apply ready_state_ok|repeat constructor; by eexists|].
  unfold queued_state. by rewrite Hrun.
Qed.
End ReadyExample.

Lemma ready_queues_refine_witness : exists s',
  @run_ops riscv_config ReadyExample.requests ReadyExample.state = Ok (tt, s') /\
  ready_ok s' (foldl (abs_op ReadyExample.prio) (fun _ => []) ReadyExample.requests) [] /\
  foldl (abs_op ReadyExample.prio) (fun _ => []) ReadyExample.requests 9 = [3072].
Proof.
  destruct (@ready_queues_refine riscv_config ReadyExample.prio ReadyExample.requests ReadyExample.state
              (fun _ => [])) as (s' & H1 & _ & H2);
    [reflexivity|exact ReadyExample.ready_state_ok|exact ReadyExample.known_ok|].
  exists s'. split; [exact H1|]. split; [exact H2|reflexivity].
Defined.

Lemma sched_dequeue_correct_witness : exists s' l1 l2,
  [1024; 3072] = l1 ++ 3072 :: l2 /\
  sched_dequeue 3072 ReadyExample.queued_state = Ok (tt, s').
Proof.
  destruct (tcbs ReadyExample.queued_state !! 3072) as [t|] eqn:E; [|vm_compute in E; discriminate].
  destruct (sched_dequeue_correct _ _ _ 3072 t ReadyExample.queued_ok E)
    as (s' & l1 & l2 & H1 & H2 & _); vm_compute in E; injection E as <-; [discriminate|].
  exists s', l1, l2. split; [exact H1|exact H2].
Defined.
