(* ===== verification/Tcb.v ===== *)
(** * Thread control blocks: registers, message registers, the thread's slots
    (sel4_task/src/tcb.rs, sel4_common/src/arch, sel4_common/src/message_info.rs)

    The saved user registers of a thread, the message registers and the IPC
    buffer that carry a message, the five capability slots that precede a
    TCB, and the fault messages. *)

From S2P Require Import Prelude Monad Config Objects State CapOps CSpace VSpace Refill TcbQueue Sched.

(** ** Registers *)

Inductive ArchReg : Type :=
| TlsBase | Cap | Badge | MsgInfo | FaultIP | NextIP
| Msg (i : Z)
| Frame (i : Z)
| GP (i : Z)
| FaultMessage (id index : Z)
| Reply
| nbsRecvDest.

(** ** The message information word *)

Definition get_length (w : Z) : Z := Z.land w 0x7f.
Definition get_extraCaps (w : Z) : Z := Z.land (w >>w 7) 0x3.
Definition get_capsUnwrapped (w : Z) : Z := Z.land (w >>w 9) 0x7.
Definition get_label (w : Z) : Z := w >>w 12.

Definition messageInfo_new (label capsUnwrapped extraCaps length : Z) : Z :=
  Z.lor (Z.lor (Z.lor (label <<w 12) (Z.land capsUnwrapped 0x7 <<w 9)) (Z.land extraCaps 0x3 <<w 7))
    (Z.land length 0x7f).

Definition set_length (w v : Z) : Z := Z.lor (Z.land w (wnot 0x7f)) (Z.land v 0x7f).

Definition from_word_security (w : Z) : Z :=
  if SEL4_MSG_MAX_LENGTH <? get_length w then set_length w SEL4_MSG_MAX_LENGTH else w.

(** fault.rs and sel4_config.rs *)
Definition VM_FAULT_IP : Z := 0.
Definition VM_FAULT_ADDR : Z := 1.
Definition VM_FAULT_PREFETCH_FAULT : Z := 2.
Definition VM_FAULT_FSR : Z := 3.
Definition CAP_FAULT_IP : Z := 0.
Definition CAP_FAULT_ADDR : Z := 1.
Definition CAP_FAULT_IN_RECV_PHASE : Z := 2.
Definition CAP_FAULT_LOOKUP_FAILURE_TYPE : Z := 3.
Definition CAP_FAULT_BITS_LEFT : Z := 4.
Definition CAP_FAULT_DEPTH_MISMATCH_BITS_FOUND : Z := 5.
Definition CAP_FAULT_GUARD_MISMATCH_GUARD_FOUND : Z := 5.
Definition CAP_FAULT_GUARD_MISMATCH_BITS_FOUND : Z := 6.
Definition MESSAGE_ID_SYSCALL : Z := 0.
Definition MESSAGE_ID_EXCEPTION : Z := 1.
Definition MESSAGE_ID_TIMEOUT_REPLY : Z := 2.

Record lookupSlot_raw_ret_t := mk_lookupSlot_raw_ret { ls_status : exception_t; ls_slot : Z }.

Section tcb.
Context `{Config}.

Definition N_SYSCALL_MESSAGE : Z := match target_arch with RISCV64 => 10 | AARCH64 => 12 end.
Definition N_EXCEPTON_MESSAGE : Z := match target_arch with RISCV64 => 2 | AARCH64 => 3 end.
Definition N_TIMEOUT_MESSAGE : Z := match target_arch with RISCV64 => 32 | AARCH64 => 34 end.
Definition MAX_MSG_SIZE : Z := if kernel_mcs then N_TIMEOUT_MESSAGE else N_SYSCALL_MESSAGE.

Definition MSG_REGISTER : list Z :=
  match target_arch with RISCV64 => [11; 12; 13; 14] | AARCH64 => [2; 3; 4; 5] end.
Definition FRAME_REGISTERS : list Z :=
  match target_arch with
  | RISCV64 => [33; 0; 1; 2; 7; 8; 17; 18; 19; 20; 21; 22; 23; 24; 25; 26]
  | AARCH64 => [34; 31; 33; 0; 1; 2; 3; 4; 5; 6; 7; 8; 16; 17; 18; 29; 30]
  end.
Definition GP_REGISTERS : list Z :=
  match target_arch with
  | RISCV64 => [9; 10; 11; 12; 13; 14; 15; 16; 4; 5; 6; 27; 28; 29; 30; 3]
  | AARCH64 => [9; 10; 11; 12; 13; 14; 15; 19; 20; 21; 22; 23; 24; 25; 26; 27; 28; 35; 36]
  end.

(** The rows are padded with zeros to [MAX_MSG_SIZE]. *)
Definition pad_row (l : list Z) : list Z :=
  l ++ replicate (Z.to_nat MAX_MSG_SIZE - length l) 0.
Definition FAULT_MESSAGES : list (list Z) :=
  let rows :=
    match target_arch with
    | RISCV64 => [[33; 1; 0; 9; 10; 11; 12; 13; 14; 15]; [33; 1]]
    | AARCH64 => [[0; 1; 2; 3; 4; 5; 6; 7; 34; 31; 32; 33]; [34; 31; 33]]
    end in
  let timeout :=
    match target_arch with
    | RISCV64 => [33; 0; 1; 2; 7; 8; 17; 18; 19; 20; 21; 22; 23; 24; 25; 26; 9; 10; 11; 12; 13;
                  14; 15; 16; 4; 5; 6; 27; 28; 29; 30; 3]
    | AARCH64 => [34; 31; 33; 0; 1; 2; 3; 4; 5; 6; 7; 8; 16; 17; 18; 29; 30; 9; 10; 11; 12; 13;
                  14; 15; 19; 20; 21; 22; 23; 24; 25; 26; 27; 28]
    end in
  map pad_row (if kernel_mcs then rows ++ [timeout] else rows).

Definition to_index (reg : ArchReg) : res Z :=
  let rv := is_riscv in
  match reg with
  | TlsBase => Ok (if rv then 3 else 35)
  | Cap => Ok (if rv then 9 else 0)
  | Badge => Ok (if rv then 9 else 0)
  | MsgInfo => Ok (if rv then 10 else 1)
  | FaultIP => Ok (if rv then 33 else 34)
  | NextIP => Ok (if rv then 34 else 32)
  | Msg i => array_get MSG_REGISTER i
  | Frame i => array_get FRAME_REGISTERS i
  | GP i => array_get GP_REGISTERS i
  | FaultMessage id index =>
      match array_get FAULT_MESSAGES id with Ok row => array_get row index | Err e => Err e end
  | Reply => Ok (if rv then 15 else 6)
  | nbsRecvDest => Ok (if rv then 4 else 8)
  end.

Definition get_register (self : Z) (reg : ArchReg) : K Z :=
  let* t := get_tcb self in
  let* i := lift_res (to_index reg) in
  lift_res (array_get (registers (tcbArch t)) i).

Definition set_registers (l : list Z) (t : tcb_t) : tcb_t := t <| tcbArch := mk_ArchTCB l |>.

Definition set_register (self : Z) (reg : ArchReg) (w : Z) : K unit :=
  let* t := get_tcb self in
  let* i := lift_res (to_index reg) in
  let* l := lift_res (array_set (registers (tcbArch t)) i w) in
  mod_tcb self (set_registers l).

(** ** The slots in front of a TCB *)

Definition get_cspace (self i : Z) : Z :=
  Z.land self (wnot (mask_bits SEL4_TCB_BITS)) +w (cte_size *w i).

Definition tcb_cap (self i : Z) : K cap :=
  let* c := get_cte (get_cspace self i) in ret (capability c).

Definition lookup_slot (self cap_ptr : Z) : K lookupSlot_raw_ret_t :=
  let* thread_root := tcb_cap self TCB_CTABLE in
  let* res_ret := on_ctes (resolve_address_bits thread_root cap_ptr WORD_BITS) in
  ret (mk_lookupSlot_raw_ret (ra_status res_ret) (ra_slot res_ret)).

Definition setup_reply_master (self : Z) : K unit :=
  let slot := get_cspace self TCB_REPLY in
  let* c := get_cte slot in
  when (is_null_cap (capability c))
    (mod_cte slot (fun e => e <| capability := cap_reply_cap (mk_reply_cap 0 self 1 1) |>
                              <| cteMDBNode := mk_mdb_node 0 1 1 0 |>)).

Definition tcb_set_vm_root (self : Z) : K vresult :=
  let* thread_root := tcb_cap self TCB_VTABLE in
  on_vspace (set_vm_root thread_root).

Definition set_current_thread (thread : Z) : K unit :=
  modify (fun s => s <| ksCurThread := thread |>).

Definition switch_to_this (self : Z) : K unit :=
  let* _ := tcb_set_vm_root self in
  sched_dequeue self ;;;
  set_current_thread self.

Definition valid_timeout_handler (self : Z) : K bool :=
  let* c := tcb_cap self TCB_TIMEOUT_HANDLER in
  ret (match c with cap_endpoint_cap _ => true | _ => false end).

Definition setup_caller_cap (self sender : Z) (can_grant : bool) : K unit :=
  set_thread_state sender ThreadStateBlockedOnReply ;;;
  let reply_slot := get_cspace sender TCB_REPLY in
  let* c := get_cte reply_slot in
  match capability c with
  | cap_reply_cap master =>
      kassert (capReplyMaster master =? 1) ;;;
      kassert (capReplyCanGrant master =? 1) ;;;
      kassert (capReplyTCBPtr master =? sender) ;;;
      let caller_slot := get_cspace self TCB_CALLER in
      let* cs := get_cte caller_slot in
      kassert (is_null_cap (capability cs)) ;;;
      on_ctes (cte_insert (cap_reply_cap (mk_reply_cap 0 sender 0 (bool_to_word can_grant)))
                 reply_slot caller_slot)
  | _ => fail EPanic
  end.

Definition delete_caller_cap `{CSpaceDeps} (self : Z) : K unit :=
  delete_one (get_cspace self TCB_CALLER).

(** ** The IPC buffer and message registers *)

(** [lookup_ipc_buffer]: the address of the buffer. *)
Definition lookup_ipc_buffer (self : Z) (is_receiver : bool) : K (option Z) :=
  let* t := get_tcb self in
  let* c := tcb_cap self TCB_BUFFER in
  match c with
  | cap_frame_cap buffer_cap =>
      if negb (capFIsDevice buffer_cap =? 0) then ret None else
      if (capFVMRights buffer_cap =? VMReadWrite)
         || (negb is_receiver && (capFVMRights buffer_cap =? VMReadOnly)) then
        let* page_bits := lift_res (pageBitsForSize (capFSize buffer_cap)) in
        ret (Some (capFBasePtr buffer_cap +w Z.land (tcbIPCBuffer t) (mask_bits page_bits)))
      else ret None
  | _ => ret None
  end.

(** [lookup_mut_ipc_buffer] has no test for device frames. *)
Definition lookup_mut_ipc_buffer (self : Z) (is_receiver : bool) : K (option Z) :=
  let* t := get_tcb self in
  let* c := tcb_cap self TCB_BUFFER in
  match c with
  | cap_frame_cap buffer_cap =>
      if (capFVMRights buffer_cap =? VMReadWrite)
         || (negb is_receiver && (capFVMRights buffer_cap =? VMReadOnly)) then
        let* page_bits := lift_res (pageBitsForSize (capFSize buffer_cap)) in
        ret (Some (capFBasePtr buffer_cap +w Z.land (tcbIPCBuffer t) (mask_bits page_bits)))
      else ret None
  | _ => ret None
  end.

Definition buffer_get_msg (buf i : Z) : K Z :=
  let* b := get_buffer buf in lift_res (array_get (msg b) i).
Definition buffer_set_msg (buf i v : Z) : K unit :=
  let* b := get_buffer buf in
  let* l := lift_res (array_set (msg b) i v) in
  mod_buffer buf (fun b => b <| msg := l |>).

Definition set_mr (self offset reg : Z) : K Z :=
  if MSG_REGISTER_NUM <=? offset then
    let* buf := lookup_mut_ipc_buffer self true in
    match buf with
    | Some ipc_buffer => buffer_set_msg ipc_buffer offset reg ;;; ret (offset +w 1)
    | None => ret MSG_REGISTER_NUM
    end
  else set_register self (Msg offset) reg ;;; ret (offset +w 1).

Definition set_lookup_fault_mrs (self offset : Z) (fault : lookup_fault) : K Z :=
  let luf_type := lookup_fault_tag fault in
  let* i := set_mr self offset (luf_type +w 1) in
  (if offset =? CAP_FAULT_LOOKUP_FAILURE_TYPE then
     kassert (offset +w 1 =? CAP_FAULT_BITS_LEFT) ;;;
     kassert (offset +w 2 =? CAP_FAULT_DEPTH_MISMATCH_BITS_FOUND) ;;;
     kassert (offset +w 2 =? CAP_FAULT_GUARD_MISMATCH_GUARD_FOUND) ;;;
     kassert (offset +w 3 =? CAP_FAULT_GUARD_MISMATCH_BITS_FOUND)
   else kassert (offset =? 1)) ;;;
  match fault with
  | invalid_root => ret i
  | missing_capability bitsLeft => set_mr self (offset +w 1) bitsLeft
  | depth_mismatch bitsFound bitsLeft =>
      let* _ := set_mr self (offset +w 1) bitsLeft in
      set_mr self (offset +w 2) bitsFound
  | guard_mismatch guardFound bitsLeft bitsFound =>
      let* _ := set_mr self (offset +w 1) bitsLeft in
      let* _ := set_mr self (offset +w 2) guardFound in
      set_mr self (offset +w 3) bitsFound
  end.

Definition get_receive_slot (self : Z) : K (option Z) :=
  let* buf := lookup_ipc_buffer self true in
  match buf with
  | Some buffer =>
      let* b := get_buffer buffer in
      let* lu_ret := lookup_slot self (receiveCNode b) in
      if negb (exc_ok (ls_status lu_ret)) then ret None else
      let* c := get_cte (ls_slot lu_ret) in
      let* lus_ret := on_ctes (resolve_address_bits (capability c) (receiveIndex b) (receiveDepth b)) in
      if negb (exc_ok (ra_status lus_ret)) || negb (ra_bitsRemaining lus_ret =? 0) then ret None
      else ret (Some (ra_slot lus_ret))
  | None => ret None
  end.

(** ** Copying messages *)

(** [for i in a..b]. *)
Definition for_between (a b : Z) (body : Z -> K unit) : K unit :=
  for_range (Z.to_nat (b - a)) a body.

(** The first loop of [copy_mrs] runs to [min length MSG_REGISTER_NUM]; the
    second copies word [i + 1] of one buffer to the other, which is [msg[i]]
    for the lengths the callers pass, at most [SEL4_MSG_MAX_LENGTH]. *)
Definition copy_mrs (self receiver length : Z) : K Z :=
  let n := Z.min length MSG_REGISTER_NUM in
  for_between 0 n (fun i => let* w := get_register self (Msg i) in set_register receiver (Msg i) w) ;;;
  let* send_buffer := lookup_ipc_buffer self false in
  let* recv_buffer := lookup_mut_ipc_buffer receiver true in
  match send_buffer, recv_buffer with
  | Some sb, Some rb =>
      for_between n length (fun i => let* w := buffer_get_msg sb i in buffer_set_msg rb i w) ;;;
      ret length
  | _, _ => ret n
  end.

Definition copy_fault_mrs (self receiver id length : Z) : K unit :=
  let len := Z.min length MSG_REGISTER_NUM in
  for_between 0 len (fun i =>
    let* w := get_register self (FaultMessage id i) in set_register receiver (Msg i) w) ;;;
  let* buf := lookup_mut_ipc_buffer receiver true in
  match buf with
  | Some buffer =>
      for_between len length (fun i =>
        let* w := get_register self (FaultMessage id i) in buffer_set_msg buffer i w)
  | None => ret tt
  end.

Definition copy_fault_mrs_for_reply (self receiver id length : Z) : K unit :=
  let len := Z.min length MSG_REGISTER_NUM in
  for_between 0 len (fun i =>
    let* w := get_register self (Msg i) in set_register receiver (FaultMessage id i) w) ;;;
  let* buf := lookup_ipc_buffer self false in
  match buf with
  | Some buffer =>
      for_between len length (fun i =>
        let* w := buffer_get_msg buffer i in set_register receiver (FaultMessage id i) w)
  | None => ret tt
  end.

Definition copy_syscall_fault_mrs (self receiver : Z) : K unit :=
  copy_fault_mrs self receiver MESSAGE_ID_SYSCALL N_SYSCALL_MESSAGE.
Definition copy_exeception_fault_mrs (self receiver : Z) : K unit :=
  copy_fault_mrs self receiver MESSAGE_ID_EXCEPTION N_EXCEPTON_MESSAGE.

Definition set_fault_mrs (self receiver : Z) : K Z :=
  let* t := get_tcb self in
  match tcbFault t with
  | seL4_Fault_CapFault address inReceivePhase =>
      let* ip := get_register self FaultIP in
      let* _ := set_mr receiver CAP_FAULT_IP ip in
      let* _ := set_mr receiver CAP_FAULT_ADDR address in
      let* _ := set_mr receiver CAP_FAULT_IN_RECV_PHASE inReceivePhase in
      set_lookup_fault_mrs receiver CAP_FAULT_LOOKUP_FAILURE_TYPE (tcbLookupFailure t)
  | seL4_Fault_UnknownSyscall syscallNumber =>
      copy_syscall_fault_mrs self receiver ;;;
      set_mr receiver N_SYSCALL_MESSAGE syscallNumber
  | seL4_Fault_UserException number code =>
      copy_exeception_fault_mrs self receiver ;;;
      let* _ := set_mr receiver N_EXCEPTON_MESSAGE number in
      set_mr receiver (N_EXCEPTON_MESSAGE +w 1) code
  | seL4_Fault_VMFault address FSR instructionFault =>
      let* ip := get_register self FaultIP in
      let* _ := set_mr receiver VM_FAULT_IP ip in
      let* _ := set_mr receiver VM_FAULT_ADDR address in
      let* _ := set_mr receiver VM_FAULT_PREFETCH_FAULT instructionFault in
      set_mr receiver VM_FAULT_FSR FSR
  | _ => fail EPanic
  end.

(** ** Extra capabilities of a message *)

(** The loop of [lookup_extra_caps]: [inl] is the failing lookup with its
    capability pointer and what was stored before it. *)
Fixpoint extra_caps_loop (n : nat) (self buffer i : Z) (res : list Z)
    : K ((exception_t * Z * list Z) + list Z) :=
  match n with
  | O => ret (inr res)
  | S n =>
      let* b := get_buffer buffer in
      let* cptr := lift_res (array_get (caps_or_badges b) i) in
      let* lu_ret := lookup_slot self cptr in
      if negb (exc_ok (ls_status lu_ret)) then ret (inl (ls_status lu_ret, cptr, res)) else
      let* res' := lift_res (array_set res i (ls_slot lu_ret)) in
      extra_caps_loop n self buffer (i + 1) res'
  end.

(** The array [res] is an argument and part of the result. *)
Definition lookup_extra_caps (self : Z) (res : list Z) : K (exception_t * list Z) :=
  let* w := get_register self MsgInfo in
  let info := from_word_security w in
  let* buf := lookup_ipc_buffer self false in
  match buf with
  | Some buffer =>
      let length := get_extraCaps info in
      let* r := extra_caps_loop (Z.to_nat length) self buffer 0 res in
      match r with
      | inl (status, cptr, res) =>
          modify (fun s => s <| current_fault := seL4_Fault_CapFault cptr 0 |>) ;;;
          ret (status, res)
      | inr res =>
          let* res := (if length <? SEL4_MSG_MAX_EXTRA_CAPS
                       then lift_res (array_set res length 0) else ret res) in
          ret (EXCEPTION_NONE, res)
      end
  | None => let* res := lift_res (array_set res 0 0) in ret (EXCEPTION_NONE, res)
  end.

Definition lookup_extra_caps_with_buf (self : Z) (res : list Z) (buf : option Z)
    : K (option seL4_Fault * list Z) :=
  let* w := get_register self MsgInfo in
  let info := from_word_security w in
  match buf with
  | Some buffer =>
      let length := get_extraCaps info in
      let* r := extra_caps_loop (Z.to_nat length) self buffer 0 res in
      match r with
      | inl (_, cptr, res) => ret (Some (seL4_Fault_CapFault cptr 0), res)
      | inr res =>
          let* res := (if length <? SEL4_MSG_MAX_EXTRA_CAPS
                       then lift_res (array_set res length 0) else ret res) in
          ret (None, res)
      end
  | None => ret (None, res)
  end.
End tcb.
