(* ===== verification/SchedCtx.v ===== *)
(** * Scheduling contexts and reply objects
    (sel4_task/src/sched_context.rs, reply.rs, the MCS part of tcb.rs)

    A scheduling context is bound to at most one thread; a call donates it to
    the callee, and a reply object remembers the caller.  The reply objects of
    nested calls form a stack whose top is the [scReply] of the donated
    context: [replyNext] of the top points to the context (with [isHead] set),
    and [replyPrev] to the reply below. *)

From S2P Require Import Prelude Monad Config Objects State CapOps CSpace VSpace Refill TcbQueue Sched Tcb.

Definition call_stack_zero : call_stack := mk_call_stack 0 0.

Section sc.
Context `{Config}.

Definition set_replyObject (v : Z) (t : tcb_t) : tcb_t :=
  set_tcb_state (fun st => st <| replyObject := v |>) t.
Definition set_tcbSchedContext (v : Z) (t : tcb_t) : tcb_t := t <| tcbSchedContext := v |>.
Definition set_scTcb (v : Z) (sc : sched_context) : sched_context := sc <| scTcb := v |>.
Definition set_scReply (v : Z) (sc : sched_context) : sched_context := sc <| scReply := v |>.

(** ** Scheduling contexts *)

Definition postpone (self : Z) : K unit :=
  let* sc := get_sc self in
  sched_dequeue (scTcb sc) ;;;
  release_enqueue (scTcb sc) ;;;
  set_reprogram.

(** [refill_unblock_check] of the context at [self], at the current time. *)
Definition sc_refill_unblock_check (self : Z) : K unit :=
  let* now := gets ksCurTime in
  let* reprogram := on_sc self (refill_unblock_check now) in
  when reprogram set_reprogram.

Definition sc_refill_ready (self : Z) : K bool :=
  let* now := gets ksCurTime in on_sc self (refill_ready now).

Definition sched_context_resume (self : Z) : K unit :=
  let* sc := get_sc self in
  kassert (negb (scTcb sc =? 0)) ;;;
  let* b := is_schedulable (scTcb sc) in
  when b
    (let* ready := sc_refill_ready self in
     let* sufficient := (if ready then on_sc self (refill_sufficient 0) else ret false) in
     when (negb sufficient)
       (let* t := get_tcb (scTcb sc) in
        kassert (tcbQueued (tcbState t) =? 0) ;;;
        postpone self)).

Definition sc_is_current (self : Z) : K bool :=
  let* cur := gets ksCurSC in ret (self =? cur).

Definition sched_context_bind_tcb (self tcb : Z) : K unit :=
  let* sc := get_sc self in
  kassert (scTcb sc =? 0) ;;;
  let* t := get_tcb tcb in
  kassert (tcbSchedContext t =? 0) ;;;
  mod_tcb tcb (set_tcbSchedContext self) ;;;
  mod_sc self (set_scTcb tcb) ;;;
  let* current := sc_is_current self in
  when (sc_sporadic sc && sc_active sc && negb current) (sc_refill_unblock_check self) ;;;
  sched_context_resume self ;;;
  let* b := is_schedulable tcb in
  when b (sched_enqueue tcb ;;; reschedule_required).

Definition sched_context_unbind_tcb (self tcb : Z) : K unit :=
  let* sc := get_sc self in
  kassert (scTcb sc =? tcb) ;;;
  let* current := is_current tcb in
  when current reschedule_required ;;;
  sched_dequeue (scTcb sc) ;;;
  release_remove (scTcb sc) ;;;
  mod_tcb (scTcb sc) (set_tcbSchedContext 0) ;;;
  mod_sc self (set_scTcb 0).

Definition sched_context_unbind_all_tcbs (self : Z) : K unit :=
  let* sc := get_sc self in
  when (negb (scTcb sc =? 0)) (sched_context_unbind_tcb self (scTcb sc)).

Definition sched_context_donate (self to : Z) : K unit :=
  kassert (negb (self =? 0)) ;;;
  kassert (negb (to =? 0)) ;;;
  let* t := get_tcb to in
  kassert (tcbSchedContext t =? 0) ;;;
  let* sc := get_sc self in
  let from := scTcb sc in
  when (negb (from =? 0))
    (sched_dequeue from ;;;
     release_remove from ;;;
     mod_tcb from (set_tcbSchedContext 0) ;;;
     let* current := is_current from in
     let* action := gets ksSchedulerAction in
     when (current || (from =? action)) reschedule_required) ;;;
  mod_sc self (set_scTcb to) ;;;
  mod_tcb to (set_tcbSchedContext self).

Definition sched_context_bind_ntfn (self ntfn : Z) : K unit :=
  mod_ntfn ntfn (fun n => n <| ntfnSchedContext := self |>) ;;;
  mod_sc self (fun sc => sc <| scNotification := ntfn |>).

Definition sched_context_unbind_ntfn (self : Z) : K unit :=
  let* sc := get_sc self in
  when (negb (scNotification sc =? 0))
    (mod_ntfn (scNotification sc) (fun n => n <| ntfnSchedContext := 0 |>) ;;;
     mod_sc self (fun sc => sc <| scNotification := 0 |>)).

Definition set_consumed (self : Z) : K unit :=
  let* consumed := on_sc self sched_context_update_consumed in
  let* cur := gets ksCurThread in
  let* length := set_mr cur 0 consumed in
  set_register cur MsgInfo (messageInfo_new 0 0 0 length).

Definition sched_context_cancel_yield_to (self : Z) : K unit :=
  let* t := get_tcb self in
  when (negb (tcbYieldTo t =? 0))
    (mod_sc (tcbYieldTo t) (fun sc => sc <| scYieldFrom := 0 |>) ;;;
     mod_tcb self (fun t => t <| tcbYieldTo := 0 |>)).

Definition schedContext_completeYieldTo (self : Z) : K unit :=
  let* t := get_tcb self in
  when (negb (tcbYieldTo t =? 0))
    (set_consumed (tcbYieldTo t) ;;; sched_context_cancel_yield_to self).

(** ** Reply objects *)

Definition reply_unlink (self tcb : Z) : K unit :=
  let* r := get_reply self in
  kassert (replyTCB r =? tcb) ;;;
  let* t := get_tcb tcb in
  kassert (replyObject (tcbState t) =? self) ;;;
  mod_tcb tcb (set_replyObject 0) ;;;
  mod_reply self (fun r => r <| replyTCB := 0 |>) ;;;
  set_thread_state tcb ThreadStateInactive.

(** Clear the links of [self] in the stack, then unlink it from its thread. *)
Definition reply_clear (self tcb : Z) : K unit :=
  mod_reply self (fun r => r <| replyPrev := call_stack_zero |>) ;;;
  mod_reply self (fun r => r <| replyNext := call_stack_zero |>) ;;;
  reply_unlink self tcb.

Definition reply_push (self caller callee : Z) (canDonate : bool) : K unit :=
  kassert (negb (caller =? 0)) ;;;
  kassert (negb (self =? 0)) ;;;
  let* r := get_reply self in
  kassert (replyTCB r =? 0) ;;;
  kassert (callStackPtr (replyPrev r) =? 0) ;;;
  kassert (callStackPtr (replyNext r) =? 0) ;;;
  let* t := get_tcb caller in
  kassert (replyObject (tcbState t) =? 0) ;;;
  mod_tcb callee (set_replyObject 0) ;;;
  mod_reply self (fun r => r <| replyTCB := caller |>) ;;;
  mod_tcb caller (set_replyObject self) ;;;
  set_thread_state caller ThreadStateBlockedOnReply ;;;
  let* t := get_tcb caller in
  let* e := get_tcb callee in
  when (negb (tcbSchedContext t =? 0) && (tcbSchedContext e =? 0) && canDonate)
    (let sc_donated := tcbSchedContext t in
     let* sc := get_sc sc_donated in
     (if scReply sc =? 0 then ret tt else
        let* top := get_reply (scReply sc) in
        kassert (callStackPtr (replyNext top) =? sc_donated)) ;;;
     mod_reply self (fun r => r <| replyPrev := mk_call_stack 0 (scReply sc) |>) ;;;
     when (negb (scReply sc =? 0))
       (mod_reply (scReply sc) (fun r => r <| replyNext := mk_call_stack 0 self |>)) ;;;
     mod_reply self (fun r => r <| replyNext := mk_call_stack 1 sc_donated |>) ;;;
     mod_sc sc_donated (set_scReply self) ;;;
     sched_context_donate sc_donated callee).

Definition reply_pop (self tcb : Z) : K unit :=
  kassert (negb (self =? 0)) ;;;
  let* r := get_reply self in
  kassert (replyTCB r =? tcb) ;;;
  let* t := get_tcb tcb in
  kassert (bool_decide (get_state t = ThreadStateBlockedOnReply)) ;;;
  kassert (replyObject (tcbState t) =? self) ;;;
  let next_ptr := callStackPtr (replyNext r) in
  let prev_ptr := callStackPtr (replyPrev r) in
  when (negb (next_ptr =? 0))
    (kassert (negb (isHead (replyNext r) =? 0)) ;;;
     mod_sc next_ptr (set_scReply prev_ptr) ;;;
     when (negb (prev_ptr =? 0))
       (mod_reply prev_ptr (fun p => p <| replyNext := replyNext r |>) ;;;
        let* p := get_reply prev_ptr in
        kassert (negb (isHead (replyNext p) =? 0))) ;;;
     when (tcbSchedContext t =? 0) (sched_context_donate next_ptr tcb)) ;;;
  reply_clear self tcb.

(** What [remove] and [reply_remove_tcb] do with the neighbours of a reply that
    is not the top of its stack: the chain is broken on both sides. *)
Definition break_prev (prev_ptr : Z) : K unit :=
  when (negb (prev_ptr =? 0)) (mod_reply prev_ptr (fun p => p <| replyNext := call_stack_zero |>)).

Definition reply_remove (self tcb : Z) : K unit :=
  let* r := get_reply self in
  kassert (replyTCB r =? tcb) ;;;
  let* t := get_tcb tcb in
  kassert (bool_decide (get_state t = ThreadStateBlockedOnReply)) ;;;
  kassert (replyObject (tcbState t) =? self) ;;;
  let next_ptr := callStackPtr (replyNext r) in
  let prev_ptr := callStackPtr (replyPrev r) in
  if negb (next_ptr =? 0) && negb (isHead (replyNext r) =? 0) then reply_pop self tcb
  else
    when (negb (next_ptr =? 0))
      (mod_reply next_ptr (fun n => n <| replyPrev := call_stack_zero |>)) ;;;
    break_prev prev_ptr ;;;
    reply_clear self tcb.

Definition reply_remove_tcb (tcb : Z) : K unit :=
  let* t := get_tcb tcb in
  kassert (bool_decide (get_state t = ThreadStateBlockedOnReply)) ;;;
  let reply := replyObject (tcbState t) in
  let* r := get_reply reply in
  let next_ptr := callStackPtr (replyNext r) in
  let prev_ptr := callStackPtr (replyPrev r) in
  when (negb (next_ptr =? 0))
    (if negb (isHead (replyNext r) =? 0)
     then mod_sc next_ptr (set_scReply 0)
     else mod_reply next_ptr (fun n => n <| replyPrev := call_stack_zero |>)) ;;;
  break_prev prev_ptr ;;;
  reply_clear reply tcb.
End sc.
