(* ===== verification/Schedule.v ===== *)
(** * The scheduler (sel4_task/src/scheduler.rs, tcb.rs, kernel/src/syscall/mod.rs)

    [schedule] runs at the end of every kernel entry: with MCS it first wakes
    the threads whose budget is available again, then it follows
    [ksSchedulerAction], chooses the head of the highest non-empty ready queue
    or switches to the candidate, and with MCS it finally charges the time used
    and programs the next timer interrupt. *)

From S2P Require Import Prelude Monad Config Objects State CapOps CSpace VSpace Refill TcbQueue.
From S2P Require Import Sched Tcb SchedCtx.

Definition KS_DOM_SCHEDULE_LENGTH : Z := 1.
Record dschedule_t := mk_dschedule { ds_domain : Z; ds_length : Z }.
Definition ksDomSchedule : list dschedule_t := [mk_dschedule 0 60].

Section schedule.
Context `{Config}.

Definition set_ksSchedulerAction (v : Z) : K unit := modify (fun s => s <| ksSchedulerAction := v |>).
Definition set_ksConsumed (v : Z) : K unit := modify (fun s => s <| ksConsumed := v |>).

(** ** Choosing a thread *)

Definition next_domain : K unit :=
  let* idx := gets ksDomScheduleIdx in
  let idx := idx +w 1 in
  let idx := if KS_DOM_SCHEDULE_LENGTH <=? idx then 0 else idx in
  modify (fun s => s <| ksDomScheduleIdx := idx |>) ;;;
  when kernel_mcs set_reprogram ;;;
  modify (fun s => s <| ksWorkUnitsCompleted := 0 |>) ;;;
  let* d := lift_res (array_get ksDomSchedule idx) in
  modify (fun s => s <| ksCurDomain := ds_domain d |>) ;;;
  modify (fun s => s <| ksDomainTime :=
    if kernel_mcs then us_to_ticks (ds_length d *w US_IN_MS) else ds_length d |>).

Definition choose_thread : K unit :=
  let dom := 0 in
  let* ks_l1_bit := get_l1 dom in
  if negb (ks_l1_bit =? 0) then
    let* prio := get_highest_prio dom in
    let* q := get_sched_queue (ready_queues_index dom prio) in
    let thread := head q in
    kassert (negb (thread =? 0)) ;;;
    let* b := is_schedulable thread in
    kassert b ;;;
    when kernel_mcs (assert_sufficient thread ;;; assert_ready thread) ;;;
    switch_to_this thread
  else
    let* idle := gets ksIdleThread in
    match target_arch with
    | AARCH64 =>
        on_vspace set_empty_user_root ;;;
        set_current_thread idle
    | RISCV64 => switch_to_this idle
    end.

Definition schedule_choose_new_thread : K unit :=
  let* t := gets ksDomainTime in
  when (t =? 0) next_domain ;;;
  choose_thread.

(** ** The release queue *)

(** The head of the release queue and whether its budget is available. *)
Definition head_ready : K bool :=
  let* q := gets ksReleaseQueue in
  if head q =? 0 then ret false else
  let* t := get_tcb (head q) in
  sc_refill_ready (tcbSchedContext t).

(** Every turn takes a thread out of the queue; [awaken] has fuel for all. *)
Fixpoint awaken_loop (fuel : nat) : K unit :=
  match fuel with
  | O => fail EFuel
  | S n =>
      let* b := head_ready in
      if (b : bool) then
        let* awakened := tcb_release_dequeue in
        let* cur := gets ksCurThread in
        kassert (negb (awakened =? cur)) ;;;
        let* t := get_tcb awakened in
        let* sc := get_sc (tcbSchedContext t) in
        kassert (negb (is_round_robin sc)) ;;;
        assert_sufficient awakened ;;;
        possible_switch_to awakened ;;;
        awaken_loop n
      else ret tt
  end.

Definition awaken : K unit := fun s => awaken_loop (S (size (tcbs s))) s.

(** ** Time *)

Definition is_cur_domain_expired : K bool :=
  let* t := gets ksDomainTime in ret ((1 <? NUM_DOMAINS) && (t =? 0)).

Definition update_timestamp : K unit :=
  let* prev := gets ksCurTime in
  let* now := gets hw_time in
  modify (fun s => s <| ksCurTime := now |>) ;;;
  kassert (now <? max_release_time) ;;;
  let consumed := now -w prev in
  let* c := gets ksConsumed in
  set_ksConsumed (c +w consumed) ;;;
  when (1 <? NUM_DOMAINS)
    (let* t := gets ksDomainTime in
     modify (fun s => s <| ksDomainTime := if t <=? consumed +w min_budget then 0 else t -w consumed |>)).

Definition check_domain_time : K unit :=
  let* e := is_cur_domain_expired in
  when e (set_reprogram ;;; reschedule_required).

Definition endTimeslice `{TaskDeps} (can_timeout_fault : bool) : K unit :=
  let* thread := gets ksCurThread in
  let* scp := gets ksCurSC in
  let* sc := get_sc scp in
  let* timeout := (if can_timeout_fault && negb (is_round_robin sc)
                   then valid_timeout_handler thread else ret false) in
  if (timeout : bool) then
    modify (fun s => s <| current_fault := seL4_Fault_Timeout (scBadge sc) |>) ;;;
    handleTimeout thread
  else
    let* ready := sc_refill_ready scp in
    let* sufficient := (if (ready : bool) then on_sc scp (refill_sufficient 0) else ret false) in
    if (sufficient : bool) then
      let* b := on_sc scp (refill_sufficient 0) in
      kassert b ;;;
      let* t := get_tcb thread in
      kassert (tcbQueued (tcbState t) =? 0) ;;;
      sched_append thread
    else postpone scp.

(** The round-robin refill operations on the current context. *)
Definition rr_charge : R unit :=
  let* sc := gets id in
  kassert (refill_size sc =? MIN_REFILLS) ;;;
  let* tl := refill_tail in
  mod_head (fun r => r <| rAmount := rAmount r +w rAmount tl |>) ;;;
  mod_tail (fun r => r <| rAmount := 0 |>).

Definition rr_commit (consumed : Z) : R unit :=
  let* sc := gets id in
  kassert (refill_size sc =? MIN_REFILLS) ;;;
  mod_head (fun r => r <| rAmount := rAmount r -w consumed |>) ;;;
  mod_tail (fun r => r <| rAmount := rAmount r +w consumed |>).

Definition charge_budget `{TaskDeps} (consumed : Z) (canTimeoutFault : bool) : K unit :=
  let* scp := gets ksCurSC in
  let* idle := gets ksIdleSC in
  when (negb (scp =? idle))
    (let* sc := get_sc scp in
     (if is_round_robin sc then on_sc scp rr_charge
      else on_sc scp (refill_budget_check consumed)) ;;;
     let* hd := on_sc scp refill_head in
     kassert (min_budget <=? rAmount hd) ;;;
     mod_sc scp (fun sc => sc <| scConsumed := scConsumed sc +w consumed |>)) ;;;
  set_ksConsumed 0 ;;;
  let* thread := gets ksCurThread in
  let* b := is_schedulable thread in
  when b
    (let* t := get_tcb thread in
     let* cur_sc := gets ksCurSC in
     kassert (tcbSchedContext t =? cur_sc) ;;;
     endTimeslice canTimeoutFault ;;;
     reschedule_required ;;;
     set_reprogram).

Definition check_budget `{TaskDeps} : K bool :=
  let* scp := gets ksCurSC in
  let* ready := sc_refill_ready scp in
  kassert ready ;;;
  let* consumed := gets ksConsumed in
  let* sufficient := on_sc scp (refill_sufficient consumed) in
  if (sufficient : bool) then
    let* e := is_cur_domain_expired in ret (negb e)
  else charge_budget consumed true ;;; ret false.

Definition check_budget_restart `{TaskDeps} : K bool :=
  let* cur := gets ksCurThread in
  let* t := get_tcb cur in
  kassert (is_runnable t) ;;;
  let* result := check_budget in
  let* cur := gets ksCurThread in
  let* t := get_tcb cur in
  when (negb result && is_runnable t) (set_thread_state cur ThreadStateRestart) ;;;
  ret result.

Definition mcs_preemption_point `{TaskDeps} : K unit :=
  when kernel_mcs
    (let* cur := gets ksCurThread in
     let* b := is_schedulable cur in
     if (b : bool) then let* _ := check_budget in ret tt
     else
       let* scp := gets ksCurSC in
       let* sc := get_sc scp in
       if negb (scRefillMax sc =? 0) then
         let* consumed := gets ksConsumed in charge_budget consumed false
       else set_ksConsumed 0).

Definition commit_time : K unit :=
  let* scp := gets ksCurSC in
  let* idle := gets ksIdleSC in
  let* sc := get_sc scp in
  let* consumed := gets ksConsumed in
  when (negb (scRefillMax sc =? 0) && negb (scp =? idle))
    (when (0 <? consumed)
       (let* b := on_sc scp (refill_sufficient consumed) in
        kassert b ;;;
        let* b := sc_refill_ready scp in
        kassert b ;;;
        (if is_round_robin sc then on_sc scp (rr_commit consumed)
         else on_sc scp (refill_budget_check consumed)) ;;;
        let* b := on_sc scp (refill_sufficient 0) in
        kassert b ;;;
        let* b := sc_refill_ready scp in
        kassert b) ;;;
     mod_sc scp (fun sc => sc <| scConsumed := scConsumed sc +w consumed |>)) ;;;
  set_ksConsumed 0.

Definition switch_sched_context : K unit :=
  let* thread := gets ksCurThread in
  let* t := get_tcb thread in
  let scp := tcbSchedContext t in
  let* cur_sc := gets ksCurSC in
  when (negb (cur_sc =? scp))
    (set_reprogram ;;;
     when (negb (scp =? 0))
       (let* sc := get_sc scp in
        when (sc_constant_bandwidth sc) (sc_refill_unblock_check scp) ;;;
        let* b := sc_refill_ready scp in
        kassert b ;;;
        let* b := on_sc scp (refill_sufficient 0) in
        kassert b)) ;;;
  let* reprogram := gets ksReprogram in
  when reprogram commit_time ;;;
  modify (fun s => s <| ksCurSC := scp |>).

Definition set_next_interrupt : K unit :=
  let* cur := gets ksCurThread in
  let* t := get_tcb cur in
  let* now := gets ksCurTime in
  let* hd := on_sc (tcbSchedContext t) refill_head in
  let next_interrupt := now +w rAmount hd in
  let* dt := gets ksDomainTime in
  let next_interrupt :=
    if 1 <? NUM_DOMAINS then Z.min next_interrupt (now +w dt) else next_interrupt in
  let* q := gets ksReleaseQueue in
  let* next_interrupt :=
    (if negb (head q =? 0) then
       let* r := get_tcb (head q) in
       let* rh := on_sc (tcbSchedContext r) refill_head in
       ret (Z.min (rTime rh) next_interrupt)
     else ret next_interrupt) in
  modify (fun s => s <| hw_deadline := next_interrupt -w get_timer_precision |>).

(** ** [schedule] *)

Definition schedule_candidate (candidate : Z) (was_runnable : bool) : K unit :=
  let* b := is_schedulable candidate in
  kassert b ;;;
  let* c := get_tcb candidate in
  let* cur := gets ksCurThread in
  let* t := get_tcb cur in
  let* idle := gets ksIdleThread in
  let fastfail := (cur =? idle) || (tcbPriority c <? tcbPriority t) in
  let* dom := gets ksCurDomain in
  let* highest := (if fastfail then is_highest_prio dom (tcbPriority c) else ret true) in
  if negb highest then
    sched_enqueue candidate ;;;
    set_ksSchedulerAction SCHEDULER_ACTION_CHOOSE_NEW_THREAD ;;;
    schedule_choose_new_thread
  else if was_runnable && (tcbPriority c =? tcbPriority t) then
    sched_append candidate ;;;
    set_ksSchedulerAction SCHEDULER_ACTION_CHOOSE_NEW_THREAD ;;;
    schedule_choose_new_thread
  else switch_to_this candidate.

Definition schedule : K unit :=
  when kernel_mcs (awaken ;;; check_domain_time) ;;;
  let* action := gets ksSchedulerAction in
  when (negb (action =? SCHEDULER_ACTION_RESUME_CURRENT_THREAD))
    (let* cur := gets ksCurThread in
     let* was_runnable := is_schedulable cur in
     when was_runnable (sched_enqueue cur) ;;;
     let* action := gets ksSchedulerAction in
     if action =? SCHEDULER_ACTION_CHOOSE_NEW_THREAD then schedule_choose_new_thread
     else schedule_candidate action was_runnable) ;;;
  set_ksSchedulerAction SCHEDULER_ACTION_RESUME_CURRENT_THREAD ;;;
  when kernel_mcs
    (switch_sched_context ;;;
     let* reprogram := gets ksReprogram in
     when reprogram
       (set_next_interrupt ;;; modify (fun s => s <| ksReprogram := false |>))).

(** ** The timer tick, activation, suspension *)

Definition timer_tick : K unit :=
  let* current := gets ksCurThread in
  let* t := get_tcb current in
  when (bool_decide (get_state t = ThreadStateRunning))
    (if 1 <? tcbTimeSlice t then mod_tcb current (fun t => t <| tcbTimeSlice := tcbTimeSlice t -w 1 |>)
     else
       mod_tcb current (fun t => t <| tcbTimeSlice := CONFIG_TIME_SLICE |>) ;;;
       sched_append current ;;;
       reschedule_required).

Definition activateThread : K unit :=
  let* thread := gets ksCurThread in
  when kernel_mcs
    (let* t := get_tcb thread in
     when (negb (tcbYieldTo t =? 0))
       (schedContext_completeYieldTo thread ;;;
        let* t := get_tcb thread in
        kassert (bool_decide (get_state t = ThreadStateRunning)))) ;;;
  let* t := get_tcb thread in
  match get_state t with
  | ThreadStateRunning | ThreadStateIdleThreadState => ret tt
  | ThreadStateRestart =>
      let* pc := get_register thread FaultIP in
      set_register thread NextIP pc ;;;
      set_thread_state thread ThreadStateRunning
  | _ => fail EPanic
  end.

Definition configure_sched_context (tcb sc_pptr timeslice : Z) : K unit :=
  mod_tcb tcb (set_tcbSchedContext sc_pptr) ;;;
  let* now := gets ksCurTime in
  on_sc sc_pptr (refill_new now MIN_REFILLS timeslice 0) ;;;
  mod_sc sc_pptr (set_scTcb tcb).

Definition suspend (self : Z) : K unit :=
  let* t := get_tcb self in
  when (bool_decide (get_state t = ThreadStateRunning))
    (let* ip := get_register self FaultIP in set_register self FaultIP ip) ;;;
  set_thread_state self ThreadStateInactive ;;;
  sched_dequeue self ;;;
  when kernel_mcs (release_remove self ;;; sched_context_cancel_yield_to self).

Definition restart (self : Z) : K unit :=
  let* t := get_tcb self in
  when (is_stopped t)
    (if kernel_mcs then
       set_thread_state self ThreadStateRestart ;;;
       let* t := get_tcb self in
       when (negb (tcbSchedContext t =? 0))
         (let* sc := get_sc (tcbSchedContext t) in
          let* cur_sc := gets ksCurSC in
          when (sc_sporadic sc && negb (tcbSchedContext t =? cur_sc))
            (sc_refill_unblock_check (tcbSchedContext t)) ;;;
          sched_context_resume (tcbSchedContext t)) ;;;
       let* b := is_schedulable self in
       when b (possible_switch_to self)
     else
       setup_reply_master self ;;;
       set_thread_state self ThreadStateRestart ;;;
       sched_enqueue self ;;;
       possible_switch_to self).
End schedule.
