(* ===== verification/ScheduleProps.v ===== *)
(** * The scheduler runs a thread of the highest ready priority

    [schedule] of the kernel without MCS, in every state that its callers can
    leave: it succeeds, no ready thread is lost, and the thread that runs next
    has a priority that no waiting thread exceeds. *)

From S2P Require Import Prelude Monad DList Config Objects State CapOps CSpace VSpace Refill TcbQueue.
From S2P Require Import Sched SchedProps Tcb SchedCtx Schedule.

Definition queued (Q : Z -> list Z) (a : Z) : Prop := exists p, 0 <= p < 256 /\ a ∈ Q p.

Definition prio_of (s : kstate) (a : Z) : Z :=
  match tcbs s !! a with Some t => tcbPriority t | None => 0 end.

Definition runnable_at (s : kstate) (a : Z) : Prop :=
  exists t, tcbs s !! a = Some t /\ is_runnable t = true.

Definition all_runnable (s : kstate) (Q : Z -> list Z) : Prop := forall a, queued Q a -> runnable_at s a.

(** A thread whose address space can be installed. *)
Definition switchable `{Config} (s : kstate) (a : Z) : Prop :=
  exists c r v, ctes s !! get_cspace a TCB_VTABLE = Some c /\ get_cspace a TCB_VTABLE <> 0 /\
    set_vm_root (capability c) (vspace s) = Ok (r, v).

(** What scheduling leaves alone. *)
Definition keep (s s' : kstate) : Prop :=
  (forall a, strip <$> tcbs s' !! a = strip <$> tcbs s !! a) /\ ksIdleThread s' = ksIdleThread s.

Lemma keep_refl s : keep s s.
Proof. done. Qed.

Lemma keep_trans s1 s2 s3 : keep s1 s2 -> keep s2 s3 -> keep s1 s3.
Proof. intros [E1 I1] [E2 I2]. split; [|congruence]. intros a. by rewrite E2, E1. Qed.

Lemma frame_keep s s' : sched_frame s s' -> keep s s'.
Proof. intros [(h & qs & l1 & l2 & ->) E]. by split. Qed.

Lemma keep_lookup s s' a t : keep s s' -> tcbs s !! a = Some t ->
  exists t', tcbs s' !! a = Some t' /\ strip t' = strip t.
Proof.
  intros [E _] Ha. specialize (E a). rewrite Ha in E. destruct (tcbs s' !! a) as [t'|]; [|done].
  exists t'. split; [done|]. by apply (inj Some) in E.
Qed.

Lemma keep_prio s s' a : keep s s' -> prio_of s' a = prio_of s a.
Proof.
  intros [E _]. specialize (E a). unfold prio_of.
  destruct (tcbs s' !! a), (tcbs s !! a); try done. apply (inj Some) in E. by apply strip_fields.
Qed.

Lemma keep_runnable s s' a : keep s s' -> runnable_at s a -> runnable_at s' a.
Proof.
  intros Hk (t & Ht & Hr). destruct (keep_lookup _ _ _ _ Hk Ht) as (t' & Ht' & E). exists t'. split; [done|].
  apply (f_equal (fun t => tsType (tcbState t))) in E. unfold is_runnable, get_state in *.
  change (tsType (tcbState t') = tsType (tcbState t)) in E. by rewrite E.
Qed.

Lemma keep_all_runnable s s' Q : keep s s' -> all_runnable s Q -> all_runnable s' Q.
Proof. intros Hk Ha a Hq. eapply keep_runnable; eauto. Qed.

Lemma frame_switchable `{Config} s s' a : sched_frame s s' -> switchable s a -> switchable s' a.
Proof. intros [(h & qs & l1 & l2 & ->) _]. done. Qed.

(** [ready_ok] reads only these parts of the state. *)
Lemma ready_ok_fields s s' Q rel : tcbs s' = tcbs s -> ksReadyQueues s' = ksReadyQueues s ->
  ksReleaseQueue s' = ksReleaseQueue s -> ksReadyQueuesL1Bitmap s' = ksReadyQueuesL1Bitmap s ->
  ksReadyQueuesL2Bitmap s' = ksReadyQueuesL2Bitmap s -> ready_ok s Q rel -> ready_ok s' Q rel.
Proof.
  intros E1 E2 E3 E4 E5 (H1 & H2 & H3 & H4 & H5 & H6). unfold ready_ok. rewrite E1, E2, E3.
  split_and!; try done. by eapply bitmap_ok_fields.
Qed.

Section sets.
Context (s : kstate) (Q : Z -> list Z).
Hypothesis Hok : ready_ok s Q [].

Lemma known_of a : is_Some (tcbs s !! a) -> known s (prio_of s) a.
Proof.
  intros [t Ht]. exists t. split; [done|]. unfold prio_of. rewrite Ht. split; [done|].
  destruct Hok as (_ & _ & _ & _ & Hts & _). destruct (Hts _ _ Ht) as (_ & _ & _ & Hr & _).
  destruct (decide (tcbInReleaseQueue (tcbState t) = 0)) as [|Hne]; [done|]. apply Hr in Hne. set_solver.
Qed.

Lemma queued_thread a p : 0 <= p < 256 -> a ∈ Q p -> is_Some (tcbs s !! a) /\ prio_of s a = p.
Proof.
  intros Hp Ha. destruct Hok as (_ & _ & Hqs & _ & Hts & _). destruct (Hqs p Hp) as (q & _ & Hd & _).
  destruct (sched_list_dom _ _ _ Hd Ha) as [t Ht]. split; [by exists t|]. unfold prio_of. rewrite Ht.
  destruct (Hts _ _ Ht) as (_ & _ & Hm & _). by apply Hm in Ha as [_ ?].
Qed.

Lemma prio_range a : is_Some (tcbs s !! a) -> 0 <= prio_of s a < 256.
Proof.
  intros [t Ht]. unfold prio_of. rewrite Ht. destruct Hok as (_ & _ & _ & _ & Hts & _).
  by destruct (Hts _ _ Ht) as (_ & ? & _).
Qed.

Lemma queue_NoDup p : 0 <= p < 256 -> NoDup (Q p).
Proof. intros Hp. destruct Hok as (_ & _ & Hqs & _). by destruct (Hqs p Hp) as (q & _ & (? & _) & _). Qed.

(** Updating the queue of a thread's priority. *)
Lemma queued_upd a l x : is_Some (tcbs s !! a) ->
  queued (upd Q (prio_of s a) l) x <-> x ∈ l \/ (queued Q x /\ x ∉ Q (prio_of s a)).
Proof.
  intros Ha. pose proof (prio_range a Ha) as Hr. unfold queued, upd. split.
  - intros (p & Hp & Hx). destruct (Z.eqb_spec p (prio_of s a)) as [->|Hne]; [by left|].
    right. split; [by exists p|]. intros Hx'. apply Hne.
    destruct (queued_thread _ _ Hp Hx) as [_ <-]. by destruct (queued_thread _ _ Hr Hx') as [_ <-].
  - intros [Hx|[(p & Hp & Hx) Hnin]].
    + exists (prio_of s a). by rewrite Z.eqb_refl.
    + exists p. split; [done|]. destruct (Z.eqb_spec p (prio_of s a)) as [->|]; done.
Qed.

Lemma queued_enqueue a x : is_Some (tcbs s !! a) ->
  queued (abs_op (prio_of s) Q (Enqueue a)) x <-> queued Q x \/ x = a.
Proof.
  intros Ha. pose proof (prio_range a Ha) as Hr. unfold abs_op; cbn [op_thread]. case_bool_decide as Hin.
  - split; [by left|]. intros [?| ->]; [done|]. by exists (prio_of s a).
  - rewrite queued_upd, elem_of_cons by done. split.
    + intros [[->|Hx]|[Hx _]]; [by right|left; by exists (prio_of s a)|by left].
    + intros [Hx| ->]; [|by left; left]. destruct (decide (x ∈ Q (prio_of s a))); tauto.
Qed.

Lemma queued_append a x : is_Some (tcbs s !! a) ->
  queued (abs_op (prio_of s) Q (Append a)) x <-> queued Q x \/ x = a.
Proof.
  intros Ha. pose proof (prio_range a Ha) as Hr. unfold abs_op; cbn [op_thread]. case_bool_decide as Hin.
  - split; [by left|]. intros [?| ->]; [done|]. by exists (prio_of s a).
  - rewrite queued_upd, elem_of_app, list_elem_of_singleton by done. split.
    + intros [[Hx| ->]|[Hx _]]; [left; by exists (prio_of s a)|by right|by left].
    + intros [Hx| ->]; [|by left; right]. destruct (decide (x ∈ Q (prio_of s a))); tauto.
Qed.

Lemma queued_dequeue a x : is_Some (tcbs s !! a) ->
  queued (abs_op (prio_of s) Q (Dequeue a)) x <-> queued Q x /\ x <> a.
Proof.
  intros Ha. pose proof (prio_range a Ha) as Hr. unfold abs_op; cbn [op_thread]. case_bool_decide as Hin.
  - rewrite queued_upd, list_elem_of_filter by done. split.
    + intros [[Hne Hx]|[Hx Hnin]]; [split; [by exists (prio_of s a)|done]|]. split; [done|]. by intros ->.
    + intros [Hx Hne]. destruct (decide (x ∈ Q (prio_of s a))); tauto.
  - split; [|tauto]. intros Hx. split; [done|]. intros ->. destruct Hx as (p & Hp & Hx).
    destruct (queued_thread _ _ Hp Hx) as [_ <-]. done.
Qed.
End sets.

(** ** The steps *)

Section steps.
Context `{Config} (Hmcs : kernel_mcs = false).

Lemma l1_zero s busy : bitmap_ok s busy ->
  exists l1, get_l1 0 s = Ok (l1, s) /\
    ((l1 = 0 /\ forall p, 0 <= p < 256 -> busy p = false) \/
     (l1 <> 0 /\ exists p, 0 <= p < 256 /\ busy p = true)).
Proof.
  intros (l1 & l2 & E1 & E2 & Hlen & Hw1 & Hhigh & Hrow). exists l1. split; [by apply get_l1_run|].
  destruct (decide (l1 = 0)) as [->|Hne]; [left|right]; (split; [done|]).
  - intros p Hp. destruct (Hrow (p / 64)) as (w & _ & _ & Hz & Hbits);
      [split; [apply Z.div_pos; lia|apply Z.div_lt_upper_bound; lia]|].
    rewrite Z.bits_0 in Hz. symmetry in Hz. apply negb_false_iff, Z.eqb_eq in Hz. subst w.
    specialize (Hbits (p mod 64) ltac:(apply Z.mod_pos_bound; lia)).
    rewrite Z.bits_0, <- Z.div_mod in Hbits by lia. done.
  - destruct (nonzero_bit l1 Hw1 Hne) as (i & Hi & Hb).
    assert (i < 4) by (destruct (decide (i < 4)); [done|]; rewrite Hhigh in Hb by lia; done).
    destruct (Hrow i) as (w & _ & Hww & Hz & Hbits); [lia|]. rewrite Hb in Hz. symmetry in Hz.
    apply negb_true_iff, Z.eqb_neq in Hz. destruct (nonzero_bit w Hww Hz) as (j & Hj & Hbj).
    exists (64 * i + j). split; [lia|]. by rewrite <- Hbits by lia.
Qed.

Lemma not_queued_empty Q : (forall p, 0 <= p < 256 -> negb (bool_decide (Q p = [])) = false) ->
  forall a, ~ queued Q a.
Proof.
  intros Hno a (p & Hp & Ha). specialize (Hno p Hp). apply negb_false_iff, bool_decide_eq_true in Hno.
  rewrite Hno in Ha. by apply not_elem_of_nil in Ha.
Qed.

(** The highest ready priority, when a thread is ready. *)
Lemma highest_ready s Q : ready_ok s Q [] -> (exists a, queued Q a) ->
  exists p a l, get_highest_prio 0 s = Ok (p, s) /\ 0 <= p < 256 /\ Q p = a :: l /\
    forall x, queued Q x -> prio_of s x <= p.
Proof.
  intros Hok (x & px & Hpx & Hx). pose proof Hok as (_ & _ & _ & _ & _ & Hbm).
  destruct (get_highest_prio_spec _ _ Hbm) as (p & Hrun & Hp & Hb & Hhi).
  { exists px. split; [done|]. apply negb_true_iff, bool_decide_eq_false.
    intros E. rewrite E in Hx. by apply not_elem_of_nil in Hx. }
  apply negb_true_iff, bool_decide_eq_false in Hb. destruct (Q p) as [|a l] eqn:E; [done|].
  exists p, a, l. split_and!; try done; try lia. intros y (py & Hpy & Hy).
  destruct (queued_thread s Q Hok y py Hpy Hy) as [_ ->]. destruct (decide (py <= p)); [done|].
  specialize (Hhi py ltac:(lia)). apply negb_false_iff, bool_decide_eq_true in Hhi. rewrite Hhi in Hy.
  by apply not_elem_of_nil in Hy.
Qed.

Lemma is_highest_prio_spec s Q prio : ready_ok s Q [] ->
  exists b, is_highest_prio 0 prio s = Ok (b, s) /\
    (b = true -> forall x, queued Q x -> prio_of s x <= prio).
Proof.
  intros Hok. pose proof Hok as (_ & _ & _ & _ & _ & Hbm). destruct (l1_zero _ _ Hbm) as (l1 & Hl1 & Hz).
  unfold is_highest_prio. rewrite (bind_ok _ _ _ _ _ Hl1). destruct Hz as [[-> Hz]|[Hne (p0 & Hp0 & Hb0)]].
  - exists true. split; [done|]. intros _ x Hx. by apply (not_queued_empty Q Hz) in Hx.
  - destruct (highest_ready s Q Hok) as (p & a & l & Hrun & _ & _ & Hhi).
    { apply negb_true_iff, bool_decide_eq_false in Hb0. destruct (Q p0) as [|a l] eqn:E; [done|].
      exists a, p0. split; [done|]. rewrite E. by left. }
    apply Z.eqb_neq in Hne as ->. exists (p <=? prio). rewrite (bind_ok _ _ _ _ _ Hrun). split; [done|]. intros Hb x Hx. zbool.
    specialize (Hhi x Hx). lia.
Qed.

Lemma is_schedulable_run s a t : a <> 0 -> tcbs s !! a = Some t -> is_schedulable a s = Ok (is_runnable t, s).
Proof. intros Ha Ht. unfold is_schedulable. rewrite (bind_ok _ _ _ _ _ (get_tcb_ok _ _ _ Ha Ht)). by rewrite Hmcs. Qed.

Lemma thread_nonzero s Q a t : ready_ok s Q [] -> tcbs s !! a = Some t -> a <> 0.
Proof. intros (H0 & _) Ht ->. congruence. Qed.

(** Switching takes the thread out of its queue and makes it the current one. *)
Lemma switch_to_this_spec s0 s Q a : keep s0 s -> ready_ok s Q [] -> is_Some (tcbs s !! a) -> switchable s a ->
  exists s', switch_to_this a s = Ok (tt, s') /\ ready_ok s' (abs_op (prio_of s0) Q (Dequeue a)) [] /\
    ksCurThread s' = a /\ keep s s'.
Proof.
  intros Hk Hok Ha (c & r & v & Hc & Hnz & Hvm).
  set (s1 := s <| vspace := v |>). assert (Hok1 : ready_ok s1 Q []) by by eapply ready_ok_fields; [..|exact Hok].
  assert (Hkn : known s1 (prio_of s0) a).
  { destruct (known_of s1 Q Hok1 a Ha) as (t & Ht & Hp & Hr). exists t. split_and!; try done.
    rewrite Hp. by apply keep_prio. }
  destruct (run_op_spec s1 Q (prio_of s0) (Dequeue a) Hmcs Hok1 Hkn) as (s2 & Hrun & Hf & Hok2).
  exists (s2 <| ksCurThread := a |>). split; [|split; [|split]].
  - unfold switch_to_this, tcb_set_vm_root, tcb_cap. rewrite bind_assoc.
    erewrite bind_ok; [|erewrite bind_ok; [reflexivity|apply lift_hget_ok; [by destruct s|exact Hnz|exact Hc]]].
    erewrite bind_ok by (apply lift_part_ok; exact Hvm). cbn [run_op] in Hrun. by rewrite (bind_ok _ _ _ _ _ Hrun).
  - by eapply ready_ok_fields; [..|exact Hok2].
  - done.
  - apply frame_keep in Hf. exact Hf.
Qed.

(** The thread that runs after a choice: the idle thread when no thread waits,
    otherwise one that no waiting thread exceeds. *)
Definition chosen (s s' : kstate) (ready : Z -> Prop) (Q' : Z -> list Z) : Prop :=
  ready_ok s' Q' [] /\ keep s s' /\
  ((ksCurThread s' = ksIdleThread s /\ (forall x, ~ ready x) /\ forall x, ~ queued Q' x) \/
   (ready (ksCurThread s') /\ (forall x, queued Q' x <-> ready x /\ x <> ksCurThread s') /\
    forall x, ready x -> prio_of s x <= prio_of s (ksCurThread s'))).

Lemma chosen_keep s s1 s' (R R' : Z -> Prop) Q' : keep s s1 -> (forall x, R x <-> R' x) ->
  chosen s1 s' R Q' -> chosen s s' R' Q'.
Proof.
  intros Hk HR (Hok & Hk' & Hc). split; [done|]. split; [by eapply keep_trans|].
  destruct Hc as [(E & H1 & H2)|(H1 & H2 & H3)]; [left|right].
  - split; [rewrite E; apply Hk|]. split; [|done]. intros x. rewrite <- HR. apply H1.
  - split; [by apply HR|]. split; [intros x; by rewrite H2, HR|].
    intros x Hx. rewrite <- !(keep_prio s s1 _ Hk). by apply H3, HR.
Qed.

Lemma choose_thread_spec s Q : ready_ok s Q [] -> all_runnable s Q -> is_Some (tcbs s !! ksIdleThread s) ->
  (forall a, queued Q a \/ a = ksIdleThread s -> switchable s a) ->
  exists s' Q', choose_thread s = Ok (tt, s') /\ chosen s s' (queued Q) Q'.
Proof.
  intros Hok Hrun Hidle Hsw. pose proof Hok as (_ & _ & Hqs & _ & _ & Hbm).
  destruct (l1_zero _ _ Hbm) as (l1 & Hl1 & Hz). unfold choose_thread. rewrite (bind_ok _ _ _ _ _ Hl1).
  destruct Hz as [[-> Hz]|[Hne (p0 & Hp0 & Hb0)]].
  - pose proof (not_queued_empty Q Hz) as Hno. cbn [Z.eqb negb]. erewrite bind_ok by reflexivity.
    destruct target_arch.
    + destruct (switch_to_this_spec s s Q (ksIdleThread s) (keep_refl s) Hok Hidle (Hsw _ (or_intror eq_refl)))
        as (s' & Hs' & Hok' & Hc & Hk).
      exists s', (abs_op (prio_of s) Q (Dequeue (ksIdleThread s))). split; [done|]. split; [done|]. split; [done|].
      left. split_and!; try done. intros x Hx. apply (queued_dequeue s Q Hok) in Hx as [Hx _]; [|done].
      by apply (Hno x).
    + eexists _, Q. split; [reflexivity|]. split; [by eapply ready_ok_fields; [..|exact Hok]|].
      split; [done|]. by left.
  - apply negb_true_iff, bool_decide_eq_false in Hb0. destruct (Q p0) as [|b lb] eqn:E0; [done|].
    destruct (highest_ready s Q Hok) as (p & a & l & Hh & Hp & E & Hhi).
    { exists b, p0. split; [done|]. rewrite E0. by left. }
    assert (Hq : queued Q a) by (exists p; rewrite E; split; [done|by left]).
    destruct (Hrun a Hq) as (t & Ht & Hr). destruct (Hqs p Hp) as (q & Hlq & (_ & Hhead & _)).
    rewrite E in Hhead. cbn in Hhead. pose proof (thread_nonzero _ _ _ _ Hok Ht) as Ha0.
    destruct (switch_to_this_spec s s Q a (keep_refl s) Hok (ex_intro _ t Ht) (Hsw a (or_introl Hq)))
      as (s' & Hs' & Hok' & Hc & Hk).
    exists s', (abs_op (prio_of s) Q (Dequeue a)). split.
    + apply Z.eqb_neq in Hne as ->. cbn [negb]. rewrite (bind_ok _ _ _ _ _ Hh).
      rewrite ready_queues_index_0 by done. erewrite bind_ok by (apply get_sched_queue_run; [lia|exact Hlq]).
      rewrite Hhead. apply Z.eqb_neq in Ha0 as Ha0'. rewrite Ha0'. erewrite bind_ok by reflexivity.
      rewrite (bind_ok _ _ _ _ _ (is_schedulable_run _ _ _ Ha0 Ht)), Hr.
      erewrite bind_ok by reflexivity. rewrite Hmcs. by erewrite bind_ok by reflexivity.
    + split; [done|]. split; [done|]. right. rewrite Hc. split; [done|]. split.
      * intros x. apply (queued_dequeue s Q Hok). eauto.
      * intros x Hx. destruct (queued_thread s Q Hok a p Hp) as [_ ->]; [rewrite E; by left|]. auto.
Qed.

Lemma next_domain_run s : exists s', next_domain s = Ok (tt, s') /\ keep s s' /\
  ctes s' = ctes s /\ vspace s' = vspace s /\
  (forall Q, ready_ok s Q [] -> ready_ok s' Q []) /\ ksCurThread s' = ksCurThread s.
Proof.
  unfold next_domain. rewrite Hmcs. cbn [when]. repeat (erewrite bind_ok by reflexivity). cbv zeta.
  set (idx := if KS_DOM_SCHEDULE_LENGTH <=? _ then 0 else _). assert (Hidx : idx = 0).
  { unfold idx, KS_DOM_SCHEDULE_LENGTH. destruct (Z.leb_spec 1 (ksDomScheduleIdx s +w 1)); [done|].
    pose proof (wadd_word (ksDomScheduleIdx s) 1) as [? _]. lia. }
  rewrite Hidx. erewrite bind_ok by reflexivity. eexists. split; [reflexivity|].
  by split_and!.
Qed.

Lemma choose_new_spec s Q : ready_ok s Q [] -> all_runnable s Q -> is_Some (tcbs s !! ksIdleThread s) ->
  (forall a, queued Q a \/ a = ksIdleThread s -> switchable s a) ->
  exists s' Q', schedule_choose_new_thread s = Ok (tt, s') /\ chosen s s' (queued Q) Q'.
Proof.
  intros Hok Hrun Hidle Hsw. unfold schedule_choose_new_thread. erewrite bind_ok by reflexivity.
  destruct (ksDomainTime s =? 0); cbn [when]; [|by apply choose_thread_spec].
  destruct (next_domain_run s) as (s1 & Hn & Hk & Ec & Ev & Hok1 & _). rewrite (bind_ok _ _ _ _ _ Hn).
  destruct (choose_thread_spec s1 Q) as (s' & Q' & Hc & Hch).
  - by apply Hok1.
  - by eapply keep_all_runnable.
  - destruct Hk as [Ek ->], Hidle as [t Ht]. specialize (Ek (ksIdleThread s)). rewrite Ht in Ek.
    destruct (tcbs s1 !! ksIdleThread s); [eauto|done].
  - intros a Ha. destruct Hk as [_ Ei]. rewrite Ei in Ha. unfold switchable. rewrite Ec, Ev. by apply Hsw.
  - exists s', Q'. split; [done|]. by apply (chosen_keep s s1 _ (queued Q)).
Qed.

(** Putting a thread into its queue, at either end. *)
Lemma insert_spec s Q o a : o = Enqueue a \/ o = Append a -> ready_ok s Q [] -> is_Some (tcbs s !! a) ->
  exists s' Q', run_op o s = Ok (tt, s') /\ sched_frame s s' /\ ready_ok s' Q' [] /\
    forall x, queued Q' x <-> queued Q x \/ x = a.
Proof.
  intros Ho Hok Ha. assert (Et : op_thread o = a) by by destruct Ho as [-> | ->].
  destruct (run_op_spec s Q (prio_of s) o Hmcs Hok) as (s' & Hrun & Hf & Hok').
  { rewrite Et. by eapply known_of. }
  exists s', (abs_op (prio_of s) Q o). split_and!; try done.
  destruct Ho as [-> | ->]; intros x; [by apply queued_enqueue|by apply queued_append].
Qed.

Lemma frame_fields s s' : sched_frame s s' ->
  ksIdleThread s' = ksIdleThread s /\ ksCurThread s' = ksCurThread s /\
  ksSchedulerAction s' = ksSchedulerAction s /\ ksCurDomain s' = ksCurDomain s /\
  forall a, is_Some (tcbs s !! a) -> is_Some (tcbs s' !! a).
Proof.
  intros Hf. pose proof Hf as [(h & qs & l1 & l2 & E) _]. rewrite E at 1 2 3 4. split_and!; try done.
  intros a [t Ht]. destruct (sched_frame_lookup _ _ _ _ Hf Ht) as (t' & Ht' & _). eauto.
Qed.

(** A state in which [schedule] is called. *)
Definition sched_pre (s : kstate) (Q : Z -> list Z) : Prop :=
  ready_ok s Q [] /\ all_runnable s Q /\ ksCurDomain s = 0 /\
  is_Some (tcbs s !! ksCurThread s) /\ is_Some (tcbs s !! ksIdleThread s) /\
  forall a, is_Some (tcbs s !! a) -> switchable s a.

Lemma sched_pre_frame s s' Q Q' : sched_pre s Q -> sched_frame s s' -> ready_ok s' Q' [] ->
  (forall x, queued Q' x -> queued Q x \/ runnable_at s x) -> sched_pre s' Q'.
Proof.
  intros (Hok & Hrun & Hd & Hc & Hi & Hsw) Hf Hok' Hq. destruct (frame_fields _ _ Hf) as (E1 & E2 & _ & E4 & Hs).
  split_and!; try done.
  - intros x Hx. apply (keep_runnable s); [by apply frame_keep|]. destruct (Hq x Hx); auto.
  - congruence.
  - rewrite E2. auto.
  - rewrite E1. auto.
  - intros a [t' Ht']. apply (frame_switchable s); [done|]. apply Hsw.
    destruct Hf as [_ E]. specialize (E a). rewrite Ht' in E. destruct (tcbs s !! a); [eauto|done].
Qed.

Lemma sched_pre_choose s Q : sched_pre s Q ->
  exists s' Q', schedule_choose_new_thread s = Ok (tt, s') /\ chosen s s' (queued Q) Q'.
Proof.
  intros (Hok & Hrun & Hd & Hc & Hi & Hsw). apply choose_new_spec; try done.
  intros a [Ha| ->]; apply Hsw; [|done]. destruct (Hrun a Ha) as (t & Ht & _). eauto.
Qed.

(** The current thread goes back to its queue when it can run. *)
Lemma requeue_current s Q t : sched_pre s Q -> tcbs s !! ksCurThread s = Some t ->
  exists s1 Q1, when (is_runnable t) (sched_enqueue (ksCurThread s)) s = Ok (tt, s1) /\ sched_frame s s1 /\
    sched_pre s1 Q1 /\ forall x, queued Q1 x <-> queued Q x \/ (x = ksCurThread s /\ runnable_at s x).
Proof.
  intros Hpre Ht. pose proof Hpre as (Hok & Hrun & Hd & Hc & Hi & Hsw).
  destruct (is_runnable t) eqn:Er; cbn [when].
  - destruct (insert_spec s Q (Enqueue (ksCurThread s)) (ksCurThread s)) as (s1 & Q1 & Hrun1 & Hf & Hok1 & Hq); [by left|done|done|].
    assert (Hra : runnable_at s (ksCurThread s)) by by exists t.
    exists s1, Q1. split; [done|]. split; [done|]. split.
    + eapply sched_pre_frame; [done..|]. intros x Hx. apply Hq in Hx as [?| ->]; auto.
    + intros x. rewrite Hq. split; [intros [?| ->]; auto|]. intros [?|[-> _]]; auto.
  - exists s, Q. split; [done|]. split; [apply sched_frame_refl|]. split; [done|].
    intros x. split; [auto|]. intros [?|[-> (t' & Ht' & Hr')]]; [done|]. congruence.
Qed.

(** Queue the candidate, then choose. *)
Lemma insert_and_choose s Q o a : o = Enqueue a \/ o = Append a -> sched_pre s Q -> runnable_at s a ->
  exists s' Q', (run_op o ;;; set_ksSchedulerAction SCHEDULER_ACTION_CHOOSE_NEW_THREAD ;;;
                 schedule_choose_new_thread) s = Ok (tt, s') /\
    chosen s s' (fun x => queued Q x \/ x = a) Q'.
Proof.
  intros Ho Hpre Ha. pose proof Hpre as (Hok & _). pose proof Ha as (t & Ht & Hr).
  destruct (insert_spec s Q o a Ho Hok) as (s1 & Q1 & Hrun1 & Hf & Hok1 & Hq); [eauto|].
  assert (Hpre1 : sched_pre s1 Q1).
  { eapply sched_pre_frame; [done..|]. intros x Hx. apply Hq in Hx as [?| ->]; auto. }
  rewrite (bind_ok _ _ _ _ _ Hrun1). erewrite bind_ok by reflexivity.
  destruct (sched_pre_choose (s1 <| ksSchedulerAction := SCHEDULER_ACTION_CHOOSE_NEW_THREAD |>) Q1)
    as (s' & Q' & Hc & Hch); [exact Hpre1|].
  exists s', Q'. split; [done|]. eapply chosen_keep; [|exact Hq|exact Hch]. apply (frame_keep _ _ Hf).
Qed.

Lemma switch_chosen s Q a : sched_pre s Q -> runnable_at s a ->
  (forall x, queued Q x -> prio_of s x <= prio_of s a) ->
  exists s' Q', switch_to_this a s = Ok (tt, s') /\ chosen s s' (fun x => queued Q x \/ x = a) Q'.
Proof.
  intros (Hok & _ & _ & _ & _ & Hsw) (t & Ht & _) Hhi.
  destruct (switch_to_this_spec s s Q a (keep_refl s) Hok (ex_intro _ t Ht)) as (s' & Hrun & Hok' & Hc & Hk); [eauto|].
  exists s', (abs_op (prio_of s) Q (Dequeue a)). split; [done|]. split; [done|]. split; [done|]. right.
  rewrite Hc. split; [by right|]. split.
  - intros x. rewrite (queued_dequeue s Q Hok) by eauto. tauto.
  - intros x [Hx| ->]; [auto|lia].
Qed.

Lemma schedule_candidate_spec s Q a was : sched_pre s Q -> runnable_at s a ->
  (ksCurThread s = ksIdleThread s \/
   forall x, queued Q x -> x = a \/ prio_of s x <= prio_of s (ksCurThread s)) ->
  exists s' Q', schedule_candidate a was s = Ok (tt, s') /\ chosen s s' (fun x => queued Q x \/ x = a) Q'.
Proof.
  intros Hpre Ha Htop. pose proof Hpre as (Hok & _ & Hd & [t Ht] & _). pose proof Ha as (c & Hc & Hr).
  unfold schedule_candidate. pose proof (thread_nonzero _ _ _ _ Hok Hc) as Ha0.
  rewrite (bind_ok _ _ _ _ _ (is_schedulable_run _ _ _ Ha0 Hc)), Hr. erewrite bind_ok by reflexivity.
  erewrite bind_ok by by apply get_tcb_ok. erewrite bind_ok by reflexivity.
  erewrite bind_ok by (apply get_tcb_ok; [by eapply thread_nonzero|exact Ht]).
  do 2 (erewrite bind_ok by reflexivity). rewrite Hd.
  assert (Pa : prio_of s a = tcbPriority c) by (unfold prio_of; by rewrite Hc).
  assert (Pt : prio_of s (ksCurThread s) = tcbPriority t) by (unfold prio_of; by rewrite Ht).
  set (fastfail := _ || _). assert (Hhi : exists b, (if fastfail then is_highest_prio 0 (tcbPriority c) else ret true) s =
    Ok (b, s) /\ (b = true -> forall x, queued Q x -> prio_of s x <= prio_of s a)).
  { destruct fastfail eqn:Ef; [rewrite Pa; by apply is_highest_prio_spec|]. exists true. split; [done|].
    intros _ x Hx. apply orb_false_iff in Ef as [E1 E2]. zbool. destruct Htop as [|Htop]; [done|].
    destruct (Htop x Hx) as [-> |]; lia. }
  destruct Hhi as (b & Hb & Hhi). rewrite (bind_ok _ _ _ _ _ Hb). destruct b; cbn [negb].
  - destruct (was && (tcbPriority c =? tcbPriority t)).
    + apply (insert_and_choose s Q (Append a) a); auto.
    + apply switch_chosen; auto.
  - apply (insert_and_choose s Q (Enqueue a) a); auto.
Qed.

Definition candidate (s : kstate) (a : Z) : Prop :=
  a = ksSchedulerAction s /\ a <> SCHEDULER_ACTION_RESUME_CURRENT_THREAD /\
  a <> SCHEDULER_ACTION_CHOOSE_NEW_THREAD.

(** The threads that can run when [schedule] is called. *)
Definition ready_threads (s : kstate) (Q : Z -> list Z) (x : Z) : Prop :=
  queued Q x \/ (x = ksCurThread s /\ runnable_at s x) \/ candidate s x.

Lemma schedule_spec s Q : sched_pre s Q ->
  ksSchedulerAction s <> SCHEDULER_ACTION_RESUME_CURRENT_THREAD ->
  (forall a, candidate s a -> runnable_at s a /\
     (ksCurThread s = ksIdleThread s \/
      forall x, queued Q x -> x = a \/ prio_of s x <= prio_of s (ksCurThread s))) ->
  exists s' Q', schedule s = Ok (tt, s') /\ chosen s s' (ready_threads s Q) Q' /\
    ksSchedulerAction s' = SCHEDULER_ACTION_RESUME_CURRENT_THREAD.
Proof.
  intros Hpre Hact Hcand. pose proof Hpre as (Hok & _ & _ & [t Ht] & _).
  destruct (requeue_current s Q t Hpre Ht) as (s1 & Q1 & Hrun1 & Hf & Hpre1 & Hq1).
  destruct (frame_fields _ _ Hf) as (_ & E2 & E3 & _). pose proof (frame_keep _ _ Hf) as Hk.
  assert (Hmid : exists s' Q', (if ksSchedulerAction s =? SCHEDULER_ACTION_CHOOSE_NEW_THREAD
    then schedule_choose_new_thread else schedule_candidate (ksSchedulerAction s) (is_runnable t)) s1 = Ok (tt, s') /\
    chosen s s' (ready_threads s Q) Q').
  { destruct (Z.eqb_spec (ksSchedulerAction s) SCHEDULER_ACTION_CHOOSE_NEW_THREAD) as [Ea|Ea].
    - destruct (sched_pre_choose s1 Q1 Hpre1) as (s' & Q' & Hc & Hch). exists s', Q'. split; [done|].
      eapply chosen_keep; [exact Hk| |exact Hch]. intros x. rewrite Hq1. unfold ready_threads, candidate. rewrite Ea. intuition congruence.
    - destruct (Hcand (ksSchedulerAction s)) as [Hra Htop]; [done|].
      destruct (schedule_candidate_spec s1 Q1 (ksSchedulerAction s) (is_runnable t) Hpre1) as (s' & Q' & Hc & Hch).
      + by eapply keep_runnable.
      + destruct Hk as [_ Ei]. rewrite E2, Ei. destruct Htop as [|Htop]; [by left|right]. intros x Hx.
        rewrite !(keep_prio s s1) by by apply frame_keep. apply Hq1 in Hx as [Hx|[-> _]]; [auto|right; lia].
      + exists s', Q'. split; [done|]. eapply chosen_keep; [exact Hk| |exact Hch].
        intros x. cbv beta. rewrite Hq1. unfold ready_threads, candidate. naive_solver. }
  destruct Hmid as (s' & Q' & Hm & Hch).
  exists (s' <| ksSchedulerAction := SCHEDULER_ACTION_RESUME_CURRENT_THREAD |>), Q'. split; [|by split].
  unfold schedule. rewrite Hmcs. cbn [when]. do 2 (erewrite bind_ok by reflexivity).
  apply Z.eqb_neq in Hact as Hact'. rewrite Hact'. cbn [negb when]. rewrite bind_assoc. erewrite bind_ok by reflexivity.
  rewrite bind_assoc, (bind_ok _ _ _ _ _ (is_schedulable_run _ _ _ (thread_nonzero _ _ _ _ Hok Ht) Ht)).
  rewrite bind_assoc, (bind_ok _ _ _ _ _ Hrun1), bind_assoc. erewrite bind_ok by reflexivity. rewrite E3.
  rewrite (bind_ok _ _ _ _ _ Hm). by erewrite bind_ok by reflexivity.
Qed.
End steps.

(** C12. When [schedule] of the kernel without MCS has to choose, it succeeds and
    loses no thread: the threads that can run are the queued ones, the current
    one if it can run, and the candidate left in [ksSchedulerAction].  If there
    is none, the idle thread runs and the queues are empty.  Otherwise one of
    them runs whose priority none of the others exceeds, and exactly the others
    are queued.  The code prefers a candidate that beats the current thread
    without a look at the queues; so, when there is a candidate and the current
    thread is not the idle thread, no queued thread but the candidate itself
    may have a priority above that of the current thread, which is what
    [schedule] leaves behind.  (A restarted thread is queued and the
    candidate at once.) *)
Theorem schedule_highest_priority `{Config} s Q :
  kernel_mcs = false -> sched_pre s Q ->
  ksSchedulerAction s <> SCHEDULER_ACTION_RESUME_CURRENT_THREAD ->
  (forall a, candidate s a -> runnable_at s a /\
     (ksCurThread s = ksIdleThread s \/
      forall x, queued Q x -> x = a \/ prio_of s x <= prio_of s (ksCurThread s))) ->
  exists s' Q', schedule s = Ok (tt, s') /\ chosen s s' (ready_threads s Q) Q' /\
    ksSchedulerAction s' = SCHEDULER_ACTION_RESUME_CURRENT_THREAD.
Proof. intros Hmcs. by apply schedule_spec. Qed.

Module ScheduleExample.
Import QueueExample.
(** Thread 2048 runs at priority 7, thread 1024 of priority 9 is the candidate. *)
Definition idle : tcb_t := set_tsType ThreadStateIdleThreadState (thread 0 0 0 0 0).
Definition empty_slot : cte_t := mk_cte cap_null_cap mdb_zero.
Definition state : kstate :=
  ReadyExample.state
    <| tcbs := <[1024 := thread 9 0 0 0 0]> (<[2048 := thread 7 0 0 0 0]> (<[4096 := idle]> ∅)) |>
    <| ctes := <[1056 := empty_slot]> (<[2080 := empty_slot]> (<[4128 := empty_slot]> (<[32 := empty_slot]> ∅))) |>
    <| ksIdleThread := 4096 |> <| ksCurThread := 2048 |> <| ksSchedulerAction := 1024 |>.

Lemma thread_cases a t : tcbs state !! a = Some t ->
  (a = 1024 /\ t = thread 9 0 0 0 0) \/ (a = 2048 /\ t = thread 7 0 0 0 0) \/ (a = 4096 /\ t = idle).
Proof. cbn. rewrite !lookup_insert_Some, lookup_empty. naive_solver. Qed.

Lemma pre_ok : @sched_pre riscv_config state (fun _ => []).
Proof.
  assert (Hnone : forall a, ~ queued (fun _ => []) a) by (intros a (p & _ & Ha); by apply not_elem_of_nil in Ha).
  split; [|split; [|split; [|split; [|split]]]]; try done.
  - apply no_thread_queued; try done. intros a t Ha.
    destruct (thread_cases _ _ Ha) as [[-> ->]|[[-> ->]|[-> ->]]]; cbn; split_and!; lia || done.
  - intros a Ha. by apply Hnone in Ha.
  - intros a [t Ha]. exists empty_slot.
    destruct (thread_cases _ _ Ha) as [[-> _]|[[-> _]|[-> _]]]; (do 2 eexists; split; [reflexivity|done]).
Qed.
End ScheduleExample.

(** A restarted thread is the candidate and in its queue, above the current one. *)
Lemma schedule_highest_priority_witness : exists s Q s' Q',
  queued Q 1024 /\ candidate s 1024 /\ prio_of s (ksCurThread s) < prio_of s 1024 /\
  @schedule riscv_config s = Ok (tt, s') /\ chosen s s' (ready_threads s Q) Q'.
Proof.
  destruct (@insert_spec riscv_config eq_refl ScheduleExample.state (fun _ => []) (Enqueue 1024) 1024)
    as (s & Q & _ & Hf & Hok & Hq); [by left|apply ScheduleExample.pre_ok|by eexists|].
  assert (Hno : forall x, ~ queued (fun _ => []) x) by (intros x (p & _ & Hx); by apply not_elem_of_nil in Hx).
  destruct (frame_fields _ _ Hf) as (_ & Ec & Ea & _). pose proof (frame_keep _ _ Hf) as Hk.
  assert (Hr : runnable_at s 1024) by (apply (keep_runnable ScheduleExample.state); [done|]; by eexists).
  destruct (@schedule_highest_priority riscv_config s Q) as (s' & Q' & H1 & H2 & _).
  - reflexivity.
  - eapply sched_pre_frame; [exact ScheduleExample.pre_ok|done..|]. intros x [Hx| ->]%Hq; [by apply Hno in Hx|].
    right. by eexists.
  - by rewrite Ea.
  - intros a (-> & _). rewrite Ea. split; [done|]. right. intros x [Hx| ->]%Hq; [by apply Hno in Hx|by left].
  - exists s, Q, s', Q'. split; [apply Hq; by right|]. split; [by split; [rewrite Ea|]|].
    split; [rewrite Ec, !(keep_prio ScheduleExample.state s) by done; done|]. split; [exact H1|exact H2].
Defined.
