(* ===== verification/Ipc.v ===== *)
(** * Inter-process communication (sel4_ipc/src/endpoint.rs, notification.rs, transfer.rs)

    Threads meet at an endpoint: a sender that finds a waiting receiver copies
    its message, the badge of its capability and, if it may grant, extra
    capabilities into it; otherwise it waits in the queue of the endpoint.  A
    notification keeps a word of badges that signals add to. *)

From S2P Require Import Prelude Monad Config Objects State CapOps CSpace VSpace Refill TcbQueue.
From S2P Require Import Sched Tcb SchedCtx.

Definition TIMEOUT_DATA : Z := 0.

Definition set_extraCaps (w v : Z) : Z :=
  Z.lor (Z.land w (wnot (0x3 <<w 7))) (Z.land v 0x3 <<w 7).
Definition set_capsUnwrapped (w v : Z) : Z :=
  Z.lor (Z.land w (wnot (0x7 <<w 9))) (Z.land v 0x7 <<w 9).

Definition blocking_send (ep badge : Z) (can_grant can_grant_reply do_call : bool) (t : tcb_t) : tcb_t :=
  set_tcb_state (fun st =>
    st <| tsType := ThreadStateBlockedOnSend |> <| blockingObject := ep |>
       <| blockingIPCCanGrant := bool_to_word can_grant |> <| blockingIPCBadge := badge |>
       <| blockingIPCCanGrantReply := bool_to_word can_grant_reply |>
       <| blockingIPCIsCall := bool_to_word do_call |>) t.

(** ** Queues of endpoints and notifications *)

Definition ep_get_queue (e : endpoint) : tcb_queue_t := mk_tcb_queue (epQueue_head e) (epQueue_tail e).
Definition ep_set_queue (self : Z) (q : tcb_queue_t) : K unit :=
  mod_ep self (fun e => e <| epQueue_head := head q |> <| epQueue_tail := tail q |>).
Definition ep_set_state (self : Z) (st : EPState) : K unit := mod_ep self (fun e => e <| ep_state := st |>).

Definition ntfn_get_queue (n : notification) : tcb_queue_t :=
  mk_tcb_queue (ntfnQueue_head n) (ntfnQueue_tail n).
Definition ntfn_set_queue (self : Z) (q : tcb_queue_t) : K unit :=
  mod_ntfn self (fun n => n <| ntfnQueue_head := head q |> <| ntfnQueue_tail := tail q |>).
Definition ntfn_set_state (self : Z) (st : NtfnState) : K unit :=
  mod_ntfn self (fun n => n <| ntfn_state := st |>).

Section ipc.
Context `{Config}.

(** Take [tcb] out of the queue of an endpoint; the endpoint that is left
    without threads becomes idle. *)
Definition ep_take (self tcb : Z) : K unit :=
  let* e := get_ep self in
  let* queue := on_tcbs (ep_dequeue (ep_get_queue e) tcb) in
  ep_set_queue self queue ;;;
  when (head queue =? 0) (ep_set_state self EP_Idle).

Definition ntfn_take (self tcb : Z) : K unit :=
  let* n := get_ntfn self in
  let* queue := on_tcbs (ep_dequeue (ntfn_get_queue n) tcb) in
  ntfn_set_queue self queue ;;;
  when (head queue =? 0) (ntfn_set_state self Ntfn_Idle).

(** Append a thread to the queue and set the state, as the blocking paths do. *)
Definition ep_block (self tcb : Z) (st : EPState) : K unit :=
  let* e := get_ep self in
  let* queue := on_tcbs (ep_append (ep_get_queue e) tcb) in
  ep_set_state self st ;;;
  ep_set_queue self queue.

(** [refill_unblock_check] of a thread's context, if there is one and it is
    sporadic and not the current one. *)
Definition unblock_check_sporadic (scp : Z) : K unit :=
  when (negb (scp =? 0))
    (let* sc := get_sc scp in
     let* cur := gets ksCurSC in
     when (sc_sporadic sc && negb (scp =? cur)) (sc_refill_unblock_check scp)).

(** The variant that first asserts that the context is not the current one. *)
Definition unblock_check_assert (scp : Z) : K unit :=
  when (negb (scp =? 0))
    (let* sc := get_sc scp in
     when (sc_sporadic sc)
       (let* cur := gets ksCurSC in
        kassert (negb (scp =? cur)) ;;;
        sc_refill_unblock_check scp)).

(** ** Cancelling *)

Definition ep_cancel_ipc (self tcb : Z) : K unit :=
  ep_take self tcb ;;;
  when kernel_mcs
    (let* t := get_tcb tcb in
     let reply := replyObject (tcbState t) in
     when (negb (reply =? 0)) (reply_unlink reply tcb)) ;;;
  set_thread_state tcb ThreadStateInactive.

Definition cancel_signal (self tcb : Z) : K unit :=
  ntfn_take self tcb ;;;
  set_thread_state tcb ThreadStateInactive.

Definition cancel_ipc `{CSpaceDeps} (self : Z) : K unit :=
  let* t := get_tcb self in
  match get_state t with
  | ThreadStateBlockedOnSend | ThreadStateBlockedOnReceive =>
      let* e := get_ep (blockingObject (tcbState t)) in
      kassert (match ep_state e with EP_Idle => false | _ => true end) ;;;
      ep_cancel_ipc (blockingObject (tcbState t)) self
  | ThreadStateBlockedOnNotification => cancel_signal (blockingObject (tcbState t)) self
  | ThreadStateBlockedOnReply =>
      if kernel_mcs then reply_remove_tcb self
      else
        mod_tcb self (fun t => t <| tcbFault := seL4_Fault_NullFault |>) ;;;
        let* slot := get_cte (get_cspace self TCB_REPLY) in
        let caller_slot_ptr := mdbNext (cteMDBNode slot) in
        when (negb (caller_slot_ptr =? 0)) (delete_one caller_slot_ptr)
  | _ => ret tt
  end.

(** One thread of [cancel_all_ipc]. *)
Definition cancel_one (thread : Z) : K unit :=
  if kernel_mcs then
    let* t := get_tcb thread in
    let reply_ptr := replyObject (tcbState t) in
    when (negb (reply_ptr =? 0)) (reply_unlink reply_ptr thread) ;;;
    if is_null_fault (tcbFault t) then
      set_thread_state thread ThreadStateRestart ;;;
      unblock_check_assert (tcbSchedContext t) ;;;
      possible_switch_to thread
    else set_thread_state thread ThreadStateInactive
  else
    set_thread_state thread ThreadStateRestart ;;;
    sched_enqueue thread.

(** [while let Some(thread)] along [tcbEPNext]; the fuel is the number of TCBs. *)
Fixpoint along_queue (fuel : nat) (body : Z -> K unit) (thread : Z) : K unit :=
  match fuel with
  | O => fail EFuel
  | S fuel =>
      if thread =? 0 then ret tt else
      body thread ;;;
      let* t := get_tcb thread in
      along_queue fuel body (tcbEPNext t)
  end.

Definition for_each_thread (body : Z -> K unit) (thread : Z) : K unit :=
  fun s => along_queue (S (size (tcbs s))) body thread s.

Definition cancel_all_ipc (self : Z) : K unit :=
  let* e := get_ep self in
  match ep_state e with
  | EP_Idle => ret tt
  | _ =>
      ep_set_state self EP_Idle ;;;
      mod_ep self (fun e => e <| epQueue_head := 0 |>) ;;;
      mod_ep self (fun e => e <| epQueue_tail := 0 |>) ;;;
      for_each_thread cancel_one (epQueue_head e) ;;;
      reschedule_required
  end.

(** One thread of [cancel_badged_sends], with the badge that is cancelled. *)
Definition cancel_badged (badge : Z) (queue : tcb_queue_t) (thread : Z) : K tcb_queue_t :=
  let* t := get_tcb thread in
  when kernel_mcs (kassert (replyObject (tcbState t) =? 0)) ;;;
  if blockingIPCBadge (tcbState t) =? badge then
    (if kernel_mcs then
       if is_null_fault (tcbFault t) then
         set_thread_state thread ThreadStateRestart ;;;
         let* sc := get_sc (tcbSchedContext t) in
         when (sc_sporadic sc)
           (let* cur := gets ksCurSC in
            kassert (negb (tcbSchedContext t =? cur)) ;;;
            sc_refill_unblock_check (tcbSchedContext t)) ;;;
         possible_switch_to thread
       else set_thread_state thread ThreadStateInactive
     else
       set_thread_state thread ThreadStateRestart ;;;
       sched_enqueue thread) ;;;
    on_tcbs (ep_dequeue queue thread)
  else ret queue.

Fixpoint cancel_badged_loop (fuel : nat) (badge : Z) (queue : tcb_queue_t) (thread_ptr : Z) : K tcb_queue_t :=
  match fuel with
  | O => fail EFuel
  | S fuel =>
      if thread_ptr =? 0 then ret queue else
      let* t := get_tcb thread_ptr in
      let* queue := cancel_badged badge queue thread_ptr in
      cancel_badged_loop fuel badge queue (tcbEPNext t)
  end.

Definition cancel_badged_sends (self badge : Z) : K unit :=
  let* e := get_ep self in
  match ep_state e with
  | EP_Idle | EP_Recv => ret tt
  | EP_Send =>
      let queue := ep_get_queue e in
      ep_set_state self EP_Idle ;;;
      mod_ep self (fun e => e <| epQueue_head := 0 |>) ;;;
      mod_ep self (fun e => e <| epQueue_tail := 0 |>) ;;;
      let* queue := (fun s => cancel_badged_loop (S (size (tcbs s))) badge queue (head queue) s) in
      ep_set_queue self queue ;;;
      when (negb (head queue =? 0)) (ep_set_state self EP_Send) ;;;
      reschedule_required
  end.

(** One thread of [cacncel_all_signal]. *)
Definition cancel_one_signal (thread : Z) : K unit :=
  set_thread_state thread ThreadStateRestart ;;;
  if kernel_mcs then
    let* t := get_tcb thread in
    unblock_check_assert (tcbSchedContext t) ;;;
    possible_switch_to thread
  else sched_enqueue thread.

Definition cacncel_all_signal (self : Z) : K unit :=
  let* n := get_ntfn self in
  match ntfn_state n with
  | Ntfn_Waiting =>
      ntfn_set_state self Ntfn_Idle ;;;
      mod_ntfn self (fun n => n <| ntfnQueue_head := 0 |>) ;;;
      mod_ntfn self (fun n => n <| ntfnQueue_tail := 0 |>) ;;;
      for_each_thread cancel_one_signal (ntfnQueue_head n) ;;;
      reschedule_required
  | _ => ret tt
  end.

Definition bind_tcb (self tcb : Z) : K unit := mod_ntfn self (fun n => n <| ntfnBoundTCB := tcb |>).
Definition unbind_tcb (self : Z) : K unit := mod_ntfn self (fun n => n <| ntfnBoundTCB := 0 |>).
Definition safe_unbind_tcb (self : Z) : K unit :=
  let* n := get_ntfn self in
  let tcb := ntfnBoundTCB n in
  unbind_tcb self ;;;
  when (negb (tcb =? 0)) (unbind_notification tcb).

Definition ep_reorder (ep thread : Z) : K unit :=
  let* e := get_ep ep in
  let* queue := on_tcbs (ep_dequeue (ep_get_queue e) thread) in
  let* queue := on_tcbs (ep_append queue thread) in
  ep_set_queue ep queue.

Definition ntfn_reorder (ntfn thread : Z) : K unit :=
  let* n := get_ntfn ntfn in
  let* queue := on_tcbs (ep_dequeue (ntfn_get_queue n) thread) in
  let* queue := on_tcbs (ep_append queue thread) in
  ntfn_set_queue ntfn queue.

(** ** Transferring a message *)

Definition buffer_set_cap (buf i v : Z) : K unit :=
  let* b := get_buffer buf in
  let* l := lift_res (array_set (caps_or_badges b) i v) in
  mod_buffer buf (fun b => b <| caps_or_badges := l |>).

(** The loop of [set_transfer_caps]; [ep] is the endpoint of the transfer, the
    result the number of capabilities and the message information. *)
Fixpoint transfer_caps_loop (n : nat) (i : Z) (ep : option Z) (caps : list Z) (buffer : Z)
    (dest_slot : option Z) (info : Z) : K (Z * Z) :=
  match n with
  | O => ret (i, info)
  | S n =>
      let* slot := lift_res (array_get caps i) in
      if slot =? 0 then ret (i, info) else
      let* c := get_cte slot in
      let same_ep := match capability c, ep with
                     | cap_endpoint_cap e, Some p => if capEPPtr e =? p then Some (capEPBadge e) else None
                     | _, _ => None
                     end in
      match same_ep with
      | Some badge =>
          buffer_set_cap buffer i badge ;;;
          transfer_caps_loop n (i + 1) ep caps buffer dest_slot
            (set_capsUnwrapped info (Z.lor (get_capsUnwrapped info) (1 <<w i)))
      | None =>
          match dest_slot with
          | None => ret (i, info)
          | Some dest =>
              let* dc_ret := on_ctes (derive_cap slot (capability c)) in
              if negb (exc_ok (dc_status dc_ret)) || is_null_cap (dc_capability dc_ret) then ret (i, info)
              else
                on_ctes (cte_insert (dc_capability dc_ret) slot dest) ;;;
                transfer_caps_loop n (i + 1) ep caps buffer None info
          end
      end
  end.

Definition set_transfer_caps (self : Z) (ep : option Z) (info : Z) (caps : list Z) : K Z :=
  let info := set_capsUnwrapped (set_extraCaps info 0) 0 in
  let* ipc_buffer := lookup_mut_ipc_buffer self true in
  let* first := lift_res (array_get caps 0) in
  match ipc_buffer with
  | Some buffer =>
      if first =? 0 then ret info else
      let* dest_slot := get_receive_slot self in
      let* r := transfer_caps_loop (Z.to_nat SEL4_MSG_MAX_EXTRA_CAPS) 0 ep caps buffer dest_slot info in
      ret (set_extraCaps (snd r) (fst r))
  | None => ret info
  end.

Definition do_fault_transfer (self receiver badge : Z) : K unit :=
  let* t := get_tcb self in
  let* sent :=
    match tcbFault t with
    | seL4_Fault_Timeout b =>
        if kernel_mcs then
          let* len := set_mr receiver TIMEOUT_DATA b in
          if negb (tcbSchedContext t =? 0) then
            let* consumed := on_sc (tcbSchedContext t) sched_context_update_consumed in
            set_mr receiver len consumed
          else ret len
        else fail EPanic
    | _ => set_fault_mrs self receiver
    end in
  set_register receiver MsgInfo (messageInfo_new (seL4_Fault_tag (tcbFault t)) 0 0 sent) ;;;
  set_register receiver Badge badge.

Definition do_normal_transfer (self receiver : Z) (ep : option Z) (badge : Z) (can_grant : bool) : K unit :=
  let* w := get_register self MsgInfo in
  let tag := from_word_security w in
  let* caps :=
    (if can_grant then
       let* r := lookup_extra_caps self [0; 0; 0] in
       if negb (exc_ok (fst r)) then lift_res (array_set (snd r) 0 0) else ret (snd r)
     else ret [0; 0; 0]) in
  let* msg_transferred := copy_mrs self receiver (get_length tag) in
  let* tag := set_transfer_caps receiver ep tag caps in
  let tag := set_length tag msg_transferred in
  set_register receiver MsgInfo tag ;;;
  set_register receiver Badge badge.

Definition do_fault_reply_transfer (self receiver : Z) : K bool :=
  let* w := get_register self MsgInfo in
  let tag := from_word_security w in
  let label := get_label tag in
  let length := get_length tag in
  let* r := get_tcb receiver in
  match tcbFault r with
  | seL4_Fault_UnknownSyscall _ =>
      copy_fault_mrs_for_reply self receiver MESSAGE_ID_SYSCALL (Z.min length N_SYSCALL_MESSAGE) ;;;
      ret (label =? 0)
  | seL4_Fault_UserException _ _ =>
      copy_fault_mrs_for_reply self receiver MESSAGE_ID_EXCEPTION (Z.min length N_EXCEPTON_MESSAGE) ;;;
      ret (label =? 0)
  | seL4_Fault_Timeout _ =>
      if kernel_mcs then
        copy_fault_mrs_for_reply self receiver MESSAGE_ID_TIMEOUT_REPLY (Z.min length N_TIMEOUT_MESSAGE) ;;;
        ret (label =? 0)
      else ret true
  | _ => ret true
  end.

Definition do_ipc_transfer (self receiver : Z) (ep : option Z) (badge : Z) (grant : bool) : K unit :=
  let* t := get_tcb self in
  if is_null_fault (tcbFault t) then do_normal_transfer self receiver ep badge grant
  else do_fault_transfer self receiver badge.

(** ** Notifications *)

Definition active (self badge : Z) : K unit :=
  ntfn_set_state self Ntfn_Active ;;;
  mod_ntfn self (fun n => n <| ntfnMsgIdentifier := badge |>).

Definition maybe_return_sched_context (self thread : Z) : K unit :=
  let* n := get_ntfn self in
  let sc := ntfnSchedContext n in
  when (negb (sc =? 0))
    (let* t := get_tcb thread in
     when (sc =? tcbSchedContext t)
       (mod_tcb thread (set_tcbSchedContext 0) ;;;
        mod_sc sc (set_scTcb 0) ;;;
        let* current := is_current thread in
        when current reschedule_required)).

Definition maybe_donate_sched_context (tcb ntfnptr : Z) : K unit :=
  let* t := get_tcb tcb in
  when (tcbSchedContext t =? 0)
    (let* n := get_ntfn ntfnptr in
     let scp := ntfnSchedContext n in
     when (negb (scp =? 0))
       (let* sc := get_sc scp in
        when (scTcb sc =? 0) (sched_context_donate scp tcb ;;; sched_context_resume scp))).

Definition complete_signal (self : Z) : K bool :=
  let* t := get_tcb self in
  let ntfn := tcbBoundNotification t in
  if ntfn =? 0 then ret false else
  let* n := get_ntfn ntfn in
  match ntfn_state n with
  | Ntfn_Active =>
      set_register self Badge (ntfnMsgIdentifier n) ;;;
      ntfn_set_state ntfn Ntfn_Idle ;;;
      when kernel_mcs
        (maybe_donate_sched_context self ntfn ;;;
         let* t := get_tcb self in
         when (tcbSchedContext t =? ntfnSchedContext n) (unblock_check_sporadic (tcbSchedContext t))) ;;;
      ret true
  | _ => ret false
  end.

(** A thread that a signal woke. *)
Definition signalled (self tcb badge : Z) : K unit :=
  set_thread_state tcb ThreadStateRunning ;;;
  set_register tcb Badge badge ;;;
  if kernel_mcs then
    maybe_donate_sched_context tcb self ;;;
    let* b := is_schedulable tcb in
    when b (possible_switch_to tcb)
  else possible_switch_to tcb.

Definition send_signal `{CSpaceDeps} (self badge : Z) : K unit :=
  let* n := get_ntfn self in
  match ntfn_state n with
  | Ntfn_Idle =>
      let tcb := ntfnBoundTCB n in
      if tcb =? 0 then active self badge else
      let* t := get_tcb tcb in
      if bool_decide (get_state t = ThreadStateBlockedOnReceive) then
        cancel_ipc tcb ;;;
        signalled self tcb badge ;;;
        when kernel_mcs
          (let* t := get_tcb tcb in
           when (negb (tcbSchedContext t =? 0))
             (let* tcbsc := get_sc (tcbSchedContext t) in
              when (sc_active tcbsc && negb (ntfnSchedContext n =? 0)
                    && (tcbSchedContext t =? ntfnSchedContext n))
                (unblock_check_sporadic (tcbSchedContext t))))
      else active self badge
  | Ntfn_Waiting =>
      let dest := ntfnQueue_head n in
      if dest =? 0 then fail EPanic else
      ntfn_take self dest ;;;
      signalled self dest badge ;;;
      when kernel_mcs
        (let* t := get_tcb dest in unblock_check_assert (tcbSchedContext t))
  | Ntfn_Active =>
      mod_ntfn self (fun n => n <| ntfnMsgIdentifier := Z.lor (ntfnMsgIdentifier n) badge |>)
  end.

Definition receive_signal (self recv_thread : Z) (is_blocking : bool) : K unit :=
  let* n := get_ntfn self in
  match ntfn_state n with
  | Ntfn_Idle | Ntfn_Waiting =>
      if is_blocking then
        mod_tcb recv_thread (set_tcb_state (fun st => st <| blockingObject := self |>)) ;;;
        set_thread_state recv_thread ThreadStateBlockedOnNotification ;;;
        let* queue := on_tcbs (ep_append (ntfn_get_queue n) recv_thread) in
        ntfn_set_state self Ntfn_Waiting ;;;
        ntfn_set_queue self queue ;;;
        when kernel_mcs (maybe_return_sched_context self recv_thread)
      else set_register recv_thread Badge 0
  | Ntfn_Active =>
      set_register recv_thread Badge (ntfnMsgIdentifier n) ;;;
      ntfn_set_state self Ntfn_Idle ;;;
      when kernel_mcs
        (maybe_return_sched_context self recv_thread ;;;
         let* t := get_tcb recv_thread in
         unblock_check_sporadic (tcbSchedContext t))
  end.

(** ** Endpoints *)

(** A sender that finds no receiver. *)
Definition send_blocked (self src_thread : Z) (blocking do_call can_grant : bool) (badge : Z)
    (can_grant_reply : bool) : K unit :=
  when blocking
    (mod_tcb src_thread (blocking_send self badge can_grant can_grant_reply do_call) ;;;
     schedule_tcb src_thread ;;;
     ep_block self src_thread EP_Send).

(** The receiver at the head of the queue. *)
Definition take_receiver (self : Z) (e : endpoint) : K Z :=
  let dest_thread := epQueue_head e in
  kassert (negb (dest_thread =? 0)) ;;;
  ep_take self dest_thread ;;;
  ret dest_thread.

(** [send_ipc] without MCS. *)
Definition send_ipc (self src_thread : Z) (blocking do_call can_grant : bool) (badge : Z)
    (can_grant_reply : bool) : K unit :=
  let* e := get_ep self in
  match ep_state e with
  | EP_Idle | EP_Send => send_blocked self src_thread blocking do_call can_grant badge can_grant_reply
  | EP_Recv =>
      let* dest_thread := take_receiver self e in
      do_ipc_transfer src_thread dest_thread (Some self) badge can_grant ;;;
      let* d := get_tcb dest_thread in
      let reply_can_grant := negb (blockingIPCCanGrant (tcbState d) =? 0) in
      set_thread_state dest_thread ThreadStateRunning ;;;
      possible_switch_to dest_thread ;;;
      when do_call
        (if can_grant || can_grant_reply then setup_caller_cap dest_thread src_thread reply_can_grant
         else set_thread_state src_thread ThreadStateInactive)
  end.

(** [assert!(tcbSchedContext == 0 || ...)]. *)
Definition assert_budget (thread : Z) (ready : bool) : K unit :=
  let* t := get_tcb thread in
  when (negb (tcbSchedContext t =? 0))
    (let* b := on_sc (tcbSchedContext t) (refill_sufficient 0) in
     kassert b ;;;
     when ready (let* b := sc_refill_ready (tcbSchedContext t) in kassert b)).

(** [send_ipc] with MCS. *)
Definition send_ipc_mcs (self src_thread : Z) (blocking do_call can_grant : bool) (badge : Z)
    (can_grant_reply canDonate : bool) : K unit :=
  let* e := get_ep self in
  match ep_state e with
  | EP_Idle | EP_Send => send_blocked self src_thread blocking do_call can_grant badge can_grant_reply
  | EP_Recv =>
      let* dest_thread := take_receiver self e in
      do_ipc_transfer src_thread dest_thread (Some self) badge can_grant ;;;
      let* d := get_tcb dest_thread in
      let replyptr := replyObject (tcbState d) in
      when (negb (replyptr =? 0)) (reply_unlink replyptr dest_thread) ;;;
      let* src := get_tcb src_thread in
      let* d := get_tcb dest_thread in
      (if do_call || negb (is_null_fault (tcbFault src)) then
         if negb (replyptr =? 0) && (can_grant || can_grant_reply)
         then reply_push replyptr src_thread dest_thread canDonate
         else set_thread_state dest_thread ThreadStateInactive
       else
         when (canDonate && (tcbSchedContext d =? 0))
           (sched_context_donate (tcbSchedContext src) dest_thread)) ;;;
      assert_budget dest_thread true ;;;
      set_thread_state dest_thread ThreadStateRunning ;;;
      let* d := get_tcb dest_thread in
      unblock_check_sporadic (tcbSchedContext d) ;;;
      possible_switch_to dest_thread
  end.

(** [receive_ipc] without MCS. *)
Definition receive_ipc (self thread : Z) (is_blocking grant : bool) : K unit :=
  let* done := complete_signal thread in
  if (done : bool) then ret tt else
  let* e := get_ep self in
  match ep_state e with
  | EP_Idle | EP_Recv =>
      if is_blocking then
        mod_tcb thread (set_tcb_state (fun st =>
          st <| blockingObject := self |> <| blockingIPCCanGrant := bool_to_word grant |>)) ;;;
        set_thread_state thread ThreadStateBlockedOnReceive ;;;
        ep_block self thread EP_Recv
      else set_register thread Badge 0
  | EP_Send =>
      let* sender := take_receiver self e in
      let* t := get_tcb sender in
      let badge := blockingIPCBadge (tcbState t) in
      let can_grant := negb (blockingIPCCanGrant (tcbState t) =? 0) in
      let can_grant_reply := negb (blockingIPCCanGrantReply (tcbState t) =? 0) in
      do_ipc_transfer sender thread (Some self) badge can_grant ;;;
      let* t := get_tcb sender in
      let do_call := negb (blockingIPCIsCall (tcbState t) =? 0) in
      if do_call then
        if can_grant || can_grant_reply then setup_caller_cap thread sender grant
        else set_thread_state sender ThreadStateInactive
      else
        set_thread_state sender ThreadStateRunning ;;;
        possible_switch_to sender
  end.

(** [receive_ipc] with MCS; [replyptr] is the reply object of the capability
    argument, 0 when there is none. *)
Definition receive_ipc_mcs `{CSpaceDeps} (self thread : Z) (is_blocking : bool) (reply_cap : option reply_cap)
    : K unit :=
  let replyptr := match reply_cap with Some c => capReplyPtr c | None => 0 end in
  match reply_cap with
  | Some _ =>
      let* r := get_reply replyptr in
      when (negb (replyTCB r =? 0) && negb (replyTCB r =? thread)) (cancel_ipc (replyTCB r))
  | None => ret tt
  end ;;;
  let* done := complete_signal thread in
  if (done : bool) then ret tt else
  let* t := get_tcb thread in
  when (negb (tcbBoundNotification t =? 0) && is_blocking)
    (maybe_return_sched_context (tcbBoundNotification t) thread) ;;;
  let* e := get_ep self in
  match ep_state e with
  | EP_Idle | EP_Recv =>
      if is_blocking then
        mod_tcb thread (set_tcb_state (fun st =>
          st <| tsType := ThreadStateBlockedOnReceive |> <| blockingObject := self |>
             <| replyObject := replyptr |>)) ;;;
        when (negb (replyptr =? 0)) (mod_reply replyptr (fun r => r <| replyTCB := thread |>)) ;;;
        schedule_tcb thread ;;;
        ep_block self thread EP_Recv
      else set_register thread Badge 0
  | EP_Send =>
      let* sender := take_receiver self e in
      let* t := get_tcb sender in
      let badge := blockingIPCBadge (tcbState t) in
      let can_grant := negb (blockingIPCCanGrant (tcbState t) =? 0) in
      let can_grant_reply := negb (blockingIPCCanGrantReply (tcbState t) =? 0) in
      do_ipc_transfer sender thread (Some self) badge can_grant ;;;
      let* t := get_tcb sender in
      let do_call := negb (blockingIPCIsCall (tcbState t) =? 0) in
      unblock_check_assert (tcbSchedContext t) ;;;
      if do_call || negb (is_null_fault (tcbFault t)) then
        if (can_grant || can_grant_reply) && negb (replyptr =? 0) then
          let canDonate := negb (tcbSchedContext t =? 0)
                           && match tcbFault t with seL4_Fault_Timeout _ => false | _ => true end in
          reply_push replyptr sender thread canDonate
        else set_thread_state sender ThreadStateInactive
      else
        set_thread_state sender ThreadStateRunning ;;;
        possible_switch_to sender ;;;
        assert_budget sender false
  end.

(** ** Replies *)

(** What [do_reply] does with a receiver that faulted. *)
Definition fault_reply (self receiver : Z) : K bool :=
  let* restart := do_fault_reply_transfer self receiver in
  mod_tcb receiver (fun t => t <| tcbFault := seL4_Fault_NullFault |>) ;;;
  set_thread_state receiver (if restart then ThreadStateRestart else ThreadStateInactive) ;;;
  ret restart.

(** [do_reply] without MCS. *)
Definition do_reply `{CSpaceDeps} (self receiver slot : Z) (grant : bool) : K unit :=
  let* r := get_tcb receiver in
  kassert (bool_decide (get_state r = ThreadStateBlockedOnReply)) ;;;
  if is_null_fault (tcbFault r) then
    do_ipc_transfer self receiver None 0 grant ;;;
    delete_one slot ;;;
    set_thread_state receiver ThreadStateRunning ;;;
    possible_switch_to receiver
  else
    delete_one slot ;;;
    let* restart := fault_reply self receiver in
    when restart (possible_switch_to receiver).

(** [do_reply] with MCS. *)
Definition do_reply_mcs `{TaskDeps} (self reply : Z) (grant : bool) : K unit :=
  let* r := get_reply reply in
  if replyTCB r =? 0 then ret tt else
  let receiver := replyTCB r in
  let* t := get_tcb receiver in
  if negb (bool_decide (get_state t = ThreadStateBlockedOnReply)) then ret tt else
  reply_remove reply receiver ;;;
  let* t := get_tcb receiver in
  kassert (replyObject (tcbState t) =? 0) ;;;
  let* r := get_reply reply in
  kassert (replyTCB r =? 0) ;;;
  unblock_check_sporadic (tcbSchedContext t) ;;;
  let* t := get_tcb receiver in
  let fault := tcbFault t in
  (if is_null_fault fault then
     do_ipc_transfer self receiver None 0 grant ;;;
     set_thread_state receiver ThreadStateRunning
   else let* _ := fault_reply self receiver in ret tt) ;;;
  let* t := get_tcb receiver in
  let scp := tcbSchedContext t in
  when (negb (scp =? 0) && is_runnable t)
    (let* ready := sc_refill_ready scp in
     let* sufficient := (if (ready : bool) then on_sc scp (refill_sufficient 0) else ret false) in
     if (sufficient : bool) then possible_switch_to receiver
     else
       let* handler := valid_timeout_handler receiver in
       if (handler : bool) && match fault with seL4_Fault_Timeout _ => false | _ => true end then
         let* sc := get_sc scp in
         modify (fun s => s <| current_fault := seL4_Fault_Timeout (scBadge sc) |>) ;;;
         handleTimeout receiver
       else postpone scp).
End ipc.
