(* ===== verification/Interrupt.v ===== *)
(** * Interrupt lines (kernel/src/interrupt/mod.rs)

    The table with the state of every interrupt line, the slots that hold
    the handler notifications, masking at the controller, and the line the
    controller reports.  With a single core an interrupt number and its index
    in the table are the same. *)

From S2P Require Import Prelude Monad Config Objects State CapOps CSpace.

Section interrupt.
Context `{Config}.

Definition mod_irqs (f : irq_state -> irq_state) : K unit := modify (fun s => s <| irqs ::= f |>).

Definition current_cpu_irq_to_idx (irq : Z) : Z := irq.
Definition idx_to_irq (idx : Z) : Z := idx.

Definition get_irq_state (irq : Z) : K IRQState :=
  let* i := gets irqs in
  lift_res (array_get (int_state_irq_table i) (current_cpu_irq_to_idx irq)).

Definition get_irq_handler_slot (irq : Z) : K Z :=
  let* i := gets irqs in ret (get_offset_slot (int_state_irq_node_ptr i) irq).

(** On RISC-V only the timer line can be masked, with its bit of [sie]. *)
Definition mask_interrupt (disable : bool) (irq : Z) : K unit :=
  when (negb is_riscv || (irq =? KERNEL_TIMER_IRQ))
    (mod_irqs (fun i => i <| irq_enabled ::= fun e => if disable then e ∖ {[ irq ]} else {[ irq ]} ∪ e |>)).

Definition set_irq_table (index : Z) (state : IRQState) : K unit :=
  let* i := gets irqs in
  let* table := lift_res (array_set (int_state_irq_table i) index state) in
  mod_irqs (fun i => i <| int_state_irq_table := table |>).

Definition set_irq_state_by_irq (state : IRQState) (irq : Z) : K unit :=
  set_irq_table (current_cpu_irq_to_idx irq) state ;;;
  mask_interrupt (bool_decide (state = IRQInactive)) irq.

Definition set_irq_state_by_index (state : IRQState) (index : Z) : K unit :=
  set_irq_table index state ;;;
  mask_interrupt (bool_decide (state = IRQInactive)) (idx_to_irq index).

Definition is_irq_active (index : Z) : K bool :=
  let* i := gets irqs in
  let* st := lift_res (array_get (int_state_irq_table i) index) in
  ret (negb (bool_decide (st = IRQInactive))).

Definition SIP_SSIP : Z := 1.
Definition SIP_STIP : Z := 5.
Definition SIP_SEIP : Z := 9.

Definition is_irq_pending : K bool :=
  match target_arch with
  | RISCV64 =>
      let* i := gets irqs in
      ret (negb (Z.land (hw_sip i) (Z.lor (bit SIP_STIP) (bit SIP_SEIP)) =? 0))
  | AARCH64 => ret false
  end.

Definition is_irq_valid (x : Z) : bool := (x <=? MAX_IRQ) && negb (x =? IRQ_INVALID).

(** [IRQ_MASK] and [IRQ_NONE] of the GIC driver. *)
Definition IRQ_MASK : Z := 1023.
Definition IRQ_NONE : Z := 1023.

Definition get_active_irq : K Z :=
  let* i := gets irqs in
  match target_arch with
  | RISCV64 =>
      if is_irq_valid (active_irq i) then ret (active_irq i)
      else
        let sip := hw_sip i in
        let irq := if negb (Z.land sip (bit SIP_SEIP) =? 0) then 0
                   else if negb (Z.land sip (bit SIP_STIP) =? 0) then KERNEL_TIMER_IRQ
                   else IRQ_INVALID in
        mod_irqs (fun i => i <| active_irq := irq |>) ;;;
        ret irq
  | AARCH64 =>
      let irq := hw_iar i in
      when (Z.land irq IRQ_MASK <? MAX_IRQ) (mod_irqs (fun i => i <| active_irq := irq |>)) ;;;
      let* i := gets irqs in
      let local_irq := Z.land (active_irq i) IRQ_MASK in
      ret (if local_irq <? MAX_IRQ then local_irq else IRQ_INVALID)
  end.

(** The GIC is told that the interrupt is served; what remains in the kernel
    is that no line is being served. *)
Definition ack_interrupt (irq : Z) : K unit :=
  mod_irqs (fun i => i <| active_irq := match target_arch with RISCV64 => IRQ_INVALID | AARCH64 => IRQ_NONE end |>).

Definition deleting_irq_handler `{CSpaceDeps} (irq : Z) : K unit :=
  let* slot := get_irq_handler_slot irq in delete_one slot.

End interrupt.
