(* ===== verification/Finalise.v ===== *)
(** * What deletion calls back (kernel/src/interfaces_impl/cspace.rs)

    The kernel's side of the interface [CSpaceDeps]: finalising a capability,
    the work left after a slot was emptied, and preemption points.  Finalising
    a thread or an interrupt handler deletes further slots, which finalises
    their capabilities in turn: [kernel_deps n] allows [n] such nestings.  Two
    are enough, since what is deleted there (reply and notification
    capabilities) nests no further.  The floating point unit is modelled
    apart, in Fpu.v, so [fpu_thread_delete] is not called here. *)

From S2P Require Import Prelude Monad Config Objects State CapOps CSpace VSpace VSpaceArm.
From S2P Require Import Refill TcbQueue Sched Tcb SchedCtx Schedule Ipc Interrupt.

Section finalise.
Context `{Config}.

Definition set_lookup_fault (f : lookup_fault) : K unit :=
  modify (fun s => s <| current_lookup_fault := f |>).

(** [if let Err(fault) = r { current_lookup_fault = fault }]. *)
Definition note_fault (r : vresult) : K unit :=
  match r with Some f => set_lookup_fault f | None => ret tt end.

Definition current_vtable : K cap := let* cur := gets ksCurThread in tcb_cap cur TCB_VTABLE.

Definition deleteASID (asid vspace : Z) : K unit :=
  let* c := current_vtable in
  let* r := on_vspace (delete_asid asid vspace c) in note_fault r.

Definition deleteASIDPool (asid_base pool : Z) : K unit :=
  let* c := current_vtable in
  let* r := on_vspace (delete_asid_pool asid_base pool c) in note_fault r.

Definition nothing_left : FinaliseCapRet := mk_FinaliseCapRet cap_null_cap cap_null_cap.

Definition riscv_finalise_cap (c : cap) (final : bool) : K FinaliseCapRet :=
  match c with
  | cap_frame_cap f =>
      when (negb (capFMappedASID f =? 0))
        (let* r := on_vspace (unmap_page (capFSize f) (capFMappedASID f) (capFMappedAddress f)
                                (capFBasePtr f)) in note_fault r)
  | cap_page_table_cap pt =>
      when (final && negb (capPTIsMapped pt =? 0))
        (let asid := capPTMappedASID pt in
         let* find_ret := on_vspace (riscv_find_vspace_for_asid asid) in
         let pte := capPTBasePtr pt in
         let* is_root :=
           (if exc_ok (fv_status find_ret)
            then let* root := unwrap (fv_vspace_root find_ret) in ret (root =? pte)
            else ret false) in
         (if (is_root : bool) then deleteASID asid pte
          else on_vspace (unmap_page_table asid (capPTMappedAddress pt) pte)) ;;;
         note_fault (fv_lookup_fault find_ret))
  | cap_asid_pool_cap p => when final (deleteASIDPool (capASIDBase p) (capASIDPool p))
  | _ => ret tt
  end ;;;
  ret nothing_left.

Definition aarch64_finalise_cap (c : cap) (final : bool) : K FinaliseCapRet :=
  match c with
  | cap_frame_cap f =>
      when (negb (capFMappedASID f =? 0))
        (let* r := on_vspace (arm_unmap_page (capFSize f) (capFMappedASID f) (capFMappedAddress f)
                                (capFBasePtr f)) in note_fault r)
  | cap_vspace_cap v =>
      when (final && (capVSIsMapped v =? 1)) (deleteASID (capVSMappedASID v) (capVSBasePtr v))
  | cap_page_table_cap pt =>
      when (final && (capPTIsMapped pt =? 1))
        (on_vspace (arm_unmap_page_table (capPTMappedASID pt) (capPTMappedAddress pt) (capPTBasePtr pt)))
  | cap_asid_pool_cap p => when final (deleteASIDPool (capASIDBase p) (capASIDPool p))
  | _ => ret tt
  end ;;;
  ret nothing_left.

Definition arch_finalise_cap (c : cap) (final : bool) : K FinaliseCapRet :=
  match target_arch with
  | RISCV64 => riscv_finalise_cap c final
  | AARCH64 => aarch64_finalise_cap c final
  end.

(** ** Notifications bound to threads (kernel/src/syscall/utils.rs) *)

Definition do_bind_notification (tcb nftn : Z) : K unit :=
  bind_tcb nftn tcb ;;; bind_notification tcb nftn.
Definition do_unbind_notification (tcb nftn : Z) : K unit :=
  unbind_tcb nftn ;;; unbind_notification tcb.
Definition safe_unbind_notification (tcb : Z) : K unit :=
  let* t := get_tcb tcb in
  when (negb (tcbBoundNotification t =? 0)) (do_unbind_notification tcb (tcbBoundNotification t)).

(** ** The kernel's objects *)

Definition finalise_ntfn (ntfn : Z) : K unit :=
  let* n := get_ntfn ntfn in
  when (kernel_mcs && negb (ntfnSchedContext n =? 0)) (sched_context_unbind_ntfn (ntfnSchedContext n)) ;;;
  safe_unbind_tcb ntfn ;;;
  cacncel_all_signal ntfn.

Definition finalise_reply `{CSpaceDeps} (reply : Z) : K unit :=
  when (negb (reply =? 0))
    (let* r := get_reply reply in
     when (negb (replyTCB r =? 0))
       (let* t := get_tcb (replyTCB r) in
        match get_state t with
        | ThreadStateBlockedOnReply => reply_remove reply (replyTCB r)
        | ThreadStateBlockedOnReceive => cancel_ipc (replyTCB r)
        | _ => fail EPanic
        end)).

Definition finalise_thread `{CSpaceDeps} (tcb : Z) : K FinaliseCapRet :=
  let cte_ptr := get_cspace tcb TCB_CTABLE in
  safe_unbind_notification tcb ;;;
  let* t := get_tcb tcb in
  when (kernel_mcs && negb (tcbSchedContext t =? 0))
    (sched_context_unbind_tcb (tcbSchedContext t) tcb ;;;
     let* sc := get_sc (tcbSchedContext t) in
     when (negb (scYieldFrom sc =? 0)) (schedContext_completeYieldTo (scYieldFrom sc))) ;;;
  cancel_ipc tcb ;;;
  suspend tcb ;;;
  ret (mk_FinaliseCapRet (cap_zombie_cap (zombie_new TCB_CNODE_ENTRIES ZOMBIE_TYPE_ZOMBIE_TCB cte_ptr))
         cap_null_cap).

Definition finalise_sc (sc_ptr : Z) : K unit :=
  sched_context_unbind_all_tcbs sc_ptr ;;;
  sched_context_unbind_ntfn sc_ptr ;;;
  let* sc := get_sc sc_ptr in
  when (negb (scReply sc =? 0))
    (let* r := get_reply (scReply sc) in
     kassert (negb (isHead (replyNext r) =? 0)) ;;;
     mod_reply (scReply sc) (fun r => r <| replyNext := call_stack_zero |>) ;;;
     mod_sc sc_ptr (set_scReply 0)) ;;;
  when (negb (scYieldFrom sc =? 0)) (schedContext_completeYieldTo (scYieldFrom sc)) ;;;
  mod_sc sc_ptr (fun sc => sc <| scRefillMax := 0 |>).

(** [finalise_cap], with the deletions it makes given by the instance. *)
Definition kernel_finalise_cap `{CSpaceDeps} (c : cap) (final exposed : bool) : K FinaliseCapRet :=
  if is_arch_cap c then arch_finalise_cap c final else
  match c with
  | cap_endpoint_cap e => when final (cancel_all_ipc (capEPPtr e)) ;;; ret nothing_left
  | cap_notification_cap n => when final (finalise_ntfn (capNtfnPtr n)) ;;; ret nothing_left
  | cap_reply_cap r => when (kernel_mcs && final) (finalise_reply (capReplyPtr r)) ;;; ret nothing_left
  | cap_null_cap | cap_domain_cap => ret nothing_left
  | _ =>
      if exposed then fail EPanic else
      match c with
      | cap_cnode_cap n =>
          ret (if final
               then mk_FinaliseCapRet
                      (cap_zombie_cap (zombie_new (1 <<w capCNodeRadix n) (capCNodeRadix n) (capCNodePtr n)))
                      cap_null_cap
               else nothing_left)
      | cap_thread_cap tcb => if final then finalise_thread tcb else ret nothing_left
      | cap_sched_context_cap sc =>
          when (kernel_mcs && final) (finalise_sc (capSCPtr sc)) ;;; ret nothing_left
      | cap_zombie_cap _ => ret (mk_FinaliseCapRet c cap_null_cap)
      | cap_irq_handler_cap irq =>
          if final then deleting_irq_handler irq ;;; ret (mk_FinaliseCapRet cap_null_cap c)
          else ret nothing_left
      | _ => ret nothing_left
      end
  end.

Definition kernel_post_cap_deletion (c : cap) : K unit :=
  match c with
  | cap_irq_handler_cap irq => set_irq_state_by_index IRQInactive irq
  | _ => ret tt
  end.

Definition kernel_preemption_point : K exception_t :=
  modify (fun s => s <| ksWorkUnitsCompleted := ksWorkUnitsCompleted s +w 1 |>) ;;;
  let* n := gets ksWorkUnitsCompleted in
  if CONFIG_MAX_NUM_WORK_UNITS_PER_PREEMPTION <=? n then
    modify (fun s => s <| ksWorkUnitsCompleted := 0 |>) ;;;
    if kernel_mcs then
      update_timestamp ;;;
      let* cur := gets ksCurSC in
      let* sc := get_sc cur in
      let* consumed := gets ksConsumed in
      let* sufficient := (if sc_active sc then on_sc cur (refill_sufficient consumed) else ret false) in
      let* stop := (if negb sufficient then ret true else
                    let* expired := is_cur_domain_expired in
                    if (expired : bool) then ret true else is_irq_pending) in
      ret (if (stop : bool) then EXCEPTION_PREEMTED else EXCEPTION_NONE)
    else
      let* pending := is_irq_pending in
      ret (if (pending : bool) then EXCEPTION_PREEMTED else EXCEPTION_NONE)
  else ret EXCEPTION_NONE.

Fixpoint kernel_deps (n : nat) : CSpaceDeps :=
  {| finalise_cap :=
       match n with
       | O => fun _ _ _ => fail EFuel
       | S n' => @kernel_finalise_cap (kernel_deps n')
       end;
     post_cap_deletion := kernel_post_cap_deletion;
     preemption_point := kernel_preemption_point |}.
End finalise.
