(* ===== verification/DeletionProps.v ===== *)
(** * Deleting and revoking capabilities (sel4_cspace/src/cte.rs with the
    kernel's side of it, kernel/src/interfaces_impl/cspace.rs)

    The theorems are about the kernel that is run: [delete_one] and [revoke]
    with the instance [kernel_deps] of the interface [CSpaceDeps].  They cover
    the capabilities whose deletion has nothing to undo outside the slots
    ([settles]); finalising the last capability to a thread, a CNode, an
    interrupt handler, a busy endpoint or notification, or a mapped page
    changes other state and is not stated here. *)

From S2P Require Import Prelude Monad DList Config Objects State CapOps CSpace MDB CSpaceProps.
From S2P Require Import VSpace VSpaceArm Refill TcbQueue Sched Tcb SchedCtx Schedule Ipc Interrupt Finalise.

Section kernel.
Context `{Config} (nesting : nat).
#[local] Instance kernel_side : CSpaceDeps := kernel_deps (S nesting).

(** ** Capabilities with nothing to finalise *)

(** An endpoint nobody waits on. *)
Definition idle_endpoint (s : kstate) (p : Z) : Prop :=
  exists e, p <> 0 /\ eps s !! p = Some e /\ ep_state e = EP_Idle.

(** A notification nobody waits on or is bound to. *)
Definition idle_notification (s : kstate) (p : Z) : Prop :=
  exists n, p <> 0 /\ ntfns s !! p = Some n /\ ntfn_state n <> Ntfn_Waiting /\ ntfnBoundTCB n = 0 /\
    (kernel_mcs = true -> ntfnSchedContext n = 0).

Definition settles (s : kstate) (c : cap) (final : bool) : Prop :=
  match c with
  | cap_frame_cap f => capFMappedASID f = 0
  | cap_page_table_cap pt => final = true -> capPTIsMapped pt = 0
  | cap_vspace_cap v => final = true -> capVSIsMapped v = 0
  | cap_endpoint_cap e => final = true -> idle_endpoint s (capEPPtr e)
  | cap_notification_cap n => final = true -> idle_notification s (capNtfnPtr n)
  | cap_sched_context_cap _ | cap_reply_cap _ => final = true -> kernel_mcs = false
  | cap_asid_pool_cap _ | cap_cnode_cap _ | cap_thread_cap _ | cap_irq_handler_cap _ => final = false
  | cap_zombie_cap _ => False
  | _ => True
  end.

(** The types [finalise_cap] accepts from [delete_one]. *)
Definition exposable (c : cap) : bool :=
  is_arch_cap c ||
  match c with
  | cap_endpoint_cap _ | cap_notification_cap _ | cap_reply_cap _ | cap_null_cap | cap_domain_cap => true
  | _ => false
  end.

Lemma cancel_all_ipc_idle s p : idle_endpoint s p -> cancel_all_ipc p s = Ok (tt, s).
Proof.
  intros (e & Hp & He & Hst). unfold cancel_all_ipc.
  erewrite bind_ok by (apply lift_hget_ok; [by destruct s|done..]). by rewrite Hst.
Qed.

Lemma finalise_ntfn_idle s p : idle_notification s p -> finalise_ntfn p s = Ok (tt, s).
Proof.
  intros (n & Hp & Hn & Hst & Hb & Hsc). unfold finalise_ntfn.
  assert (Hget : get_ntfn p s = Ok (n, s)) by (apply lift_hget_ok; [by destruct s|done..]).
  rewrite (bind_ok _ _ _ _ _ Hget).
  assert (Ew : kernel_mcs && negb (ntfnSchedContext n =? 0) = false) by (destruct kernel_mcs; [by rewrite Hsc|done]).
  rewrite Ew. erewrite bind_ok by reflexivity. unfold safe_unbind_tcb, unbind_tcb.
  assert (Hmod : mod_ntfn p (fun n => n <| ntfnBoundTCB := 0 |>) s = Ok (tt, s)).
  { assert (Hwp : wp (mod_ntfn p (fun n => n <| ntfnBoundTCB := 0 |>)) (fun _ s' => s' = s) s).
    { apply (wp_mod_ntfn p n); [done..|]. rewrite insert_id by (rewrite Hn; by destruct n; cbn in *; subst). by destruct s. }
    apply wp_iff in Hwp as ([] & s' & -> & ->). done. }
  rewrite bind_assoc, (bind_ok _ _ _ _ _ Hget), bind_assoc, (bind_ok _ _ _ _ _ Hmod), Hb. erewrite bind_ok by reflexivity.
  unfold cacncel_all_signal. rewrite (bind_ok _ _ _ _ _ Hget). by destruct (ntfn_state n).
Qed.

Lemma finalise_settled s c final exposed : settles s c final -> (exposed = true -> exposable c = true) ->
  finalise_cap c final exposed s = Ok (nothing_left, s).
Proof.
  intros Hs He. change (finalise_cap c final exposed) with (@kernel_finalise_cap _ (kernel_deps nesting) c final exposed).
  unfold kernel_finalise_cap. destruct (is_arch_cap c) eqn:Ha.
  - unfold arch_finalise_cap, riscv_finalise_cap, aarch64_finalise_cap.
    destruct target_arch, c; try reflexivity; cbn in Hs; try (by rewrite Hs);
      destruct final; try reflexivity; try discriminate Hs; by rewrite (Hs eq_refl).
  - destruct c; cbn in Hs; try reflexivity; try discriminate Ha; try done.
    2: { destruct final; [|done]. rewrite (bind_ok _ _ s tt s); [done|]. by apply cancel_all_ipc_idle, Hs. }
    2: { destruct final; [|done]. rewrite (bind_ok _ _ s tt s); [done|]. by apply finalise_ntfn_idle, Hs. }
    all: destruct exposed; [specialize (He eq_refl); try discriminate He|].
    all: destruct final; try discriminate Hs; try rewrite (Hs eq_refl); rewrite ?andb_false_r; done.
Qed.

(** ** Deleting one capability *)

(** Comparing two capabilities of the heap does not panic. *)
Definition caps_comparable (h : gmap Z cte_t) : Prop :=
  forall a b ca cb, h !! a = Some ca -> h !! b = Some cb ->
    exists r, same_object_as (capability ca) (capability cb) = Ok r.

Lemma is_final_cap_run h ls a c :
  mdb_forest h ls -> caps_comparable h -> h !! a = Some c ->
  exists b, is_final_cap a h = Ok (b, h).
Proof.
  intros Hf Hcmp Ha. pose proof Hf as [H0 _]. unfold is_final_cap. hstep.
  assert (Hprev : exists b, (if mdbPrev (cteMDBNode c) =? 0 then ret false
     else let* prev := hget (mdbPrev (cteMDBNode c)) in
          lift_res (same_object_as (capability prev) (capability c))) h = Ok (b, h)).
  { destruct (Z.eqb_spec (mdbPrev (cteMDBNode c)) 0) as [|Hp]; [by eexists|].
    destruct (forest_prev h ls a c _ Hf Ha eq_refl Hp) as [_ (cp & Hcp & _)]. hstep.
    destruct (Hcmp _ _ _ _ Hcp Ha) as [r ->]. by eexists. }
  destruct Hprev as [b Hb]. erewrite bind_ok by exact Hb. destruct b; [by eexists|].
  destruct (Z.eqb_spec (mdbNext (cteMDBNode c)) 0) as [|Hn]; [by eexists|].
  destruct (forest_next h ls a c _ Hf Ha eq_refl Hn) as [_ (cn & Hcn & _)]. hstep.
  destruct (Hcmp _ _ _ _ Ha Hcn) as [r Hr]. erewrite bind_ok by (unfold lift_res; by rewrite Hr).
  by eexists.
Qed.

(** A capability whose predecessor names the same object is not the last. *)
Lemma is_final_cap_copy h p a cp c : h !! p = Some cp -> p <> 0 -> h !! a = Some c -> a <> 0 ->
  mdbPrev (cteMDBNode c) = p -> same_object_as (capability cp) (capability c) = Ok true ->
  is_final_cap a h = Ok (false, h).
Proof.
  intros Hp Hp0 Ha Ha0 Eprev Hsame. unfold is_final_cap. erewrite bind_ok by (by apply hget_ok). rewrite Eprev.
  destruct (Z.eqb_spec p 0) as [|_]; [done|]. rewrite bind_assoc. erewrite bind_ok by (by apply hget_ok).
  by erewrite bind_ok by (unfold lift_res; by rewrite Hsame).
Qed.

Definition empty_slot : cte_t := mk_cte cap_null_cap mdb_zero.

(** The slot at [a] after the slot of [c] was taken out of its list: the
    neighbours are linked to each other, and the next one inherits the
    first-badged mark. *)
Definition relinked (c : cte_t) (a : Z) (e : cte_t) : cte_t :=
  let m := cteMDBNode c in
  let e := if a =? mdbPrev m then set_mdbNext (mdbNext m) e else e in
  if a =? mdbNext m
  then e <| cteMDBNode := mk_mdb_node (mdbNext (cteMDBNode e)) (mdbRevocable (cteMDBNode e))
      (bool_to_word (negb (mdbFirstBadged (cteMDBNode e) =? 0) || negb (mdbFirstBadged m =? 0))) (mdbPrev m) |>
  else e.

Definition unlinked (slot : Z) (c : cte_t) (h h' : gmap Z cte_t) : Prop :=
  forall a, h' !! a = if decide (a = slot) then Some empty_slot else relinked c a <$> h !! a.

Lemma unlink_slot_exact h ls1 l1 slot l2 ls2 c :
  mdb_forest h (ls1 ++ (l1 ++ slot :: l2) :: ls2) -> h !! slot = Some c ->
  exists h', unlink_slot slot h = Ok (true, h') /\ mdb_forest h' (ls1 ++ (l1 ++ l2) :: ls2) /\ unlinked slot c h h'.
Proof.
  intros Hf Hc. pose proof Hf as [H0 _]. destruct (unlink_slot_spec _ _ _ _ _ _ Hf) as (h' & Hu & Hf' & _).
  destruct (forest_slot _ _ _ _ _ _ Hf) as (c' & Hc' & Hnn & Hp & Hn & Hps & Hns). rewrite Hc in Hc'. injection Hc' as <-.
  exists h'. split; [done|]. split; [done|]. rewrite <- Hp in Hps. rewrite <- Hn in Hns.
  rewrite (unlink_slot_run h slot c H0 Hc Hnn Hps Hns) in Hu. injection Hu as <-. intros a.
  rewrite !lookup_alter_case. unfold relinked, unlink_next, empty_slot.
  destruct (decide (a = slot)) as [->|Hne].
  - rewrite decide_True by done. repeat case_decide; by rewrite Hc.
  - rewrite decide_False by done.
    destruct (decide (mdbNext (cteMDBNode c) = a)) as [En|En], (decide (mdbPrev (cteMDBNode c) = a)) as [Ep|Ep];
      rewrite ?(proj2 (Z.eqb_eq a _) (eq_sym En)), ?(proj2 (Z.eqb_eq a _) (eq_sym Ep)),
        ?(proj2 (Z.eqb_neq a _) (not_eq_sym En)), ?(proj2 (Z.eqb_neq a _) (not_eq_sym Ep)); by destruct (h !! a).
Qed.

Lemma unlinked_fields slot c h h' a : unlinked slot c h h' -> a <> slot ->
  capability <$> h' !! a = capability <$> h !! a /\
  mdbRevocable ∘ cteMDBNode <$> h' !! a = mdbRevocable ∘ cteMDBNode <$> h !! a.
Proof.
  intros Hu Ha. rewrite Hu, decide_False by done. destruct (h !! a) as [e|]; [|done]. unfold relinked.
  by destruct (_ =? _), (_ =? _).
Qed.

Lemma set_empty_run s slot h' :
  unlink_slot slot (ctes s) = Ok (true, h') -> set_empty slot cap_null_cap s = Ok (tt, s <| ctes := h' |>).
Proof. intros E. unfold set_empty. by erewrite bind_ok by (by apply on_ctes_run). Qed.

(** C26. On the kernel, [delete_one] of a capability that it may be called for
    and that has nothing to finalise (an unmapped page or page table, a copy
    of a capability that is still there, the last capability to an idle
    endpoint or notification, a reply capability without MCS, ...) succeeds
    and changes the slots only, in this way: its slot becomes empty, the
    neighbours of the slot in its derivation list are linked to each other,
    the next one inheriting the first-badged mark, and every other slot stays
    as it is; the derivation lists stay a forest. *)
Theorem delete_one_correct s ls1 l1 slot l2 ls2 c :
  mdb_forest (ctes s) (ls1 ++ (l1 ++ slot :: l2) :: ls2) -> caps_comparable (ctes s) ->
  ctes s !! slot = Some c -> exposable (capability c) = true ->
  (forall final, is_final_cap slot (ctes s) = Ok (final, ctes s) -> settles s (capability c) final) ->
  exists h, delete_one slot s = Ok (tt, s <| ctes := h |>) /\
    mdb_forest h (ls1 ++ (l1 ++ l2) :: ls2) /\ unlinked slot c (ctes s) h.
Proof.
  intros Hf Hcmp Hc Hex Hs. pose proof Hf as [H0 _].
  destruct (forest_slot _ _ _ _ _ _ Hf) as (c' & Hc' & Hnn & _). rewrite Hc in Hc'. injection Hc' as <-.
  destruct (unlink_slot_exact _ _ _ _ _ _ _ Hf Hc) as (h & Hu & Hf' & Hun).
  destruct (is_final_cap_run _ _ _ _ Hf Hcmp Hc) as [fin Hfin].
  pose proof (finalise_settled s (capability c) fin true (Hs _ Hfin) (fun _ => Hex)) as Hfc.
  exists h. split; [|done]. unfold delete_one. erewrite bind_ok by (apply get_cte_run; eauto with heap).
  rewrite is_null_cap_false by done. cbn [negb when].
  erewrite bind_ok by (by apply on_ctes_read). erewrite bind_ok by exact Hfc.
  do 2 erewrite bind_ok by reflexivity. by apply set_empty_run.
Qed.

(** ** Deleting a slot on the way *)

(** The states of a revocation: only the slots and the count of work units
    change. *)
Definition later (s : kstate) (h : gmap Z cte_t) (k : Z) : kstate :=
  s <| ctes := h |> <| ksWorkUnitsCompleted := k |>.

Lemma delete_all_settled n s ls slot c exposed h' :
  mdb_forest (ctes s) ls -> caps_comparable (ctes s) ->
  ctes s !! slot = Some c -> capability c <> cap_null_cap ->
  (forall final, is_final_cap slot (ctes s) = Ok (final, ctes s) -> settles s (capability c) final) ->
  unlink_slot slot (ctes s) = Ok (true, h') ->
  delete_all (S (S n)) slot exposed s = Ok (EXCEPTION_NONE, s <| ctes := h' |>).
Proof.
  intros Hf Hcmp Hc Hnn Hs Hu. pose proof Hf as [H0 _].
  assert (Hs0 : slot <> 0) by by eapply lookup_nonzero.
  destruct (is_final_cap_run _ _ _ _ Hf Hcmp Hc) as [fin Hfin].
  pose proof (finalise_settled s (capability c) fin false (Hs _ Hfin) ltac:(done)) as Hfc.
  assert (Hfs : finalise (S n) slot exposed s =
                Ok (mk_finaliseSlot_ret EXCEPTION_NONE true cap_null_cap, s)).
  { cbn [finalise]. erewrite bind_ok by (by apply get_cte_run).
    rewrite is_null_cap_false by done. erewrite bind_ok by (by apply on_ctes_read).
    erewrite bind_ok by exact Hfc. by erewrite bind_ok by reflexivity. }
  cbn [delete_all]. erewrite bind_ok by exact Hfs. cbn [fs_status exc_ok negb fs_success fs_cleanupInfo].
  rewrite orb_true_r. cbn [when]. by rewrite (bind_ok _ _ _ _ _ (set_empty_run s slot h' Hu)).
Qed.

(** An interrupt is waiting, as far as preemption points look. *)
Definition irq_waiting (s : kstate) : bool :=
  match target_arch with
  | RISCV64 => negb (Z.land (hw_sip (irqs s)) (Z.lor (bit SIP_STIP) (bit SIP_SEIP)) =? 0)
  | AARCH64 => false
  end.

Lemma preemption_point_run s h k : kernel_mcs = false ->
  exists e k', preemption_point (later s h k) = Ok (e, later s h k') /\
    (e = EXCEPTION_NONE \/ e = EXCEPTION_PREEMTED /\ irq_waiting s = true).
Proof.
  intros Hmcs. change preemption_point with kernel_preemption_point. unfold kernel_preemption_point.
  do 2 (erewrite bind_ok by reflexivity). destruct (_ <=? _); [|by eexists _, _; split; [reflexivity|left]].
  erewrite bind_ok by reflexivity. rewrite Hmcs. unfold is_irq_pending, irq_waiting.
  destruct target_arch; [|by eexists _, 0; split; [reflexivity|left]].
  exists (if negb (Z.land (hw_sip (irqs s)) (Z.lor (bit SIP_STIP) (bit SIP_SEIP)) =? 0) then EXCEPTION_PREEMTED else EXCEPTION_NONE), 0.
  split; [reflexivity|]. destruct (negb _); auto.
Qed.

(** ** Revocation *)

(** Parents whose children are told apart by memory region alone. *)
Definition unbadged (c : cap) : Prop :=
  match c with
  | cap_endpoint_cap e => capEPBadge e = 0
  | cap_notification_cap n => capNtfnBadge n = 0
  | cap_smc_cap b => b = 0
  | _ => True
  end.

Lemma is_mdb_parent_unbadged self next b :
  unbadged (capability self) -> mdbRevocable (cteMDBNode self) <> 0 ->
  same_region_as (capability self) (capability next) = Ok b ->
  is_mdb_parent_of self next = Ok b.
Proof.
  intros Hu Hr Hs. unfold is_mdb_parent_of.
  destruct (Z.eqb_spec (mdbRevocable (cteMDBNode self)) 0) as [|_]; [done|]. rewrite Hs.
  destruct b; [|done]. destruct (capability self) eqn:E1; try done; cbn in Hu, Hs.
  - destruct (capability next); try discriminate. by rewrite Hu.
  - destruct (capability next); try discriminate. by rewrite Hu.
  - destruct (capability next); try done. rewrite Hu. by destruct enable_smc.
Qed.

Lemma same_object_null_l c : same_object_as cap_null_cap c = Ok false.
Proof. by destruct c. Qed.

Lemma same_object_null_r c : same_object_as c cap_null_cap = Ok false.
Proof. destruct c; try reflexivity; by unfold same_object_as, same_region_as; destruct kernel_mcs. Qed.

Lemma caps_comparable_unlink h h' slot c :
  caps_comparable h -> unlinked slot c h h' -> caps_comparable h'.
Proof.
  intros Hcmp Hu a b ca cb Ha Hb.
  destruct (decide (a = slot)) as [->|Hna].
  { rewrite Hu, decide_True in Ha by done. injection Ha as <-. eexists. exact (same_object_null_l (capability cb)). }
  destruct (decide (b = slot)) as [->|Hnb].
  { rewrite Hu, decide_True in Hb by done. injection Hb as <-. eexists. exact (same_object_null_r (capability ca)). }
  destruct (unlinked_fields _ _ _ _ a Hu Hna) as [Ea _]. destruct (unlinked_fields _ _ _ _ b Hu Hnb) as [Eb _].
  rewrite Ha in Ea. rewrite Hb in Eb. symmetry in Ea, Eb.
  apply fmap_Some in Ea as (xa & Hxa & ->). apply fmap_Some in Eb as (xb & Hxb & ->). eauto.
Qed.

Section revoke.
Context (Hmcs : kernel_mcs = false).
Context (ls1 ls2 : list (list Z)) (l1 l2 : list Z) (slot : Z) (pc : cap).
Hypothesis Hpc : unbadged pc.

(** A child of [pc] whose deletion has nothing to finalise: it names the same
    object as its parent, so it is not the last capability to it, or its
    object has nothing to undo. *)
Definition quiet_child (s : kstate) (c : cap) : Prop :=
  same_region_as pc c = Ok true /\
  (same_object_as pc c = Ok true /\ settles s c false \/ settles s c true /\ settles s c false).

(** The state of a revocation with the children [cs] still to go. *)
Definition revoking (s : kstate) (cs : list Z) : Prop :=
  mdb_forest (ctes s) (ls1 ++ (l1 ++ slot :: cs ++ l2) :: ls2) /\
  caps_comparable (ctes s) /\
  (exists p, ctes s !! slot = Some p /\ capability p = pc /\ mdbRevocable (cteMDBNode p) <> 0) /\
  (forall a c, a ∈ cs -> ctes s !! a = Some c -> quiet_child s (capability c)) /\
  (forall a c, list.head l2 = Some a -> ctes s !! a = Some c ->
     same_region_as pc (capability c) = Ok false).

(** Deleting the first child. *)
Lemma revoking_step n s h k x cs :
  revoking (later s h k) (x :: cs) ->
  exists h', delete_all (S (S n)) x true (later s h k) = Ok (EXCEPTION_NONE, later s h' k) /\
    revoking (later s h' k) cs /\ h' !! x = Some empty_slot /\
    (forall a, a <> x -> capability <$> h' !! a = capability <$> h !! a).
Proof.
  intros (Hf & Hcmp & (p & Hp & Epc & Hr) & Hcs & Hl2). change (ctes (later s h k)) with h in *.
  assert (Hf2 := Hf). replace (l1 ++ slot :: (x :: cs) ++ l2)
    with ((l1 ++ [slot]) ++ x :: (cs ++ l2)) in Hf2 by by rewrite <- app_assoc.
  pose proof Hf as [H0 _]. destruct (forest_slot _ _ _ _ _ _ Hf2) as (c & Hc & Hnn & Hprev & _).
  rewrite lastz_snoc in Hprev.
  destruct (unlink_slot_exact _ _ _ _ _ _ _ Hf2 Hc) as (h' & Hu & Hf' & Hun).
  assert (Hset : forall final, is_final_cap x h = Ok (final, h) -> settles (later s h k) (capability c) final).
  { intros final Hfin. destruct (Hcs x c) as (_ & [[Hsame Hfalse]|[Htrue Hfalse]]); [set_solver|done| |by destruct final].
    rewrite (is_final_cap_copy h slot x p c) in Hfin; eauto with heap; [by injection Hfin as <-|congruence]. }
  exists h'. split; [by apply (delete_all_settled n (later s h k) _ x c true h' Hf2 Hcmp Hc Hnn Hset)|].
  assert (Hcap : forall a, a <> x -> capability <$> h' !! a = capability <$> h !! a) by (intros a Ha; by apply (unlinked_fields _ _ _ _ a Hun)).
  split; [|split; [by rewrite Hun, decide_True|done]].
  pose proof (forest_list _ _ _ _ Hf2) as Hdl. apply dlist_nodup_app in Hdl as (_ & _ & Hx1 & Hx2 & _).
  assert (Hkeep : forall a c', a <> x -> h' !! a = Some c' -> exists c0, h !! a = Some c0 /\ capability c' = capability c0).
  { intros a c' Ha Hc'. pose proof (Hcap a Ha) as E. rewrite Hc' in E. symmetry in E. apply fmap_Some in E as (c0 & ? & ?). eauto. }
  unfold revoking. change (ctes (later s h' k)) with h'. split; [|split; [|split; [|split]]].
  - by rewrite <- app_assoc in Hf'.
  - by eapply caps_comparable_unlink.
  - assert (slot <> x) as Hsx by set_solver. destruct (unlinked_fields _ _ _ _ slot Hun Hsx) as [E1 E2]. rewrite Hp in E1, E2.
    apply fmap_Some in E1 as (p' & Hp' & E1). rewrite Hp' in E2. cbn in E2.
    exists p'. split; [done|]. split; [congruence|]. injection E2 as ->. done.
  - intros a c' Ha Hc'. destruct (Hkeep a c') as (c0 & Hc0 & ->); [set_solver|done|].
    apply (Hcs a c0); [set_solver|done].
  - intros a c' Ha Hc'. destruct (Hkeep a c') as (c0 & Hc0 & ->); [|done|by apply (Hl2 a c0)].
    intros ->. destruct l2; [done|]. cbn in Ha. injection Ha as ->. set_solver.
Qed.

Lemma revoke_loop cs : forall n s h k,
  revoking (later s h k) cs -> (length cs + 3 <= n)%nat ->
  exists st h' k' j, revoke n slot (later s h k) = Ok (st, later s h' k') /\ (j <= length cs)%nat /\
    (st = EXCEPTION_NONE /\ j = length cs \/ st = EXCEPTION_PREEMTED /\ irq_waiting s = true) /\
    revoking (later s h' k') (drop j cs) /\
    (forall a, a ∈ take j cs -> h' !! a = Some empty_slot) /\
    (forall a, a ∉ take j cs -> capability <$> h' !! a = capability <$> h !! a).
Proof.
  induction cs as [|x cs IH]; intros n s h k Hrv Hn; destruct n as [|n]; try lia.
  - pose proof Hrv as (Hf & _ & (p & Hp & Epc & Hr) & _ & Hl2). pose proof Hf as [H0 _].
    destruct (forest_slot _ _ _ _ _ _ Hf) as (p' & Hp' & _ & _ & Hnx & _ & Hns).
    rewrite Hp in Hp'. injection Hp' as <-. exists EXCEPTION_NONE, h, k, 0%nat.
    split; [|by cbn; split_and!; try done; [left|set_solver]]. cbn [revoke].
    erewrite bind_ok by (apply get_cte_run; eauto with heap). rewrite Hnx. cbn [app].
    destruct (Z.eqb_spec (headz 0 l2) 0) as [|Hz]; [done|].
    destruct (Hns Hz) as [c Hc]. erewrite bind_ok by (by apply get_cte_run).
    assert (Hpar : is_mdb_parent_of p c = Ok false).
    { apply is_mdb_parent_unbadged; rewrite ?Epc; [done..|].
      destruct l2 as [|y l2']; [done|]. by apply (Hl2 y). }
    by erewrite bind_ok by (unfold lift_res; by rewrite Hpar).
  - pose proof Hrv as (Hf & _ & (p & Hp & Epc & Hr) & Hcs & _). pose proof Hf as [H0 _].
    destruct (forest_slot _ _ _ _ _ _ Hf) as (p' & Hp' & _ & _ & Hnx & _ & Hns).
    rewrite Hp in Hp'. injection Hp' as <-.
    change (headz 0 ((x :: cs) ++ l2)) with x in Hnx.
    assert (Hx : exists c, ctes (later s h k) !! x = Some c).
    { apply (forest_dom _ _ _ Hf). rewrite concat_app, concat_cons. set_solver. }
    destruct Hx as [c Hc]. assert (x <> 0) as Hx0 by (by eapply lookup_nonzero).
    cbn in Hn. destruct n as [|[|n]]; try lia.
    destruct (revoking_step n s h k x cs Hrv) as (h1 & Hd & Hrv1 & He1 & Hcap1).
    destruct (preemption_point_run s h1 k Hmcs) as (e & k1 & Hpp & He).
    assert (Hm : (length cs + 3 <= S (S n))%nat) by lia.
    remember (S (S n)) as m eqn:Em. clear Em.
    assert (Hhead : revoke (S m) slot (later s h k) =
      (if negb (exc_ok e) then ret e else revoke m slot) (later s h1 k1)).
    { cbn [revoke]. erewrite bind_ok by (apply get_cte_run; eauto with heap).
      rewrite Hnx. destruct (Z.eqb_spec x 0) as [|_]; [done|]. erewrite bind_ok by (by apply get_cte_run).
      assert (Hpar : is_mdb_parent_of p c = Ok true).
      { apply is_mdb_parent_unbadged; rewrite ?Epc; [done..|]. apply (Hcs x c); [set_solver|done]. }
      erewrite bind_ok by (unfold lift_res; by rewrite Hpar). cbn [negb].
      erewrite bind_ok by exact Hd. cbn [exc_ok negb]. by erewrite bind_ok by exact Hpp. }
    rewrite Hhead. destruct He as [->|[-> Hirq]]; cbn [exc_ok negb].
    + destruct (IH m s h1 k1) as (st & h' & k' & j & Hrun & Hj & Hst & Hrv' & Htk & Hnt); [exact Hrv1|done|].
      exists st, h', k', (S j). split; [done|]. split; [cbn; lia|].
      split; [destruct Hst as [[-> ->]|?]; [by left|by right]|]. split; [done|]. split.
      * intros a Ha. cbn in Ha. destruct (decide (a ∈ take j cs)) as [Hin|Hin]; [by apply Htk|].
        assert (a = x) as -> by set_solver. apply (forest_null_slot _ _ _ (proj1 Hrv')). by rewrite Hnt, He1.
      * intros a Ha. cbn in Ha. rewrite Hnt by set_solver. apply Hcap1. set_solver.
    + exists EXCEPTION_PREEMTED, h1, k1, 1%nat. split; [done|]. split; [cbn; lia|]. split; [by right|]. split; [exact Hrv1|].
      cbn. split.
      * intros a Ha. rewrite take_0 in Ha. assert (a = x) as -> by set_solver. done.
      * intros a Ha. apply Hcap1. rewrite take_0 in Ha. set_solver.
Qed.
End revoke.

(** C11. On the kernel without MCS, revoking an unbadged capability whose
    children have nothing to finalise (copies of the capability itself, other
    than mapped pages; unmapped pages and page tables, untyped memory, idle
    endpoints and notifications) deletes the children in derivation order and
    nothing else.  With fuel for each child the call returns; it deletes all
    of them unless an interrupt is waiting, and if it is preempted it has
    deleted a prefix of them and the derivation lists are again a forest, so
    that the call can be repeated.  Apart from the slots only the count of
    work units changes, no other slot changes its capability, and the deleted
    ones are empty. *)
Theorem revoke_deletes_children s ls1 l1 slot cs l2 ls2 pc n :
  kernel_mcs = false -> unbadged pc -> revoking ls1 ls2 l1 l2 slot pc s cs -> (length cs + 3 <= n)%nat ->
  exists st h k j, revoke n slot s = Ok (st, s <| ctes := h |> <| ksWorkUnitsCompleted := k |>) /\ (j <= length cs)%nat /\
    (st = EXCEPTION_NONE /\ j = length cs \/ st = EXCEPTION_PREEMTED /\ irq_waiting s = true) /\
    mdb_forest h (ls1 ++ (l1 ++ slot :: drop j cs ++ l2) :: ls2) /\
    (forall a, a ∈ take j cs -> h !! a = Some empty_slot) /\
    (forall a, a ∉ take j cs -> capability <$> h !! a = capability <$> ctes s !! a).
Proof.
  intros Hmcs Hu Hr Hn. assert (Es : later s (ctes s) (ksWorkUnitsCompleted s) = s) by by destruct s.
  destruct (revoke_loop Hmcs ls1 ls2 l1 l2 slot pc Hu cs n s (ctes s) (ksWorkUnitsCompleted s))
    as (st & h & k & j & H1 & H2 & H3 & (H4 & _) & H5 & H6); [by rewrite Es|done|].
  rewrite Es in H1. exists st, h, k, j. split_and!; done.
Qed.
End kernel.

(** ** Three capabilities to one endpoint *)

Module DeletionExample.
Definition state : kstate :=
  mk_kstate ∅ Example.slots ∅ ∅ ∅ ∅ ∅ (mk_vspace [] ∅ ∅ ∅ 0) [] [] [] 0 0 0 (mk_tcb_queue 0 0) 0 0 0 0
    false 0 0 0 0 seL4_Fault_NullFault invalid_root (mk_syscall_error 0 0 0 0 0 0 0) [] 0 0
    (mk_irq_state [] 0 0 ∅ 0 0).

Lemma comparable : @caps_comparable riscv_config Example.slots.
Proof.
  intros a b ca cb Ha Hb. unfold Example.slots in Ha, Hb.
  repeat (apply lookup_insert_Some in Ha as [[<- <-]|[_ Ha]];
    [repeat (apply lookup_insert_Some in Hb as [[<- <-]|[_ Hb]]; [by eexists|]); done|]).
  done.
Qed.
End DeletionExample.

Lemma delete_one_correct_witness :
  exists h, @delete_one riscv_config (@kernel_deps riscv_config 1) 64 DeletionExample.state =
      Ok (tt, DeletionExample.state <| ctes := h |>) /\
    mdb_forest h [[32; 96]; [128]] /\ h !! 128 = Example.slots !! 128.
Proof.
  destruct (@delete_one_correct riscv_config 0 DeletionExample.state [] [32] 64 [96] [[128]]
              (mk_cte (Example.ep_cap 7) (mk_mdb_node 96 1 1 32))) as (h & H1 & H2 & H3);
    [exact Example.slots_forest|exact DeletionExample.comparable|reflexivity|reflexivity| |].
  - intros final Hfin Ht. rewrite Ht in Hfin. vm_compute in Hfin. discriminate Hfin.
  - exists h. split; [exact H1|]. split; [exact H2|]. rewrite H3. reflexivity.
Defined.

Lemma revoke_deletes_children_witness :
  exists h k, @revoke riscv_config (@kernel_deps riscv_config 1) 10 32 DeletionExample.state =
      Ok (EXCEPTION_NONE, DeletionExample.state <| ctes := h |> <| ksWorkUnitsCompleted := k |>) /\
    mdb_forest h [[32]; [128]] /\ h !! 64 = Some empty_slot /\ h !! 96 = Some empty_slot.
Proof.
  destruct (@revoke_deletes_children riscv_config 0 DeletionExample.state [] [] 32 [64; 96] [] [[128]] (Example.ep_cap 0) 10)
    as (st & h & k & j & H1 & _ & H2 & H3 & H4 & _); [reflexivity|reflexivity| |cbn; lia|].
  - split; [exact Example.slots_forest|]. split; [exact DeletionExample.comparable|].
    split; [eexists; split; [reflexivity|]; split; [reflexivity|cbn; lia]|].
    split; [|discriminate]. intros a c Ha Hc.
    apply elem_of_cons in Ha as [->|Ha]; [|apply list_elem_of_singleton in Ha as ->].
    + change (Some (mk_cte (Example.ep_cap 7) (mk_mdb_node 96 1 1 32)) = Some c) in Hc. injection Hc as <-.
      split; [reflexivity|]. left. split; [reflexivity|discriminate].
    + change (Some (mk_cte (Example.ep_cap 9) (mk_mdb_node 0 1 1 64)) = Some c) in Hc. injection Hc as <-.
      split; [reflexivity|]. left. split; [reflexivity|discriminate].
  - exists h, k. destruct H2 as [[-> ->]|[_ Hirq]]; [|vm_compute in Hirq; discriminate Hirq].
    split; [exact H1|]. split; [exact H3|]. split; apply H4; cbn; set_solver.
Defined.
