(* ===== verification/Syscall.v ===== *)
(** * The system call layer's helpers
    (kernel/src/syscall/utils.rs, syscall_reply.rs, the fault part of
    syscall/mod.rs, kernel/src/object/mod.rs, message labels of
    sel4_common/src/arch)

    Message labels, reading arguments and extra capabilities, the error
    record that becomes the reply of a failed invocation, looking slots up for
    CNode operations, and delivering faults to fault handlers.  The instance
    [kernel_task] gives the scheduler the functions it calls back. *)

From S2P Require Import Prelude Monad Config Objects State CapOps CSpace VSpace.
From S2P Require Import Refill TcbQueue Sched Tcb SchedCtx Schedule Ipc Finalise.

(** ** Message labels *)

Inductive MessageLabel : Type :=
| InvalidInvocation
| UntypedRetype
| TCBReadRegisters | TCBWriteRegisters | TCBCopyRegisters | TCBConfigure
| TCBSetPriority | TCBSetMCPriority | TCBSetSchedParams | TCBSetTimeoutEndpoint
| TCBSetIPCBuffer | TCBSetSpace | TCBSuspend | TCBResume
| TCBBindNotification | TCBUnbindNotification | TCBSetTLSBase
| CNodeRevoke | CNodeDelete | CNodeCancelBadgedSends | CNodeCopy | CNodeMint
| CNodeMove | CNodeMutate | CNodeRotate | CNodeSaveCaller
| IRQIssueIRQHandler | IRQAckIRQ | IRQSetIRQHandler | IRQClearIRQHandler
| DomainSetSet
| SchedControlConfigureFlags | SchedContextBind | SchedContextUnbind
| SchedContextUnbindObject | SchedContextConsumed | SchedContextYieldTo
| RISCVPageTableMap | RISCVPageTableUnmap | RISCVPageMap | RISCVPageUnmap
| RISCVPageGetAddress | RISCVASIDControlMakePool | RISCVASIDPoolAssign
| RISCVIRQIssueIRQHandlerTrigger
| ARMVSpaceClean_Data | ARMVSpaceInvalidate_Data | ARMVSpaceCleanInvalidate_Data
| ARMVSpaceUnify_Instruction | ARMSMCCall
| ARMPageTableMap | ARMPageTableUnmap | ARMPageMap | ARMPageUnmap
| ARMPageClean_Data | ARMPageInvalidate_Data | ARMPageCleanInvalidate_Data
| ARMPageUnify_Instruction | ARMPageGetAddress
| ARMASIDControlMakePool | ARMASIDPoolAssign | ARMIRQIssueIRQHandlerTrigger
| nArchInvocationLabels.

Section syscall.
Context `{Config}.

(** The labels of a build in the order of their discriminants. *)
Definition message_labels : list MessageLabel :=
  let mcs l := if kernel_mcs then l else [] in
  let non_mcs l := if kernel_mcs then [] else l in
  [InvalidInvocation; UntypedRetype; TCBReadRegisters; TCBWriteRegisters; TCBCopyRegisters;
   TCBConfigure; TCBSetPriority; TCBSetMCPriority; TCBSetSchedParams]
  ++ mcs [TCBSetTimeoutEndpoint]
  ++ [TCBSetIPCBuffer; TCBSetSpace; TCBSuspend; TCBResume; TCBBindNotification;
      TCBUnbindNotification; TCBSetTLSBase; CNodeRevoke; CNodeDelete; CNodeCancelBadgedSends;
      CNodeCopy; CNodeMint; CNodeMove; CNodeMutate; CNodeRotate]
  ++ non_mcs [CNodeSaveCaller]
  ++ [IRQIssueIRQHandler; IRQAckIRQ; IRQSetIRQHandler; IRQClearIRQHandler; DomainSetSet]
  ++ mcs [SchedControlConfigureFlags; SchedContextBind; SchedContextUnbind;
          SchedContextUnbindObject; SchedContextConsumed; SchedContextYieldTo]
  ++ match target_arch with
     | RISCV64 =>
         [RISCVPageTableMap; RISCVPageTableUnmap; RISCVPageMap; RISCVPageUnmap;
          RISCVPageGetAddress; RISCVASIDControlMakePool; RISCVASIDPoolAssign;
          RISCVIRQIssueIRQHandlerTrigger]
     | AARCH64 =>
         [ARMVSpaceClean_Data; ARMVSpaceInvalidate_Data; ARMVSpaceCleanInvalidate_Data;
          ARMVSpaceUnify_Instruction; ARMSMCCall; ARMPageTableMap; ARMPageTableUnmap;
          ARMPageMap; ARMPageUnmap; ARMPageClean_Data; ARMPageInvalidate_Data;
          ARMPageCleanInvalidate_Data; ARMPageUnify_Instruction; ARMPageGetAddress;
          ARMASIDControlMakePool; ARMASIDPoolAssign; ARMIRQIssueIRQHandlerTrigger]
     end
  ++ [nArchInvocationLabels].

(** The label is transmuted to the enum without a range check: a label that
    names no variant is undefined behaviour. *)
Definition get_message_label (info : Z) : res MessageLabel :=
  match message_labels !! Z.to_nat (get_label info mod 2 ^ 32) with
  | Some l => Ok l
  | None => Err EUndef
  end.

(** ** Errors *)

(** [current_syscall_error.f = ...; return EXCEPTION_SYSCALL_ERROR]. *)
Definition syscall_error (f : syscall_error_t -> syscall_error_t) : K exception_t :=
  modify (fun s => s <| current_syscall_error := f (current_syscall_error s) |>) ;;;
  ret EXCEPTION_SYSCALL_ERROR.

Definition with_type (t : Z) (e : syscall_error_t) : syscall_error_t := e <| err_type := t |>.
Definition illegal_operation : K exception_t := syscall_error (with_type SEL4_ILLEGAL_OPERATION).
Definition truncated_message : K exception_t := syscall_error (with_type SEL4_TRUNCATED_MESSAGE).
Definition delete_first : K exception_t := syscall_error (with_type SEL4_DELETE_FIRST).
Definition alignment_error : K exception_t := syscall_error (with_type SEL4_ALIGNMENT_ERROR).
Definition invalid_argument (n : Z) : K exception_t :=
  syscall_error (fun e => with_type SEL4_INVALID_ARGUMENT e <| invalidArgumentNumber := n |>).
Definition invalid_capability (n : Z) : K exception_t :=
  syscall_error (fun e => with_type SEL4_INVALID_CAPABILITY e <| invalidCapNumber := n |>).
Definition range_error (lo hi : Z) : K exception_t :=
  syscall_error (fun e => with_type SEL4_RANGE_ERROR e <| rangeErrorMin := lo |> <| rangeErrorMax := hi |>).
Definition failed_lookup (was_source : Z) : K exception_t :=
  syscall_error (fun e => with_type SEL4_FAILED_LOOKUP e <| failedLookupWasSource := was_source |>).
(** The same, with the lookup fault the caller is told about. *)
Definition failed_lookup_with (was_source : Z) (f : lookup_fault) : K exception_t :=
  set_lookup_fault f ;;; failed_lookup was_source.

Definition set_fault (f : seL4_Fault) : K unit := modify (fun s => s <| current_fault := f |>).

(** ** Untyped memory arithmetic *)

Definition alignUp (baseValue alignment : Z) : Z :=
  Z.land ((baseValue +w bit alignment) -w 1) (wnot (mask_bits alignment)).
Definition FREE_INDEX_TO_OFFSET (freeIndex : Z) : Z := freeIndex <<w SEL4_MIN_UNTYPED_BITS.
Definition GET_FREE_REF (base freeIndex : Z) : Z := base +w FREE_INDEX_TO_OFFSET freeIndex.
Definition GET_FREE_INDEX (base free : Z) : Z := (free -w base) >>w SEL4_MIN_UNTYPED_BITS.
Definition GET_OFFSET_FREE_PTR (base offset : Z) : Z := base +w offset.
Definition OFFSET_TO_FREE_IDNEX (offset : Z) : Z := offset >>w SEL4_MIN_UNTYPED_BITS.

(** ** Arguments *)

Definition cur_thread : K Z := gets ksCurThread.

Definition syscall_lookup_extra_caps_with_buf (thread : Z) (buf : option Z) : K exception_t :=
  let* res := gets current_extra_caps in
  let* r := lookup_extra_caps_with_buf thread res buf in
  modify (fun s => s <| current_extra_caps := snd r |>) ;;;
  match fst r with
  | Some fault => set_fault fault ;;; ret EXCEPTION_LOOKUP_FAULT
  | None => ret EXCEPTION_NONE
  end.

Definition get_extra_cap_by_index (index : Z) : K (option Z) :=
  kassert (index <? SEL4_MSG_MAX_EXTRA_CAPS) ;;;
  let* l := gets current_extra_caps in
  let* p := lift_res (array_get l index) in
  ret (if p =? 0 then None else Some p).

(** [get_extra_cap_by_index(i).is_none()], and [get_extra_cap_by_index(i).unwrap()]. *)
Definition no_extra_cap (index : Z) : K bool :=
  let* o := get_extra_cap_by_index index in
  ret (match o with None => true | Some _ => false end).
Definition extra_cap (index : Z) : K Z := let* o := get_extra_cap_by_index index in unwrap o.
Definition slot_cap (slot : Z) : K cap := let* c := get_cte slot in ret (capability c).

Definition get_syscall_arg (i ipc_buffer : Z) : K Z :=
  if i <? MSG_REGISTER_NUM then let* cur := cur_thread in get_register cur (Msg i)
  else buffer_get_msg ipc_buffer i.

Definition check_prio (prio auth_tcb : Z) : K exception_t :=
  let* t := get_tcb auth_tcb in
  if tcbMCP t <? prio then range_error SEL4_MIN_PRIO (tcbMCP t) else ret EXCEPTION_NONE.

Definition check_ipc_buffer_vaild (vptr : Z) (c : cap) : K exception_t :=
  match c with
  | cap_frame_cap f =>
      if negb (capFIsDevice f =? 0) then illegal_operation
      else if negb (Z.land vptr (mask_bits SEL4_IPC_BUFFER_SIZE_BITS) =? 0) then alignment_error
      else ret EXCEPTION_NONE
  | _ => illegal_operation
  end.

(** [is_valid_vtable_root]: a mapped page table on RISC-V, a native root on
    AArch64 (sel4_cspace/src/arch/aarch64/mod.rs). *)
Definition is_valid_vtable_root (c : cap) : bool :=
  match target_arch with
  | RISCV64 =>
      match c with cap_page_table_cap pt => negb (capPTIsMapped pt =? 0) | _ => false end
  | AARCH64 => is_valid_native_root c
  end.

(** A failing [resolve_address_bits] leaves [current_lookup_fault] as it is. *)
Definition lookup_slot_for_cnode_op (is_source : bool) (root : cap) (cap_ptr depth : Z)
    : K lookupSlot_raw_ret_t :=
  let failed (m : K exception_t) := let* status := m in ret (mk_lookupSlot_raw_ret status 0) in
  let src := bool_to_word is_source in
  match root with
  | cap_cnode_cap _ =>
      if (depth <? 1) || (WORD_BITS <? depth) then failed (range_error 1 WORD_BITS) else
      let* res_ret := on_ctes (resolve_address_bits root cap_ptr depth) in
      if negb (exc_ok (ra_status res_ret)) then failed (failed_lookup src)
      else if negb (ra_bitsRemaining res_ret =? 0) then
        failed (failed_lookup_with src (depth_mismatch 0 (ra_bitsRemaining res_ret)))
      else ret (mk_lookupSlot_raw_ret EXCEPTION_NONE (ra_slot res_ret))
  | _ => failed (failed_lookup_with src invalid_root)
  end.

Definition ensure_empty_slot (slot : Z) : K exception_t :=
  let* c := slot_cap slot in
  if is_null_cap c then ret EXCEPTION_NONE else delete_first.

(** ** Replies (syscall_reply.rs) *)

Definition set_mrs_for_syscall_error (thread : Z) : K Z :=
  let* e := gets current_syscall_error in
  let t := err_type e in
  if t =? SEL4_INVALID_ARGUMENT then set_mr thread 0 (invalidArgumentNumber e)
  else if t =? SEL4_INVALID_CAPABILITY then set_mr thread 0 (invalidCapNumber e)
  else if t =? SEL4_RANGE_ERROR then
    let* _ := set_mr thread 0 (rangeErrorMin e) in set_mr thread 1 (rangeErrorMax e)
  else if t =? SEL4_FAILED_LOOKUP then
    let* _ := set_mr thread 0 (bool_to_word (failedLookupWasSource e =? 1)) in
    let* f := gets current_lookup_fault in
    set_lookup_fault_mrs thread 1 f
  else if (t =? SEL4_ILLEGAL_OPERATION) || (t =? SEL4_ALIGNMENT_ERROR)
          || (t =? SEL4_TRUNCATED_MESSAGE) || (t =? SEL4_DELETE_FIRST)
          || (t =? SEL4_REVOKE_FIRST) then ret 0
  else if t =? SEL4_NOT_ENOUGH_MEMORY then set_mr thread 0 (memoryLeft e)
  else fail EPanic.

Definition reply_error_from_kernel (thread : Z) : K unit :=
  set_register thread Badge 0 ;;;
  let* len := set_mrs_for_syscall_error thread in
  let* e := gets current_syscall_error in
  set_register thread MsgInfo (messageInfo_new (err_type e) 0 0 len).

Definition reply_success_from_kernel (thread : Z) : K unit :=
  set_register thread Badge 0 ;;;
  set_register thread MsgInfo (messageInfo_new 0 0 0 0).

(** ** Capability lookup (object/mod.rs) *)

Record lookupCap_ret_t := mk_lookupCap_ret { lc_status : exception_t; lc_capability : cap }.
Record lookupCapAndSlot_ret_t := mk_lookupCapAndSlot_ret {
  lcs_status : exception_t; lcs_capability : cap; lcs_slot : Z }.

Definition lookupCapAndSlot (thread cPtr : Z) : K lookupCapAndSlot_ret_t :=
  let* lu_ret := lookup_slot thread cPtr in
  if negb (exc_ok (ls_status lu_ret)) then ret (mk_lookupCapAndSlot_ret (ls_status lu_ret) cap_null_cap 0)
  else
    let* c := slot_cap (ls_slot lu_ret) in
    ret (mk_lookupCapAndSlot_ret EXCEPTION_NONE c (ls_slot lu_ret)).

Definition lookup_cap (thread cPtr : Z) : K lookupCap_ret_t :=
  let* lu_ret := lookup_slot thread cPtr in
  if negb (exc_ok (ls_status lu_ret)) then ret (mk_lookupCap_ret (ls_status lu_ret) cap_null_cap)
  else
    let* c := slot_cap (ls_slot lu_ret) in
    ret (mk_lookupCap_ret EXCEPTION_NONE c).

(** ** Faults *)

(** [send_fault_ipc] without MCS. *)
Definition send_fault_ipc (thread : Z) : K exception_t :=
  let* origin_lookup_fault := gets current_lookup_fault in
  let* t := get_tcb thread in
  let handler := TCB_FAULT_HANDLER t in
  let* lu_ret := lookup_slot thread handler in
  if negb (exc_ok (ls_status lu_ret)) then
    set_fault (seL4_Fault_CapFault handler 0) ;;; ret EXCEPTION_FAULT
  else
    let no_handler :=
      set_fault (seL4_Fault_CapFault handler 0) ;;;
      set_lookup_fault (missing_capability 0) ;;;
      ret EXCEPTION_FAULT in
    let* c := slot_cap (ls_slot lu_ret) in
    match c with
    | cap_endpoint_cap e =>
        if negb (capCanGrant e =? 0) || negb (capCanGrantReply e =? 0) then
          let* fault := gets current_fault in
          mod_tcb thread (fun t => t <| tcbFault := fault |>) ;;;
          when (match fault with seL4_Fault_CapFault _ _ => true | _ => false end)
            (mod_tcb thread (fun t => t <| tcbLookupFailure := origin_lookup_fault |>)) ;;;
          send_ipc (capEPPtr e) thread true true (negb (capCanGrant e =? 0)) (capEPBadge e) true ;;;
          ret EXCEPTION_NONE
        else no_handler
    | _ => no_handler
    end.

(** [send_fault_ipc] with MCS. *)
Definition send_fault_ipc_mcs (thread : Z) (handlerCap : cap) (can_donate : bool) : K bool :=
  match handlerCap with
  | cap_endpoint_cap e =>
      kassert (negb (capCanSend e =? 0)) ;;;
      kassert (negb (capCanGrant e =? 0) || negb (capCanGrantReply e =? 0)) ;;;
      let* fault := gets current_fault in
      mod_tcb thread (fun t => t <| tcbFault := fault |>) ;;;
      send_ipc_mcs (capEPPtr e) thread true false (negb (capCanGrant e =? 0)) (capEPBadge e)
        (negb (capCanGrantReply e =? 0)) can_donate ;;;
      ret true
  | cap_null_cap => ret false
  | _ => fail EPanic
  end.

Definition handle_fault (thread : Z) : K unit :=
  if kernel_mcs then
    let* c := tcb_cap thread TCB_FAULT_HANDLER_SLOT in
    let* t := get_tcb thread in
    let* hasFaultHandler := send_fault_ipc_mcs thread c (negb (tcbSchedContext t =? 0)) in
    when (negb hasFaultHandler) (set_thread_state thread ThreadStateInactive)
  else
    let* status := send_fault_ipc thread in
    when (negb (exc_ok status)) (set_thread_state thread ThreadStateInactive).

Definition kernel_handleTimeout (tptr : Z) : K unit :=
  let* valid := valid_timeout_handler tptr in
  kassert valid ;;;
  let* c := tcb_cap tptr TCB_TIMEOUT_HANDLER in
  let* _ := send_fault_ipc_mcs tptr c false in
  ret tt.

Definition lookup_reply : K lookupCap_ret_t :=
  let* cur := cur_thread in
  let* reply_ptr := get_register cur Reply in
  let* lu_ret := lookup_cap cur reply_ptr in
  if negb (exc_ok (lc_status lu_ret)) then
    set_fault (seL4_Fault_CapFault reply_ptr 1) ;;;
    handle_fault cur ;;;
    ret lu_ret
  else
    match lc_capability lu_ret with
    | cap_reply_cap _ => ret lu_ret
    | _ =>
        set_fault (seL4_Fault_CapFault reply_ptr 1) ;;;
        handle_fault cur ;;;
        ret (mk_lookupCap_ret EXCEPTION_FAULT (lc_capability lu_ret))
    end.

#[export] Instance kernel_task : TaskDeps :=
  {| reorder_ep := ep_reorder; reorder_ntfn := ntfn_reorder; handleTimeout := kernel_handleTimeout |}.

(** The state of the calling thread while an invocation runs. *)
Definition set_cur_restart : K unit :=
  let* cur := cur_thread in set_thread_state cur ThreadStateRestart.
End syscall.

(** [check m in k]: go on when the status of [m] is [EXCEPTION_NONE]. *)
Notation "'check' m 'in' k" :=
  (bind m (fun status => if exc_ok status then k else ret status))
  (at level 10, m at level 200, k at level 200) : kernel_scope.
