(* ===== verification/Untyped.v ===== *)
(** * Untyped memory
    (kernel/src/syscall/invocation/decode/decode_untyped_invocation.rs,
    invoke_untyped.rs, invocation/arch, sel4_common/src/object.rs)

    The retype invocation: object types and their sizes, the checks, clearing
    an untyped that has no children left, and the creation of objects and
    their capabilities.

    The heaps of the model are typed, so clearing a region removes the objects
    in it, and a retyped piece of (zero) memory is entered in the heap of its
    type as an object whose fields are zero. *)

From S2P Require Import Prelude Monad Config Objects State CapOps CSpace VSpace.
From S2P Require Import Refill TcbQueue Sched Tcb SchedCtx Schedule Ipc Finalise Syscall.

(** ** Object types *)

Inductive ObjectType : Type :=
| UnytpedObject | TCBObject | EndpointObject | NotificationObject | CapTableObject
| SchedContextObject | ReplyObject
| GigaPageObject | NormalPageObject | MegaPageObject | PageTableObject
| seL4_ARM_HugePageObject | seL4_ARM_VSpaceObject | seL4_ARM_SmallPageObject
| seL4_ARM_LargePageObject | seL4_ARM_PageTableObject.
#[export] Instance ObjectType_eq_dec : EqDecision ObjectType.
Proof. solve_decision. Defined.

Section untyped.
Context `{Config}.

Definition object_types : list ObjectType :=
  [UnytpedObject; TCBObject; EndpointObject; NotificationObject; CapTableObject]
  ++ (if kernel_mcs then [SchedContextObject; ReplyObject] else [])
  ++ match target_arch with
     | RISCV64 => [GigaPageObject; NormalPageObject; MegaPageObject; PageTableObject]
     | AARCH64 =>
         [seL4_ARM_HugePageObject; seL4_ARM_VSpaceObject; seL4_ARM_SmallPageObject;
          seL4_ARM_LargePageObject; seL4_ARM_PageTableObject]
     end.
Definition OBJECT_TYPE_COUNT : Z := Z.of_nat (length object_types).

Definition from_usize (value : Z) : option ObjectType :=
  if OBJECT_TYPE_COUNT <=? value then None else object_types !! Z.to_nat value.

Definition arch_get_object_size (t : ObjectType) : res Z :=
  match t with
  | GigaPageObject | seL4_ARM_HugePageObject => Ok SEL4_HUGE_PAGE_BITS
  | NormalPageObject | seL4_ARM_SmallPageObject => Ok SEL4_PAGE_BITS
  | MegaPageObject | seL4_ARM_LargePageObject => Ok SEL4_LARGE_PAGE_BITS
  | PageTableObject => Ok SEL4_PAGE_BITS
  | seL4_ARM_PageTableObject => Ok SEL4_PAGE_TABLE_BITS
  | seL4_ARM_VSpaceObject => Ok SEL4_VSPACE_BITS
  | _ => Err EPanic
  end.

Definition get_object_size (t : ObjectType) (user_object_size : Z) : res Z :=
  match t with
  | UnytpedObject => Ok user_object_size
  | TCBObject => Ok SEL4_TCB_BITS
  | EndpointObject => Ok SEL4_ENDPOINT_BITS
  | NotificationObject => Ok SEL4_NOTIFICATION_BITS
  | CapTableObject => Ok (SEL4_SLOT_BITS +w user_object_size)
  | SchedContextObject => Ok user_object_size
  | ReplyObject => Ok SEL4_REPLY_BITS
  | _ => arch_get_object_size t
  end.

Definition get_frame_type (t : ObjectType) : res Z :=
  match t with
  | NormalPageObject | seL4_ARM_SmallPageObject => Ok 0
  | MegaPageObject | seL4_ARM_LargePageObject => Ok 1
  | GigaPageObject | seL4_ARM_HugePageObject => Ok 2
  | _ => Err EPanic
  end.

Definition is_arch_type (t : ObjectType) : bool :=
  match t with
  | GigaPageObject | NormalPageObject | MegaPageObject
  | seL4_ARM_HugePageObject | seL4_ARM_SmallPageObject | seL4_ARM_LargePageObject => true
  | _ => false
  end.

(** ** Memory *)

Definition outside (base size p : Z) : bool := (p <? base) || (base + size <=? p).
Definition drop_region {A} (base size : Z) (h : gmap Z A) : gmap Z A :=
  filter (fun '(p, _) => outside base size p = true) h.

(** [clear_memory(ptr, bits)]. *)
Definition clear_memory (ptr bits : Z) : K unit :=
  let n := bit bits in
  modify (fun s =>
    s <| tcbs := drop_region ptr n (tcbs s) |>
      <| ctes := drop_region ptr n (ctes s) |>
      <| eps := drop_region ptr n (eps s) |>
      <| ntfns := drop_region ptr n (ntfns s) |>
      <| scs := drop_region ptr n (scs s) |>
      <| replies := drop_region ptr n (replies s) |>
      <| ipc_buffers := drop_region ptr n (ipc_buffers s) |>
      <| vspace := (vspace s) <| ptes := drop_region ptr n (ptes (vspace s)) |>
                    <| asid_pools := drop_region ptr n (asid_pools (vspace s)) |>
                    <| asid_map_pools := drop_region ptr n (asid_map_pools (vspace s)) |> |>).

(** Zero objects. *)
Definition zero_cte : cte_t := mk_cte cap_null_cap mdb_zero.
Definition zero_thread_state : thread_state := mk_thread_state ThreadStateInactive 0 0 0 0 0 0 0 0.

(** [ArchTCB::default]: only the status register is not zero. *)
Definition ArchTCB_default : ArchTCB :=
  mk_ArchTCB
    match target_arch with
    | RISCV64 => <[32%nat := 0x00040020]> (replicate 35 0)
    | AARCH64 => <[33%nat := Z.lor (bit 6) (bit 8)]> (replicate 37 0)
    end.
Definition zero_tcb (arch : ArchTCB) : tcb_t :=
  mk_tcb arch zero_thread_state 0 seL4_Fault_NullFault invalid_root 0 0 0 0 0 0 0 0 0 0 0 0 0.
Definition zero_sc (n : nat) : sched_context :=
  mk_sched_context 0 0 0 0 0 0 0 0 0 0 0 false (replicate n (mk_refill 0 0)).
Definition zero_buffer : seL4_IPCBuffer :=
  mk_ipc_buffer 0 (replicate (Z.to_nat SEL4_MSG_MAX_LENGTH) 0) 0
    (replicate (Z.to_nat SEL4_MSG_MAX_EXTRA_CAPS) 0) 0 0 0.

(** [n] objects [a] from [p] on, [step] bytes apart. *)
Fixpoint lay_out {A} (n : nat) (p step : Z) (a : A) (h : gmap Z A) : gmap Z A :=
  match n with
  | O => h
  | S n => <[p := a]> (lay_out n (p + step) step a h)
  end.

Definition new_slots (base : Z) (n : nat) : K unit :=
  modify (fun s => s <| ctes := lay_out n base cte_size zero_cte (ctes s) |>).
Definition new_table (base : Z) : K unit :=
  modify (fun s => s <| vspace := (vspace s) <| ptes := lay_out 512 base 8 0 (ptes (vspace s)) |> |>).
(** A frame can hold an IPC buffer at every multiple of its size. *)
Definition new_frame (base bits device_mem : Z) : K unit :=
  when (device_mem =? 0)
    (modify (fun s => s <| ipc_buffers :=
       lay_out (Z.to_nat (2 ^ (bits - SEL4_IPC_BUFFER_SIZE_BITS))) base (bit SEL4_IPC_BUFFER_SIZE_BITS)
         zero_buffer (ipc_buffers s) |>)).

(** ** Creating objects *)

Definition TCB_OFFSET : Z := bit (SEL4_TCB_BITS -w 1).

(** The capability to a new object. *)
Definition object_cap (t : ObjectType) (base user_size device_mem : Z) : res cap :=
  match t with
  | TCBObject => Ok (cap_thread_cap (base +w TCB_OFFSET))
  | CapTableObject => Ok (cap_cnode_cap (mk_cnode_cap user_size 0 0 base))
  | NotificationObject => Ok (cap_notification_cap (mk_notification_cap 0 1 1 base))
  | EndpointObject => Ok (cap_endpoint_cap (mk_endpoint_cap 0 1 1 1 1 base))
  | UnytpedObject => Ok (cap_untyped_cap (mk_untyped_cap 0 device_mem user_size base))
  | SchedContextObject => Ok (cap_sched_context_cap (mk_sched_context_cap base user_size))
  | ReplyObject => Ok (cap_reply_cap (mk_reply_cap base 0 0 1))
  | PageTableObject | seL4_ARM_PageTableObject =>
      Ok (cap_page_table_cap (mk_page_table_cap ASID_INVALID base 0 0))
  | seL4_ARM_VSpaceObject => Ok (cap_vspace_cap (mk_vspace_cap ASID_INVALID base 0))
  | _ =>
      match get_frame_type t with
      | Ok ft => Ok (cap_frame_cap (mk_frame_cap ASID_INVALID base ft VMReadWrite device_mem 0))
      | Err e => Err e
      end
  end.

(** The object itself; [tcbTimeSlice] is set in the MCS build only. *)
Definition init_object (t : ObjectType) (base user_size device_mem : Z) : K unit :=
  match t with
  | TCBObject =>
      let* dom := gets ksCurDomain in
      let tcb := zero_tcb ArchTCB_default in
      let tcb := if kernel_mcs then tcb <| tcbTimeSlice := CONFIG_TIME_SLICE |> else tcb in
      modify (fun s => s <| tcbs := <[base +w TCB_OFFSET := tcb <| domain := dom |>]> (tcbs s) |>) ;;;
      new_slots base (Z.to_nat TCB_CNODE_ENTRIES)
  | CapTableObject => new_slots base (Z.to_nat (2 ^ user_size))
  | NotificationObject =>
      modify (fun s => s <| ntfns := <[base := mk_notification 0 0 0 0 0 Ntfn_Idle]> (ntfns s) |>)
  | EndpointObject => modify (fun s => s <| eps := <[base := mk_endpoint 0 0 EP_Idle]> (eps s) |>)
  | UnytpedObject => ret tt
  | SchedContextObject =>
      let n := Z.to_nat (refill_absolute_max (mk_sched_context_cap base user_size)) in
      modify (fun s => s <| scs := <[base := zero_sc n]> (scs s) |>)
  | ReplyObject =>
      modify (fun s => s <| replies := <[base := mk_reply 0 call_stack_zero call_stack_zero]> (replies s) |>)
  | PageTableObject | seL4_ARM_PageTableObject | seL4_ARM_VSpaceObject => new_table base
  | _ =>
      let* bits := lift_res (arch_get_object_size t) in new_frame base bits device_mem
  end.

Definition create_object (t : ObjectType) (region_base user_size device_mem : Z) : K cap :=
  init_object t region_base user_size device_mem ;;;
  lift_res (object_cap t region_base user_size device_mem).

Definition create_new_objects (t : ObjectType) (parent dest_cnode dest_offset dest_length
    region_base user_size device_mem : Z) : K unit :=
  let* object_size := lift_res (get_object_size t user_size) in
  for_range (Z.to_nat dest_length) 0 (fun i =>
    let* c := create_object t (region_base +w (i <<w object_size)) user_size device_mem in
    on_ctes (insert_new_cap parent (get_offset_slot dest_cnode (dest_offset +w i)) c)).

(** ** Invoking an untyped *)

(** The untyped capability in a slot, read and updated in place. *)
Definition slot_untyped (slot : Z) : K untyped_cap :=
  let* c := slot_cap slot in
  match c with cap_untyped_cap u => ret u | _ => fail EPanic end.
Definition set_capFreeIndex (slot v : Z) : K unit :=
  let* u := slot_untyped slot in
  mod_cte slot (fun c => c <| capability := cap_untyped_cap (u <| capFreeIndex := v |>) |>).

Section invoke.
Context `{CSpaceDeps}.

(** The loop of [reset_untyped_cap]; [offset] is signed. *)
Fixpoint reset_loop (fuel : nat) (srcSlot region_base offset : Z) : K exception_t :=
  match fuel with
  | O => fail EFuel
  | S n =>
      if offset =? - bit CONFIG_RESET_CHUNK_BITS then ret EXCEPTION_NONE else
      clear_memory (GET_OFFSET_FREE_PTR region_base offset) CONFIG_RESET_CHUNK_BITS ;;;
      set_capFreeIndex srcSlot (OFFSET_TO_FREE_IDNEX offset) ;;;
      let* status := preemption_point in
      if negb (exc_ok status) then ret status
      else reset_loop n srcSlot region_base (offset - bit CONFIG_RESET_CHUNK_BITS)
  end.

Definition reset_untyped_cap (srcSlot : Z) : K exception_t :=
  let* prev_cap := slot_untyped srcSlot in
  let block_size := capBlockSize prev_cap in
  let region_base := capPtr prev_cap in
  let chunk := CONFIG_RESET_CHUNK_BITS in
  let offset := FREE_INDEX_TO_OFFSET (capFreeIndex prev_cap) in
  if offset =? 0 then ret EXCEPTION_NONE else
  if negb (capIsDevice prev_cap =? 0) || (block_size <? chunk) then
    when (capIsDevice prev_cap =? 0) (clear_memory region_base block_size) ;;;
    set_capFreeIndex srcSlot 0 ;;;
    ret EXCEPTION_NONE
  else
    let start := ((offset -w 1) >>w chunk) <<w chunk in
    reset_loop (Z.to_nat (start / 2 ^ chunk + 2)) srcSlot region_base start.

Definition invoke_untyped_retype (src_slot : Z) (reset : bool) (retype_base : Z) (new_type : ObjectType)
    (user_size dest_cnode dest_offset dest_length device_mem : Z) : K exception_t :=
  let* u := slot_untyped src_slot in
  let region_base := capPtr u in
  check (if reset then reset_untyped_cap src_slot else ret EXCEPTION_NONE) in
  let* object_size := lift_res (get_object_size new_type user_size) in
  let free_ref := retype_base +w (dest_length <<w object_size) in
  set_capFreeIndex src_slot (GET_FREE_INDEX region_base free_ref) ;;;
  create_new_objects new_type src_slot dest_cnode dest_offset dest_length retype_base user_size device_mem ;;;
  ret EXCEPTION_NONE.

(** ** Decoding *)

Definition check_object_type (new_type : ObjectType) (user_obj_size : Z) : K exception_t :=
  if bool_decide (new_type = CapTableObject) && (user_obj_size =? 0) then invalid_argument 1
  else if bool_decide (new_type = UnytpedObject) && (user_obj_size <? SEL4_MIN_UNTYPED_BITS)
  then invalid_argument 1
  else ret EXCEPTION_NONE.

(** [get_target_cnode]: the status, and the CNode capability on success. *)
Definition get_target_cnode (node_index node_depth : Z) : K (exception_t + cnode_cap) :=
  let* root_slot := extra_cap 0 in
  let* root_cap := slot_cap root_slot in
  let* target :=
    (if node_depth =? 0 then ret (inr root_cap)
     else
       let* lu_ret := lookup_slot_for_cnode_op false root_cap node_index node_depth in
       if negb (exc_ok (ls_status lu_ret)) then ret (inl (ls_status lu_ret))
       else let* c := slot_cap (ls_slot lu_ret) in ret (inr c)) in
  match target with
  | inl status => ret (inl status)
  | inr (cap_cnode_cap node_cap) => ret (inr node_cap)
  | inr _ =>
      let* status := failed_lookup_with 0 (missing_capability node_depth) in
      ret (inl status)
  end.

(** The loop of [check_cnode_slot] over the destination window. *)
Fixpoint check_window (n : nat) (dest_cnode i : Z) : K exception_t :=
  match n with
  | O => ret EXCEPTION_NONE
  | S n =>
      let* c := slot_cap (get_offset_slot dest_cnode i) in
      if is_null_cap c then check_window n dest_cnode (i + 1) else delete_first
  end.

Definition check_cnode_slot (node_cap : cnode_cap) (node_offset node_window : Z) : K exception_t :=
  let node_size := 1 <<w capCNodeRadix node_cap in
  if node_size -w 1 <? node_offset then range_error 0 (node_size -w 1)
  else if (node_window <? 1) || (CONFIG_RETYPE_FAN_OUT_LIMIT <? node_window)
  then range_error 1 CONFIG_RETYPE_FAN_OUT_LIMIT
  else if node_size -w node_offset <? node_window then range_error 1 (node_size -w node_offset)
  else check_window (Z.to_nat node_window) (capCNodePtr node_cap) node_offset.

(** The last part of [decode_untyed_invocation]: how much memory is left, and
    where the new objects go. *)
Definition decode_retype (slot : Z) (u : untyped_cap) (new_type : ObjectType) (user_obj_size obj_size : Z)
    (node_cap : cnode_cap) (node_offset node_window : Z) : K exception_t :=
  let* status := on_ctes (ensure_no_children slot) in
  let children := negb (exc_ok status) in
  when children
    (modify (fun s => s <| current_syscall_error ::= with_type SEL4_REVOKE_FIRST |>)) ;;;
  let free_index := if children then capFreeIndex u else 0 in
  let reset := negb children in
  let free_ref := GET_FREE_REF (capPtr u) free_index in
  let untyped_free_bytes := bit (capBlockSize u) -w FREE_INDEX_TO_OFFSET free_index in
  if untyped_free_bytes >>w obj_size <? node_window then
    syscall_error (fun e => with_type SEL4_NOT_ENOUGH_MEMORY e <| memoryLeft := untyped_free_bytes |>)
  else
    let device_mem := negb (capIsDevice u =? 0) in
    if device_mem && negb (is_arch_type new_type) && negb (bool_decide (new_type = UnytpedObject))
    then invalid_argument 1
    else
      let aligned_free_ref := alignUp free_ref obj_size in
      set_cur_restart ;;;
      invoke_untyped_retype slot reset aligned_free_ref new_type user_obj_size (capCNodePtr node_cap)
        node_offset node_window (bool_to_word device_mem).

Definition decode_untyed_invocation (inv_label : MessageLabel) (length slot : Z) (u : untyped_cap)
    (buffer : Z) : K exception_t :=
  match inv_label with
  | UntypedRetype =>
      let* missing := no_extra_cap 0 in
      if (length <? 6) || missing then truncated_message else
      let* type_arg := get_syscall_arg 0 buffer in
      match from_usize type_arg with
      | None => invalid_argument 0
      | Some new_type =>
          let* user_obj_size := get_syscall_arg 1 buffer in
          let* node_index := get_syscall_arg 2 buffer in
          let* node_depth := get_syscall_arg 3 buffer in
          let* node_offset := get_syscall_arg 4 buffer in
          let* node_window := get_syscall_arg 5 buffer in
          let* obj_size := lift_res (get_object_size new_type user_obj_size) in
          if (WORD_BITS <=? user_obj_size) || (SEL4_MAX_UNTYPED_BITS <? obj_size)
          then range_error 0 SEL4_MAX_UNTYPED_BITS else
          check (check_object_type new_type user_obj_size) in
          if kernel_mcs && bool_decide (new_type = SchedContextObject)
             && (user_obj_size <? SEL4_MIN_SCHED_CONTEXT_BITS) then invalid_argument 1 else
          let* target := get_target_cnode node_index node_depth in
          match target with
          | inl status => ret status
          | inr node_cap =>
              check (check_cnode_slot node_cap node_offset node_window) in
              decode_retype slot u new_type user_obj_size obj_size node_cap node_offset node_window
          end
      end
  | _ => illegal_operation
  end.
End invoke.
End untyped.
