(* ===== verification/Example.v ===== *)
(** * A small system the witnesses of the system call properties run in

    One thread at 0x1200 (its slots at 0x1000) whose CSpace is a CNode of
    eight slots at 0x2000, with an IPC buffer in the frame at 0x4000, and an
    untyped of 4 KiB at 0x8000.  [invoking] puts a message of that thread in
    its registers and its buffer. *)

From S2P Require Import Prelude Monad Config Objects State CapOps CSpace Untyped.

Definition slot_addr (i : Z) : Z := 0x2000 + 32 * i.

Definition root_cnode : cap := cap_cnode_cap (mk_cnode_cap 3 61 0 0x2000).
Definition example_untyped : untyped_cap := mk_untyped_cap 0 0 12 0x8000.
Definition buffer_frame : cap := cap_frame_cap (mk_frame_cap 1 0x4000 0 3 0 0x10000).

Definition plain_slot (c : cap) : cte_t := mk_cte c (mk_mdb_node 0 1 1 0).

(** Slots 1, 2 and 3 hold the CNode, the untyped and the thread itself. *)
Definition example_ctes : gmap Z cte_t :=
  list_to_map
    ([(0x1000, plain_slot root_cnode); (0x1020, zero_cte); (0x1040, zero_cte); (0x1060, zero_cte);
      (0x1080, plain_slot buffer_frame);
      (slot_addr 0, zero_cte); (slot_addr 1, plain_slot root_cnode);
      (slot_addr 2, plain_slot (cap_untyped_cap example_untyped));
      (slot_addr 3, plain_slot (cap_thread_cap 0x1200))]
     ++ map (fun i => (slot_addr i, zero_cte)) [4; 5; 6; 7]).

Definition running_tcb (regs : list Z) : tcb_t :=
  (zero_tcb (mk_ArchTCB regs)) <| tcbState := zero_thread_state <| tsType := ThreadStateRunning |> |>
    <| tcbPriority := 100 |> <| tcbMCP := 255 |> <| tcbIPCBuffer := 0x10000 |>.

(** Registers with a capability pointer, a message information word and four
    message registers (RISC-V). *)
Definition message_regs (cptr info : Z) (mrs : list Z) : list Z :=
  replicate 9 0 ++ [cptr; info] ++ mrs ++ replicate 20 0.

Definition zero_error : syscall_error_t := mk_syscall_error 0 0 0 0 0 0 0.

Definition base_state : kstate :=
  mk_kstate ∅ ∅ ∅ ∅ ∅ ∅ ∅ (mk_vspace [] ∅ ∅ ∅ 0)
    (replicate 256 (mk_tcb_queue 0 0)) [0] [replicate 4 0]
    0x1200 0x6200 0 (mk_tcb_queue 0 0) 0 0 0 0 false 0 0 0 0
    seL4_Fault_NullFault invalid_root zero_error [0; 0; 0] 0 0
    (mk_irq_state [] 0 255 ∅ 0 0).

Definition invoking (cptr info : Z) (mrs buf_msg extra : list Z) : kstate :=
  base_state
    <| tcbs := {[0x1200 := running_tcb (message_regs cptr info mrs)]} |>
    <| ctes := example_ctes |>
    <| ipc_buffers := {[0x4000 := zero_buffer <| msg := buf_msg ++ replicate (120 - length buf_msg) 0 |>
                                    <| caps_or_badges := extra ++ replicate (3 - length extra) 0 |>]} |>.
