(* ===== verification/UntypedProps.v ===== *)
(** * Retyping stays inside the free part of the untyped

    The arithmetic of the retype checks, the effect of clearing and creating
    objects on the capability slots, and the theorem about a retype
    invocation that succeeds. *)

From S2P Require Import Prelude Monad Config Objects State CapOps CSpace VSpace.
From S2P Require Import Refill TcbQueue Sched Frame Tcb SchedCtx Schedule Ipc Interrupt Finalise.
From S2P Require Import Syscall Untyped Example.

(** ** Arithmetic *)

Lemma alignUp_val x n :
  0 <= n < 64 -> 0 <= x -> x + 2 ^ n < word_size ->
  alignUp x n = (x + 2 ^ n - 1) / 2 ^ n * 2 ^ n.
Proof.
  intros Hn Hx Hw. pose proof (pow2_pos n). unfold alignUp.
  rewrite bit_pow, wadd_small, wsub_small by lia.
  rewrite land_wnot, mask_bits_ones by (unfold is_word; lia).
  rewrite Z.ldiff_ones_r, Z.shiftr_div_pow2, Z.shiftl_mul_pow2 by lia. done.
Qed.

(** Rounding the start of the free part up costs no more than the test
    [free >> s >= window] leaves. *)
Lemma retype_fits base B off s w :
  0 <= s <= B -> base mod 2 ^ B = 0 -> 0 <= off ->
  w <= (2 ^ B - off) / 2 ^ s ->
  let a := (base + off + 2 ^ s - 1) / 2 ^ s * 2 ^ s in
  base + off <= a /\ a mod 2 ^ s = 0 /\ a + w * 2 ^ s <= base + 2 ^ B.
Proof.
  intros Hs Hb Ho Hw a. pose proof (pow2_pos s).
  assert (HB : 2 ^ B = 2 ^ (B - s) * 2 ^ s) by (rewrite <- Z.pow_add_r by lia; f_equal; lia).
  apply Z.div_exact in Hb; [|pose proof (pow2_pos B); lia].
  set (q := base / 2 ^ B) in *. rewrite HB in *. set (S := 2 ^ s) in *. set (N := 2 ^ (B - s)) in *.
  pose proof (Z.div_mod (base + off + S - 1) S) as Ha. pose proof (Z.mod_pos_bound (base + off + S - 1) S).
  pose proof (Z.div_mod (N * S - off) S) as Hc. pose proof (Z.mod_pos_bound (N * S - off) S).
  subst a. set (x := (base + off + S - 1) / S) in *. set (y := (N * S - off) / S) in *.
  repeat split; [lia|by rewrite Z.mod_mul by lia|].
  assert (x + y <= N * q + N); [|nia].
  assert ((x + y) * S < (N * q + N + 1) * S); [|nia]. nia.
Qed.

Lemma mod_pow2_weaken x m n : 0 <= m <= n -> x mod 2 ^ n = 0 -> x mod 2 ^ m = 0.
Proof.
  intros Hm Hx. pose proof (pow2_pos n). apply Z.mod_divide in Hx as [k ->]; [|lia].
  replace n with ((n - m) + m) by lia. rewrite Z.pow_add_r, Z.mul_assoc by lia.
  apply Z.mod_mul. pose proof (pow2_pos m). lia.
Qed.

(** What the decoder knows of an untyped capability. *)
Definition untyped_ok (u : untyped_cap) : Prop :=
  0 <= capPtr u /\ SEL4_MIN_UNTYPED_BITS <= capBlockSize u < 64 /\
  capPtr u mod 2 ^ capBlockSize u = 0 /\ capPtr u + 2 ^ capBlockSize u < word_size /\
  0 <= capFreeIndex u /\ 16 * capFreeIndex u <= 2 ^ capBlockSize u.

Lemma free_index_offset i : 0 <= i -> 16 * i < word_size -> FREE_INDEX_TO_OFFSET i = 16 * i.
Proof.
  intros. unfold FREE_INDEX_TO_OFFSET, SEL4_MIN_UNTYPED_BITS. rewrite wshl_mul; lia.
Qed.

Lemma retype_base_in_bounds u fi s w :
  untyped_ok u -> 0 <= fi -> 16 * fi <= 2 ^ capBlockSize u -> 4 <= s < 64 -> 1 <= w ->
  ((bit (capBlockSize u) -w FREE_INDEX_TO_OFFSET fi) >>w s <? w) = false ->
  let a := alignUp (GET_FREE_REF (capPtr u) fi) s in
  capPtr u + 16 * fi <= a /\ a mod 2 ^ s = 0 /\
  a + w * 2 ^ s <= capPtr u + 2 ^ capBlockSize u /\ s <= capBlockSize u.
Proof.
  intros (Hp & Hb & Hal & Htop & _ & _) Hfi Hfree Hs Hw Hc a. subst a.
  unfold SEL4_MIN_UNTYPED_BITS in Hb. pose proof (pow2_pos s). pose proof (pow2_pos (capBlockSize u)).
  zbool. rewrite bit_pow, free_index_offset, wsub_small, wshr_div in Hc by lia.
  assert (2 ^ s <= 2 ^ capBlockSize u - 16 * fi) as Hs2.
  { pose proof (Z.mul_div_le (2 ^ capBlockSize u - 16 * fi) (2 ^ s)). nia. }
  assert (s <= capBlockSize u) as Hs3 by (apply Z.pow_le_mono_r_iff with 2; lia).
  unfold GET_FREE_REF. rewrite free_index_offset, wadd_small, alignUp_val by lia.
  pose proof (retype_fits (capPtr u) (capBlockSize u) (16 * fi) s w). intuition lia.
Qed.

(** ** The capabilities in the slots *)

Definition caps (s : kstate) (p : Z) : option cap := capability <$> ctes s !! p.

(** [s'] holds the same capabilities as [s] outside the region and the slots [l]. *)
Definition same_caps (base size : Z) (l : list Z) (s s' : kstate) : Prop :=
  forall p, outside base size p = true -> p ∉ l -> caps s' p = caps s p.

#[export] Instance same_caps_preorder base size l : PreOrder (same_caps base size l).
Proof.
  split; [by intros s p|]. intros s1 s2 s3 H1 H2 p Hp Hl. rewrite H2 by done. by apply H1.
Qed.

Lemma same_ctes_caps {A} (m : K A) base size l :
  frame (same ctes) m -> frame (same_caps base size l) m.
Proof. intros Hm s a s' E p _ _. unfold caps. by rewrite (Hm _ _ _ E). Qed.

Lemma same_caps_weaken base size l base' size' l' s s' :
  (forall p, outside base' size' p = true -> outside base size p = true) -> l ⊆ l' ->
  same_caps base size l s s' -> same_caps base' size' l' s s'.
Proof. intros Ho Hl H p Hp Hn. apply H; [by apply Ho|]. set_solver. Qed.

Lemma outside_sub base size base' size' p :
  base' <= base -> base + size <= base' + size' ->
  outside base' size' p = true -> outside base size p = true.
Proof. unfold outside. rewrite !orb_true_iff, !Z.ltb_lt, !Z.leb_le. lia. Qed.

Lemma set_mdb_caps (h : gmap Z cte_t) p q f :
  (forall c, capability (f c) = capability c) -> capability <$> alter f p h !! q = capability <$> h !! q.
Proof.
  intros Hf. rewrite lookup_alter_case. case_decide; [|done].
  destruct (h !! q) as [c|]; cbn; [by rewrite Hf|done].
Qed.

Lemma hmod_inv {A} p f (h : gmap Z A) u h' :
  hmod p f h = Ok (u, h') -> p <> 0 /\ is_Some (h !! p) /\ h' = alter f p h.
Proof.
  unfold hmod. destruct (Z.eqb_spec p 0); [done|]. destruct (h !! p) as [a|] eqn:E; [|done].
  intros [= _ <-]. split_and!; [done|by eexists|]. by apply insert_as_alter.
Qed.

Lemma hget_inv {A} p (h : gmap Z A) a h' :
  hget p h = Ok (a, h') -> p <> 0 /\ h !! p = Some a /\ h' = h.
Proof.
  unfold hget. destruct (Z.eqb_spec p 0); [done|]. destruct (h !! p) as [b|] eqn:E; [|done].
  by intros [= <- <-].
Qed.

Lemma insert_new_cap_caps parent slot c h u h' :
  insert_new_cap parent slot c h = Ok (u, h') ->
  forall q, capability <$> h' !! q = if decide (q = slot) then Some c else capability <$> h !! q.
Proof.
  unfold insert_new_cap. intros E q.
  apply bind_inv in E as (pc & h1 & E & E1). apply hget_inv in E as (_ & _ & ->).
  apply bind_inv in E1 as ([] & h2 & E & E1). apply hmod_inv in E as (_ & [d Hd] & ->).
  apply bind_inv in E1 as ([] & h3 & E & E1). apply hmod_inv in E1 as (_ & _ & ->).
  rewrite set_mdb_caps by done.
  assert (capability <$> h3 !! q =
    capability <$> alter (fun e => e <| capability := c |> <| cteMDBNode :=
      mk_mdb_node (mdbNext (cteMDBNode pc)) 1 1 parent |>) slot h !! q) as ->.
  { destruct (mdbNext (cteMDBNode pc) =? 0); cbn in E.
    - by apply ret_inv in E as [_ ->].
    - apply hmod_inv in E as (_ & _ & ->). by rewrite set_mdb_caps. }
  rewrite lookup_alter_case. destruct (decide (slot = q)) as [->|Hne].
  - by rewrite decide_True, Hd by done.
  - by rewrite decide_False by done.
Qed.

Lemma lay_out_outside {A} n p step (a : A) h q :
  0 < step -> q < p \/ p + Z.of_nat n * step <= q -> lay_out n p step a h !! q = h !! q.
Proof.
  intros Hs. revert p. induction n as [|n IH]; intros p Hq; [done|]. cbn [lay_out].
  rewrite lookup_insert_ne by lia. apply IH. lia.
Qed.

Lemma drop_region_outside {A} base size (h : gmap Z A) p :
  outside base size p = true -> drop_region base size h !! p = h !! p.
Proof.
  intros Hp. unfold drop_region. apply option_eq. intros x.
  rewrite map_lookup_filter_Some. by intuition.
Qed.

Section effects.
Context `{Config}.

Lemma clear_memory_caps ptr bits : frame (same_caps ptr (bit bits) []) (clear_memory ptr bits).
Proof.
  apply frame_modify. intros s p Hp _. unfold caps. cbn [ctes set].
  by rewrite drop_region_outside.
Qed.

Lemma new_slots_caps base n size :
  32 * Z.of_nat n <= size -> frame (same_caps base size []) (new_slots base n).
Proof.
  intros Hn. apply frame_modify. intros s p Hp _. unfold caps.
  change (ctes (s <| ctes := ?h |>)) with h.
  rewrite lay_out_outside; [done|done|].
  unfold outside, cte_size in *. rewrite orb_true_iff, Z.ltb_lt, Z.leb_le in Hp. lia.
Qed.

(** Creating an object changes no slot outside its memory. *)
Lemma create_object_caps t base us dev bits :
  get_object_size t us = Ok bits -> 0 <= us < 64 -> bits < 64 ->
  frame (same_caps base (2 ^ bits) []) (create_object t base us dev).
Proof.
  intros Hb Hus Hlt. unfold create_object. apply frame_bind; [exact _| |intros _; apply frame_lift_res; exact _].
  assert (Hquiet : forall A (m : K A), frame (same ctes) m -> frame (same_caps base (2 ^ bits) []) m)
    by (intros; by apply same_ctes_caps).
  destruct t; cbn [init_object]; try (apply Hquiet; unfold new_table, new_frame; frame_tac; fail).
  - frame_tac. apply new_slots_caps.
    injection Hb as <-. unfold SEL4_TCB_BITS. by destruct target_arch, have_fpu.
  - apply new_slots_caps. injection Hb as <-. unfold SEL4_SLOT_BITS.
    rewrite wadd_small by (unfold word_size; lia).
    rewrite Z.pow_add_r, Z2Nat.id by (try apply Z.pow_nonneg; lia). lia.
Qed.

Lemma kernel_preemption_point_ctes : frame (same ctes) kernel_preemption_point.
Proof.
  unfold kernel_preemption_point, update_timestamp, set_ksConsumed, is_irq_pending, is_cur_domain_expired.
  frame_tac.
Qed.

Lemma set_cur_restart_ctes : frame (same ctes) set_cur_restart.
Proof. unfold set_cur_restart, cur_thread. frame_tac. Qed.

(** Reading and updating the untyped capability of a slot. *)
Lemma slot_cap_inv slot s c s' :
  slot_cap slot s = Ok (c, s') -> s' = s /\ slot <> 0 /\ caps s slot = Some c.
Proof.
  unfold slot_cap, get_cte, on_ctes, caps. intros E. runs E. split_and!; [done..|]. by rewrite Hlk.
Qed.

Lemma slot_untyped_inv slot s u s' :
  slot_untyped slot s = Ok (u, s') -> s' = s /\ caps s slot = Some (cap_untyped_cap u) /\ slot <> 0.
Proof.
  unfold slot_untyped. intros E. apply bind_inv in E as (c & s1 & E1 & E).
  apply slot_cap_inv in E1 as (-> & H0 & Hc). destruct c; try discriminate E. run1 E. done.
Qed.

Lemma set_capFreeIndex_inv slot v s x s' :
  set_capFreeIndex slot v s = Ok (x, s') ->
  exists u, caps s slot = Some (cap_untyped_cap u) /\
    caps s' slot = Some (cap_untyped_cap (u <| capFreeIndex := v |>)) /\
    (forall p, p <> slot -> caps s' p = caps s p).
Proof.
  unfold set_capFreeIndex. intros E. apply bind_inv in E as (u & s1 & E1 & E).
  apply slot_untyped_inv in E1 as (-> & Hu & _). unfold mod_cte, on_ctes in E. runs E.
  exists u. split; [done|]. unfold caps. cbn. split.
  - by rewrite lookup_insert_eq.
  - intros p Hp. by rewrite lookup_insert_ne.
Qed.
End effects.

(** ** Creating the objects *)

Lemma get_offset_slot_wrap d off i : get_offset_slot d (off +w i) = get_offset_slot d (off + i).
Proof.
  unfold get_offset_slot, wadd, wmul, wrap. by rewrite Zmult_mod_idemp_r.
Qed.

(** Slots of a window of at most 256 are different. *)
Lemma get_offset_slot_inj d off i j :
  0 <= i < 256 -> 0 <= j < 256 -> get_offset_slot d (off + i) = get_offset_slot d (off + j) -> i = j.
Proof.
  intros Hi Hj. unfold get_offset_slot, wadd, wmul, wrap, cte_size.
  rewrite !Zplus_mod_idemp_r. intros E. change word_size with 18446744073709551616 in E.
  pose proof (Z.div_mod (d + 32 * (off + i)) 18446744073709551616 ltac:(lia)).
  pose proof (Z.div_mod (d + 32 * (off + j)) 18446744073709551616 ltac:(lia)). lia.
Qed.

Definition window (d off : Z) (k n : nat) : list Z :=
  (fun i => get_offset_slot d (off + Z.of_nat i)) <$> seq k n.

Section create.
Context `{Config}.

(** One object of the loop. *)
Lemma create_one_caps t parent d off rb i us dev bits s x s' :
  get_object_size t us = Ok bits -> 0 <= us < 64 -> 0 <= bits < 64 ->
  0 <= rb -> 0 <= i -> rb + (i + 1) * 2 ^ bits < word_size ->
  (let* c := create_object t (rb +w (i <<w bits)) us dev in
   on_ctes (insert_new_cap parent (get_offset_slot d (off +w i)) c)) s = Ok (x, s') ->
  exists c, object_cap t (rb + i * 2 ^ bits) us dev = Ok c /\
    caps s' (get_offset_slot d (off + i)) = Some c /\
    same_caps (rb + i * 2 ^ bits) (2 ^ bits) [get_offset_slot d (off + i)] s s'.
Proof.
  intros Hb Hus Hbits Hrb Hi Hw E. pose proof (pow2_pos bits).
  rewrite wshl_mul, wadd_small, get_offset_slot_wrap in E by nia.
  apply bind_inv in E as (c & s1 & E1 & E). pose proof E1 as Hcap.
  apply (create_object_caps _ _ _ _ bits) in E1; [|done|done|lia].
  unfold create_object in Hcap. apply bind_inv in Hcap as (? & ? & _ & Hcap).
  apply lift_res_inv in Hcap as [Hcap _].
  exists c. split; [done|]. unfold on_ctes, lift_part in E.
  destruct (insert_new_cap _ _ _ (ctes s1)) as [[y h']|] eqn:Hi'; [|done]. injection E as _ <-.
  pose proof (insert_new_cap_caps _ _ _ _ _ _ Hi') as Hc. unfold caps.
  split; [by rewrite Hc, decide_True|]. intros p Hp Hn. unfold caps.
  change (ctes (s1 <| ctes := h' |>)) with h'. rewrite Hc, decide_False by set_solver. apply E1; set_solver.
Qed.

Lemma create_loop_caps t parent d off rb us dev bits base size :
  get_object_size t us = Ok bits -> 0 <= us < 64 -> 0 <= bits < 64 ->
  0 <= base <= rb -> base + size < word_size ->
  forall n k s x s', (k + n <= 256)%nat -> rb + Z.of_nat (k + n) * 2 ^ bits <= base + size ->
  (forall i, (k <= i < k + n)%nat -> outside base size (get_offset_slot d (off + Z.of_nat i)) = true) ->
  for_range n (Z.of_nat k) (fun i =>
    let* c := create_object t (rb +w (i <<w bits)) us dev in
    on_ctes (insert_new_cap parent (get_offset_slot d (off +w i)) c)) s = Ok (x, s') ->
  (forall i, (k <= i < k + n)%nat -> exists c, object_cap t (rb + Z.of_nat i * 2 ^ bits) us dev = Ok c /\
     caps s' (get_offset_slot d (off + Z.of_nat i)) = Some c) /\
  same_caps base size (window d off k n) s s'.
Proof.
  intros Hb Hus Hbits Hbase Htop. pose proof (pow2_pos bits).
  induction n as [|n IH]; intros k s x s' Hk Hfit Hout E.
  { apply ret_inv in E as [_ ->]. split; [lia|reflexivity]. }
  cbn [for_range] in E. apply bind_inv in E as (y & s1 & E1 & E).
  apply (create_one_caps _ _ _ _ _ _ _ _ bits) in E1 as (c & Hc & Hat & S1); [|done|lia|lia|lia|lia|nia].
  replace (Z.of_nat k + 1) with (Z.of_nat (S k)) in E by lia.
  apply IH in E as [Hcaps S2]; [|lia|nia|intros i Hi; apply Hout; lia].
  assert (S1' : same_caps base size (window d off k (S n)) s s1).
  { eapply same_caps_weaken; [| |exact S1].
    - intros p. apply outside_sub; nia.
    - intros q Hq%list_elem_of_singleton. subst q. apply list_elem_of_fmap. exists k.
      split; [done|]. apply elem_of_seq. lia. }
  assert (S2' : same_caps base size (window d off k (S n)) s1 s').
  { eapply same_caps_weaken; [done| |exact S2]. unfold window. cbn [seq fmap list_fmap]. set_solver. }
  split; [|by etrans]. intros i Hi. destruct (decide (i = k)) as [->|Hne]; [|apply Hcaps; lia].
  exists c. split; [done|]. rewrite S2; [done|apply Hout; lia|].
  unfold window. rewrite list_elem_of_fmap. intros (j & Ej & Hj%elem_of_seq).
  apply get_offset_slot_inj in Ej; lia.
Qed.
End create.

(** ** Clearing an untyped *)

Section retype.
Context `{Config} (n : nat).
#[local] Instance deps : CSpaceDeps := kernel_deps n.

Lemma preemption_point_ctes : frame (same ctes) preemption_point.
Proof. unfold deps. generalize n. intros []; exact kernel_preemption_point_ctes. Qed.

(** The slot holds the untyped capability [u], with some free index. *)
Definition untyped_at (s : kstate) (slot : Z) (u : untyped_cap) : Prop :=
  exists fi, caps s slot = Some (cap_untyped_cap (u <| capFreeIndex := fi |>)).

Lemma same_caps_untyped_at base size s s' slot u :
  same_caps base size [] s s' -> outside base size slot = true ->
  untyped_at s slot u -> untyped_at s' slot u.
Proof. intros Hs Ho [fi E]. exists fi. rewrite Hs; [done|done|set_solver]. Qed.

Lemma set_capFreeIndex_caps slot v s x s' u :
  set_capFreeIndex slot v s = Ok (x, s') -> untyped_at s slot u ->
  caps s' slot = Some (cap_untyped_cap (u <| capFreeIndex := v |>)) /\
  forall base size, same_caps base size [slot] s s'.
Proof.
  intros E [fi Hu]. apply set_capFreeIndex_inv in E as (u' & Hu' & Hs' & Hp).
  rewrite Hu in Hu'. injection Hu' as <-. split; [by rewrite Hs'|].
  intros base size p _ Hn. apply Hp. set_solver.
Qed.

Lemma reset_loop_caps fuel slot rb size k u s s' :
  0 <= rb -> rb + size < word_size -> outside rb size slot = true ->
  0 <= k -> 256 * k <= size ->
  reset_loop fuel slot rb (256 * k - 256) s = Ok (EXCEPTION_NONE, s') -> untyped_at s slot u ->
  same_caps rb size [slot] s s' /\ untyped_at s' slot u.
Proof.
  intros Hrb Htop Hout. change (bit CONFIG_RESET_CHUNK_BITS) with 256.
  revert k s. induction fuel as [|fuel IH]; intros k s Hk Hsz E Hu; [discriminate|].
  cbn [reset_loop] in E. change (bit CONFIG_RESET_CHUNK_BITS) with 256 in E.
  destruct (Z.eqb_spec (256 * k - 256) (Z.opp 256)) as [Hend|Hgo].
  { run1 E. by split; [reflexivity|]. }
  apply bind_inv in E as ([] & s1 & E1 & E). apply bind_inv in E as ([] & s2 & E2 & E).
  apply bind_inv in E as (st & s3 & E3 & E). destruct st; cbn [exc_ok negb] in E; try discriminate E.
  apply clear_memory_caps in E1. unfold GET_OFFSET_FREE_PTR in E1.
  rewrite wadd_small in E1 by lia. change (bit CONFIG_RESET_CHUNK_BITS) with 256 in E1.
  assert (S1 : same_caps rb size [slot] s s1).
  { eapply same_caps_weaken; [| |exact E1]; [|set_solver]. intros p. apply outside_sub; lia. }
  apply (same_caps_untyped_at _ _ _ _ _ _ E1) in Hu; [|by eapply outside_sub; [| |exact Hout]; lia].
  apply (set_capFreeIndex_caps _ _ _ _ _ _ E2) in Hu as [Hu S2].
  pose proof (same_ctes_caps _ rb size [slot] preemption_point_ctes _ _ _ E3) as S3.
  assert (Hu3 : untyped_at s3 slot u).
  { exists (OFFSET_TO_FREE_IDNEX (256 * k - 256)). unfold caps in *.
    by rewrite (preemption_point_ctes _ _ _ E3). }
  replace (256 * k - 256 - 256) with (256 * (k - 1) - 256) in E by lia.
  apply IH in E as [S4 Hu4]; [|lia|lia|done]. split; [|done].
  etrans; [exact S1|]. etrans; [exact (S2 rb size)|]. by etrans.
Qed.

Lemma reset_untyped_cap_caps slot u s s' :
  untyped_ok u -> caps s slot = Some (cap_untyped_cap u) ->
  outside (capPtr u) (2 ^ capBlockSize u) slot = true ->
  reset_untyped_cap slot s = Ok (EXCEPTION_NONE, s') ->
  same_caps (capPtr u) (2 ^ capBlockSize u) [slot] s s' /\ untyped_at s' slot u.
Proof.
  intros (Hp & Hb & _ & Htop & Hfi & Hfree) Hu Hout E. unfold SEL4_MIN_UNTYPED_BITS in Hb.
  assert (Hat : untyped_at s slot u) by (exists (capFreeIndex u); by destruct u).
  unfold reset_untyped_cap in E. apply bind_inv in E as (u1 & s1 & E1 & E).
  apply slot_untyped_inv in E1 as (-> & Hu1 & _). rewrite Hu in Hu1. injection Hu1 as <-.
  rewrite free_index_offset in E by lia.
  destruct (Z.eqb_spec (16 * capFreeIndex u) 0) as [|Hoff]; [run1 E; by split; [reflexivity|]|].
  destruct (negb (capIsDevice u =? 0) || (capBlockSize u <? CONFIG_RESET_CHUNK_BITS)) eqn:Hc.
  - apply bind_inv in E as ([] & s2 & E1 & E). apply bind_inv in E as ([] & s3 & E2 & E). run1 E.
    assert (S1 : same_caps (capPtr u) (2 ^ capBlockSize u) [] s s2).
    { destruct (capIsDevice u =? 0); cbn [when] in E1; [|run1 E1; reflexivity].
      apply clear_memory_caps in E1. by rewrite bit_pow in E1 by lia. }
    apply (same_caps_untyped_at _ _ _ _ _ _ S1 Hout) in Hat.
    apply (set_capFreeIndex_caps _ _ _ _ _ _ E2) in Hat as [Hat S2].
    split; [|by eexists]. etrans; [|apply S2].
    eapply same_caps_weaken; [| |exact S1]; [done|set_solver].
  - zbool. unfold CONFIG_RESET_CHUNK_BITS in *.
    rewrite wsub_small, wshr_div in E by lia. change (2 ^ 8) with 256 in E.
    set (k := (16 * capFreeIndex u - 1) / 256) in *.
    pose proof (Z.div_mod (16 * capFreeIndex u - 1) 256 ltac:(lia)) as Hk.
    pose proof (Z.mod_pos_bound (16 * capFreeIndex u - 1) 256 ltac:(lia)) as Hm. fold k in Hk.
    rewrite wshl_mul in E by (change (2 ^ 8) with 256; lia). change (2 ^ 8) with 256 in E.
    replace (k * 256) with (256 * (k + 1) - 256) in E by lia.
    eapply reset_loop_caps in E; [exact E|lia|lia|done|lia| |done].
    assert (2 ^ capBlockSize u = 256 * 2 ^ (capBlockSize u - 8)) as HB.
    { change 256 with (2 ^ 8). rewrite <- Z.pow_add_r by lia. f_equal. lia. }
    nia.
Qed.

(** ** A retype invocation *)

(** Offset of the first byte a retype may use: everything when the untyped
    has no children (it is reset), otherwise what lies above the free index. *)
Definition first_free (s : kstate) (slot : Z) (u : untyped_cap) : Z :=
  match ensure_no_children slot (ctes s) with
  | Ok (EXCEPTION_NONE, _) => 0
  | _ => 16 * capFreeIndex u
  end.

Definition free_region (s : kstate) (slot : Z) (u : untyped_cap) : Z * Z :=
  (capPtr u + first_free s slot u, 2 ^ capBlockSize u - first_free s slot u).

(** The request in the message of the current thread: type and size of the
    objects, the CNode (the first extra capability itself, or what the index
    and depth name in it), the first slot and the number of objects, which lie
    inside the CNode. *)
Record retype_request (s : kstate) (buf : Z) (t : ObjectType) (us : Z) (cn : cnode_cap) (off w : Z) : Prop := {
  rq_type : exists v, get_syscall_arg 0 buf s = Ok (v, s) /\ from_usize v = Some t;
  rq_size : get_syscall_arg 1 buf s = Ok (us, s);
  rq_node : exists index depth root_slot root,
    get_syscall_arg 2 buf s = Ok (index, s) /\ get_syscall_arg 3 buf s = Ok (depth, s) /\
    extra_cap 0 s = Ok (root_slot, s) /\ caps s root_slot = Some root /\
    if depth =? 0 then root = cap_cnode_cap cn
    else exists lu s1, lookup_slot_for_cnode_op false root index depth s = Ok (lu, s1) /\
      ls_status lu = EXCEPTION_NONE /\ caps s (ls_slot lu) = Some (cap_cnode_cap cn);
  rq_offset : get_syscall_arg 4 buf s = Ok (off, s);
  rq_window : get_syscall_arg 5 buf s = Ok (w, s);
  rq_number : 1 <= w <= CONFIG_RETYPE_FAN_OUT_LIMIT;
  rq_inside : 0 <= capCNodeRadix cn < 64 -> 0 <= off /\ off + w <= 2 ^ capCNodeRadix cn }.

(** What a retype of [w] objects of type [t] to the slots [off ..] of the
    CNode [d] has done. *)
Record retyped (s s' : kstate) (slot : Z) (u : untyped_cap) (t : ObjectType)
    (us bits base d off w : Z) : Prop := {
  rt_size : get_object_size t us = Ok bits;
  rt_aligned : base mod 2 ^ bits = 0;
  rt_low : fst (free_region s slot u) <= base;
  rt_high : base + w * 2 ^ bits <= capPtr u + 2 ^ capBlockSize u;
  rt_empty : forall i, 0 <= i < w -> caps s (get_offset_slot d (off + i)) = Some cap_null_cap;
  rt_caps : forall i, 0 <= i < w -> exists c,
    object_cap t (base + i * 2 ^ bits) us (bool_to_word (negb (capIsDevice u =? 0))) = Ok c /\
    caps s' (get_offset_slot d (off + i)) = Some c;
  rt_free : exists fi, caps s' slot = Some (cap_untyped_cap (u <| capFreeIndex := fi |>)) /\
    capPtr u + 16 * fi = base + w * 2 ^ bits;
  rt_rest : same_caps (fst (free_region s slot u)) (snd (free_region s slot u))
    (slot :: window d off 0 (Z.to_nat w)) s s' }.

Lemma ensure_no_children_reads slot h st h' : ensure_no_children slot h = Ok (st, h') -> h' = h.
Proof.
  unfold ensure_no_children. intros E. apply bind_inv in E as (c & h1 & E1 & E).
  apply hget_inv in E1 as (_ & _ & ->). destruct (negb _); [|by apply ret_inv in E as [_ ->]].
  apply bind_inv in E as (c' & h2 & E2 & E). apply hget_inv in E2 as (_ & _ & ->).
  apply bind_inv in E as (b & h3 & E3 & E). apply lift_res_inv in E3 as [_ ->].
  by destruct b; apply ret_inv in E as [_ ->].
Qed.

Lemma free_index_new ptr free :
  0 <= ptr <= free -> free < word_size -> (free - ptr) mod 16 = 0 -> ptr + 16 * GET_FREE_INDEX ptr free = free.
Proof.
  intros Hp Hf Hm. unfold GET_FREE_INDEX, SEL4_MIN_UNTYPED_BITS. rewrite wsub_small, wshr_div by lia.
  change (2 ^ 4) with 16. pose proof (Z.div_mod (free - ptr) 16). lia.
Qed.

(** The invocation itself, from the base address the decoder computed. *)
Lemma invoke_untyped_retype_caps s s' slot u reset base t us bits d off w dev lo :
  untyped_ok u -> caps s slot = Some (cap_untyped_cap u) ->
  get_object_size t us = Ok bits -> 0 <= us < 64 -> 4 <= bits < 64 -> 1 <= w <= 256 ->
  base mod 2 ^ bits = 0 -> capPtr u + lo <= base -> base + w * 2 ^ bits <= capPtr u + 2 ^ capBlockSize u ->
  0 <= lo -> (reset = true -> lo = 0) -> bits <= capBlockSize u ->
  outside (capPtr u + lo) (2 ^ capBlockSize u - lo) slot = true ->
  (forall i, 0 <= i < w -> outside (capPtr u + lo) (2 ^ capBlockSize u - lo) (get_offset_slot d (off + i)) = true) ->
  (forall i, 0 <= i < w -> caps s (get_offset_slot d (off + i)) = Some cap_null_cap) ->
  invoke_untyped_retype slot reset base t us d off w dev s = Ok (EXCEPTION_NONE, s') ->
  (forall i, 0 <= i < w -> exists c, object_cap t (base + i * 2 ^ bits) us dev = Ok c /\
    caps s' (get_offset_slot d (off + i)) = Some c) /\
  (exists fi, caps s' slot = Some (cap_untyped_cap (u <| capFreeIndex := fi |>)) /\
    capPtr u + 16 * fi = base + w * 2 ^ bits) /\
  same_caps (capPtr u + lo) (2 ^ capBlockSize u - lo) (slot :: window d off 0 (Z.to_nat w)) s s'.
Proof.
  intros Hok Hslot Hsize Hus Hbits Hw Hal Hlo Hhi Hlo0 Hreset Hbs Hout Houts Hnull E.
  pose proof Hok as (Hp & Hb & Halign & Htop & _ & _). pose proof (pow2_pos bits).
  unfold invoke_untyped_retype in E. apply bind_inv in E as (u1 & s1 & E1 & E).
  apply slot_untyped_inv in E1 as (-> & Hu1 & _). rewrite Hslot in Hu1. injection Hu1 as <-.
  apply bind_inv in E as (st & s1 & E1 & E). destruct st; cbn [exc_ok] in E; try discriminate E.
  assert (same_caps (capPtr u + lo) (2 ^ capBlockSize u - lo) [slot] s s1 /\ untyped_at s1 slot u) as [S1 Hat].
  { destruct reset.
    - rewrite (Hreset eq_refl), Z.add_0_r, Z.sub_0_r in Hout |- *.
      by apply (reset_untyped_cap_caps _ u) in E1.
    - run1 E1. split; [reflexivity|]. exists (capFreeIndex u). by destruct u. }
  apply bind_inv in E as (b & s2 & E2 & E). apply lift_res_inv in E2 as [Hb2 ->].
  rewrite Hsize in Hb2. injection Hb2 as <-.
  apply bind_inv in E as ([] & s2 & E2 & E). apply bind_inv in E as ([] & s3 & E3 & E). run1 E.
  rewrite wshl_mul, wadd_small in E2 by nia.
  apply (set_capFreeIndex_caps _ _ _ _ _ u E2) in Hat as [Hfi S2].
  unfold create_new_objects in E3. apply bind_inv in E3 as (b & s4 & E4 & E3).
  apply lift_res_inv in E4 as [Hb2 ->]. rewrite Hsize in Hb2. injection Hb2 as <-.
  assert (Hne : slot ∉ window d off 0 (Z.to_nat w)).
  { unfold window. rewrite list_elem_of_fmap. intros (j & Ej & Hj%elem_of_seq).
    pose proof (Hnull (Z.of_nat j) ltac:(lia)) as Hj0. rewrite <- Ej in Hj0. congruence. }
  change 0 with (Z.of_nat 0) in E3.
  apply (create_loop_caps t slot d off base us dev bits (capPtr u + lo) (2 ^ capBlockSize u - lo)) in E3
    as [Hcaps S3]; [|done|lia|lia|lia|lia|lia| |intros i Hi; apply Houts; lia]; [|rewrite Nat.add_0_l, Z2Nat.id; lia].
  split_and!.
  - intros i Hi. destruct (Hcaps (Z.to_nat i)) as (c & Hc & Hat); [lia|].
    rewrite Z2Nat.id in Hc, Hat by lia. eauto.
  - eexists. split; [rewrite S3 by done; exact Hfi|]. apply free_index_new; [nia|lia|].
    apply (mod_pow2_weaken _ 4 bits); [lia|].
    rewrite Z.add_comm, <- Z.add_sub_assoc, Z.add_comm, Z_mod_plus_full.
    rewrite Zminus_mod, Hal. by rewrite (mod_pow2_weaken (capPtr u) bits (capBlockSize u)) by (done || lia).
  - etrans; [|etrans].
    + eapply same_caps_weaken; [done| |exact S1]. set_solver.
    + eapply same_caps_weaken; [done| |apply S2]. set_solver.
    + eapply same_caps_weaken; [done| |exact S3]. set_solver.
Qed.

Lemma decode_retype_caps s s' slot u t us bits cn off w :
  untyped_ok u -> caps s slot = Some (cap_untyped_cap u) ->
  get_object_size t us = Ok bits -> 0 <= us < 64 -> 4 <= bits < 64 -> 1 <= w <= 256 ->
  (forall p, is_Some (caps s p) ->
    outside (fst (free_region s slot u)) (snd (free_region s slot u)) p = true) ->
  (forall i, 0 <= i < w -> caps s (get_offset_slot (capCNodePtr cn) (off + i)) = Some cap_null_cap) ->
  decode_retype slot u t us bits cn off w s = Ok (EXCEPTION_NONE, s') ->
  exists base, retyped s s' slot u t us bits base (capCNodePtr cn) off w.
Proof.
  intros Hok Hslot Hsize Hus Hbits Hw Hout Hnull E. pose proof Hok as (Hp & Hb & _ & Htop & Hfi & Hfree).
  unfold decode_retype in E. apply bind_inv in E as (st & s1 & E1 & E).
  unfold on_ctes, lift_part in E1. destruct (ensure_no_children slot (ctes s)) as [[st' h]|] eqn:Hch; [|done].
  pose proof (ensure_no_children_reads _ _ _ _ Hch) as ->. rewrite kstate_ctes_id in E1.
  assert (st = st' /\ s1 = s) as [-> ->] by (split; congruence).
  set (children := negb (exc_ok st')) in *.
  set (lo := 16 * (if children then capFreeIndex u else 0)).
  assert (Hlo : first_free s slot u = lo)
    by (unfold first_free, lo, children; rewrite Hch; by destruct st').
  unfold free_region in Hout. cbn [fst snd] in Hout. rewrite Hlo in Hout.
  assert (Hlo2 : 0 <= lo <= 2 ^ capBlockSize u) by (subst lo; destruct children; lia).
  apply bind_inv in E as (x & s1 & Ew & E).
  assert (Hs1 : ctes s1 = ctes s).
  { revert Ew. destruct children; cbn [when]; intros Ew; run1 Ew; done. }
  destruct (_ <? w) eqn:Hfit; [discriminate E|]. destruct (_ && _ && _); [discriminate E|].
  apply bind_inv in E as ([] & s2 & E2 & E).
  assert (Hs2 : ctes s2 = ctes s) by (rewrite <- Hs1; exact (set_cur_restart_ctes _ _ _ E2)).
  assert (Hcaps : forall p, caps s2 p = caps s p) by (intros p; unfold caps; by rewrite Hs2).
  apply retype_base_in_bounds in Hfit as (Ha & Hal & Hhi & Hbs); [|done|destruct children; lia..|lia].
  eapply (invoke_untyped_retype_caps s2 s' slot u (negb children) _ t us bits _ _ _ _ lo) in E
    as (Hc & Hf & Hrest); [|done|by rewrite Hcaps|done|lia|lia|lia|done|lia|lia|lia| |lia| | |].
  - eexists. split; [done|done| |done|done|exact Hc|exact Hf|]; unfold free_region; cbn [fst snd]; rewrite Hlo; [lia|].
    intros p Hp1 Hp2. rewrite <- Hcaps. by apply Hrest.
  - subst lo. by destruct children.
  - apply Hout. rewrite Hslot. eauto.
  - intros i Hi. apply Hout. rewrite Hnull by lia. eauto.
  - intros i Hi. rewrite Hcaps. by apply Hnull.
Qed.

(** *** Reading the arguments *)

Lemma no_extra_cap_reads i s b s' : no_extra_cap i s = Ok (b, s') -> s' = s.
Proof.
  unfold no_extra_cap, get_extra_cap_by_index. intros E. apply bind_inv in E as (o & s1 & E1 & E).
  run1 E. by runs E1.
Qed.

Lemma get_syscall_arg_reads i buf s v s' : get_syscall_arg i buf s = Ok (v, s') -> s' = s.
Proof.
  unfold get_syscall_arg, cur_thread, get_register, get_tcb, on_tcbs, buffer_get_msg, get_buffer, on_buffers.
  destruct (i <? MSG_REGISTER_NUM); intros E; by runs E.
Qed.

(** The saved registers of threads are words. *)
Definition regs_ok (s : kstate) : Prop :=
  forall p t, tcbs s !! p = Some t -> Forall is_word (registers (tcbArch t)).

Lemma get_syscall_arg_word i buf s v s' :
  regs_ok s -> i < MSG_REGISTER_NUM -> get_syscall_arg i buf s = Ok (v, s') -> is_word v.
Proof.
  intros Hr Hi. unfold get_syscall_arg, cur_thread, get_register, get_tcb, on_tcbs.
  destruct (Z.ltb_spec i MSG_REGISTER_NUM); [|lia]. intros E. runs E.
  apply Hr in Hlk. unfold array_get in Hres0. destruct (_ <? 0); [done|].
  destruct (_ !! _) as [w|] eqn:Hw; [|done]. injection Hres0 as <-. by eapply Forall_lookup_1 in Hw.
Qed.

(** The messages in IPC buffers are words. *)
Definition msgs_ok (s : kstate) : Prop :=
  forall p b, ipc_buffers s !! p = Some b -> Forall is_word (msg b).

Lemma get_syscall_arg_buffer_word i buf s v s' :
  msgs_ok s -> MSG_REGISTER_NUM <= i -> get_syscall_arg i buf s = Ok (v, s') -> is_word v.
Proof.
  intros Hm Hi. unfold get_syscall_arg, buffer_get_msg, get_buffer, on_buffers.
  destruct (Z.ltb_spec i MSG_REGISTER_NUM); [lia|]. intros E. runs E.
  apply Hm in Hlk. unfold array_get in Hres. destruct (_ <? 0); [done|].
  destruct (_ !! _) as [w|] eqn:Hw; [|done]. injection Hres as <-. by eapply Forall_lookup_1 in Hw.
Qed.

Lemma resolve_loop_reads fuel ib cn cp nb h r h' : resolve_loop fuel ib cn cp nb h = Ok (r, h') -> h' = h.
Proof.
  revert cn nb. induction fuel as [|fuel IH]; intros cn nb E; [discriminate|].
  cbn [resolve_loop] in E. apply bind_inv in E as (x & h1 & E1 & E). apply kassert_inv in E1 as [_ ->].
  destruct (_ || _); [by apply ret_inv in E as [_ ->]|].
  destruct (_ <? _); [by apply ret_inv in E as [_ ->]|].
  destruct (_ =? _); [by apply ret_inv in E as [_ ->]|].
  apply bind_inv in E as (c & h2 & E2 & E). apply hget_inv in E2 as (_ & _ & ->).
  destruct (capability c); try (by apply ret_inv in E as [_ ->]). by eapply IH.
Qed.

Lemma resolve_address_bits_ctes c cp nb : frame (same ctes) (on_ctes (resolve_address_bits c cp nb)).
Proof.
  intros s r s' E. unfold on_ctes, lift_part in E.
  destruct (resolve_address_bits c cp nb (ctes s)) as [[r' h]|] eqn:Hr; [|done]. injection E as _ <-.
  unfold same. change (ctes (s <| ctes := h |>)) with h. unfold resolve_address_bits in Hr.
  destruct c; try (by apply ret_inv in Hr as [_ ->]). by eapply resolve_loop_reads.
Qed.

Lemma slot_cap_ctes p : frame (same ctes) (slot_cap p).
Proof. intros s c s' E. by apply slot_cap_inv in E as (-> & _). Qed.

Lemma get_target_cnode_ctes i d : frame (same ctes) (get_target_cnode i d).
Proof.
  unfold get_target_cnode, extra_cap, get_extra_cap_by_index, unwrap, lookup_slot_for_cnode_op,
    failed_lookup_with, failed_lookup, range_error, syscall_error, set_lookup_fault.
  frame_tac; first [apply slot_cap_ctes | apply resolve_address_bits_ctes].
Qed.

Lemma lookup_slot_for_cnode_op_ctes src root i d : frame (same ctes) (lookup_slot_for_cnode_op src root i d).
Proof.
  unfold lookup_slot_for_cnode_op, failed_lookup_with, failed_lookup, range_error, syscall_error, set_lookup_fault.
  frame_tac; first [apply slot_cap_ctes | apply resolve_address_bits_ctes].
Qed.

Lemma extra_cap_reads i s p s' : extra_cap i s = Ok (p, s') -> s' = s.
Proof.
  unfold extra_cap, get_extra_cap_by_index. intros E. apply bind_inv in E as (o & s1 & E1 & E). runs E1.
  unfold unwrap in E. case_match; by runs E.
Qed.

Lemma get_target_cnode_inv i d s cn s' : get_target_cnode i d s = Ok (inr cn, s') ->
  exists root_slot root, extra_cap 0 s = Ok (root_slot, s) /\ caps s root_slot = Some root /\
    if d =? 0 then root = cap_cnode_cap cn
    else exists lu s1, lookup_slot_for_cnode_op false root i d s = Ok (lu, s1) /\
      ls_status lu = EXCEPTION_NONE /\ caps s (ls_slot lu) = Some (cap_cnode_cap cn).
Proof.
  unfold get_target_cnode. intros E. apply bind_inv in E as (p & s1 & E1 & E). pose proof (extra_cap_reads _ _ _ _ E1) as ->.
  apply bind_inv in E as (root & s1 & E2 & E). apply slot_cap_inv in E2 as (-> & _ & Hroot).
  apply bind_inv in E as (tgt & s2 & E2 & E). exists p, root. split; [done|]. split; [done|].
  assert (tgt = inr (cap_cnode_cap cn)) as ->.
  { destruct tgt as [st|c]; [by apply ret_inv in E as [? _]|].
    destruct c; try (apply bind_inv in E as (? & ? & _ & E); by apply ret_inv in E as [? _]).
    by apply ret_inv in E as [[= ->] _]. }
  destruct (d =? 0); [by apply ret_inv in E2 as [[= ->] _]|].
  apply bind_inv in E2 as (lu & s3 & E3 & E2). exists lu, s3. split; [done|].
  pose proof (lookup_slot_for_cnode_op_ctes _ _ _ _ _ _ _ E3) as Hs3. unfold same in Hs3.
  destruct (ls_status lu) eqn:Hst; cbn in E2; try (by apply ret_inv in E2 as [? _]). split; [done|].
  apply bind_inv in E2 as (c & s4 & E4 & E2). apply slot_cap_inv in E4 as (-> & _ & Hc). apply ret_inv in E2 as [[= ->] _].
  unfold caps in Hc |- *. by rewrite <- Hs3.
Qed.

Lemma get_target_cnode_error i d s st s' : get_target_cnode i d s = Ok (inl st, s') -> exc_ok st = false.
Proof.
  unfold get_target_cnode. intros E. apply bind_inv in E as (x & s1 & _ & E).
  apply bind_inv in E as (c & s2 & _ & E). apply bind_inv in E as (tgt & s3 & E1 & E).
  destruct tgt as [st'|c'].
  - apply ret_inv in E as [[= ->] _]. destruct (d =? 0); [by apply ret_inv in E1 as [? _]|].
    apply bind_inv in E1 as (r & s4 & _ & E1). destruct (exc_ok (ls_status r)) eqn:Hr; cbn [negb] in E1.
    + apply bind_inv in E1 as (? & ? & _ & E1). by apply ret_inv in E1 as [? _].
    + by apply ret_inv in E1 as [[= ->] _].
  - destruct c'; try (by apply ret_inv in E as [? _]); apply bind_inv in E as (x' & ? & Ex & E);
      apply ret_inv in E as [[= ->] _]; unfold failed_lookup_with, failed_lookup, syscall_error in Ex;
      by runs Ex.
Qed.

Lemma check_object_type_inv t us s s' :
  check_object_type t us s = Ok (EXCEPTION_NONE, s') ->
  s' = s /\ (t = CapTableObject -> us <> 0) /\ (t = UnytpedObject -> SEL4_MIN_UNTYPED_BITS <= us).
Proof.
  unfold check_object_type. intros E. destruct (_ && _) eqn:E1; [discriminate|].
  destruct (bool_decide (t = UnytpedObject) && _) eqn:E2; [discriminate|]. run1 E.
  split; [done|]. apply andb_false_iff in E1, E2. split; intros ->.
  - destruct E1 as [E1|E1]; [by rewrite bool_decide_eq_false in E1|by zbool].
  - destruct E2 as [E2|E2]; [by rewrite bool_decide_eq_false in E2|by zbool].
Qed.

Lemma check_window_inv k d i s s' :
  check_window k d i s = Ok (EXCEPTION_NONE, s') ->
  s' = s /\ forall j, 0 <= j < Z.of_nat k -> caps s (get_offset_slot d (i + j)) = Some cap_null_cap.
Proof.
  revert i. induction k as [|k IH]; intros i E; [apply ret_inv in E as [_ ->]; split; [done|lia]|].
  cbn [check_window] in E. apply bind_inv in E as (c & s1 & E1 & E).
  apply slot_cap_inv in E1 as (-> & _ & Hc). destruct (is_null_cap c) eqn:Hn; [|discriminate].
  apply is_null_cap_true in Hn as ->. apply IH in E as [-> Hrest]. split; [done|].
  intros j Hj. destruct (decide (j = 0)) as [->|]; [by rewrite Z.add_0_r|].
  replace (i + j) with (i + 1 + (j - 1)) by lia. apply Hrest. lia.
Qed.

Lemma check_cnode_slot_inv cn off w s s' :
  check_cnode_slot cn off w s = Ok (EXCEPTION_NONE, s') ->
  s' = s /\ 1 <= w <= 256 /\ (is_word off -> 0 <= capCNodeRadix cn < 64 -> off + w <= 2 ^ capCNodeRadix cn) /\
  forall j, 0 <= j < w -> caps s (get_offset_slot (capCNodePtr cn) (off + j)) = Some cap_null_cap.
Proof.
  unfold check_cnode_slot. intros E. destruct (_ <? off) eqn:Ho; [discriminate E|].
  destruct (_ || _) eqn:Hw; [discriminate E|]. destruct (_ -w off <? w) eqn:Hs; [discriminate E|].
  zbool. unfold CONFIG_RETYPE_FAN_OUT_LIMIT in *. apply check_window_inv in E as [-> Hc].
  rewrite Z2Nat.id in Hc by lia. split_and!; try done; try lia. intros [Ho0 _] Hr. pose proof (pow2_pos (capCNodeRadix cn)).
  assert (2 ^ capCNodeRadix cn <= 2 ^ 63) by (apply Z.pow_le_mono_r; lia).
  rewrite wshl_mul in * by (rewrite ?word_size_val; lia). rewrite wsub_small in Ho by (rewrite ?word_size_val; lia).
  rewrite wsub_small in Hs by (rewrite ?word_size_val; lia). lia.
Qed.

(** The sizes the checks let through. *)
Lemma object_size_bounds t us bits v :
  from_usize v = Some t -> get_object_size t us = Ok bits -> is_word us ->
  ((WORD_BITS <=? us) || (SEL4_MAX_UNTYPED_BITS <? bits)) = false ->
  (t = UnytpedObject -> SEL4_MIN_UNTYPED_BITS <= us) ->
  (kernel_mcs && bool_decide (t = SchedContextObject) && (us <? SEL4_MIN_SCHED_CONTEXT_BITS)) = false ->
  0 <= us < 64 /\ 4 <= bits < 64.
Proof.
  intros Ht Hb [Hus _] Hr Hu Hsc. zbool. unfold WORD_BITS in *. split; [lia|].
  assert (bits < 64) by (unfold SEL4_MAX_UNTYPED_BITS in *; destruct target_arch; lia). split; [|done].
  destruct t; cbn [get_object_size arch_get_object_size] in Hb; injection Hb as <-; try done.
  - by apply Hu.
  - unfold SEL4_TCB_BITS. by destruct target_arch, have_fpu.
  - unfold SEL4_NOTIFICATION_BITS. by destruct kernel_mcs.
  - rewrite wadd_small; unfold SEL4_SLOT_BITS, word_size; lia.
  - assert (kernel_mcs = true) as Hm.
    { unfold from_usize in Ht. destruct (_ <=? _); [done|]. apply list_elem_of_lookup_2 in Ht.
      revert Ht. unfold object_types. destruct kernel_mcs, target_arch; set_solver. }
    rewrite Hm, bool_decide_true in Hsc by done. cbn in Hsc. zbool. unfold SEL4_MIN_SCHED_CONTEXT_BITS in *. lia.
Qed.

(** C3. Retyping untyped memory (decode_untyped_invocation.rs,
    invoke_untyped.rs): when an invocation of an untyped capability succeeds,
    then what was done is the request in the message: the objects asked for
    lie one after the other, each aligned to its size, inside the part of the
    untyped that is free (above the free index, or anywhere when the untyped
    has no children and was reset); the destination slots are those the
    message names, inside the CNode it names, were empty, and each holds the
    capability to its object; the free index of the untyped points right after
    the last one, and no other slot outside the free memory changes.  So
    objects of two retypes never overlap. *)
Theorem retype_in_free_memory label len slot u buf s s' :
  untyped_ok u -> caps s slot = Some (cap_untyped_cap u) -> regs_ok s -> msgs_ok s ->
  (forall p, is_Some (caps s p) ->
    outside (fst (free_region s slot u)) (snd (free_region s slot u)) p = true) ->
  decode_untyed_invocation label len slot u buf s = Ok (EXCEPTION_NONE, s') ->
  label = UntypedRetype /\ exists t us bits base cn off w,
    retype_request s buf t us cn off w /\ retyped s s' slot u t us bits base (capCNodePtr cn) off w.
Proof.
  intros Hok Hslot Hregs Hmsgs Hout E. unfold decode_untyed_invocation in E.
  destruct label; try discriminate E. split; [done|]. apply bind_inv in E as (b & s1 & E1 & E).
  apply no_extra_cap_reads in E1 as ->. destruct (_ || b); [discriminate E|].
  apply bind_inv in E as (ty & s1 & A0 & E). pose proof (get_syscall_arg_reads _ _ _ _ _ A0) as ->.
  destruct (from_usize ty) as [t|] eqn:Ht; [|discriminate E].
  apply bind_inv in E as (us & s1 & A1 & E). pose proof (get_syscall_arg_reads _ _ _ _ _ A1) as ->.
  pose proof (get_syscall_arg_word 1 _ _ _ _ Hregs ltac:(reflexivity) A1) as Hus.
  apply bind_inv in E as (index & s1 & A2 & E). pose proof (get_syscall_arg_reads _ _ _ _ _ A2) as ->.
  apply bind_inv in E as (depth & s1 & A3 & E). pose proof (get_syscall_arg_reads _ _ _ _ _ A3) as ->.
  apply bind_inv in E as (off & s1 & A4 & E). pose proof (get_syscall_arg_reads _ _ _ _ _ A4) as ->.
  pose proof (get_syscall_arg_buffer_word 4 _ _ _ _ Hmsgs ltac:(discriminate) A4) as Hoff.
  apply bind_inv in E as (w & s1 & A5 & E). pose proof (get_syscall_arg_reads _ _ _ _ _ A5) as ->.
  apply bind_inv in E as (bits & s1 & E1 & E). apply lift_res_inv in E1 as [Hbits ->].
  destruct (_ || (_ <? bits)) eqn:Hr; [discriminate E|].
  apply bind_inv in E as (st & s1 & E1 & E). destruct st; try discriminate E. cbn [exc_ok] in E.
  apply check_object_type_inv in E1 as (-> & _ & Hu).
  destruct (_ && _ && _) eqn:Hsc; [discriminate E|].
  apply bind_inv in E as (tgt & s1 & E1 & E). pose proof (get_target_cnode_ctes _ _ _ _ _ E1) as Hs1.
  unfold same in Hs1.
  destruct tgt as [st|cn]; [apply get_target_cnode_error in E1; run1 E; discriminate|].
  apply get_target_cnode_inv in E1 as (root_slot & root & Hx & Hroot & Htarget).
  apply bind_inv in E as (st & s2 & E2 & E). destruct st; try discriminate E. cbn [exc_ok] in E.
  apply check_cnode_slot_inv in E2 as (-> & Hw & Hin & Hnull).
  assert (Hf : free_region s1 slot u = free_region s slot u) by (unfold free_region, first_free; by rewrite Hs1).
  assert (Hc : forall p, caps s1 p = caps s p) by (intros p; unfold caps; by rewrite Hs1).
  destruct (object_size_bounds _ _ _ _ Ht Hbits Hus Hr Hu Hsc).
  apply decode_retype_caps in E as [base Hrt]; [|done|by rewrite Hc|done|lia|lia|lia| |done].
  - exists t, us, bits, base, cn, off, w. split.
    + split; eauto 10. intros Hr64. split; [apply Hoff|by apply Hin].
    + destruct Hrt as [? ? Hlow ? Hempty ? ? Hrest]. rewrite Hf in Hlow, Hrest. split; try done.
      * intros i Hi. rewrite <- Hc. by apply Hempty.
      * intros p Hp Hn. rewrite <- Hc. by apply Hrest.
  - intros p Hp. rewrite Hf. apply Hout. by rewrite <- Hc.
Qed.
End retype.

(** Two endpoints from the example untyped, to slots 4 and 5. *)
Module RetypeExample.
Definition state : kstate :=
  (Example.invoking 2 0 [2; 0; 0; 0] [0; 0; 0; 0; 4; 2] []) <| current_extra_caps := [slot_addr 1; 0; 0] |>.
Definition run : res (exception_t * kstate) :=
  @decode_untyed_invocation riscv_config (@deps riscv_config 2) UntypedRetype 6 (slot_addr 2)
    example_untyped 0x4000 state.
Definition after : kstate := match run with Ok (_, s) => s | Err _ => state end.

Lemma regs : regs_ok state.
Proof.
  intros p t Ht. change (tcbs state) with
    ({[0x1200 := running_tcb (message_regs 2 0 [2; 0; 0; 0])]} : gmap Z tcb_t) in Ht.
  apply lookup_singleton_Some in Ht as [_ <-]. cbn. repeat (apply Forall_cons; split; [done|]). by apply Forall_nil.
Qed.

Lemma msgs : msgs_ok state.
Proof.
  assert (F : map_Forall (fun _ b => Forall is_word (msg b)) (ipc_buffers state))
    by (apply (bool_decide_unpack _); vm_compute; exact I).
  intros p b Hb. exact (F p b Hb).
Qed.

Lemma slots_outside p : is_Some (caps state p) ->
  outside (fst (@free_region riscv_config state (slot_addr 2) example_untyped))
    (snd (@free_region riscv_config state (slot_addr 2) example_untyped)) p = true.
Proof.
  assert (F : map_Forall (fun p _ => outside (fst (@free_region riscv_config state (slot_addr 2) example_untyped))
    (snd (@free_region riscv_config state (slot_addr 2) example_untyped)) p = true) (ctes state))
    by (apply (bool_decide_unpack _); vm_compute; exact I).
  intros [c Hc]. unfold caps in Hc. apply fmap_Some in Hc as (e & He & _). exact (F p e He).
Qed.
End RetypeExample.

Lemma retype_in_free_memory_witness :
  RetypeExample.run = Ok (EXCEPTION_NONE, RetypeExample.after) /\
  exists t us bits base cn off w,
    @retype_request riscv_config RetypeExample.state 0x4000 t us cn off w /\
    @retyped riscv_config RetypeExample.state RetypeExample.after (slot_addr 2) example_untyped
      t us bits base (capCNodePtr cn) off w.
Proof.
  split; [vm_compute; reflexivity|].
  apply (@retype_in_free_memory riscv_config 2 UntypedRetype 6 (slot_addr 2) example_untyped 0x4000
           RetypeExample.state RetypeExample.after).
  - unfold untyped_ok. vm_compute. intuition discriminate.
  - vm_compute. reflexivity.
  - exact RetypeExample.regs.
  - exact RetypeExample.msgs.
  - exact RetypeExample.slots_outside.
  - vm_compute. reflexivity.
Defined.
