(* ===== verification/IpcProps.v ===== *)
(** * Messages arrive as they were sent

    What the transfer of sel4_ipc/src/transfer.rs and the message part of
    sel4_task/src/tcb.rs promise: the receiver reads the words of the sender,
    nothing else changes. *)

From S2P Require Import Prelude Monad DList Config Objects State CapOps CSpace VSpace Refill TcbQueue.
From S2P Require Import Sched Tcb SchedCtx Ipc Untyped Example.

(** Changing what is present is replacing it. *)
Lemma alter_present {A} (f : A -> A) (h : gmap Z A) a x : h !! a = Some x -> alter f a h = <[a := f x]> h.
Proof.
  intros Hx. apply map_eq. intros c. rewrite lookup_alter_case, lookup_insert. case_decide; [|done].
  subst. by rewrite Hx.
Qed.

Lemma get_tcb_eval s a :
  get_tcb a s = if a =? 0 then Err EPanic else match tcbs s !! a with Some t => Ok (t, s) | None => Err EUndef end.
Proof.
  unfold get_tcb, on_tcbs, lift_part, hget. destruct (a =? 0); [done|]. destruct (tcbs s !! a); [|done].
  by rewrite kstate_tcbs_id.
Qed.

Lemma get_cte_eval s a :
  get_cte a s = if a =? 0 then Err EPanic else match ctes s !! a with Some c => Ok (c, s) | None => Err EUndef end.
Proof.
  unfold get_cte, on_ctes, lift_part, hget. destruct (a =? 0); [done|]. destruct (ctes s !! a); [|done].
  by rewrite kstate_ctes_id.
Qed.

Section transfer.
Context `{Config}.

(** ** Registers *)

Definition CONTEXT_REG_NUM : Z := match target_arch with RISCV64 => 35 | AARCH64 => 37 end.

(** Where the message starts in the register file. *)
Definition msg_base : Z := match target_arch with RISCV64 => 11 | AARCH64 => 2 end.
Definition badge_index : Z := match target_arch with RISCV64 => 9 | AARCH64 => 0 end.
Definition info_index : Z := badge_index + 1.

Definition thread_at (s : kstate) (a : Z) (t : tcb_t) : Prop :=
  a <> 0 /\ tcbs s !! a = Some t /\ Z.of_nat (length (registers (tcbArch t))) = CONTEXT_REG_NUM.

Definition reg (t : tcb_t) (i : Z) : option Z := registers (tcbArch t) !! Z.to_nat i.

Lemma reg_some s a t i : thread_at s a t -> 0 <= i < 16 -> exists w, reg t i = Some w.
Proof.
  intros (_ & _ & Hl) Hi. apply lookup_lt_is_Some_2. unfold CONTEXT_REG_NUM in Hl. destruct target_arch; lia.
Qed.

Lemma get_register_run s a t r i w : thread_at s a t -> to_index r = Ok i -> 0 <= i -> reg t i = Some w ->
  get_register a r s = Ok (w, s).
Proof.
  intros (Ha & Ht & _) Er Hi Hw. unfold get_register. erewrite bind_ok by by apply get_tcb_ok.
  rewrite Er. erewrite bind_ok by reflexivity. by rewrite (array_get_ok _ _ w).
Qed.

Definition with_regs (a : Z) (t : tcb_t) (l : list Z) (s : kstate) : kstate :=
  s <| tcbs := <[a := set_registers l t]> (tcbs s) |>.

Lemma set_register_run s a t r i w : thread_at s a t -> to_index r = Ok i -> 0 <= i < 16 ->
  set_register a r w s = Ok (tt, with_regs a t (<[Z.to_nat i := w]> (registers (tcbArch t))) s).
Proof.
  intros (Ha & Ht & Hl) Er Hi. unfold set_register. erewrite bind_ok by by apply get_tcb_ok.
  rewrite Er. erewrite bind_ok by reflexivity.
  rewrite array_set_ok by (unfold CONTEXT_REG_NUM in Hl; destruct target_arch; lia).
  erewrite bind_ok by reflexivity. rewrite mod_tcb_ok by eauto. unfold with_regs. by rewrite (alter_present _ _ _ _ Ht).
Qed.

Lemma with_regs_id s a t : tcbs s !! a = Some t -> with_regs a t (registers (tcbArch t)) s = s.
Proof.
  intros Ht. unfold with_regs, set_registers. rewrite insert_id; [by destruct s|].
  rewrite Ht. f_equal. by destruct t as [[]].
Qed.

Lemma with_regs_twice s a t l l' : with_regs a (set_registers l t) l' (with_regs a t l s) = with_regs a t l' s.
Proof. unfold with_regs. cbn. by rewrite insert_insert_eq. Qed.

Lemma thread_with_regs s a t l : thread_at s a t -> length l = length (registers (tcbArch t)) ->
  thread_at (with_regs a t l s) a (set_registers l t).
Proof. intros (Ha & Ht & Hl) El. split; [done|]. cbn. split; [by rewrite lookup_insert_eq|lia]. Qed.

Lemma thread_other s a b t t' l : a <> b -> thread_at s a t -> thread_at (with_regs b t' l s) a t.
Proof. intros Hab (Ha & Ht & Hl). split; [done|]. split; [|done]. cbn. by rewrite lookup_insert_ne. Qed.

Lemma to_index_msg i : 0 <= i < 4 -> to_index (Msg i) = Ok (msg_base + i).
Proof.
  intros Hi. unfold to_index, MSG_REGISTER, msg_base.
  assert (i = 0 \/ i = 1 \/ i = 2 \/ i = 3) as [-> | [-> | [-> | ->]]] by lia; by destruct target_arch.
Qed.

Lemma msg_index_range i : 0 <= i < 4 -> 0 <= msg_base + i < 16.
Proof. unfold msg_base. destruct target_arch; lia. Qed.

Lemma to_index_badge : to_index Badge = Ok badge_index.
Proof. unfold to_index, badge_index, is_riscv. by destruct target_arch. Qed.
Lemma to_index_info : to_index MsgInfo = Ok info_index.
Proof. unfold to_index, info_index, badge_index, is_riscv. by destruct target_arch. Qed.
Lemma index_ranges : 0 <= badge_index < 16 /\ 0 <= info_index < 16 /\ info_index < msg_base.
Proof. unfold info_index, badge_index, msg_base. destruct target_arch; lia. Qed.

(** The registers [l] hold the first [n] message registers of [src], else
    what [dst] holds. *)
Definition copied (n : Z) (src dst : tcb_t) (l : list Z) : Prop :=
  length l = length (registers (tcbArch dst)) /\
  forall k, 0 <= k -> l !! Z.to_nat k = if (msg_base <=? k) && (k <? msg_base + n) then reg src k else reg dst k.

Lemma copied_step n src dst l w : 0 <= n < 4 -> copied n src dst l -> reg src (msg_base + n) = Some w ->
  (length (registers (tcbArch dst)) > Z.to_nat (msg_base + n))%nat ->
  copied (n + 1) src dst (<[Z.to_nat (msg_base + n) := w]> l).
Proof.
  intros Hn [El Hl] Hw Hlen. pose proof (msg_index_range n Hn). split; [by rewrite length_insert|]. intros k Hk.
  destruct (decide (k = msg_base + n)) as [->|Hne].
  - rewrite list_lookup_insert_eq by lia. by repeat zcase; try lia.
  - rewrite list_lookup_insert_ne by lia. rewrite Hl by done. by repeat zcase; try lia.
Qed.
(** ** Copying *)

(** The buffers are found through fields that a transfer does not write. *)
Lemma lookup_buffers_stable s s' a b x :
  tcbIPCBuffer <$> tcbs s' !! a = tcbIPCBuffer <$> tcbs s !! a -> ctes s' = ctes s ->
  (lookup_ipc_buffer a b s = Ok (x, s) -> lookup_ipc_buffer a b s' = Ok (x, s')) /\
  (lookup_mut_ipc_buffer a b s = Ok (x, s) -> lookup_mut_ipc_buffer a b s' = Ok (x, s')).
Proof.
  intros Et Ec. unfold lookup_ipc_buffer, lookup_mut_ipc_buffer, tcb_cap, bind. rewrite !get_tcb_eval.
  destruct (a =? 0); [done|]. destruct (tcbs s !! a) as [t|], (tcbs s' !! a) as [t'|]; try done.
  apply (inj Some) in Et. rewrite !get_cte_eval, Ec, Et. destruct (get_cspace a TCB_BUFFER =? 0); [done|].
  destruct (ctes s !! _) as [c|]; [|done]. unfold ret, lift_res. split; intros Hrun; by repeat case_match; simplify_eq.
Qed.

Lemma copy_registers s self receiver ts tr n :
  self <> receiver -> thread_at s self ts -> thread_at s receiver tr -> 0 <= n <= 4 ->
  exists l, for_between 0 n (fun i => let* w := get_register self (Msg i) in set_register receiver (Msg i) w) s =
    Ok (tt, with_regs receiver tr l s) /\ copied n ts tr l.
Proof.
  intros Hne Hs Hr Hn.
  enough (wp (for_between 0 n (fun i => let* w := get_register self (Msg i) in set_register receiver (Msg i) w))
    (fun _ s' => exists l, s' = with_regs receiver tr l s /\ copied n ts tr l) s) as Hwp.
  { apply wp_iff in Hwp as ([] & s' & Hrun & l & -> & Hl). eauto. }
  apply (wp_for_range (fun i s' => exists l, s' = with_regs receiver tr l s /\ copied i ts tr l)).
  - exists (registers (tcbArch tr)). split; [symmetry; by apply with_regs_id, Hr|]. split; [done|].
    intros k Hk. by repeat zcase; try lia.
  - intros j s' Hj (l & -> & Hl). assert (Hj4 : 0 <= j < 4) by lia. pose proof (msg_index_range j Hj4) as Hi.
    destruct (reg_some s self ts (msg_base + j) Hs Hi) as [w Hw].
    pose proof (thread_with_regs s receiver tr l Hr (proj1 Hl)) as Hr'.
    eapply wp_ok; [erewrite bind_ok by (eapply get_register_run; [by apply thread_other|by apply to_index_msg|lia|done]);
      by apply set_register_run; [exact Hr'|apply to_index_msg|]|].
    rewrite with_regs_twice. eexists. split; [done|]. apply copied_step; try done.
    destruct Hr as (_ & _ & Hlen). unfold CONTEXT_REG_NUM in Hlen. destruct target_arch; lia.
  - intros s' (l & -> & Hl). exists l. split; [done|]. replace n with (0 + Z.of_nat (Z.to_nat (n - 0))) by lia. done.
Qed.

Definition buffer_at (s : kstate) (p : Z) (b : seL4_IPCBuffer) : Prop :=
  p <> 0 /\ ipc_buffers s !! p = Some b /\ Z.of_nat (length (msg b)) = SEL4_MSG_MAX_LENGTH.

Definition with_msg (p : Z) (b : seL4_IPCBuffer) (m : list Z) (s : kstate) : kstate :=
  s <| ipc_buffers := <[p := b <| msg := m |>]> (ipc_buffers s) |>.

Lemma buffer_get_run s p b i w : p <> 0 -> ipc_buffers s !! p = Some b -> 0 <= i -> msg b !! Z.to_nat i = Some w ->
  buffer_get_msg p i s = Ok (w, s).
Proof.
  intros Hp Hb Hi Hw. unfold buffer_get_msg. erewrite bind_ok by (apply lift_hget_ok; [by destruct s|exact Hp|exact Hb]).
  by rewrite (array_get_ok _ _ w).
Qed.

Lemma buffer_set_run s p b i w : buffer_at s p b -> 0 <= i < SEL4_MSG_MAX_LENGTH ->
  buffer_set_msg p i w s = Ok (tt, with_msg p b (<[Z.to_nat i := w]> (msg b)) s).
Proof.
  intros (Hp & Hb & Hl) Hi. unfold buffer_set_msg.
  erewrite bind_ok by (apply lift_hget_ok; [by destruct s|exact Hp|exact Hb]).
  rewrite array_set_ok by lia. erewrite bind_ok by reflexivity. unfold mod_buffer, on_buffers.
  erewrite lift_part_ok by by apply hmod_alter. unfold with_msg. by rewrite (alter_present _ _ _ _ Hb).
Qed.

(** The words from [a] to [n] are those of [src], the others those of [dst]. *)
Definition spliced (a n : Z) (src dst m : list Z) : Prop :=
  length m = length dst /\
  forall k, 0 <= k -> m !! Z.to_nat k = if (a <=? k) && (k <? n) then src !! Z.to_nat k else dst !! Z.to_nat k.

Lemma spliced_step a n src dst m w : 0 <= a <= n -> n < Z.of_nat (length dst) -> spliced a n src dst m ->
  src !! Z.to_nat n = Some w -> spliced a (n + 1) src dst (<[Z.to_nat n := w]> m).
Proof.
  intros Ha Hn [El Hl] Hw. split; [by rewrite length_insert|]. intros k Hk.
  destruct (decide (k = n)) as [->|Hne].
  - rewrite list_lookup_insert_eq by lia. by repeat zcase; try lia.
  - rewrite list_lookup_insert_ne by lia. rewrite Hl by done. by repeat zcase; try lia.
Qed.

(** What the reader of the sender's buffer finds while the receiver's, perhaps
    the same, is being written. *)
Lemma spliced_read s sb rb b b' m a n : buffer_at s sb b -> buffer_at s rb b' -> 0 <= a <= n ->
  spliced a n (msg b) (msg b') m ->
  exists b1, ipc_buffers (with_msg rb b' m s) !! sb = Some b1 /\ msg b1 !! Z.to_nat n = msg b !! Z.to_nat n.
Proof.
  intros (Hs0 & Hs & _) (Hr0 & Hr & _) Ha [_ Hm]. cbn. rewrite lookup_insert. case_decide as E; [|eauto].
  subst. simplify_eq. eexists. split; [done|]. cbn. rewrite Hm by lia. by repeat zcase; try lia.
Qed.

Lemma copy_buffer s sb rb b b' a n : buffer_at s sb b -> buffer_at s rb b' -> 0 <= a -> n <= SEL4_MSG_MAX_LENGTH ->
  a <= n ->
  exists m, for_between a n (fun i => let* w := buffer_get_msg sb i in buffer_set_msg rb i w) s =
    Ok (tt, with_msg rb b' m s) /\ spliced a n (msg b) (msg b') m.
Proof.
  intros Hs Hr Ha Hn Han.
  enough (wp (for_between a n (fun i => let* w := buffer_get_msg sb i in buffer_set_msg rb i w))
    (fun _ s' => exists m, s' = with_msg rb b' m s /\ spliced a n (msg b) (msg b') m) s) as Hwp.
  { apply wp_iff in Hwp as ([] & s' & Hrun & m & -> & Hm). eauto. }
  pose proof Hs as (Hs0 & Hsb & Hsl). pose proof Hr as (Hr0 & Hrb & Hrl).
  apply (wp_for_range (fun i s' => exists m, s' = with_msg rb b' m s /\ spliced a i (msg b) (msg b') m)).
  - exists (msg b'). split; [|split; [done|]; intros k Hk; by repeat zcase; try lia].
    unfold with_msg. rewrite insert_id; [by destruct s|]. rewrite Hrb. by destruct b'.
  - intros j s' Hj (m & -> & Hm).
    destruct (spliced_read s sb rb b b' m a j Hs Hr) as (b1 & Hb1 & E1); [lia|done|].
    destruct (lookup_lt_is_Some_2 (msg b) (Z.to_nat j)) as [w Hw]; [lia|].
    assert (Hr1 : buffer_at (with_msg rb b' m s) rb (b' <| msg := m |>)).
    { split; [done|]. split; [apply lookup_insert_eq|]. cbn. rewrite (proj1 Hm). done. }
    eapply wp_ok.
    { erewrite bind_ok by (eapply buffer_get_run; [done|exact Hb1|lia|rewrite E1; exact Hw]).
      eapply buffer_set_run; [exact Hr1|lia]. }
    exists (<[Z.to_nat j := w]> m). split; [unfold with_msg; cbn; by rewrite insert_insert_eq|].
    apply spliced_step; try done; lia.
  - intros s' (m & -> & Hm). exists m. split; [done|]. by replace n with (a + Z.of_nat (Z.to_nat (n - a))) by lia.
Qed.

(** The words of the message of a thread: registers first, then the buffer. *)
Definition message_word (s : kstate) (a : Z) (buf : option Z) (i : Z) : option Z :=
  if i <? MSG_REGISTER_NUM then tcbs s !! a ≫= fun t => reg t (msg_base + i)
  else buf ≫= fun p => ipc_buffers s !! p ≫= fun b => msg b !! Z.to_nat i.

(** How much of a message is copied. *)
Definition message_length (sb rb : option Z) (len : Z) : Z :=
  match sb, rb with Some _, Some _ => len | _, _ => Z.min len MSG_REGISTER_NUM end.

Definition buffer_ok (s : kstate) (buf : option Z) : Prop :=
  match buf with Some p => exists b, buffer_at s p b | None => True end.

(** The buffers after a copy of [len] words. *)
Definition buffers_after (s : kstate) (sb rb : option Z) (len : Z) (B : gmap Z seL4_IPCBuffer) : Prop :=
  (forall p, rb <> Some p -> B !! p = ipc_buffers s !! p) /\
  (forall p b, rb = Some p -> ipc_buffers s !! p = Some b -> exists m, B !! p = Some (b <| msg := m |>) /\
     forall i, 0 <= i -> i < MSG_REGISTER_NUM \/ message_length sb rb len <= i -> m !! Z.to_nat i = msg b !! Z.to_nat i) /\
  forall i, MSG_REGISTER_NUM <= i < message_length sb rb len ->
    (rb ≫= fun p => B !! p ≫= fun b => msg b !! Z.to_nat i) =
    (sb ≫= fun p => ipc_buffers s !! p ≫= fun b => msg b !! Z.to_nat i).

Lemma copy_mrs_spec s self receiver ts tr sb rb len :
  self <> receiver -> thread_at s self ts -> thread_at s receiver tr -> 0 <= len <= SEL4_MSG_MAX_LENGTH ->
  lookup_ipc_buffer self false s = Ok (sb, s) -> lookup_mut_ipc_buffer receiver true s = Ok (rb, s) ->
  buffer_ok s sb -> buffer_ok s rb ->
  exists l B, copy_mrs self receiver len s =
      Ok (message_length sb rb len, with_regs receiver tr l s <| ipc_buffers := B |>) /\
    copied (Z.min len MSG_REGISTER_NUM) ts tr l /\ buffers_after s sb rb len B.
Proof.
  intros Hne Hs Hr Hlen Hsb Hrb Hsbo Hrbo. unfold MSG_REGISTER_NUM in *.
  destruct (copy_registers s self receiver ts tr (Z.min len 4) Hne Hs Hr) as (l & Hrun & Hl); [lia|].
  unfold copy_mrs, MSG_REGISTER_NUM. rewrite (bind_ok _ _ _ _ _ Hrun). set (s1 := with_regs receiver tr l s).
  assert (Hst : forall a, tcbIPCBuffer <$> tcbs s1 !! a = tcbIPCBuffer <$> tcbs s !! a).
  { intros a. cbn. rewrite lookup_insert. case_decide; [|done]. subst. by rewrite (proj1 (proj2 Hr)). }
  erewrite bind_ok by (eapply lookup_buffers_stable; [apply Hst|done|exact Hsb]).
  erewrite bind_ok by (eapply lookup_buffers_stable; [apply Hst|done|exact Hrb]).
  exists l. destruct sb as [p|], rb as [q|]; cbn [message_length].
  2,3,4: exists (ipc_buffers s); split; [unfold ret; do 3 f_equal|split; [done|split; [done|split; [|cbn; lia]]]];
    intros c b _ Hb; exists (msg b); (split; [rewrite Hb; by destruct b|done]).
  destruct Hsbo as [b Hb], Hrbo as [b' Hb'].
  destruct (copy_buffer s1 p q b b' (Z.min len 4) len) as (m & Hrun2 & Hm); try done; try lia.
  rewrite (bind_ok _ _ _ _ _ Hrun2). exists (<[q := b' <| msg := m |>]> (ipc_buffers s)).
  split; [done|]. split; [done|]. split; [intros c Hc; by rewrite lookup_insert_ne by congruence|]. split.
  { intros c b0 [= ->] Hb0. destruct Hb' as (_ & Eb & _). cbn in Eb. simplify_eq. exists m. rewrite lookup_insert_eq.
    split; [done|]. cbn. intros i Hi0 Hi. unfold MSG_REGISTER_NUM in Hi. rewrite (proj2 Hm) by done. by repeat zcase; try lia. }
  intros i Hi. unfold MSG_REGISTER_NUM in Hi. cbn in Hi |- *. rewrite lookup_insert_eq. cbn.
  rewrite (proj2 Hm) by lia. destruct Hb as (_ & -> & _). by repeat zcase; try lia.
Qed.

(** ** The message information word *)

Definition info_after (tag len : Z) : Z := set_length (set_capsUnwrapped (set_extraCaps tag 0) 0) len.

Lemma info_after_bits tag len k : is_word tag -> 0 <= len < 128 -> 0 <= k ->
  Z.testbit (info_after tag len) k =
  if k <? 7 then Z.testbit len k else if k <? 12 then false else Z.testbit tag k.
Proof.
  intros Ht Hl Hk. unfold info_after, set_length, set_capsUnwrapped, set_extraCaps. change (0x3 <<w 7) with 0x180.
  change (0x7 <<w 9) with 0xe00. change (Z.land 0 0x3 <<w 7) with 0. change (Z.land 0 0x7 <<w 9) with 0.
  rewrite !Z.lor_0_r. rewrite !land_wnot by auto using land_word_l.
  rewrite Z.lor_spec, Z.land_spec, !Z.ldiff_spec. destruct (Z.ltb_spec k 12) as [Hlt|Hge].
  - assert (k = 0 \/ k = 1 \/ k = 2 \/ k = 3 \/ k = 4 \/ k = 5 \/ k = 6 \/ k = 7 \/ k = 8 \/ k = 9 \/ k = 10 \/ k = 11)
      as Hcases by lia.
    repeat destruct Hcases as [-> | Hcases]; [..|subst k];
      (match goal with |- context [Z.testbit tag ?j] => generalize (Z.testbit tag j), (Z.testbit len j) end;
       intros [] []; reflexivity).
  - assert (Hc : forall c, 0 < c < 2 ^ 12 -> Z.testbit c k = false).
    { intros c Hc. apply Z.bits_above_log2; [lia|]. apply Z.log2_lt_pow2; [lia|].
      eapply Z.lt_le_trans; [apply Hc|]. apply Z.pow_le_mono_r; lia. }
    rewrite (Hc 0x180), (Hc 0xe00), !(Hc 0x7f) by done. destruct (Z.ltb_spec k 7); [lia|]. cbn. by rewrite !andb_true_r, andb_false_r, orb_false_r.
Qed.

(** The receiver reads the label of the sender, the words copied and no
    capabilities. *)
Lemma info_after_fields tag len : is_word tag -> 0 <= len < 128 ->
  get_length (info_after tag len) = len /\ get_label (info_after tag len) = get_label tag /\
  get_extraCaps (info_after tag len) = 0 /\ get_capsUnwrapped (info_after tag len) = 0.
Proof.
  intros Ht Hl. pose proof (info_after_bits tag len) as Hb.
  assert (Hh : forall k, 7 <= k -> Z.testbit len k = false).
  { intros k Hk. rewrite <- (Z.mod_small len (2 ^ 7)) by lia. by apply Z.mod_pow2_bits_high; lia. }
  unfold get_length, get_label, get_extraCaps, get_capsUnwrapped, wshr.
  change (7 mod 64) with 7. change (9 mod 64) with 9. change (12 mod 64) with 12.
  assert (Ho : 0x7f = Z.ones 7 /\ 0x3 = Z.ones 2 /\ 0x7 = Z.ones 3) by done. destruct Ho as (H7 & H2 & H3).
  split_and!; apply Z.bits_inj'; intros k Hk.
  - rewrite H7, Z.land_spec, Hb, Z.testbit_ones by (done || lia).
    repeat zcase; try lia; rewrite ?andb_true_r, ?andb_false_r; try done; symmetry; apply Hh; lia.
  - rewrite !Z.shiftr_spec, Hb by (done || lia). by repeat zcase; try lia.
  - rewrite H2, Z.land_spec, Z.shiftr_spec, Hb, Z.testbit_ones, Z.bits_0 by (done || lia).
    by repeat zcase; try lia; rewrite ?andb_false_r.
  - rewrite H3, Z.land_spec, Z.shiftr_spec, Hb, Z.testbit_ones, Z.bits_0 by (done || lia).
    by repeat zcase; try lia; rewrite ?andb_false_r.
Qed.

(** ** A whole transfer without capabilities *)

Lemma tag_length w : 0 <= get_length (from_word_security w) <= SEL4_MSG_MAX_LENGTH.
Proof.
  unfold from_word_security, SEL4_MSG_MAX_LENGTH. destruct (Z.ltb_spec 120 (get_length w)) as [Hlt|Hge].
  - unfold get_length, set_length. change (wnot 0x7f) with (Z.lxor 0x7f UINT64_MAX).
    rewrite Z.land_lor_distr_l, <- Z.land_assoc. cbn. by rewrite Z.land_0_r.
  - split; [|done]. unfold get_length. apply Z.land_nonneg. by right.
Qed.

Lemma tag_word w : is_word w -> is_word (from_word_security w).
Proof.
  intros Hw. unfold from_word_security. case_match; [|done]. unfold set_length. apply lor_word.
  - by apply land_word_l.
  - done.
Qed.

Lemma no_extra_caps s self ts w sb : thread_at s self ts -> reg ts info_index = Some w ->
  lookup_ipc_buffer self false s = Ok (sb, s) -> get_extraCaps (from_word_security w) = 0 ->
  lookup_extra_caps self [0; 0; 0] s = Ok ((EXCEPTION_NONE, [0; 0; 0]), s).
Proof.
  intros Hs Hw Hsb He. unfold lookup_extra_caps. pose proof index_ranges as (_ & Hi & _).
  erewrite bind_ok by (eapply get_register_run; [done|apply to_index_info|lia|exact Hw]).
  erewrite bind_ok by exact Hsb. by destruct sb as [p|]; rewrite ?He.
Qed.

(** [s'] is [s] after the message of [self], with information word [tag], was
    given to [receiver] with [badge]. *)
Definition delivered (s s' : kstate) (self receiver : Z) (tr : tcb_t) (sb rb : option Z) (tag badge : Z) : Prop :=
  let n := message_length sb rb (get_length tag) in
  exists l B, s' = with_regs receiver tr l s <| ipc_buffers := B |> /\
    length l = length (registers (tcbArch tr)) /\
    (forall i, 0 <= i < n -> message_word s' receiver rb i = message_word s self sb i) /\
    l !! Z.to_nat badge_index = Some badge /\
    (exists info, l !! Z.to_nat info_index = Some info /\ get_length info = n /\
       get_label info = get_label tag /\ get_extraCaps info = 0 /\ get_capsUnwrapped info = 0) /\
    (forall k, 0 <= k -> k <> badge_index -> k <> info_index -> ~ (msg_base <= k < msg_base + Z.min n MSG_REGISTER_NUM) ->
       l !! Z.to_nat k = reg tr k) /\
    (forall p, rb <> Some p -> B !! p = ipc_buffers s !! p) /\
    (forall p b, rb = Some p -> ipc_buffers s !! p = Some b -> exists m, B !! p = Some (b <| msg := m |>) /\
       forall i, 0 <= i -> i < MSG_REGISTER_NUM \/ n <= i -> m !! Z.to_nat i = msg b !! Z.to_nat i).

Lemma copied_delivered s self receiver ts tr sb rb tag badge l B :
  thread_at s self ts -> thread_at s receiver tr -> is_word tag -> 0 <= get_length tag <= SEL4_MSG_MAX_LENGTH ->
  copied (Z.min (get_length tag) MSG_REGISTER_NUM) ts tr l -> buffers_after s sb rb (get_length tag) B ->
  delivered s (with_regs receiver tr
      (<[Z.to_nat badge_index := badge]> (<[Z.to_nat info_index :=
         info_after tag (message_length sb rb (get_length tag))]> l)) s <| ipc_buffers := B |>)
    self receiver tr sb rb tag badge.
Proof.
  intros Hs Hr Ht Hlen Hl HB. set (n := message_length sb rb (get_length tag)).
  assert (Hn : n <= get_length tag /\ Z.min n 4 = Z.min (get_length tag) 4 /\ 0 <= n < 128).
  { unfold n, message_length, MSG_REGISTER_NUM, SEL4_MSG_MAX_LENGTH in *. destruct sb, rb; lia. }
  pose proof index_ranges as (Hb & Hi & Hm). assert (Hbi : badge_index < info_index) by (unfold info_index; lia).
  destruct Hl as [El Hl]. assert (H16 : (16 < length l)%nat).
  { destruct Hr as (_ & _ & Hr). rewrite El. unfold CONTEXT_REG_NUM in Hr. destruct target_arch; lia. }
  destruct HB as (HB1 & HB2 & HB3). unfold delivered. fold n.
  do 2 eexists. split; [done|]. rewrite !length_insert. split; [done|]. split_and!; try done.
  - intros i Hi'. unfold message_word. destruct (Z.ltb_spec i MSG_REGISTER_NUM) as [Hlt|Hge]; [|apply HB3; fold n; lia].
    destruct Hs as (_ & -> & _). cbn. rewrite lookup_insert_eq. cbn. unfold reg. cbn.
    unfold MSG_REGISTER_NUM in *. rewrite !list_lookup_insert_ne, Hl by lia. repeat zcase; try lia. done.
  - apply list_lookup_insert_eq. rewrite length_insert. lia.
  - eexists. rewrite list_lookup_insert_ne, list_lookup_insert_eq by lia. split; [done|].
    apply info_after_fields; [done|lia].
  - intros k Hk Hk1 Hk2 Hk3. rewrite !list_lookup_insert_ne, Hl by lia. unfold MSG_REGISTER_NUM in *.
    by repeat zcase; try lia.
Qed.

Lemma do_normal_transfer_spec s self receiver ts tr sb rb w ep badge grant :
  self <> receiver -> thread_at s self ts -> thread_at s receiver tr ->
  reg ts info_index = Some w -> is_word w ->
  lookup_ipc_buffer self false s = Ok (sb, s) -> lookup_mut_ipc_buffer receiver true s = Ok (rb, s) ->
  buffer_ok s sb -> buffer_ok s rb ->
  grant = false \/ get_extraCaps (from_word_security w) = 0 ->
  exists s', do_normal_transfer self receiver ep badge grant s = Ok (tt, s') /\
    delivered s s' self receiver tr sb rb (from_word_security w) badge.
Proof.
  intros Hne Hs Hr Hw Hwd Hsb Hrb Hsbo Hrbo Hcaps. pose proof index_ranges as (Hb & Hi & Hm).
  unfold do_normal_transfer.
  erewrite bind_ok by (eapply get_register_run; [done|apply to_index_info|lia|exact Hw]).
  set (tag := from_word_security w) in *. pose proof (tag_length w : 0 <= get_length tag <= _) as Hlen.
  erewrite (bind_ok _ _ _ [0; 0; 0] s).
  2:{ destruct grant; [|done]. destruct Hcaps as [|He]; [done|].
      by rewrite (bind_ok _ _ _ _ _ (no_extra_caps s self ts w sb Hs Hw Hsb He)). }
  destruct (copy_mrs_spec s self receiver ts tr sb rb (get_length tag)) as (l & B & Hrun & Hl & HB); try done.
  rewrite (bind_ok _ _ _ _ _ Hrun). set (s1 := with_regs receiver tr l s <| ipc_buffers := B |>).
  erewrite (bind_ok _ _ _ (set_capsUnwrapped (set_extraCaps tag 0) 0) s1).
  2:{ unfold set_transfer_caps. erewrite bind_ok.
      2:{ eapply (lookup_buffers_stable s s1); [|done|exact Hrb]. cbn. rewrite lookup_insert_eq. by rewrite (proj1 (proj2 Hr)). }
      erewrite bind_ok by reflexivity. by destruct rb. }
  assert (Hr1 : thread_at s1 receiver (set_registers l tr)) by by apply thread_with_regs; [|apply Hl].
  erewrite bind_ok by (apply set_register_run; [exact Hr1|apply to_index_info|lia]).
  eexists. split.
  { apply set_register_run; [|apply to_index_badge|lia]. apply thread_with_regs; [exact Hr1|]. cbn. by rewrite length_insert. }
  pose proof (copied_delivered s self receiver ts tr sb rb tag badge l B Hs Hr (tag_word _ Hwd) Hlen Hl HB) as Hd.
  rewrite with_regs_twice. unfold with_regs in *. cbn in *. rewrite insert_insert_eq. exact Hd.
Qed.

End transfer.

(** ** A message arrives as it was sent *)

(** C14. A transfer without capabilities between two threads always succeeds.
    The receiver then reads, word by word in registers and buffer, the message
    of the sender, as far as both have a buffer for it; its information word
    has the sender's label, the number of words copied and no capabilities, and
    its badge register the badge.  No other register of the receiver, no other
    word or buffer and no other thread changes. *)
Theorem message_delivered `{Config} s self receiver ts tr sb rb w ep badge grant :
  self <> receiver -> thread_at s self ts -> thread_at s receiver tr ->
  reg ts info_index = Some w -> is_word w ->
  lookup_ipc_buffer self false s = Ok (sb, s) -> lookup_mut_ipc_buffer receiver true s = Ok (rb, s) ->
  buffer_ok s sb -> buffer_ok s rb ->
  grant = false \/ get_extraCaps (from_word_security w) = 0 ->
  exists s', do_normal_transfer self receiver ep badge grant s = Ok (tt, s') /\
    delivered s s' self receiver tr sb rb (from_word_security w) badge.
Proof. apply do_normal_transfer_spec. Qed.

Module MessageExample.
(** Thread 0x1200 sends six words with label 5 to thread 0x2200. *)
Definition sender : tcb_t := running_tcb (message_regs 7 (5 * 4096 + 6) [11; 12; 13; 14]).
Definition receiver : tcb_t := running_tcb (message_regs 0 0 [0; 0; 0; 0]).
Definition receiver_frame : cap := cap_frame_cap (mk_frame_cap 1 0x5000 0 3 0 0x10000).
Definition state : kstate :=
  base_state
    <| tcbs := <[0x1200 := sender]> (<[0x2200 := receiver]> ∅) |>
    <| ctes := <[0x1080 := plain_slot buffer_frame]> (<[0x2080 := plain_slot receiver_frame]> ∅) |>
    <| eps := {[0x3000 := mk_endpoint 0 0 EP_Idle]} |>
    <| ipc_buffers := <[0x4000 := zero_buffer <| msg := [0; 0; 0; 0; 15; 16] ++ replicate 114 0 |>]>
                        (<[0x5000 := zero_buffer]> ∅) |>.

Lemma sender_at : @thread_at riscv_config state 0x1200 sender.
Proof. split; [done|]. by split. Qed.
Lemma receiver_at : @thread_at riscv_config state 0x2200 receiver.
Proof. split; [done|]. by split. Qed.
Lemma sender_buffer : buffer_ok state (Some 0x4000).
Proof. eexists. split; [done|]. by split. Qed.
Lemma receiver_buffer : buffer_ok state (Some 0x5000).
Proof. eexists. split; [done|]. by split. Qed.
End MessageExample.

Lemma message_delivered_witness : exists s',
  @do_normal_transfer riscv_config 0x1200 0x2200 (Some 0x3000) 77 true MessageExample.state = Ok (tt, s') /\
  @message_word riscv_config s' 0x2200 (Some 0x5000) 2 = Some 13 /\
  @message_word riscv_config s' 0x2200 (Some 0x5000) 5 = Some 16.
Proof.
  destruct (@message_delivered riscv_config MessageExample.state 0x1200 0x2200 MessageExample.sender MessageExample.receiver
    (Some 0x4000) (Some 0x5000) (5 * 4096 + 6) (Some 0x3000) 77 true) as (s' & Hrun & l & B & _ & _ & Hm & _).
  - discriminate.
  - exact MessageExample.sender_at.
  - exact MessageExample.receiver_at.
  - reflexivity.
  - split; reflexivity || discriminate.
  - vm_compute. reflexivity.
  - vm_compute. reflexivity.
  - exact MessageExample.sender_buffer.
  - exact MessageExample.receiver_buffer.
  - right. reflexivity.
  - exists s'. split; [exact Hrun|]. split.
    + rewrite (Hm 2) by (vm_compute; split; congruence). vm_compute. reflexivity.
    + rewrite (Hm 5) by (vm_compute; split; congruence). vm_compute. reflexivity.
Defined.
