(* ===== verification/Rendezvous.v ===== *)
(** * Meetings at endpoints and notifications (sel4_ipc/src/endpoint.rs and
    notification.rs), kernel without MCS

    The operations of an endpoint on its queue of threads: a thread that finds
    no partner waits at the end of the queue; one that finds partners takes the
    first of them, the message is transferred and the waiting thread is handed
    to the scheduler.  Either order of a send and a receive ends with the same
    message received, and no signal to a notification is lost. *)

From S2P Require Import Prelude Monad DList Config Objects State CapOps CSpace MDB CSpaceProps VSpace Refill TcbQueue.
From S2P Require Import Sched Frame SchedProps Tcb SchedCtx Schedule ScheduleProps Ipc Finalise Example IpcProps.

(** ** Views of a thread

    The scheduler, the endpoint queues and the message transfer each read and
    write fields of their own. *)

Definition sched_view (t : tcb_t) : Z * Z * Z * Z * Z * Z :=
  (domain t, tcbPriority t, tcbQueued (tcbState t), tcbInReleaseQueue (tcbState t), tcbSchedPrev t, tcbSchedNext t).
Definition ep_view (t : tcb_t) : Z * Z := (tcbEPPrev t, tcbEPNext t).
Definition ipc_view (t : tcb_t) : ArchTCB * Z * seL4_Fault * Z :=
  (tcbArch t, tcbIPCBuffer t, tcbFault t, tcbBoundNotification t).
Definition block_view (t : tcb_t) : ThreadState * Z * Z * Z * Z * Z :=
  (tsType (tcbState t), blockingObject (tcbState t), blockingIPCBadge (tcbState t),
   blockingIPCCanGrant (tcbState t), blockingIPCCanGrantReply (tcbState t), blockingIPCIsCall (tcbState t)).

Definition same_view {V} (f : tcb_t -> V) (s s' : kstate) : Prop :=
  forall a, f <$> tcbs s' !! a = f <$> tcbs s !! a.

#[export] Instance same_view_preorder {V} (f : tcb_t -> V) : PreOrder (same_view f).
Proof. split; [done|]. intros s1 s2 s3 H1 H2 a. by rewrite H2, H1. Qed.

Lemma same_view_lookup {V} (f : tcb_t -> V) s s' a t : same_view f s s' -> tcbs s !! a = Some t ->
  exists t', tcbs s' !! a = Some t' /\ f t' = f t.
Proof.
  intros E Ha. specialize (E a). rewrite Ha in E. destruct (tcbs s' !! a) as [t'|]; [|done].
  exists t'. split; [done|]. by apply (inj Some) in E.
Qed.

Lemma same_view_via {V W} (g : tcb_t -> W) (f : tcb_t -> V) s s' :
  (forall t t', g t' = g t -> f t' = f t) -> same_view g s s' -> same_view f s s'.
Proof.
  intros Hgf E a. specialize (E a). destruct (tcbs s' !! a), (tcbs s !! a); try done.
  apply (inj Some) in E. cbn. by rewrite (Hgf _ _ E).
Qed.

(** Writing one thread in fields outside a view. *)
Lemma same_view_insert {V} (f : tcb_t -> V) s a t t' : tcbs s !! a = Some t -> f t' = f t ->
  same_view f s (s <| tcbs := <[a := t']> (tcbs s) |>).
Proof. intros Ht E c. cbn. rewrite lookup_insert. case_decide; [|done]. subst. rewrite Ht. cbn. by rewrite E. Qed.

Ltac field_eq E f := exact (f_equal f E).
Lemma strip_views t t' : strip t' = strip t ->
  ep_view t' = ep_view t /\ ipc_view t' = ipc_view t /\ block_view t' = block_view t.
Proof. intros E. split; [field_eq E ep_view|]. split; [field_eq E ipc_view|field_eq E block_view]. Qed.

Lemma erase_ep_views t t' : erase_ep t' = erase_ep t ->
  sched_view t' = sched_view t /\ ipc_view t' = ipc_view t /\ block_view t' = block_view t.
Proof. intros E. split; [field_eq E sched_view|]. split; [field_eq E ipc_view|field_eq E block_view]. Qed.

Lemma ready_ok_view s s' Q rel : same_view sched_view s s' -> ksReadyQueues s' = ksReadyQueues s ->
  ksReleaseQueue s' = ksReleaseQueue s -> ksReadyQueuesL1Bitmap s' = ksReadyQueuesL1Bitmap s ->
  ksReadyQueuesL2Bitmap s' = ksReadyQueuesL2Bitmap s -> ready_ok s Q rel -> ready_ok s' Q rel.
Proof.
  intros E E2 E3 E4 E5 (H0 & H2 & H3 & H4 & H5 & H6).
  assert (EL : forall a, sched_links (tcbs s') a = sched_links (tcbs s) a).
  { intros a. unfold sched_links. specialize (E a). destruct (tcbs s' !! a), (tcbs s !! a); try done.
    apply (inj Some) in E. injection E as _ _ _ _ E1 E6. cbn. by rewrite E1, E6. }
  unfold ready_ok. rewrite E2, E3. split_and!.
  - specialize (E 0). rewrite H0 in E. by destruct (tcbs s' !! 0).
  - done.
  - intros p Hp. destruct (H3 p Hp) as (q & Hq & Hr). exists q. split; [done|]. eapply queue_rel_ext; [intros; apply EL|done].
  - eapply queue_rel_ext; [intros; apply EL|done].
  - intros a t' Ha. specialize (E a). rewrite Ha in E. destruct (tcbs s !! a) as [t|] eqn:Ht; [|done].
    apply (inj Some) in E. unfold sched_view in E. specialize (H5 a t Ht). injection E as -> -> -> -> -> ->. done.
  - by eapply bitmap_ok_fields.
Qed.

Lemma ep_rel_view s s' q l : same_view ep_view s s' -> queue_rel (ep_links (tcbs s)) q l ->
  queue_rel (ep_links (tcbs s')) q l.
Proof.
  intros E ((Hnd & H0 & Hs) & Hh & Ht). split; [|done]. split; [done|]. split; [done|].
  eapply dseg_ext; [|exact Hs]. intros a Ha. unfold ep_links. specialize (E a).
  destruct (tcbs s' !! a), (tcbs s !! a); try done.
Qed.

(** ** Requests to the scheduler *)

Section requests.
Context `{Config} (Hmcs : kernel_mcs = false).

(** Ready queues, current domain and pending action are in order. *)
Definition sched_ok (s : kstate) (Q : Z -> list Z) : Prop :=
  ready_ok s Q [] /\ ksCurDomain s = 0 /\ tcbs s !! SCHEDULER_ACTION_CHOOSE_NEW_THREAD = None /\
  (forall a, candidate s a -> is_Some (tcbs s !! a)).

(** The threads the scheduler knows to be ready. *)
Definition pending (s : kstate) (Q : Z -> list Z) (x : Z) : Prop := queued Q x \/ candidate s x.

Definition sched_step (s s' : kstate) : Prop :=
  (exists h qs l1 l2 act, s' = s <| tcbs := h |> <| ksReadyQueues := qs |>
     <| ksReadyQueuesL1Bitmap := l1 |> <| ksReadyQueuesL2Bitmap := l2 |> <| ksSchedulerAction := act |>) /\
  same_view strip s s'.

Lemma sched_step_refl s : sched_step s s.
Proof.
  split; [|done]. exists (tcbs s), (ksReadyQueues s), (ksReadyQueuesL1Bitmap s), (ksReadyQueuesL2Bitmap s), (ksSchedulerAction s).
  by destruct s.
Qed.

Lemma sched_step_trans s1 s2 s3 : sched_step s1 s2 -> sched_step s2 s3 -> sched_step s1 s3.
Proof.
  intros [(h & qs & l1 & l2 & ac & ->) E1] [(h' & qs' & l1' & l2' & ac' & ->) E2].
  split; [by exists h', qs', l1', l2', ac'|]. by etrans.
Qed.

Lemma frame_step s s' act : sched_frame s s' -> sched_step s (s' <| ksSchedulerAction := act |>).
Proof. intros [(h & qs & l1 & l2 & ->) E]. split; [by exists h, qs, l1, l2, act|exact E]. Qed.

Lemma sched_ok_same s s' Q Q' : sched_ok s Q -> sched_step s s' -> ready_ok s' Q' [] ->
  (forall a, candidate s' a -> is_Some (tcbs s !! a)) -> sched_ok s' Q'.
Proof.
  intros (_ & Hd & H1 & _) [(h & qs & l1 & l2 & act & Es) E] Hok Hc. split; [done|].
  split; [by rewrite Es|]. split.
  - specialize (E SCHEDULER_ACTION_CHOOSE_NEW_THREAD). rewrite H1 in E. by destruct (tcbs s' !! _).
  - intros a Ha. destruct (Hc a Ha) as [t Ht]. destruct (same_view_lookup _ _ _ _ _ E Ht) as (t' & Ht' & _). eauto.
Qed.

Lemma no_candidate s a act : ksSchedulerAction s = act -> act = SCHEDULER_ACTION_RESUME_CURRENT_THREAD \/
  act = SCHEDULER_ACTION_CHOOSE_NEW_THREAD -> ~ candidate s a.
Proof. intros <- Ha (-> & H1 & H2). naive_solver. Qed.

(** A candidate goes back to its queue. *)
Lemma reschedule_required_spec s Q : sched_ok s Q ->
  exists s' Q', reschedule_required s = Ok (tt, s') /\ sched_step s s' /\ sched_ok s' Q' /\
    (forall x, pending s' Q' x <-> pending s Q x) /\ ksSchedulerAction s' = SCHEDULER_ACTION_CHOOSE_NEW_THREAD.
Proof.
  intros Hs. pose proof Hs as (Hok & Hd & H1 & Hc). unfold reschedule_required. rewrite Hmcs.
  erewrite bind_ok by reflexivity. set (choose := fun s : kstate => s <| ksSchedulerAction := SCHEDULER_ACTION_CHOOSE_NEW_THREAD |>).
  assert (Hno : forall s1 a, ~ candidate (choose s1) a) by (intros s1 a; eapply no_candidate; [reflexivity|auto]).
  destruct (negb (ksSchedulerAction s =? _) && negb (ksSchedulerAction s =? _)) eqn:Ea; cbn [when].
  - zbool. assert (Hcand : candidate s (ksSchedulerAction s)) by done.
    destruct (insert_spec Hmcs s Q (Enqueue (ksSchedulerAction s)) (ksSchedulerAction s)) as (s1 & Q1 & Hrun & Hf & Hok1 & Hq);
      [by left|done|by apply Hc|].
    cbn [run_op] in Hrun. rewrite (bind_ok _ _ _ _ _ Hrun). exists (choose s1), Q1.
    assert (Hst : sched_step s (choose s1)) by by apply frame_step.
    split; [done|]. split; [done|]. split.
    { eapply sched_ok_same; [done..| |]; [by eapply ready_ok_fields; [..|exact Hok1]|]. intros a Ha. by apply Hno in Ha. }
    split; [|done]. intros x. unfold pending. rewrite Hq. split.
    + intros [[Hx| ->]|Hx]; [by left|by right|by apply Hno in Hx].
    + intros [Hx|(-> & _)]; [by left; left|by left; right].
  - erewrite bind_ok by reflexivity. exists (choose s), Q.
    assert (Hst : sched_step s (choose s)) by (apply frame_step, sched_frame_refl).
    split; [done|]. split; [done|]. split.
    { eapply sched_ok_same; [done..| |]; [by eapply ready_ok_fields; [..|exact Hok]|]. intros a Ha. by apply Hno in Ha. }
    split; [|done]. intros x. unfold pending. split; intros [Hx|Hx]; auto.
    + by apply Hno in Hx.
    + destruct Hx as (-> & N1 & N2). apply andb_false_iff in Ea as [Ea|Ea]; zbool; done.
Qed.

Lemma schedule_tcb_spec s Q a : sched_ok s Q -> is_Some (tcbs s !! a) ->
  exists s' Q', schedule_tcb a s = Ok (tt, s') /\ sched_step s s' /\ sched_ok s' Q' /\
    forall x, pending s' Q' x <-> pending s Q x.
Proof.
  intros Hs [t Ht]. pose proof Hs as (Hok & _). unfold schedule_tcb.
  do 2 (erewrite bind_ok by reflexivity). destruct (_ && _).
  - erewrite bind_ok by (eapply is_schedulable_run; [done|by eapply thread_nonzero|exact Ht]).
    destruct (is_runnable t); cbn [negb when].
    + exists s, Q. split; [done|]. split; [apply sched_step_refl|done].
    + destruct (reschedule_required_spec s Q Hs) as (s' & Q' & Hrun & H1 & H2 & H3 & _). by exists s', Q'.
  - exists s, Q. split; [done|]. split; [apply sched_step_refl|done].
Qed.

Lemma possible_switch_to_spec s Q a : sched_ok s Q -> is_Some (tcbs s !! a) ->
  exists s' Q', possible_switch_to a s = Ok (tt, s') /\ sched_step s s' /\ sched_ok s' Q' /\
    forall x, pending s' Q' x <-> pending s Q x \/ x = a.
Proof.
  intros Hs [t Ht]. pose proof Hs as (Hok & Hd & H1 & Hc). unfold possible_switch_to. rewrite Hmcs. cbn [negb orb when].
  pose proof (thread_nonzero _ _ _ _ Hok Ht) as Ha0. erewrite bind_ok by by apply get_tcb_ok.
  do 2 (erewrite bind_ok by reflexivity). destruct Hok as (_ & _ & _ & _ & Hts & _).
  destruct (Hts _ _ Ht) as (Hdt & _). rewrite Hd, Hdt. cbn [Z.eqb negb].
  destruct (Z.eqb_spec (ksSchedulerAction s) SCHEDULER_ACTION_RESUME_CURRENT_THREAD) as [Er|Er]; cbn [negb].
  - exists (s <| ksSchedulerAction := a |>), Q.
    assert (Hst : sched_step s (s <| ksSchedulerAction := a |>)) by (apply frame_step, sched_frame_refl).
    split; [done|]. split; [done|]. split.
    { eapply sched_ok_same; [done..| |]; [by eapply ready_ok_fields; [..|apply Hs]|]. intros c (-> & _). eauto. }
    intros x. unfold pending. split.
    + intros [Hx|(-> & _)]; [by left; left|by right].
    + intros [[Hx|Hx]| ->]; [by left| |].
      * exfalso. by eapply no_candidate; [exact Er|left|].
      * right. split; [done|]. split; [done|]. intros ->. congruence.
  - destruct (reschedule_required_spec s Q Hs) as (s1 & Q1 & Hrun & Hst & Hs1 & Hp & Eact).
    rewrite (bind_ok _ _ _ _ _ Hrun). destruct (same_view_lookup _ _ _ _ _ (proj2 Hst) Ht) as (t1 & Ht1 & _).
    destruct (insert_spec Hmcs s1 Q1 (Enqueue a) a) as (s2 & Q2 & Hrun2 & Hf & Hok2 & Hq); [by left|apply Hs1|eauto|].
    exists s2, Q2. split; [done|]. destruct (frame_fields _ _ Hf) as (_ & _ & Ea & _).
    assert (Hst2 : sched_step s1 s2).
    { pose proof (frame_step _ _ (ksSchedulerAction s2) Hf) as Hx. destruct s2; exact Hx. }
    split; [by eapply sched_step_trans|]. split.
    { eapply sched_ok_same; [exact Hs1|done..|]. intros c Hcand. exfalso. by eapply (no_candidate s2 c SCHEDULER_ACTION_CHOOSE_NEW_THREAD); [congruence|right|]. }
    intros x. rewrite <- Hp. unfold pending. rewrite Hq.
    assert (Hcc : candidate s2 x <-> candidate s1 x) by (unfold candidate; by rewrite Ea). rewrite Hcc. tauto.
Qed.
End requests.

(** ** The queue of an endpoint *)

Section endpoint.
Context `{Config} (Hmcs : kernel_mcs = false).

(** The endpoint [ep] is in state [st] and the threads [l] wait in its queue. *)
Definition ep_is (s : kstate) (ep : Z) (st : EPState) (l : list Z) : Prop :=
  exists e, ep <> 0 /\ eps s !! ep = Some e /\ ep_state e = st /\
    queue_rel (ep_links (tcbs s)) (ep_get_queue e) l.

Definition ep_step (ep : Z) (s s' : kstate) : Prop :=
  (exists h e, s' = s <| tcbs := h |> <| eps := <[ep := e]> (eps s) |>) /\ same_view erase_ep s s'.

Lemma ep_is_view s s' ep st l : same_view ep_view s s' -> eps s' = eps s -> ep_is s ep st l -> ep_is s' ep st l.
Proof. intros Hv Ee (e & H0 & He & Hst & Hq). exists e. rewrite Ee. split_and!; try done. by eapply ep_rel_view. Qed.

Lemma wp_run {A} (m : K A) s a (P : kstate -> Prop) : wp m (fun x s' => x = a /\ P s') s -> exists s', m s = Ok (a, s') /\ P s'.
Proof. rewrite wp_iff. intros (x & s' & Hrun & -> & HP). eauto. Qed.

Lemma ep_step_of s ep h e l : same_but_ep (tcbs s) h l ->
  ep_step ep s (s <| tcbs := h |> <| eps := <[ep := e]> (eps s) |>).
Proof. intros [Hsame _]. split; [by exists h, e|exact Hsame]. Qed.

Lemma take_receiver_spec s ep e d l : tcbs s !! 0 = None -> ep <> 0 -> eps s !! ep = Some e ->
  queue_rel (ep_links (tcbs s)) (ep_get_queue e) (d :: l) ->
  exists s', take_receiver ep e s = Ok (d, s') /\ ep_step ep s s' /\
    ep_is s' ep (if bool_decide (l = []) then EP_Idle else ep_state e) l.
Proof.
  intros H0 Hep He Hq. pose proof Hq as ((_ & Hnz & _) & Hh & _). cbn in Hh.
  assert (Hd : d <> 0) by set_solver. destruct (ep_dequeue_spec _ _ H0 [] d l Hq) as (q & h & Hrun & Hq' & Hsame).
  cbn [app] in Hq'. pose proof (queue_empty _ _ _ Hq') as Hem. unfold empty in Hem.
  apply wp_run. unfold take_receiver, ep_take. rewrite Hh. apply wp_bind, wp_assert; [by apply negb_true_iff, Z.eqb_neq|].
  apply wp_bind, wp_bind, (wp_get_ep _ e); [done..|].
  apply wp_bind. eapply wp_ok; [apply on_tcbs_ok; exact Hrun|].
  apply wp_bind, (wp_mod_ep _ e); [done..|]. rewrite Hem. cbn [app]. destruct (bool_decide (l = [])) eqn:El; cbn [when].
  - eapply wp_mod_ep; [done|cbn; by rewrite lookup_insert_eq|]. apply wp_ret. split; [done|]. cbn. rewrite insert_insert_eq.
    split; [exact (ep_step_of s ep h _ _ Hsame)|]. eexists. split; [done|]. cbn. rewrite lookup_insert_eq. split; [done|].
    split; [done|]. by destruct q.
  - apply wp_ret, wp_ret. split; [done|]. split; [exact (ep_step_of s ep h _ _ Hsame)|]. eexists. split; [done|]. cbn.
    rewrite lookup_insert_eq. split; [done|]. split; [done|]. by destruct q.
Qed.

Lemma ep_block_spec s ep st0 l a st : tcbs s !! 0 = None -> ep_is s ep st0 l -> is_Some (tcbs s !! a) -> a ∉ l ->
  exists s', ep_block ep a st s = Ok (tt, s') /\ ep_step ep s s' /\ ep_is s' ep st (l ++ [a]).
Proof.
  intros H0 (e & Hep & He & _ & Hq) [t Ht] Hal. destruct (ep_append_fifo_spec _ _ H0 l a t Hq Ht Hal) as (q & h & Hrun & Hq' & Hsame).
  apply wp_run. unfold ep_block, ep_append. rewrite Hmcs.
  apply wp_bind, (wp_get_ep _ e); [done..|]. apply wp_bind. eapply wp_ok; [apply on_tcbs_ok; exact Hrun|].
  apply wp_bind, (wp_mod_ep _ e); [done..|]. eapply wp_mod_ep; [done|cbn; by rewrite lookup_insert_eq|].
  split; [done|]. cbn. rewrite insert_insert_eq. split; [exact (ep_step_of s ep h _ _ Hsame)|].
  eexists. split; [done|]. cbn. rewrite lookup_insert_eq. split; [done|]. split; [done|]. by destruct q.
Qed.
(** ** What the steps of an endpoint operation leave alone *)

Definition sched_fields (s : kstate) :=
  (ksReadyQueues s, ksReleaseQueue s, ksReadyQueuesL1Bitmap s, ksReadyQueuesL2Bitmap s, ksSchedulerAction s, ksCurDomain s).

Lemma sched_ok_view s s' Q : same_view sched_view s s' -> sched_fields s' = sched_fields s -> sched_ok s Q ->
  sched_ok s' Q /\ forall x, pending s' Q x <-> pending s Q x.
Proof.
  intros Hv Ef (Hok & Hd & H1 & Hc). injection Ef as E1 E2 E3 E4 E5 E6.
  assert (Ec : forall x, candidate s' x <-> candidate s x) by (intros x; unfold candidate; by rewrite E5).
  split; [split_and!|].
  - by eapply ready_ok_view.
  - congruence.
  - specialize (Hv SCHEDULER_ACTION_CHOOSE_NEW_THREAD). rewrite H1 in Hv. by destruct (tcbs s' !! _).
  - intros a Ha. apply Ec in Ha as [t Ht]%Hc. destruct (same_view_lookup _ _ _ _ _ Hv Ht) as (t' & Ht' & _). eauto.
  - intros x. unfold pending. by rewrite Ec.
Qed.

(** Steps that change queues, and of the threads only the thread state of [a]:
    not the messages, nor the other endpoints. *)
Record quiet (ep a : Z) (s s' : kstate) : Prop := {
  quiet_ipc : same_view ipc_view s s';
  quiet_block : forall c, c <> a -> block_view <$> tcbs s' !! c = block_view <$> tcbs s !! c;
  quiet_ctes : ctes s' = ctes s;
  quiet_buffers : ipc_buffers s' = ipc_buffers s;
  quiet_eps : forall e, e <> ep -> eps s' !! e = eps s !! e }.

#[export] Instance quiet_preorder ep a : PreOrder (quiet ep a).
Proof.
  split; [by intros s; split|]. intros s1 s2 s3 [A1 B1 C1 D1 E1] [A2 B2 C2 D2 E2]. split; [by etrans| |congruence|congruence|].
  - intros c Hc. by rewrite B2, B1.
  - intros e He. by rewrite E2, E1.
Qed.

Lemma quiet_sched ep a s s' : sched_step s s' -> quiet ep a s s' /\ same_view ep_view s s' /\ same_view block_view s s' /\ eps s' = eps s.
Proof.
  intros [(h & qs & l1 & l2 & act & E) Hv].
  assert (Hb : same_view block_view s s') by (eapply same_view_via; [|exact Hv]; apply strip_views).
  assert (He : same_view ep_view s s') by (eapply same_view_via; [|exact Hv]; apply strip_views).
  assert (Hi : same_view ipc_view s s') by (eapply same_view_via; [|exact Hv]; apply strip_views).
  split; [|split; [done|split; [done|by rewrite E]]].
  split; [done|by intros c _; apply Hb|by rewrite E|by rewrite E|by rewrite E].
Qed.

Lemma quiet_ep ep a s s' : ep_step ep s s' ->
  quiet ep a s s' /\ same_view sched_view s s' /\ same_view block_view s s' /\ sched_fields s' = sched_fields s.
Proof.
  intros [(h & e & E) Hv].
  assert (Hb : same_view block_view s s') by (eapply same_view_via; [|exact Hv]; apply erase_ep_views).
  assert (Hs : same_view sched_view s s') by (eapply same_view_via; [|exact Hv]; apply erase_ep_views).
  assert (Hi : same_view ipc_view s s') by (eapply same_view_via; [|exact Hv]; apply erase_ep_views).
  split; [|split; [done|split; [done|by rewrite E]]].
  split; [done|by intros c _; apply Hb|by rewrite E|by rewrite E|].
  intros c Hc. rewrite E. cbn. by rewrite lookup_insert_ne.
Qed.

(** Writing the thread state of [a], keeping the flags of the scheduler. *)
Lemma quiet_state ep a t f s : tcbs s !! a = Some t ->
  (forall st, tcbQueued (f st) = tcbQueued st /\ tcbInReleaseQueue (f st) = tcbInReleaseQueue st) ->
  let s' := s <| tcbs := <[a := set_tcb_state f t]> (tcbs s) |> in
  quiet ep a s s' /\ same_view sched_view s s' /\ same_view ep_view s s'.
Proof.
  intros Ht Hf s'. assert (Hs : same_view sched_view s s').
  { apply (same_view_insert _ _ _ t); [done|]. unfold sched_view. cbn. by destruct (Hf (tcbState t)) as [-> ->]. }
  assert (Hi : same_view ipc_view s s') by by apply (same_view_insert _ _ _ t).
  split; [|split; [done|by apply (same_view_insert _ _ _ t)]]. split; try done.
  intros c Hc. cbn. by rewrite lookup_insert_ne.
Qed.

Lemma set_thread_state_spec ep s Q a t st : sched_ok s Q -> tcbs s !! a = Some t ->
  exists s' Q', set_thread_state a st s = Ok (tt, s') /\ quiet ep a s s' /\ same_view ep_view s s' /\ eps s' = eps s /\
    sched_ok s' Q' /\ (forall x, pending s' Q' x <-> pending s Q x) /\
    block_view <$> tcbs s' !! a = Some (block_view (set_tsType st t)).
Proof.
  intros Hs Ht. assert (Ha : a <> 0) by (eapply thread_nonzero; [apply Hs|done]).
  destruct (quiet_state ep a t (fun x => x <| tsType := st |>) s Ht) as (Hq & Hsv & Hev); [done|].
  set (s1 := s <| tcbs := _ |>) in *. destruct (sched_ok_view s s1 Q Hsv eq_refl Hs) as [Hs1 Hp1].
  assert (Ht1 : tcbs s1 !! a = Some (set_tsType st t)) by by cbn; rewrite lookup_insert_eq.
  destruct (schedule_tcb_spec Hmcs s1 Q a Hs1) as (s2 & Q2 & Hrun & Hst & Hs2 & Hp2); [eauto|].
  destruct (quiet_sched ep a s1 s2 Hst) as (Hq2 & Hev2 & Hb2 & He2).
  exists s2, Q2. split_and!; try done.
  - unfold set_thread_state. erewrite bind_ok by (apply mod_tcb_ok; eauto). by rewrite (alter_present _ _ _ _ Ht).
  - by etrans.
  - by etrans.
  - by rewrite Hb2, Ht1.
Qed.

(** ** Waiting for a partner *)

(** [a] was put at the end of the queue of [ep], which is now in state [st]. *)
Definition waits (ep a : Z) (st : EPState) (l : list Z) (s s' : kstate) (Q Q' : Z -> list Z) : Prop :=
  quiet ep a s s' /\ ep_is s' ep st (l ++ [a]) /\ sched_ok s' Q' /\ (forall x, pending s' Q' x <-> pending s Q x).

Lemma block_spec s1 Q1 ep st0 l a st : sched_ok s1 Q1 -> ep_is s1 ep st0 l -> is_Some (tcbs s1 !! a) -> a ∉ l ->
  exists s', ep_block ep a st s1 = Ok (tt, s') /\ waits ep a st l s1 s' Q1 Q1 /\ same_view block_view s1 s'.
Proof.
  intros Hs He Ha Hal. destruct (ep_block_spec s1 ep st0 l a st) as (s' & Hrun & Hstep & He'); [apply Hs|done..|].
  destruct (quiet_ep ep a s1 s' Hstep) as (Hq & Hsv & Hbv & Hf). destruct (sched_ok_view s1 s' Q1 Hsv Hf Hs) as [Hs' Hp'].
  exists s'. by split_and!.
Qed.

Lemma send_waits s Q ep st l a call g badge gr : sched_ok s Q -> ep_is s ep st l -> st <> EP_Recv ->
  is_Some (tcbs s !! a) -> a ∉ l ->
  exists s' Q', send_ipc ep a true call g badge gr s = Ok (tt, s') /\ waits ep a EP_Send l s s' Q Q' /\
    block_view <$> tcbs s' !! a = Some (ThreadStateBlockedOnSend, ep, badge, bool_to_word g, bool_to_word gr, bool_to_word call).
Proof.
  intros Hs He Hst [t Ht] Hal. assert (Ha : a <> 0) by (eapply thread_nonzero; [apply Hs|done]).
  set (f := fun x => x <| tsType := ThreadStateBlockedOnSend |> <| blockingObject := ep |>
       <| blockingIPCCanGrant := bool_to_word g |> <| blockingIPCBadge := badge |>
       <| blockingIPCCanGrantReply := bool_to_word gr |> <| blockingIPCIsCall := bool_to_word call |>).
  destruct (quiet_state ep a t f s Ht) as (Hq & Hsv & Hev); [done|].
  set (s1 := s <| tcbs := _ |>) in *. destruct (sched_ok_view s s1 Q Hsv eq_refl Hs) as [Hs1 Hp1].
  assert (Ht1 : tcbs s1 !! a = Some (set_tcb_state f t)) by by cbn; rewrite lookup_insert_eq.
  destruct (schedule_tcb_spec Hmcs s1 Q a Hs1) as (s2 & Q2 & Hrun & Hstep & Hs2 & Hp2); [eauto|].
  destruct (quiet_sched ep a s1 s2 Hstep) as (Hq2 & Hev2 & Hb2 & He2).
  assert (He2' : ep_is s2 ep st l) by by eapply (ep_is_view s); [by etrans|..].
  destruct (same_view_lookup _ _ _ _ _ Hb2 Ht1) as (t2 & Ht2 & Eb2).
  destruct (block_spec s2 Q2 ep st l a EP_Send Hs2 He2') as (s3 & Hrun3 & (Hq3 & He3 & Hs3 & Hp3) & Hb3); [eauto|done|].
  exists s3, Q2. split; [|split].
  - destruct He as (e & Hep & He & Est & _). unfold send_ipc.
    erewrite bind_ok by (apply lift_hget_ok; [by destruct s|exact Hep|exact He]). rewrite Est.
    assert (Hb : send_blocked ep a true call g badge gr s = Ok (tt, s3)).
    { unfold send_blocked. cbn [when]. erewrite bind_ok by (apply mod_tcb_ok; eauto).
      rewrite (alter_present _ _ _ _ Ht). by rewrite (bind_ok _ _ _ _ _ Hrun). }
    by destruct st.
  - split; [etrans; [exact Hq|]; by etrans|]. split; [done|]. split; [done|]. intros x. by rewrite Hp3, Hp2.
  - by rewrite Hb3, Hb2, Ht1.
Qed.
Lemma no_bound_notification s b t : b <> 0 -> tcbs s !! b = Some t -> tcbBoundNotification t = 0 ->
  complete_signal b s = Ok (false, s).
Proof. intros Hb Ht Hn. unfold complete_signal. erewrite bind_ok by by apply get_tcb_ok. by rewrite Hn. Qed.

Lemma receive_waits s Q ep st l b t grant : sched_ok s Q -> ep_is s ep st l -> st <> EP_Send ->
  tcbs s !! b = Some t -> tcbBoundNotification t = 0 -> b ∉ l ->
  exists s' Q', receive_ipc ep b true grant s = Ok (tt, s') /\ waits ep b EP_Recv l s s' Q Q' /\
    exists t', tcbs s' !! b = Some t' /\ get_state t' = ThreadStateBlockedOnReceive /\
      blockingObject (tcbState t') = ep /\ blockingIPCCanGrant (tcbState t') = bool_to_word grant.
Proof.
  intros Hs He Hst Ht Hn Hbl. assert (Hb : b <> 0) by (eapply thread_nonzero; [apply Hs|done]).
  set (f := fun x => x <| blockingObject := ep |> <| blockingIPCCanGrant := bool_to_word grant |>).
  destruct (quiet_state ep b t f s Ht) as (Hq & Hsv & Hev); [done|].
  set (s1 := s <| tcbs := _ |>) in *. destruct (sched_ok_view s s1 Q Hsv eq_refl Hs) as [Hs1 Hp1].
  assert (Ht1 : tcbs s1 !! b = Some (set_tcb_state f t)) by by cbn; rewrite lookup_insert_eq.
  destruct (set_thread_state_spec ep s1 Q b _ ThreadStateBlockedOnReceive Hs1 Ht1)
    as (s2 & Q2 & Hrun & Hq2 & Hev2 & He2 & Hs2 & Hp2 & Hb2).
  assert (He2' : ep_is s2 ep st l) by by eapply (ep_is_view s); [by etrans|..].
  destruct (tcbs s2 !! b) as [t2|] eqn:Ht2; [|done].
  destruct (block_spec s2 Q2 ep st l b EP_Recv Hs2 He2') as (s3 & Hrun3 & (Hq3 & He3 & Hs3 & Hp3) & Hb3); [eauto|done|].
  destruct (same_view_lookup _ _ _ _ _ Hb3 Ht2) as (t3 & Ht3 & Eb3).
  exists s3, Q2. split; [|split].
  - unfold receive_ipc. rewrite (bind_ok _ _ _ _ _ (no_bound_notification s b t Hb Ht Hn)).
    destruct He as (e & Hep & He & Est & _).
    erewrite bind_ok by (apply lift_hget_ok; [by destruct s|exact Hep|exact He]). rewrite Est.
    assert (Hrest : (mod_tcb b (set_tcb_state f) ;;; set_thread_state b ThreadStateBlockedOnReceive ;;;
      ep_block ep b EP_Recv) s = Ok (tt, s3)).
    { erewrite bind_ok by (apply mod_tcb_ok; eauto). rewrite (alter_present _ _ _ _ Ht). by rewrite (bind_ok _ _ _ _ _ Hrun). }
    by destruct st.
  - split; [etrans; [exact Hq|]; by etrans|]. split; [done|]. split; [done|]. intros x. by rewrite Hp3, Hp2.
  - exists t3. split; [done|]. apply (inj Some) in Hb2. rewrite <- Eb3 in Hb2. unfold block_view in Hb2.
    injection Hb2 as E1 E2 _ E3 _ _. by rewrite E2, E3.
Qed.

(** ** Meeting a partner *)

(** [a] can send [b] a message with information word [w]; [sb] and [rb] are
    their IPC buffers, and no capability is to be transferred. *)
Record can_talk (s : kstate) (a b : Z) (sb rb : option Z) (w : Z) (grant : bool) : Prop := {
  talk_ne : a <> b;
  talk_sender : exists t, thread_at s a t /\ is_null_fault (tcbFault t) = true /\ reg t info_index = Some w;
  talk_receiver : exists t, thread_at s b t /\ tcbBoundNotification t = 0;
  talk_word : is_word w;
  talk_sb : lookup_ipc_buffer a false s = Ok (sb, s);
  talk_rb : lookup_mut_ipc_buffer b true s = Ok (rb, s);
  talk_sbuf : buffer_ok s sb;
  talk_rbuf : buffer_ok s rb;
  talk_caps : grant = false \/ get_extraCaps (from_word_security w) = 0 }.

(** [b] holds in [s'] the message that [a] had in [s]. *)
Definition received (s s' : kstate) (a b : Z) (sb rb : option Z) (tag badge : Z) : Prop :=
  let n := message_length sb rb (get_length tag) in
  (forall i, 0 <= i < n -> message_word s' b rb i = message_word s a sb i) /\
  exists t info, tcbs s' !! b = Some t /\ reg t badge_index = Some badge /\ reg t info_index = Some info /\
    get_length info = n /\ get_label info = get_label tag /\ get_extraCaps info = 0 /\ get_capsUnwrapped info = 0.

Lemma ipc_view_fields t t' : ipc_view t' = ipc_view t ->
  tcbArch t' = tcbArch t /\ tcbIPCBuffer t' = tcbIPCBuffer t /\ tcbFault t' = tcbFault t /\
  tcbBoundNotification t' = tcbBoundNotification t.
Proof. unfold ipc_view. intros E. by injection E as -> -> -> ->. Qed.

Lemma thread_at_view s s' a t : same_view ipc_view s s' -> thread_at s a t ->
  exists t', thread_at s' a t' /\ ipc_view t' = ipc_view t.
Proof.
  intros Hv (Ha & Ht & Hl). destruct (same_view_lookup _ _ _ _ _ Hv Ht) as (t' & Ht' & E). exists t'.
  split; [|done]. split; [done|]. split; [done|]. by destruct (ipc_view_fields _ _ E) as (-> & _).
Qed.

Lemma message_word_view s s' a buf i : same_view ipc_view s s' -> ipc_buffers s' = ipc_buffers s ->
  message_word s' a buf i = message_word s a buf i.
Proof.
  intros Hv Eb. unfold message_word. rewrite Eb. case_match; [|done]. specialize (Hv a).
  destruct (tcbs s' !! a) as [t'|], (tcbs s !! a) as [t|]; try done. apply (inj Some) in Hv. cbn. unfold reg.
  by destruct (ipc_view_fields _ _ Hv) as (-> & _).
Qed.

Lemma can_talk_quiet ep c s s' a b sb rb w g : quiet ep c s s' -> can_talk s a b sb rb w g -> can_talk s' a b sb rb w g.
Proof.
  intros [Hv _ Ec Eb _] [Hne (ta & Hta & Hf & Hw) (tb & Htb & Hn) Hwd Hsb Hrb Hsbo Hrbo Hg].
  assert (Hbuf : forall x, tcbIPCBuffer <$> tcbs s' !! x = tcbIPCBuffer <$> tcbs s !! x).
  { apply (same_view_via ipc_view tcbIPCBuffer s s'); [|exact Hv]. intros t t' E. by apply ipc_view_fields. }
  assert (Hbo : forall o, buffer_ok s o -> buffer_ok s' o).
  { intros [p|]; [|done]. intros (x & H1 & H2 & H3). exists x. unfold buffer_at. by rewrite Eb. }
  destruct (thread_at_view _ _ _ _ Hv Hta) as (ta' & Hta' & Ea). destruct (thread_at_view _ _ _ _ Hv Htb) as (tb' & Htb' & Etb).
  destruct (ipc_view_fields _ _ Ea) as (Ea1 & _ & Ea3 & _). destruct (ipc_view_fields _ _ Etb) as (_ & _ & _ & Etb4).
  split; auto.
  - exists ta'. rewrite Ea3. unfold reg. by rewrite Ea1.
  - exists tb'. by rewrite Etb4.
  - by apply (lookup_buffers_stable s s').
  - by apply (lookup_buffers_stable s s').
Qed.

Lemma received_before ep c s0 s s' a b sb rb tag badge : quiet ep c s0 s -> received s s' a b sb rb tag badge ->
  received s0 s' a b sb rb tag badge.
Proof.
  intros [Hv _ _ Eb _] [Hm Hr]. split; [|done]. intros i Hi. rewrite Hm by done. by apply message_word_view.
Qed.

Lemma received_after ep c s s' s2 a b sb rb tag badge : quiet ep c s' s2 -> received s s' a b sb rb tag badge ->
  received s s2 a b sb rb tag badge.
Proof.
  intros [Hv _ _ Eb _] (Hm & t & info & Ht & Hr). split.
  - intros i Hi. rewrite <- Hm by done. by apply message_word_view.
  - destruct (same_view_lookup _ _ _ _ _ Hv Ht) as (t' & Ht' & E). exists t', info. split; [done|].
    unfold reg. by destruct (ipc_view_fields _ _ E) as (-> & _).
Qed.

(** A transfer writes the registers and the buffer of the receiver. *)
Definition talk_step (b : Z) (s s' : kstate) : Prop :=
  exists t l B, tcbs s !! b = Some t /\ s' = with_regs b t l s <| ipc_buffers := B |>.

Lemma talk_step_views b s s' : talk_step b s s' ->
  same_view sched_view s s' /\ same_view ep_view s s' /\ same_view block_view s s' /\
  sched_fields s' = sched_fields s /\ eps s' = eps s /\
  forall c, c <> b -> ipc_view <$> tcbs s' !! c = ipc_view <$> tcbs s !! c.
Proof.
  intros (t & l & B & Ht & ->). split_and!; try done.
  4: intros c Hc; cbn; by rewrite lookup_insert_ne.
  all: intros c; cbn; rewrite lookup_insert; case_decide; [|done]; subst; by rewrite Ht.
Qed.

Lemma do_ipc_transfer_spec s a b sb rb w ep badge grant : can_talk s a b sb rb w grant ->
  exists s', do_ipc_transfer a b ep badge grant s = Ok (tt, s') /\ talk_step b s s' /\
    received s s' a b sb rb (from_word_security w) badge.
Proof.
  intros [Hne (ta & Hta & Hf & Hw) (tb & Htb & Hn) Hwd Hsb Hrb Hsbo Hrbo Hg].
  destruct (do_normal_transfer_spec s a b ta tb sb rb w ep badge grant) as (s' & Hrun & l & B & Es & _ & Hm & Hb & (info & Hi & Hif) & _);
    try done.
  exists s'. split; [|split].
  - unfold do_ipc_transfer. erewrite bind_ok by (apply get_tcb_ok; apply Hta). by rewrite Hf.
  - exists tb, l, B. split; [apply Htb|done].
  - split; [done|]. exists (set_registers l tb), info. rewrite Es. cbn. by rewrite lookup_insert_eq.
Qed.
Lemma wake_spec ep s Q x : sched_ok s Q -> is_Some (tcbs s !! x) ->
  exists s1 s2 Q2, set_thread_state x ThreadStateRunning s = Ok (tt, s1) /\ possible_switch_to x s1 = Ok (tt, s2) /\
    quiet ep x s s2 /\ same_view ep_view s s2 /\ eps s2 = eps s /\ sched_ok s2 Q2 /\
    (forall y, pending s2 Q2 y <-> pending s Q y \/ y = x) /\
    exists t, tcbs s2 !! x = Some t /\ get_state t = ThreadStateRunning.
Proof.
  intros Hs [t Ht]. destruct (set_thread_state_spec ep s Q x t ThreadStateRunning Hs Ht)
    as (s1 & Q1 & Hrun1 & Hq1 & Hv1 & He1 & Hs1 & Hp1 & Hb1).
  destruct (tcbs s1 !! x) as [t1|] eqn:Ht1; [|done].
  destruct (possible_switch_to_spec Hmcs s1 Q1 x Hs1) as (s2 & Q2 & Hrun2 & Hst2 & Hs2 & Hp2); [eauto|].
  destruct (quiet_sched ep x s1 s2 Hst2) as (Hq2 & Hv2 & Hb2 & He2).
  destruct (same_view_lookup _ _ _ _ _ Hb2 Ht1) as (t2 & Ht2 & Eb2).
  exists s1, s2, Q2. split_and!; try done.
  - by etrans.
  - by etrans.
  - congruence.
  - intros y. by rewrite Hp2, Hp1.
  - exists t2. split; [done|]. apply (inj Some) in Hb1. rewrite <- Eb2 in Hb1. unfold block_view in Hb1.
    by injection Hb1 as E1 _ _ _ _ _.
Qed.

(** The message of [a] went to [b]; [woken] is the one that waited, [l] those
    that wait still. *)
Record met (ep a b woken : Z) (st : EPState) (l : list Z) (sb rb : option Z) (tag badge : Z)
    (s s' : kstate) (Q Q' : Z -> list Z) : Prop := {
  met_ep : ep_is s' ep (if bool_decide (l = []) then EP_Idle else st) l;
  met_message : received s s' a b sb rb tag badge;
  met_woken : exists t, tcbs s' !! woken = Some t /\ get_state t = ThreadStateRunning;
  met_sched : sched_ok s' Q';
  met_pending : forall x, pending s' Q' x <-> pending s Q x \/ x = woken;
  met_messages : forall c, c <> b -> ipc_view <$> tcbs s' !! c = ipc_view <$> tcbs s !! c;
  met_ctes : ctes s' = ctes s;
  met_states : forall c, c <> woken -> block_view <$> tcbs s' !! c = block_view <$> tcbs s !! c;
  met_endpoints : forall e, e <> ep -> eps s' !! e = eps s !! e }.

Lemma meet_spec s Q ep s1 st l a b woken sb rb w g badge : sched_ok s Q -> ep_step ep s s1 ->
  ep_is s1 ep (if bool_decide (l = []) then EP_Idle else st) l -> can_talk s a b sb rb w g -> woken = a \/ woken = b ->
  exists s2 s3 s4 Q4, do_ipc_transfer a b (Some ep) badge g s1 = Ok (tt, s2) /\ same_view block_view s s2 /\
    set_thread_state woken ThreadStateRunning s2 = Ok (tt, s3) /\ possible_switch_to woken s3 = Ok (tt, s4) /\
    met ep a b woken st l sb rb (from_word_security w) badge s s4 Q Q4.
Proof.
  intros Hs Hstep He Htalk Hw. destruct (quiet_ep ep woken s s1 Hstep) as (Hq1 & Hsv1 & Hbv1 & Hf1).
  destruct (sched_ok_view s s1 Q Hsv1 Hf1 Hs) as [Hs1 Hp1]. pose proof (can_talk_quiet _ _ _ _ _ _ _ _ _ _ Hq1 Htalk) as Htalk1.
  destruct (do_ipc_transfer_spec s1 a b sb rb w (Some ep) badge g Htalk1) as (s2 & Hrun2 & Hstep2 & Hrec).
  destruct (talk_step_views b s1 s2 Hstep2) as (Hsv2 & Hev2 & Hbv2 & Hf2 & He2 & Hi2).
  destruct (sched_ok_view s1 s2 Q Hsv2 Hf2 Hs1) as [Hs2 Hp2].
  assert (Hsome : is_Some (tcbs s2 !! woken)).
  { destruct Htalk1 as [_ (ta & (_ & Hta & _) & _) (tb & (_ & Htb & _) & _) _ _ _ _ _ _].
    destruct Hw as [-> | ->]; [destruct (same_view_lookup _ _ _ _ _ Hsv2 Hta) as (? & ? & _)|
      destruct (same_view_lookup _ _ _ _ _ Hsv2 Htb) as (? & ? & _)]; eauto. }
  destruct (wake_spec ep s2 Q woken Hs2 Hsome) as (s3 & s4 & Q4 & Hrun3 & Hrun4 & Hq4 & Hev4 & He4 & Hs4 & Hp4 & Hr4).
  exists s2, s3, s4, Q4. split; [done|]. split; [by etrans|]. split; [done|]. split; [done|]. split.
  - eapply (ep_is_view s1); [by etrans|congruence|done].
  - eapply received_after; [done|]. by eapply received_before.
  - done.
  - done.
  - intros x. by rewrite Hp4, Hp2, Hp1.
  - intros c Hc. rewrite (quiet_ipc _ _ _ _ Hq4), Hi2 by done. apply (quiet_ipc _ _ _ _ Hq1).
  - rewrite (quiet_ctes _ _ _ _ Hq4), <- (quiet_ctes _ _ _ _ Hq1). by destruct Hstep2 as (? & ? & ? & _ & ->).
  - intros c Hc. rewrite (quiet_block _ _ _ _ Hq4), Hbv2 by done. apply Hbv1.
  - intros e Hne. rewrite He4, He2. by apply (quiet_eps _ _ _ _ Hq1).
Qed.

(** A send to a waiting receiver [d], up to the reply a call asks for. *)
Lemma send_meets_call s Q ep a d l sb rb w blocking call g badge gr : sched_ok s Q -> ep_is s ep EP_Recv (d :: l) ->
  can_talk s a d sb rb w g ->
  exists s' Q' t, tcbs s !! d = Some t /\ met ep a d d EP_Recv l sb rb (from_word_security w) badge s s' Q Q' /\
    send_ipc ep a blocking call g badge gr s =
      when call (if g || gr then setup_caller_cap d a (negb (blockingIPCCanGrant (tcbState t) =? 0))
                 else set_thread_state a ThreadStateInactive) s'.
Proof.
  intros Hs (e & Hep & He & Est & Hq) Htalk.
  destruct (take_receiver_spec s ep e d l) as (s1 & Hrun1 & Hstep & He1); [apply Hs|done..|]. rewrite Est in He1.
  destruct (meet_spec s Q ep s1 EP_Recv l a d d sb rb w g badge) as (s2 & s3 & s4 & Q4 & Hrun2 & Hbv & Hrun3 & Hrun4 & Hmet);
    [done..|by right|].
  destruct Htalk as [_ _ (td & (Hd0 & Htd & _) & _) _ _ _ _ _ _].
  exists s4, Q4, td. split; [done|]. split; [done|]. unfold send_ipc.
  erewrite bind_ok by (apply lift_hget_ok; [by destruct s|exact Hep|exact He]). rewrite Est.
  rewrite (bind_ok _ _ _ _ _ Hrun1), (bind_ok _ _ _ _ _ Hrun2).
  destruct (same_view_lookup _ _ _ _ _ Hbv Htd) as (t2 & Ht2 & Eb2).
  erewrite bind_ok by by apply get_tcb_ok. rewrite (bind_ok _ _ _ _ _ Hrun3), (bind_ok _ _ _ _ _ Hrun4).
  unfold block_view in Eb2. by injection Eb2 as _ _ _ -> _ _.
Qed.

Lemma send_meets s Q ep a d l sb rb w blocking g badge gr : sched_ok s Q -> ep_is s ep EP_Recv (d :: l) ->
  can_talk s a d sb rb w g ->
  exists s' Q', send_ipc ep a blocking false g badge gr s = Ok (tt, s') /\
    met ep a d d EP_Recv l sb rb (from_word_security w) badge s s' Q Q'.
Proof.
  intros Hs He Htalk. destruct (send_meets_call s Q ep a d l sb rb w blocking false g badge gr Hs He Htalk)
    as (s' & Q' & t & _ & Hmet & Hrun). by exists s', Q'.
Qed.

(** *** The reply to a call *)

(** [a] has its master reply capability and the caller slot of [d] is free. *)
Definition can_call (s : kstate) (a d : Z) : Prop :=
  exists ls1 l1 l2 ls2 m, mdb_forest (ctes s) (ls1 ++ (l1 ++ get_cspace a TCB_REPLY :: l2) :: ls2) /\
    capability <$> ctes s !! get_cspace a TCB_REPLY = Some (cap_reply_cap m) /\
    capReplyMaster m = 1 /\ capReplyCanGrant m = 1 /\ capReplyTCBPtr m = a /\
    capability <$> ctes s !! get_cspace d TCB_CALLER = Some cap_null_cap.

(** [d] can reply to [a], with the right to grant if [g]; no other slot has
    another capability than before. *)
Definition given_reply (a d : Z) (g : bool) (s s' : kstate) : Prop :=
  capability <$> ctes s' !! get_cspace d TCB_CALLER = Some (cap_reply_cap (mk_reply_cap 0 a 0 (bool_to_word g))) /\
  (forall p, p <> get_cspace d TCB_CALLER -> capability <$> ctes s' !! p = capability <$> ctes s !! p) /\
  exists ls, mdb_forest (ctes s') ls.

(** What a call does after the message was transferred: with the right to grant
    or to grant a reply ([rights]) the caller waits for the reply, otherwise it
    is left inactive; nothing else changes. *)
Record called (ep a d : Z) (rights g : bool) (s s' : kstate) (Q Q' : Z -> list Z) : Prop := {
  called_state : exists t, tcbs s' !! a = Some t /\
    get_state t = if rights then ThreadStateBlockedOnReply else ThreadStateInactive;
  called_reply : if rights then given_reply a d g s s' else ctes s' = ctes s;
  called_messages : same_view ipc_view s s' /\ ipc_buffers s' = ipc_buffers s;
  called_states : forall c, c <> a -> block_view <$> tcbs s' !! c = block_view <$> tcbs s !! c;
  called_endpoints : same_view ep_view s s' /\ eps s' = eps s;
  called_sched : sched_ok s' Q';
  called_pending : forall x, pending s' Q' x <-> pending s Q x }.

Lemma called_of ep a d (rights g : bool) s s1 s' Q Q' : quiet ep a s s1 -> same_view ep_view s s1 -> eps s1 = eps s -> sched_ok s1 Q' ->
  (forall x, pending s1 Q' x <-> pending s Q x) ->
  (exists t, tcbs s1 !! a = Some t /\ get_state t = if rights then ThreadStateBlockedOnReply else ThreadStateInactive) ->
  (exists h, s' = s1 <| ctes := h |>) -> (if rights then given_reply a d g s s' else ctes s' = ctes s) ->
  called ep a d rights g s s' Q Q'.
Proof.
  intros [Hi Hb Hc Hbuf He] Hev Ee Hs Hp Ht [h ->] Hr.
  assert (Hv : same_view sched_view s1 (s1 <| ctes := h |>)) by done.
  destruct (sched_ok_view s1 (s1 <| ctes := h |>) Q' Hv eq_refl Hs) as [Hs' Hp']. split; try done.
Qed.

Lemma setup_caller_cap_spec ep s Q a d g : sched_ok s Q -> is_Some (tcbs s !! a) -> can_call s a d ->
  exists s' Q', setup_caller_cap d a g s = Ok (tt, s') /\ called ep a d true g s s' Q Q'.
Proof.
  intros Hs [t Ht] (ls1 & l1 & l2 & ls2 & m & Hf & Hm & Em1 & Em2 & Em3 & Hd).
  destruct (set_thread_state_spec ep s Q a t ThreadStateBlockedOnReply Hs Ht) as (s1 & Q1 & Hrun1 & Hq1 & Hev1 & Ee1 & Hs1 & Hp1 & Hb1).
  pose proof Hf as [H0 _]. apply fmap_Some in Hm as (cm & Hcm & Em). apply fmap_Some in Hd as (cd & Hcd & Ed).
  pose proof (quiet_ctes _ _ _ _ Hq1) as Ec.
  assert (Hm0 : get_cspace a TCB_REPLY <> 0) by by eapply lookup_nonzero.
  assert (Hd0 : get_cspace d TCB_CALLER <> 0) by by eapply lookup_nonzero.
  set (new := cap_reply_cap (mk_reply_cap 0 a 0 (bool_to_word g))).
  destruct (cte_insert_spec _ _ _ _ _ _ _ _ new false Hf Hcd (eq_sym Ed)) as (h & Hrun2 & Hf2 & Hnew & Hothers); [done| |].
  { intros c Hc. rewrite Hcm in Hc. injection Hc as <-. reflexivity. }
  exists (s1 <| ctes := h |>), Q1. split.
  - unfold setup_caller_cap. rewrite (bind_ok _ _ _ _ _ Hrun1).
    erewrite bind_ok by (apply get_cte_run; [done|rewrite Ec; exact Hcm]). rewrite <- Em, Em1, Em2, Em3, (Z.eqb_refl a).
    do 3 (erewrite bind_ok by reflexivity). erewrite bind_ok by (apply get_cte_run; [done|rewrite Ec; exact Hcd]).
    rewrite <- Ed. erewrite bind_ok by reflexivity. apply on_ctes_run. by rewrite Ec.
  - eapply called_of; try done; [|by exists h|].
    + destruct (tcbs s1 !! a) as [t1|] eqn:Ht1; [|done]. exists t1. split; [done|]. apply (inj Some) in Hb1.
      unfold block_view in Hb1. by injection Hb1 as E1 _ _ _ _ _.
    + split; [|split].
      * change (ctes (s1 <| ctes := h |>)) with h. by rewrite Hnew.
      * intros p Hp. change (ctes (s1 <| ctes := h |>)) with h. rewrite Hothers by done.
        destruct (ctes s !! p) as [c|] eqn:Hcp; [|done]. cbn. case_decide; [|done]. subst p. rewrite Hcm in Hcp. injection Hcp as <-.
        by rewrite <- Em.
      * eauto.
Qed.

Lemma call_spec ep s Q a d (rights g : bool) : sched_ok s Q -> is_Some (tcbs s !! a) -> (rights = true -> can_call s a d) ->
  exists s' Q', (if rights then setup_caller_cap d a g else set_thread_state a ThreadStateInactive) s = Ok (tt, s') /\
    called ep a d rights g s s' Q Q'.
Proof.
  intros Hs Ha Hcall. destruct rights; [by apply setup_caller_cap_spec; auto|]. destruct Ha as [t Ht].
  destruct (set_thread_state_spec ep s Q a t ThreadStateInactive Hs Ht) as (s1 & Q1 & Hrun1 & Hq1 & Hev1 & Ee1 & Hs1 & Hp1 & Hb1).
  exists s1, Q1. split; [done|]. eapply called_of; try done.
  - destruct (tcbs s1 !! a) as [t1|] eqn:Ht1; [|done]. exists t1. split; [done|]. apply (inj Some) in Hb1.
    unfold block_view in Hb1. by injection Hb1 as E1 _ _ _ _ _.
  - exists (ctes s1). by destruct s1.
  - apply (quiet_ctes _ _ _ _ Hq1).
Qed.

Lemma receive_meets s Q ep a b l sb rb w g badge gr ts obj blocking rg : sched_ok s Q -> ep_is s ep EP_Send (a :: l) ->
  can_talk s a b sb rb w g ->
  block_view <$> tcbs s !! a = Some (ts, obj, badge, bool_to_word g, gr, 0) ->
  exists s' Q', receive_ipc ep b blocking rg s = Ok (tt, s') /\
    met ep a b a EP_Send l sb rb (from_word_security w) badge s s' Q Q'.
Proof.
  intros Hs (e & Hep & He & Est & Hq) Htalk Hbv.
  destruct (take_receiver_spec s ep e a l) as (s1 & Hrun1 & Hstep & He1); [apply Hs|done..|]. rewrite Est in He1.
  destruct (meet_spec s Q ep s1 EP_Send l a b a sb rb w g badge) as (s2 & s3 & s4 & Q4 & Hrun2 & Hbv2 & Hrun3 & Hrun4 & Hmet);
    [done..|by left|].
  exists s4, Q4. split; [|done]. unfold receive_ipc.
  destruct Htalk as [_ (ta & (Ha0 & Hta & _) & _) (tb & (Hb0 & Htb & _) & Hn) _ _ _ _ _ _].
  rewrite (bind_ok _ _ _ _ _ (no_bound_notification s b tb Hb0 Htb Hn)).
  erewrite bind_ok by (apply lift_hget_ok; [by destruct s|exact Hep|exact He]). rewrite Est, (bind_ok _ _ _ _ _ Hrun1).
  destruct (quiet_ep ep a s s1 Hstep) as (_ & _ & Hbv1 & _).
  rewrite <- Hbv1 in Hbv. destruct (tcbs s1 !! a) as [t1|] eqn:Ht1; [|done]. apply (inj Some) in Hbv.
  erewrite bind_ok by by apply get_tcb_ok. unfold block_view in Hbv. injection Hbv as E1 E2 E3 E4 E5 E6.
  rewrite E3, E4. replace (negb (bool_to_word g =? 0)) with g by by destruct g. rewrite (bind_ok _ _ _ _ _ Hrun2).
  destruct (same_view_lookup _ _ _ _ _ Hbv2 Hta) as (t2 & Ht2 & Eb2).
  erewrite bind_ok by by apply get_tcb_ok.
  assert (E7 : blockingIPCIsCall (tcbState t2) = 0).
  { pose proof (Hbv1 a) as E. rewrite Ht1, Hta in E. apply (inj Some) in E. rewrite <- Eb2 in E. unfold block_view in E.
    injection E as _ _ _ _ _ E. congruence. }
  rewrite E7. cbn [Z.eqb negb]. by rewrite (bind_ok _ _ _ _ _ Hrun3).
Qed.
End endpoint.

(** ** Notifications *)

#[export] Instance same_ntfns : SchedFrame (same ntfns).
Proof. split; first [exact _ | done]. Qed.

Section notification.
Context `{Config} (Hmcs : kernel_mcs = false).

Definition ntfn_is (s : kstate) (p : Z) (st : NtfnState) (l : list Z) : Prop :=
  exists n, p <> 0 /\ ntfns s !! p = Some n /\ ntfn_state n = st /\
    queue_rel (ep_links (tcbs s)) (ntfn_get_queue n) l.

Definition ntfn_step (p : Z) (s s' : kstate) : Prop :=
  (exists h n, s' = s <| tcbs := h |> <| ntfns := <[p := n]> (ntfns s) |>) /\ same_view erase_ep s s'.

Lemma ntfn_step_of s p h n l : same_but_ep (tcbs s) h l ->
  ntfn_step p s (s <| tcbs := h |> <| ntfns := <[p := n]> (ntfns s) |>).
Proof. intros [Hsame _]. split; [by exists h, n|exact Hsame]. Qed.

Lemma ntfn_is_view s s' p st l : same_view ep_view s s' -> ntfns s' = ntfns s -> ntfn_is s p st l -> ntfn_is s' p st l.
Proof. intros Hv Ee (n & H0 & Hn & Hst & Hq). exists n. rewrite Ee. split_and!; try done. by eapply ep_rel_view. Qed.

Lemma quiet_ntfn ep a p s s' : ntfn_step p s s' ->
  quiet ep a s s' /\ same_view sched_view s s' /\ same_view block_view s s' /\ sched_fields s' = sched_fields s.
Proof.
  intros [(h & n & E) Hv].
  assert (Hb : same_view block_view s s') by (eapply same_view_via; [|exact Hv]; apply erase_ep_views).
  assert (Hs : same_view sched_view s s') by (eapply same_view_via; [|exact Hv]; apply erase_ep_views).
  assert (Hi : same_view ipc_view s s') by (eapply same_view_via; [|exact Hv]; apply erase_ep_views).
  split; [|split; [done|split; [done|by rewrite E]]].
  split; [done|by intros c _; apply Hb|by rewrite E|by rewrite E|by rewrite E].
Qed.

(** Signals to a notification that nobody waits for are collected. *)
Fixpoint send_signals `{CSpaceDeps} (p : Z) (badges : list Z) : K unit :=
  match badges with
  | [] => ret tt
  | badge :: rest => send_signal p badge ;;; send_signals p rest
  end.

Definition with_ntfn (p : Z) (n : notification) (s : kstate) : kstate := s <| ntfns := <[p := n]> (ntfns s) |>.

Lemma signals_active `{CSpaceDeps} p badges : forall s n, p <> 0 -> ntfns s !! p = Some n -> ntfn_state n = Ntfn_Active ->
  send_signals p badges s =
  Ok (tt, with_ntfn p (n <| ntfnMsgIdentifier := fold_left Z.lor badges (ntfnMsgIdentifier n) |>) s).
Proof.
  induction badges as [|x l IH]; intros s n Hp Hn Hst; cbn [send_signals fold_left].
  - unfold with_ntfn. rewrite insert_id; [by destruct s|]. rewrite Hn. by destruct n.
  - erewrite bind_ok.
    2:{ unfold send_signal. erewrite bind_ok by (apply lift_hget_ok; [by destruct s|exact Hp|exact Hn]). rewrite Hst.
        apply lift_part_ok, hmod_alter; [done|eauto]. }
    rewrite (alter_present _ _ _ _ Hn). rewrite (IH _ (n <| ntfnMsgIdentifier := Z.lor (ntfnMsgIdentifier n) x |>)); [|done| |done].
    + unfold with_ntfn. cbn. by rewrite insert_insert_eq.
    + cbn. by rewrite lookup_insert_eq.
Qed.

(** No thread is bound, or the one that is does not wait for a message. *)
Definition nobody_bound (s : kstate) (n : notification) : Prop :=
  ntfnBoundTCB n = 0 \/
  exists t, ntfnBoundTCB n <> 0 /\ tcbs s !! ntfnBoundTCB n = Some t /\ get_state t <> ThreadStateBlockedOnReceive.

Lemma send_signal_idle `{CSpaceDeps} s p n badge : p <> 0 -> ntfns s !! p = Some n -> ntfn_state n = Ntfn_Idle ->
  nobody_bound s n ->
  send_signal p badge s = Ok (tt, with_ntfn p (n <| ntfn_state := Ntfn_Active |> <| ntfnMsgIdentifier := badge |>) s).
Proof.
  intros Hp Hn Hst Hb. unfold send_signal. erewrite bind_ok by (apply lift_hget_ok; [by destruct s|exact Hp|exact Hn]).
  rewrite Hst. assert (Hact : active p badge s =
    Ok (tt, with_ntfn p (n <| ntfn_state := Ntfn_Active |> <| ntfnMsgIdentifier := badge |>) s)).
  { unfold active. erewrite bind_ok by (apply lift_part_ok, hmod_alter; [done|eauto]). rewrite (alter_present _ _ _ _ Hn).
    unfold mod_ntfn, on_ntfns. erewrite lift_part_ok by (apply hmod_alter; [done|cbn; rewrite lookup_insert_eq; eauto]).
    cbn. rewrite (alter_present _ _ _ (n <| ntfn_state := Ntfn_Active |>)) by apply lookup_insert_eq.
    unfold with_ntfn. by rewrite insert_insert_eq. }
  destruct Hb as [-> | (t & Hb0 & Ht & Hr)]; [done|]. destruct (Z.eqb_spec (ntfnBoundTCB n) 0); [done|].
  erewrite bind_ok by by apply get_tcb_ok. by rewrite bool_decide_false.
Qed.

Lemma signals_then_receive `{CSpaceDeps} s p n badge badges b t blocking : ntfns s !! p = Some n -> p <> 0 ->
  ntfn_state n = Ntfn_Idle -> nobody_bound s n -> thread_at s b t ->
  (send_signals p (badge :: badges) ;;; receive_signal p b blocking) s =
  Ok (tt, with_regs b t (<[Z.to_nat badge_index := fold_left Z.lor badges badge]> (registers (tcbArch t)))
    (with_ntfn p (n <| ntfnMsgIdentifier := fold_left Z.lor badges badge |>) s)).
Proof.
  intros Hn Hp Hst Hb Ht. cbn [send_signals]. rewrite bind_assoc.
  rewrite (bind_ok _ _ _ _ _ (send_signal_idle s p n badge Hp Hn Hst Hb)). set (s1 := with_ntfn p _ s).
  assert (Hn1 : ntfns s1 !! p = Some (n <| ntfn_state := Ntfn_Active |> <| ntfnMsgIdentifier := badge |>)) by apply lookup_insert_eq.
  rewrite (bind_ok _ _ _ _ _ (signals_active p badges s1 _ Hp Hn1 eq_refl)). set (s2 := with_ntfn p _ s1).
  assert (Hn2 : ntfns s2 !! p = Some (n <| ntfn_state := Ntfn_Active |> <| ntfnMsgIdentifier := fold_left Z.lor badges badge |>)).
  { cbn. by rewrite lookup_insert_eq. }
  unfold receive_signal. erewrite bind_ok by (apply lift_hget_ok; [by destruct s|exact Hp|exact Hn2]).
  set (n2 := n <| ntfn_state := Ntfn_Active |> <| ntfnMsgIdentifier := fold_left Z.lor badges badge |>) in *.
  replace (ntfn_state n2) with Ntfn_Active by done. replace (ntfnMsgIdentifier n2) with (fold_left Z.lor badges badge) by done.
  erewrite bind_ok by (apply set_register_run; [exact Ht|apply to_index_badge|apply index_ranges]).
  rewrite Hmcs. erewrite bind_ok by (apply lift_part_ok, hmod_alter; [done|exact (mk_is_Some _ _ Hn2)]).
  cbn [when]. unfold ret. rewrite (alter_present _ _ _ _ Hn2). unfold with_regs, with_ntfn. cbn. rewrite !insert_insert_eq.
  do 3 f_equal. rewrite <- Hst. by destruct n.
Qed.

(** Waiting, and the first of those that wait. *)
Lemma signal_waits s Q p st l b t : sched_ok s Q -> ntfn_is s p st l -> st <> Ntfn_Active ->
  tcbs s !! b = Some t -> b ∉ l ->
  exists s' Q', receive_signal p b true s = Ok (tt, s') /\ quiet 0 b s s' /\ ntfn_is s' p Ntfn_Waiting (l ++ [b]) /\
    sched_ok s' Q' /\ (forall x, pending s' Q' x <-> pending s Q x) /\
    exists t', tcbs s' !! b = Some t' /\ get_state t' = ThreadStateBlockedOnNotification.
Proof.
  intros Hs (n & Hp & Hn & Est & Hqn) Hst Ht Hbl. assert (Hb : b <> 0) by (eapply thread_nonzero; [apply Hs|done]).
  set (f := fun x => x <| blockingObject := p |>).
  destruct (quiet_state 0 b t f s Ht) as (Hq & Hsv & Hev); [done|].
  set (s1 := s <| tcbs := _ |>) in *. destruct (sched_ok_view s s1 Q Hsv eq_refl Hs) as [Hs1 Hp1].
  assert (Ht1 : tcbs s1 !! b = Some (set_tcb_state f t)) by by cbn; rewrite lookup_insert_eq.
  destruct (set_thread_state_spec Hmcs 0 s1 Q b _ ThreadStateBlockedOnNotification Hs1 Ht1)
    as (s2 & Q2 & Hrun & Hq2 & Hev2 & He2 & Hs2 & Hp2 & Hb2).
  pose proof (frame_set_thread_state (same ntfns) b _ _ _ _ Hrun) as En2. unfold same in En2.
  destruct (tcbs s2 !! b) as [t2|] eqn:Ht2; [|done].
  assert (Hq2n : queue_rel (ep_links (tcbs s2)) (ntfn_get_queue n) l) by (eapply (ep_rel_view s); [by etrans|done]).
  destruct (ep_append_fifo_spec _ _ (proj1 (proj1 Hs2)) l b t2 Hq2n Ht2 Hbl) as (q & h & Hrun3 & Hq3 & Hsame).
  set (n3 := n <| ntfn_state := Ntfn_Waiting |> <| ntfnQueue_head := head q |> <| ntfnQueue_tail := tail q |>).
  set (s3 := s2 <| tcbs := h |> <| ntfns := <[p := n3]> (ntfns s2) |>).
  destruct (quiet_ntfn 0 b p s2 s3 (ntfn_step_of _ _ _ _ _ Hsame)) as (Hq3' & Hsv3 & Hbv3 & Hf3).
  destruct (sched_ok_view s2 s3 Q2 Hsv3 Hf3 Hs2) as [Hs3 Hp3].
  exists s3, Q2. split; [|split; [etrans; [exact Hq|]; by etrans|split; [|split; [done|split]]]].
  - unfold receive_signal. erewrite bind_ok by (apply lift_hget_ok; [by destruct s|exact Hp|exact Hn]). rewrite Est.
    assert (Hrest : (mod_tcb b (set_tcb_state f) ;;; set_thread_state b ThreadStateBlockedOnNotification ;;;
      let* queue := on_tcbs (ep_append (ntfn_get_queue n) b) in
      ntfn_set_state p Ntfn_Waiting ;;; ntfn_set_queue p queue ;;; when kernel_mcs (maybe_return_sched_context p b)) s
      = Ok (tt, s3)).
    { erewrite bind_ok by (apply mod_tcb_ok; eauto). rewrite (alter_present _ _ _ _ Ht), (bind_ok _ _ _ _ _ Hrun).
      unfold ep_append. rewrite Hmcs. erewrite bind_ok by (apply on_tcbs_ok; exact Hrun3).
      assert (Hn2 : ntfns (s2 <| tcbs := h |>) !! p = Some n) by (cbn; rewrite En2; exact Hn).
      erewrite bind_ok by (apply lift_part_ok, hmod_alter; [done|by rewrite Hn2]).
      rewrite (alter_present _ _ _ _ Hn2).
      erewrite bind_ok by (apply lift_part_ok, hmod_alter; [done|cbn; rewrite lookup_insert_eq; eauto]).
      cbn. rewrite (alter_present _ _ _ (n <| ntfn_state := Ntfn_Waiting |>)) by apply lookup_insert_eq.
      by rewrite insert_insert_eq. }
    by destruct st.
  - exists n3. split; [done|]. cbn. rewrite lookup_insert_eq. split; [done|]. split; [done|]. by destruct q.
  - intros x. by rewrite Hp3, Hp2, Hp1.
  - destruct (same_view_lookup _ _ _ _ _ Hbv3 Ht2) as (t3 & Ht3 & Eb3). exists t3. split; [done|].
    apply (inj Some) in Hb2. rewrite <- Eb3 in Hb2. unfold block_view in Hb2. by injection Hb2 as E1 _ _ _ _ _.
Qed.

Lemma ntfn_take_spec s p n d l : tcbs s !! 0 = None -> p <> 0 -> ntfns s !! p = Some n ->
  queue_rel (ep_links (tcbs s)) (ntfn_get_queue n) (d :: l) ->
  exists s', ntfn_take p d s = Ok (tt, s') /\ ntfn_step p s s' /\
    ntfn_is s' p (if bool_decide (l = []) then Ntfn_Idle else ntfn_state n) l.
Proof.
  intros H0 Hp Hn Hq. destruct (ep_dequeue_spec _ _ H0 [] d l Hq) as (q & h & Hrun & Hq' & Hsame).
  cbn [app] in Hq'. pose proof (queue_empty _ _ _ Hq') as Hem. unfold empty in Hem.
  apply wp_run. unfold ntfn_take. apply wp_bind, (wp_get_ntfn _ n); [done..|].
  apply wp_bind. eapply wp_ok; [apply on_tcbs_ok; exact Hrun|].
  apply wp_bind, (wp_mod_ntfn _ n); [done..|]. rewrite Hem. destruct (bool_decide (l = [])) eqn:El; cbn [when].
  - eapply wp_mod_ntfn; [done|cbn; by rewrite lookup_insert_eq|]. split; [done|]. cbn. rewrite insert_insert_eq.
    split; [exact (ntfn_step_of s p h _ _ Hsame)|]. eexists. split; [done|]. cbn. rewrite lookup_insert_eq. split; [done|].
    split; [done|]. by destruct q.
  - apply wp_ret. split; [done|]. split; [exact (ntfn_step_of s p h _ _ Hsame)|]. eexists. split; [done|]. cbn.
    rewrite lookup_insert_eq. split; [done|]. split; [done|]. by destruct q.
Qed.

(** A signal to a notification that threads wait for goes to the first. *)
Lemma signal_wakes `{CSpaceDeps} s Q p d l t badge : sched_ok s Q -> ntfn_is s p Ntfn_Waiting (d :: l) -> thread_at s d t ->
  exists s' Q', send_signal p badge s = Ok (tt, s') /\
    ntfn_is s' p (if bool_decide (l = []) then Ntfn_Idle else Ntfn_Waiting) l /\ sched_ok s' Q' /\
    (forall x, pending s' Q' x <-> pending s Q x \/ x = d) /\
    (exists t', tcbs s' !! d = Some t' /\ get_state t' = ThreadStateRunning /\ reg t' badge_index = Some badge) /\
    forall c, c <> d -> ipc_view <$> tcbs s' !! c = ipc_view <$> tcbs s !! c /\
                        block_view <$> tcbs s' !! c = block_view <$> tcbs s !! c.
Proof.
  intros Hs (n & Hp & Hn & Est & Hqn) Ht.
  destruct (ntfn_take_spec s p n d l) as (s1 & Hrun1 & Hstep1 & Hn1); [apply Hs|done..|]. rewrite Est in Hn1.
  destruct (quiet_ntfn 0 d p s s1 Hstep1) as (Hq1 & Hsv1 & Hbv1 & Hf1). destruct (sched_ok_view s s1 Q Hsv1 Hf1 Hs) as [Hs1 Hp1].
  destruct (thread_at_view _ _ _ _ (quiet_ipc _ _ _ _ Hq1) Ht) as (t1 & Ht1 & _). pose proof Ht1 as (Hd0 & Ht1' & _).
  destruct (set_thread_state_spec Hmcs 0 s1 Q d t1 ThreadStateRunning Hs1 Ht1')
    as (s2 & Q2 & Hrun2 & Hq2 & Hev2 & _ & Hs2 & Hp2 & Hb2).
  pose proof (frame_set_thread_state (same ntfns) d _ _ _ _ Hrun2) as En2. unfold same in En2.
  destruct (thread_at_view _ _ _ _ (quiet_ipc _ _ _ _ Hq2) Ht1) as (t2 & Ht2 & _).
  pose proof (set_register_run s2 d t2 Badge badge_index badge Ht2 to_index_badge (proj1 index_ranges)) as Hrun3.
  set (s3 := with_regs d t2 _ s2) in *.
  assert (Hstep3 : talk_step d s2 s3) by (do 2 eexists; exists (ipc_buffers s2); split; [apply Ht2|by destruct s2]).
  destruct (talk_step_views d s2 s3 Hstep3) as (Hsv3 & Hev3 & Hbv3 & Hf3 & _ & Hi3).
  destruct (sched_ok_view s2 s3 Q2 Hsv3 Hf3 Hs2) as [Hs3 Hp3].
  assert (Ht3 : tcbs s3 !! d = Some (set_registers (<[Z.to_nat badge_index := badge]> (registers (tcbArch t2))) t2))
    by apply lookup_insert_eq.
  destruct (possible_switch_to_spec Hmcs s3 Q2 d Hs3 (mk_is_Some _ _ Ht3)) as (s4 & Q4 & Hrun4 & Hstep4 & Hs4 & Hp4).
  destruct (quiet_sched 0 d s3 s4 Hstep4) as (Hq4 & Hev4 & Hbv4 & _).
  exists s4, Q4. split; [|split; [|split; [done|split; [|split]]]].
  - unfold send_signal. erewrite bind_ok by (apply lift_hget_ok; [by destruct s|exact Hp|exact Hn]). rewrite Est, Hmcs.
    assert (Eh : ntfnQueue_head n = d) by apply Hqn. rewrite Eh. destruct (Z.eqb_spec d 0); [done|].
    rewrite (bind_ok _ _ _ _ _ Hrun1). unfold signalled. rewrite Hmcs. erewrite bind_ok; [reflexivity|].
    by rewrite (bind_ok _ _ _ _ _ Hrun2), (bind_ok _ _ _ _ _ Hrun3).
  - eapply (ntfn_is_view s1); [|by destruct Hstep4 as [(? & ? & ? & ? & ? & ->) _]|done].
    etrans; [exact Hev2|]. by etrans.
  - intros x. by rewrite Hp4, Hp3, Hp2, Hp1.
  - destruct (same_view_lookup _ _ _ _ _ (quiet_ipc _ _ _ _ Hq4) Ht3) as (t4 & Ht4 & E4). exists t4. split; [done|]. split.
    + apply (inj Some). rewrite <- (fmap_Some_2 get_state _ _ Ht4).
      assert (Hg : forall s s', same_view block_view s s' -> same_view get_state s s').
      { intros x y. apply same_view_via. intros u u' E. exact (f_equal (fun v => fst (fst (fst (fst (fst v))))) E). }
      rewrite (Hg _ _ Hbv4), (Hg _ _ Hbv3). destruct (tcbs s2 !! d) as [t2'|] eqn:E2; [|done].
      apply (inj Some) in Hb2. cbn. f_equal. exact (f_equal (fun v => fst (fst (fst (fst (fst v))))) Hb2).
    + destruct (ipc_view_fields _ _ E4) as (E & _). unfold reg. rewrite E. cbn. apply list_lookup_insert_eq.
      destruct Ht2 as (_ & _ & Hl). unfold CONTEXT_REG_NUM in Hl. pose proof index_ranges. destruct target_arch; lia.
  - intros c Hc. split.
    + rewrite (quiet_ipc _ _ _ _ Hq4), Hi3, (quiet_ipc _ _ _ _ Hq2) by done. apply (quiet_ipc _ _ _ _ Hq1).
    + rewrite Hbv4, Hbv3, (quiet_block _ _ _ _ Hq2) by done. apply Hbv1.
Qed.
End notification.

(** ** The contract of endpoints and notifications *)

(** C15. Without MCS, a send or a call refines the abstract endpoint, a state
    and a list of waiting threads.  When receivers wait, the message goes to
    the first of them, it runs again and is known to the scheduler, and the
    others keep their order; a call then makes the caller wait for the reply
    and gives the receiver a reply capability to it, with the right to grant
    exactly if the receiver waited with that right, or leaves the caller
    inactive when it has neither the right to grant nor to grant a reply.
    When no receiver waits, a blocking send or call puts the sender at the end
    of the queue with its badge, rights and whether it calls, and one that does
    not block changes nothing.  The message is one without a fault to report
    and without capabilities to transfer, the receiver has no bound
    notification ([can_talk]); for a call with the right to a reply the caller
    has its master reply capability and the receiver's caller slot is free. *)
Theorem send_ipc_refines `{Config} s Q ep st l a blocking call g badge gr sb rb w :
  kernel_mcs = false -> sched_ok s Q -> ep_is s ep st l -> is_Some (tcbs s !! a) -> a ∉ l ->
  (st = EP_Recv -> exists d l', l = d :: l' /\ can_talk s a d sb rb w g /\ (call && (g || gr) = true -> can_call s a d)) ->
  exists s' Q', send_ipc ep a blocking call g badge gr s = Ok (tt, s') /\
    match st, l with
    | EP_Recv, d :: l' =>
        exists s1 Q1 t, tcbs s !! d = Some t /\
          met ep a d d EP_Recv l' sb rb (from_word_security w) badge s s1 Q Q1 /\
          if call then called ep a d (g || gr) (negb (blockingIPCCanGrant (tcbState t) =? 0)) s1 s' Q1 Q' else s' = s1
    | _, _ =>
        if blocking
        then waits ep a EP_Send l s s' Q Q' /\
             block_view <$> tcbs s' !! a =
             Some (ThreadStateBlockedOnSend, ep, badge, bool_to_word g, bool_to_word gr, bool_to_word call)
        else s' = s
    end.
Proof.
  intros Hmcs Hs He Ha Hal Hr. destruct (decide (st = EP_Recv)) as [->|Hst].
  - destruct (Hr eq_refl) as (d & l' & -> & Htalk & Hcall).
    destruct (send_meets_call Hmcs s Q ep a d l' sb rb w blocking call g badge gr Hs He Htalk) as (s1 & Q1 & t & Ht & Hmet & Hrun).
    rewrite Hrun. destruct call; cbn [when]; [|exists s1, Q1; split; [done|]; by exists s1, Q1, t].
    destruct (call_spec Hmcs ep s1 Q1 a d (g || gr) (negb (blockingIPCCanGrant (tcbState t) =? 0))) as (s' & Q' & Hrun2 & Hc).
    + apply Hmet.
    + pose proof (met_messages _ _ _ _ _ _ _ _ _ _ _ _ _ _ Hmet a (talk_ne _ _ _ _ _ _ _ Htalk)) as Ev. destruct Ha as [ta Hta].
      rewrite Hta in Ev. destruct (tcbs s1 !! a); [eauto|done].
    + intros Hg. specialize (Hcall Hg). unfold can_call in *. by rewrite (met_ctes _ _ _ _ _ _ _ _ _ _ _ _ _ _ Hmet).
    + exists s', Q'. split; [done|]. by exists s1, Q1, t.
  - destruct blocking.
    + destruct (send_waits Hmcs s Q ep st l a call g badge gr Hs He Hst Ha Hal) as (s' & Q' & Hrun & Hw & Hb).
      exists s', Q'. split; [done|]. by destruct st.
    + exists s, Q. split; [|by destruct st]. destruct He as (e & Hep & He & Est & _). unfold send_ipc.
      erewrite bind_ok by (apply lift_hget_ok; [by destruct s|exact Hep|exact He]). rewrite Est. by destruct st.
Qed.

(** C5. Without MCS, a send and a receive on an idle endpoint meet whichever
    comes first (a plain send without a fault to report and without capabilities
    to transfer, a receiver without a bound notification, [can_talk]): both orders succeed, leave the endpoint idle, the receiver
    with the sender's message and badge, and the one that waited running and
    known to the scheduler. *)
Theorem rendezvous_either_order `{Config} s Q ep a b sb rb w g badge gr rg :
  kernel_mcs = false -> sched_ok s Q -> ep_is s ep EP_Idle [] -> can_talk s a b sb rb w g ->
  let meet (m : K unit) (woken : Z) := exists s' Q', m s = Ok (tt, s') /\ ep_is s' ep EP_Idle [] /\
    received s s' a b sb rb (from_word_security w) badge /\
    (exists t, tcbs s' !! woken = Some t /\ get_state t = ThreadStateRunning) /\
    sched_ok s' Q' /\ forall x, pending s' Q' x <-> pending s Q x \/ x = woken in
  meet (send_ipc ep a true false g badge gr ;;; receive_ipc ep b true rg) a /\
  meet (receive_ipc ep b true rg ;;; send_ipc ep a true false g badge gr) b.
Proof.
  intros Hmcs Hs He Htalk meet. pose proof Htalk as [_ (ta & (_ & Hta & _) & _) (tb & (_ & Htb & _) & Hn) _ _ _ _ _ _]. split.
  - destruct (send_waits Hmcs s Q ep EP_Idle [] a false g badge gr Hs He) as (s1 & Q1 & Hrun1 & (Hq1 & He1 & Hs1 & Hp1) & Hb1);
      [done|eauto|by apply not_elem_of_nil|].
    destruct (receive_meets Hmcs s1 Q1 ep a b [] sb rb w g badge _ _ _ true rg Hs1 He1 (can_talk_quiet _ _ _ _ _ _ _ _ _ _ Hq1 Htalk) Hb1)
      as (s2 & Q2 & Hrun2 & [Hep Hm Hw Hs2 Hp2 _ _ _ _]).
    exists s2, Q2. rewrite (bind_ok _ _ _ _ _ Hrun1). split_and!; try done; [by eapply received_before|].
    intros x. by rewrite Hp2, Hp1.
  - destruct (receive_waits Hmcs s Q ep EP_Idle [] b tb rg Hs He) as (s1 & Q1 & Hrun1 & (Hq1 & He1 & Hs1 & Hp1) & Hb1);
      [done|done|done|by apply not_elem_of_nil|].
    destruct (send_meets Hmcs s1 Q1 ep a b [] sb rb w true g badge gr Hs1 He1 (can_talk_quiet _ _ _ _ _ _ _ _ _ _ Hq1 Htalk))
      as (s2 & Q2 & Hrun2 & [Hep Hm Hw Hs2 Hp2 _ _ _ _]).
    exists s2, Q2. rewrite (bind_ok _ _ _ _ _ Hrun1). split_and!; try done; [by eapply received_before|].
    intros x. by rewrite Hp2, Hp1.
Qed.

(** C16. Without MCS no signal is lost, whichever side comes first, when no
    thread that waits on an endpoint is bound to the notification.  Any number
    of signals to an idle notification followed by a wait leave the waiting
    thread with the union of the badges and the notification idle, nothing
    else changed; a wait followed by a signal leaves it with that badge,
    running and known to the scheduler, and the notification idle. *)
Theorem signal_either_order `{Config, CSpaceDeps} s Q p n badge badges b t blocking :
  kernel_mcs = false -> sched_ok s Q -> p <> 0 -> ntfns s !! p = Some n -> ntfn_is s p Ntfn_Idle [] ->
  nobody_bound s n -> thread_at s b t ->
  (send_signals p (badge :: badges) ;;; receive_signal p b blocking) s =
    Ok (tt, with_regs b t (<[Z.to_nat badge_index := fold_left Z.lor badges badge]> (registers (tcbArch t)))
      (with_ntfn p (n <| ntfnMsgIdentifier := fold_left Z.lor badges badge |>) s)) /\
  exists s' Q', (receive_signal p b true ;;; send_signal p badge) s = Ok (tt, s') /\
    ntfn_is s' p Ntfn_Idle [] /\ sched_ok s' Q' /\ (forall x, pending s' Q' x <-> pending s Q x \/ x = b) /\
    exists t', tcbs s' !! b = Some t' /\ get_state t' = ThreadStateRunning /\ reg t' badge_index = Some badge.
Proof.
  intros Hmcs Hs Hp Hn Hni Hb Ht. split.
  - apply (signals_then_receive Hmcs); try done. destruct Hni as (n' & _ & Hn' & Hst & _). congruence.
  - destruct (signal_waits Hmcs s Q p Ntfn_Idle [] b t Hs Hni) as (s1 & Q1 & Hrun1 & Hq1 & Hn1 & Hs1 & Hp1 & _);
      [done|apply Ht|by apply not_elem_of_nil|].
    destruct (thread_at_view _ _ _ _ (quiet_ipc _ _ _ _ Hq1) Ht) as (t1 & Ht1 & _).
    destruct (signal_wakes Hmcs s1 Q1 p b [] t1 badge Hs1 Hn1 Ht1) as (s2 & Q2 & Hrun2 & Hn2 & Hs2 & Hp2 & Ht2 & _).
    exists s2, Q2. rewrite (bind_ok _ _ _ _ _ Hrun1). split_and!; try done. intros x. by rewrite Hp2, Hp1.
Qed.

Module MeetingExample.
Import MessageExample.
Definition signalled_state : kstate := state <| ntfns := {[0x6000 := mk_notification 0 0 0 0 0 Ntfn_Idle]} |>.
(** Thread 0x2200 waits at the endpoint. *)
Definition waiting_state : kstate :=
  state <| tcbs := <[0x2200 := set_tsType ThreadStateBlockedOnReceive receiver]> (tcbs state) |>
        <| eps := {[0x3000 := mk_endpoint 0x2200 0x2200 EP_Recv]} |>.

(** It calls: the sender has its master reply capability. *)
Definition calling_state : kstate :=
  waiting_state <| ctes := <[0x1040 := plain_slot (cap_reply_cap (mk_reply_cap 0 0x1200 1 1))]>
    (<[0x2060 := mk_cte cap_null_cap mdb_zero]> (ctes state)) |>.

Lemma no_queue L : queue_rel L (mk_tcb_queue 0 0) [].
Proof. split; [apply dlist_nil|done]. Qed.

Lemma nobody_queued s : tcbs s !! 0 = None -> tcbs s !! 1 = None -> ksReadyQueues s = ksReadyQueues base_state ->
  ksReleaseQueue s = mk_tcb_queue 0 0 -> ksReadyQueuesL1Bitmap s = [0] -> ksReadyQueuesL2Bitmap s = [[0; 0; 0; 0]] ->
  ksCurDomain s = 0 -> ksSchedulerAction s = 0 ->
  (forall a t, tcbs s !! a = Some t -> t = sender \/ t = receiver \/ t = set_tsType ThreadStateBlockedOnReceive receiver) ->
  sched_ok s (fun _ => []).
Proof.
  intros H0 H1 E1 E2 E3 E4 E5 E6 Ht. split_and!; try done.
  - apply no_thread_queued; try done. intros a t Ha. destruct (Ht a t Ha) as [-> | [-> | ->]]; cbn; split_and!; lia || done.
  - intros a (-> & N1 & _). by rewrite E6 in N1.
Qed.

Lemma meeting_state_ok : sched_ok state (fun _ => []).
Proof. apply nobody_queued; try done. intros a t. cbn. rewrite !lookup_insert_Some, lookup_empty. naive_solver. Qed.

Lemma signalled_ok : sched_ok signalled_state (fun _ => []).
Proof. apply nobody_queued; try done. intros a t. cbn. rewrite !lookup_insert_Some, lookup_empty. naive_solver. Qed.

Lemma waiting_ok : sched_ok calling_state (fun _ => []).
Proof. apply nobody_queued; try done. intros a t. cbn. rewrite !lookup_insert_Some, lookup_empty. naive_solver. Qed.

Lemma idle_ok : ep_is state 0x3000 EP_Idle [].
Proof. eexists. split; [done|]. split; [reflexivity|]. split; [done|apply no_queue]. Qed.

Lemma queue_ok : ep_is calling_state 0x3000 EP_Recv [0x2200].
Proof.
  eexists. split; [done|]. split; [reflexivity|]. split; [done|]. split; [|done].
  split; [apply NoDup_singleton|]. split; [set_solver|]. by split.
Qed.

Lemma reply_ok : @can_call riscv_config calling_state 0x1200 0x2200.
Proof.
  exists [[0x1080]; [0x2080]], [], [], [], (mk_reply_cap 0 0x1200 1 1). split; [|by vm_compute]. split; [done|].
  split; [apply (bool_decide_unpack _); vm_compute; exact I|]. split.
  - repeat (apply Forall_cons; split; [by split; [apply NoDup_singleton|split; [set_solver|by split]]|]). by apply Forall_nil.
  - intros a c Hc. cbn in Hc. rewrite !lookup_insert_Some, lookup_empty in Hc.
    destruct Hc as [[<- <-]|[_ [[<- <-]|[_ [[<- <-]|[_ [[<- <-]|[_ ?]]]]]]]]; [|apply slot_ok_out|..|done].
    2: apply (bool_decide_unpack _); vm_compute; exact I.
    all: apply slot_ok_in; [apply (bool_decide_unpack _); vm_compute; exact I|done].
Qed.

Lemma talk_ok : @can_talk riscv_config state 0x1200 0x2200 (Some 0x4000) (Some 0x5000) (5 * 4096 + 6) true.
Proof.
  split; [done|exists sender; split; [exact sender_at|done]|exists receiver; split; [exact receiver_at|done]| | | |
    exact sender_buffer|exact receiver_buffer|by right].
  - split; done.
  - by vm_compute.
  - by vm_compute.
Qed.

Lemma talk_waiting : @can_talk riscv_config calling_state 0x1200 0x2200 (Some 0x4000) (Some 0x5000) (5 * 4096 + 6) true.
Proof.
  split; [done|exists sender; split; [by split_and!|done]|eexists; split; [split; [done|by split]|done]| | | |
    exact sender_buffer|exact receiver_buffer|by right].
  - split; done.
  - by vm_compute.
  - by vm_compute.
Qed.
End MeetingExample.

Lemma send_ipc_refines_witness : exists s' t,
  @send_ipc riscv_config 0x3000 0x1200 true true true 77 true MeetingExample.calling_state = Ok (tt, s') /\
  tcbs s' !! 0x1200 = Some t /\ get_state t = ThreadStateBlockedOnReply /\
  capability <$> ctes s' !! 0x2060 = Some (cap_reply_cap (mk_reply_cap 0 0x1200 0 0)).
Proof.
  destruct (@send_ipc_refines riscv_config MeetingExample.calling_state (fun _ => []) 0x3000 EP_Recv [0x2200] 0x1200
    true true true 77 true (Some 0x4000) (Some 0x5000) (5 * 4096 + 6))
    as (s' & Q' & Hrun & s1 & Q1 & td & Htd & _ & [(t & Ht & Hst) (Hr & _) _ _ _ _ _]).
  - reflexivity.
  - exact MeetingExample.waiting_ok.
  - exact MeetingExample.queue_ok.
  - eexists. reflexivity.
  - rewrite list_elem_of_singleton. discriminate.
  - intros _. exists 0x2200, []. split; [reflexivity|]. split; [exact MeetingExample.talk_waiting|].
    intros _. exact MeetingExample.reply_ok.
  - exists s', t. split; [exact Hrun|]. split; [exact Ht|]. split; [exact Hst|].
    vm_compute in Htd. injection Htd as <-. exact Hr.
Defined.

Lemma rendezvous_either_order_witness : exists s1 s2,
  (let* _ := @send_ipc riscv_config 0x3000 0x1200 true false true 77 true in @receive_ipc riscv_config 0x3000 0x2200 true true)
    MessageExample.state = Ok (tt, s1) /\
  (let* _ := @receive_ipc riscv_config 0x3000 0x2200 true true in @send_ipc riscv_config 0x3000 0x1200 true false true 77 true)
    MessageExample.state = Ok (tt, s2) /\
  @message_word riscv_config s1 0x2200 (Some 0x5000) 5 = Some 16 /\
  @message_word riscv_config s2 0x2200 (Some 0x5000) 5 = Some 16.
Proof.
  destruct (@rendezvous_either_order riscv_config MessageExample.state (fun _ => []) 0x3000 0x1200 0x2200 (Some 0x4000)
    (Some 0x5000) (5 * 4096 + 6) true 77 true true)
    as [(s1 & Q1 & Hrun1 & _ & [Hm1 _] & _) (s2 & Q2 & Hrun2 & _ & [Hm2 _] & _)].
  - reflexivity.
  - exact MeetingExample.meeting_state_ok.
  - exact MeetingExample.idle_ok.
  - exact MeetingExample.talk_ok.
  - exists s1, s2. split; [exact Hrun1|]. split; [exact Hrun2|].
    split; [rewrite (Hm1 5)|rewrite (Hm2 5)]; try (vm_compute; split; congruence); vm_compute; reflexivity.
Defined.

Lemma signal_either_order_witness : exists s',
  (let* _ := @receive_signal riscv_config 0x6000 0x2200 true in
   @send_signal riscv_config (@kernel_deps riscv_config 1) 0x6000 5) MeetingExample.signalled_state = Ok (tt, s') /\
  exists t', tcbs s' !! 0x2200 = Some t' /\ get_state t' = ThreadStateRunning.
Proof.
  destruct (@signal_either_order riscv_config (@kernel_deps riscv_config 1) MeetingExample.signalled_state (fun _ => []) 0x6000
    (mk_notification 0 0 0 0 0 Ntfn_Idle) 5 [6; 8] 0x2200 MessageExample.receiver true)
    as [_ (s' & Q' & Hrun & _ & _ & _ & t' & Ht' & Hst & _)].
  - reflexivity.
  - exact MeetingExample.signalled_ok.
  - discriminate.
  - reflexivity.
  - eexists. split; [discriminate|]. split; [reflexivity|]. split; [reflexivity|apply MeetingExample.no_queue].
  - left. reflexivity.
  - split; [discriminate|]. split; reflexivity.
  - exists s'. split; [exact Hrun|]. exists t'. split; [exact Ht'|exact Hst].
Defined.
