(* ===== verification/Fpu.v ===== *)
(** * Lazy switching of the floating point unit (kernel/src/arch/riscv/fpu.rs,
    kernel/src/arch/aarch64/fpu.rs and fpu.S), single core

    The unit keeps the registers of one thread, its owner, while other threads
    run with the unit disabled.  A thread that uses the disabled unit traps; the
    kernel then saves the registers of the owner and loads those of the thread.
    What saving and loading have to promise is a class, which the register
    layouts of the two architectures implement; the protocol is proved to give
    every thread floating point registers of its own. *)

From S2P Require Import Prelude Monad Config Objects State IpcProps.

(** ** The unit and the state saved in a thread *)

Class FpuUnit := {
  hw : Type;                                (* the registers of the unit *)
  FPUState : Type;                          (* the structure in the TCB *)
  save_fpu_state : hw -> FPUState -> FPUState;
  load_fpu_state : FPUState -> hw -> hw }.

(** What the protocol needs of the two routines, on registers and saved states
    of the right shape. *)
Class FpuLaws `(FpuUnit) := {
  hw_ok : hw -> Prop;
  state_ok : FPUState -> Prop;
  save_ok h c : hw_ok h -> state_ok c -> state_ok (save_fpu_state h c);
  load_ok c h : state_ok c -> hw_ok h -> hw_ok (load_fpu_state c h);
  save_overwrites h c c' : hw_ok h -> state_ok c -> state_ok c' -> save_fpu_state h c = save_fpu_state h c';
  save_load c h : state_ok c -> hw_ok h -> save_fpu_state (load_fpu_state c h) c = c }.

(** ** The protocol *)

Section protocol.
Context `{Config} `{FpuUnit}.
(** [CONFIG_FPU_MAX_RESTORES_SINCE_SWITCH], generated by the build. *)
Context (max_restores : Z).

Record fpu_state := mk_fpu_state {
  unit_regs : hw;
  is_fpu_enabled_cached : bool;
  ksActiveFPUState : Z;
  ks_fpu_restore_since_switch : Z;
  fpu_states : gmap Z FPUState }.

#[export] Instance eta_fpu_state : Settable fpu_state :=
  fun r => mk_fpu_state (unit_regs r) (is_fpu_enabled_cached r) (ksActiveFPUState r)
             (ks_fpu_restore_since_switch r) (fpu_states r).

Definition F (A : Type) : Type := M fpu_state A.

(** The structure follows the registers at the start of the TCB. *)
Definition fpu_state_ptr (thread : Z) : Z := thread +w 8 * CONTEXT_REG_NUM.

Definition enable_fpu : F unit := modify (fun s => s <| is_fpu_enabled_cached := true |>).
Definition disable_fpu : F unit := modify (fun s => s <| is_fpu_enabled_cached := false |>).
Definition is_fpu_enable : F bool := gets is_fpu_enabled_cached.

(** The routines at an address. *)
Definition save_to (dest : Z) : F unit :=
  let* s := gets (fun s => s) in
  lift_part fpu_states (fun h s => s <| fpu_states := h |>) (hmod dest (save_fpu_state (unit_regs s))).
Definition load_from (src : Z) : F unit :=
  let* c := lift_part fpu_states (fun h s => s <| fpu_states := h |>) (hget src) in
  modify (fun s => s <| unit_regs := load_fpu_state c (unit_regs s) |>).

Definition switch_local_fpu_owner (new_owner : Z) : F unit :=
  enable_fpu ;;;
  let* active := gets ksActiveFPUState in
  when (negb (active =? 0)) (save_to active) ;;;
  (if negb (new_owner =? 0) then
     modify (fun s => s <| ks_fpu_restore_since_switch := 0 |>) ;;;
     load_from new_owner
   else disable_fpu) ;;;
  modify (fun s => s <| ksActiveFPUState := new_owner |>).

Definition handle_fpu_fault (current : Z) : F unit := switch_local_fpu_owner (fpu_state_ptr current).

Definition native_thread_using_fpu (thread : Z) : F bool :=
  let* active := gets ksActiveFPUState in ret (fpu_state_ptr thread =? active).

Definition fpu_thread_delete (thread : Z) : F unit :=
  let* b := native_thread_using_fpu thread in
  when b (switch_local_fpu_owner 0).

Definition lazy_fpu_restore (thread : Z) : F unit :=
  let* active := gets ksActiveFPUState in
  when (negb (active =? 0))
    (let* current_fpu_restore := gets ks_fpu_restore_since_switch in
     if max_restores <? current_fpu_restore then
       switch_local_fpu_owner 0 ;;;
       modify (fun s => s <| ks_fpu_restore_since_switch := 0 |>)
     else
       let* b := native_thread_using_fpu thread in
       (if (b : bool) then enable_fpu else disable_fpu) ;;;
       modify (fun s => s <| ks_fpu_restore_since_switch := current_fpu_restore +w 1 |>)).


(** ** Running threads

    [cur] runs in user mode.  It may compute on the unit while that is enabled;
    using it while disabled traps, and the kernel returns to the same thread.
    Any entry may return to another thread, and may delete one that does not
    run afterwards. *)

Context `{!FpuLaws _}.

Record fpu_system := mk_fpu_system { cur : Z; fpu : fpu_state }.

(** A TCB, with its alignment. *)
Definition fpu_thread (s : fpu_state) (t : Z) : Prop :=
  is_word t /\ t mod 16 = 0 /\ is_Some (fpu_states s !! fpu_state_ptr t).

Inductive fpu_step : fpu_system -> fpu_system -> Prop :=
| fpu_compute t s h : is_fpu_enabled_cached s = true -> hw_ok h ->
    fpu_step (mk_fpu_system t s) (mk_fpu_system t (s <| unit_regs := h |>))
| fpu_trap t s s' : is_fpu_enabled_cached s = false ->
    (handle_fpu_fault t ;;; lazy_fpu_restore t) s = Ok (tt, s') ->
    fpu_step (mk_fpu_system t s) (mk_fpu_system t s')
| fpu_switch t t' s s' : fpu_thread s t' -> lazy_fpu_restore t' s = Ok (tt, s') ->
    fpu_step (mk_fpu_system t s) (mk_fpu_system t' s')
| fpu_delete t d t' s s' : fpu_thread s d -> fpu_thread s t' -> d <> t' ->
    (fpu_thread_delete d ;;; lazy_fpu_restore t') s = Ok (tt, s') ->
    fpu_step (mk_fpu_system t s) (mk_fpu_system t' s').

(** ** The registers of a thread *)

(** Those of the owner are in the unit, those of the others in memory. *)
Definition contents (s : fpu_state) (p : Z) : option FPUState :=
  if p =? ksActiveFPUState s then save_fpu_state (unit_regs s) <$> fpu_states s !! p else fpu_states s !! p.

Record fpu_ok (s : fpu_state) : Prop := {
  ok_unit : hw_ok (unit_regs s);
  ok_states : forall p c, fpu_states s !! p = Some c -> p <> 0 /\ state_ok c;
  ok_owner : ksActiveFPUState s <> 0 -> is_Some (fpu_states s !! ksActiveFPUState s);
  ok_disabled : ksActiveFPUState s = 0 -> is_fpu_enabled_cached s = false }.

(** In user mode only the owner runs with the unit enabled. *)
Definition fpu_inv (x : fpu_system) : Prop :=
  fpu_ok (fpu x) /\ fpu_thread (fpu x) (cur x) /\
  (is_fpu_enabled_cached (fpu x) = true -> ksActiveFPUState (fpu x) = fpu_state_ptr (cur x)).

(** The threads keep their registers and their memory stays allocated. *)
Definition same_contents (s s' : fpu_state) : Prop :=
  (forall p, contents s' p = contents s p) /\
  forall p, is_Some (fpu_states s' !! p) <-> is_Some (fpu_states s !! p).

Lemma same_contents_trans s1 s2 s3 : same_contents s1 s2 -> same_contents s2 s3 -> same_contents s1 s3.
Proof. intros [A1 B1] [A2 B2]. split; [intros p; by rewrite A2, A1|intros p; by rewrite B2, B1]. Qed.

Lemma fpu_ptr_inj t t' : is_word t -> is_word t' -> fpu_state_ptr t = fpu_state_ptr t' -> t = t'.
Proof.
  unfold fpu_state_ptr, wadd, wrap, is_word. intros Ht Ht' E.
  rewrite <- (Z.mod_small t word_size), <- (Z.mod_small t' word_size) by done.
  set (k := 8 * CONTEXT_REG_NUM) in *. apply (f_equal (fun z => (z - k) mod word_size)) in E.
  rewrite !Zminus_mod_idemp_l in E. by rewrite !Z.add_simpl_r in E.
Qed.

(** [save_to] writes the registers of the owner back. *)
Definition saved (s : fpu_state) : fpu_state :=
  if ksActiveFPUState s =? 0 then s
  else s <| fpu_states := alter (save_fpu_state (unit_regs s)) (ksActiveFPUState s) (fpu_states s) |>.

Lemma save_owner s : fpu_ok s ->
  when (negb (ksActiveFPUState s =? 0)) (save_to (ksActiveFPUState s)) s = Ok (tt, saved s) /\
  (forall p, fpu_states (saved s) !! p = contents s p) /\
  (forall p c, fpu_states (saved s) !! p = Some c -> p <> 0 /\ state_ok c).
Proof.
  intros [Hu Hst Hown Hdis]. unfold saved, contents. destruct (Z.eqb_spec (ksActiveFPUState s) 0) as [E|E]; cbn [negb when].
  - split; [done|]. split; [|done]. intros p. destruct (Z.eqb_spec p (ksActiveFPUState s)) as [->|]; [|done].
    rewrite E. destruct (fpu_states s !! 0) eqn:E0; [|done]. by apply Hst in E0 as [].
  - split; [|split].
    + unfold save_to. erewrite bind_ok by reflexivity. unfold lift_part. by rewrite hmod_alter by auto.
    + intros p. cbn. rewrite lookup_alter_case. destruct (Z.eqb_spec p (ksActiveFPUState s)); case_decide; congruence || done.
    + intros p c. cbn. rewrite lookup_alter_case. case_decide; [|apply Hst]. subst. intros (c0 & E0 & ->)%fmap_Some.
      apply Hst in E0 as [? ?]. auto using save_ok.
Qed.

Lemma switch_spec s new : fpu_ok s -> new = 0 \/ is_Some (fpu_states s !! new) ->
  exists s', switch_local_fpu_owner new s = Ok (tt, s') /\ fpu_ok s' /\ same_contents s s' /\
    ksActiveFPUState s' = new /\ is_fpu_enabled_cached s' = negb (new =? 0) /\
    (new <> 0 -> ks_fpu_restore_since_switch s' = 0).
Proof.
  intros Hok Hnew. set (s1 := s <| is_fpu_enabled_cached := true |>).
  assert (Hok1 : ksActiveFPUState s = 0 -> fpu_ok (s1 <| is_fpu_enabled_cached := false |>)) by (intros; by destruct Hok; split).
  assert (Hsave : when (negb (ksActiveFPUState s =? 0)) (save_to (ksActiveFPUState s)) s1 =
    Ok (tt, (saved s) <| is_fpu_enabled_cached := true |>)).
  { destruct (save_owner s Hok) as (Hrun & _). unfold saved in *. destruct (ksActiveFPUState s =? 0) eqn:E; cbn [negb when] in *; [done|].
    unfold save_to in *. erewrite bind_ok by reflexivity. erewrite bind_ok in Hrun by reflexivity.
    unfold lift_part in *. cbn. destruct (hmod _ _ (fpu_states s)) as [[[] h]|]; [|done]. by injection Hrun as <-. }
  destruct (save_owner s Hok) as (_ & Hcont & Hst). destruct Hok as [Hu _ Hown Hdis].
  assert (Hu' : unit_regs (saved s) = unit_regs s) by (unfold saved; by case_match).
  assert (Hdom : forall p, is_Some (fpu_states (saved s) !! p) <-> is_Some (fpu_states s !! p)).
  { intros p. rewrite Hcont. unfold contents. case_match; [|done]. by rewrite fmap_is_Some. }
  unfold switch_local_fpu_owner. erewrite bind_ok by reflexivity. erewrite bind_ok by reflexivity.
  rewrite (bind_ok _ _ _ _ _ Hsave). destruct (Z.eqb_spec new 0) as [->|Hn0]; cbn [negb].
  - eexists. split; [reflexivity|]. split; [|split; [split|]]; cbn; try done.
    + split; cbn; [by rewrite Hu'|done|done|done].
    + intros p. unfold contents at 1. cbn. destruct (Z.eqb_spec p 0) as [->|]; [|apply Hcont].
      rewrite <- Hcont. destruct (fpu_states (saved s) !! 0) eqn:E; [|done]. by apply Hst in E as [].
  - destruct Hnew as [|Hnew]; [done|]. apply Hdom in Hnew as [c Hc]. destruct (Hst _ _ Hc) as [_ Hcok].
    eexists. split.
    { rewrite bind_assoc. erewrite bind_ok by reflexivity. erewrite bind_ok; [reflexivity|]. unfold load_from.
      erewrite bind_ok by (apply lift_hget_ok; [by destruct (saved s)|done|exact Hc]). reflexivity. }
    split; [|split; [split|]]; cbn; try done.
    + split; cbn; [rewrite Hu'; by apply load_ok|done|eauto|done].
    + intros p. unfold contents at 1. cbn. destruct (Z.eqb_spec p new) as [->|]; [|apply Hcont].
      rewrite <- Hcont, Hc. cbn. rewrite Hu'. f_equal. by apply save_load.
Qed.

Lemma fpu_thread_same s s' t : same_contents s s' -> fpu_thread s t -> fpu_thread s' t.
Proof. intros [_ Hd] (H1 & H2 & H3). split; [done|]. split; [done|]. by apply Hd. Qed.

(** Returning to a thread: it has the unit enabled only as the owner. *)
Lemma lazy_spec s t : fpu_ok s -> fpu_thread s t ->
  exists s', lazy_fpu_restore t s = Ok (tt, s') /\ same_contents s s' /\ fpu_inv (mk_fpu_system t s') /\
    (ksActiveFPUState s = fpu_state_ptr t -> ks_fpu_restore_since_switch s <= max_restores ->
     ksActiveFPUState s' = fpu_state_ptr t /\ is_fpu_enabled_cached s' = true).
Proof.
  intros Hok Ht. pose proof Hok as [Hu Hst Hown Hdis]. unfold lazy_fpu_restore. erewrite bind_ok by reflexivity.
  destruct (Z.eqb_spec (ksActiveFPUState s) 0) as [E|E]; cbn [negb when].
  - exists s. split; [done|]. split; [done|]. split.
    + split; [done|]. split; [done|]. cbn. rewrite Hdis by done. done.
    + rewrite E. intros Ep. destruct Ht as (_ & _ & [c Hc]). apply Hst in Hc as [Hc _]. by rewrite <- Ep in Hc.
  - erewrite bind_ok by reflexivity. destruct (Z.ltb_spec max_restores (ks_fpu_restore_since_switch s)) as [Hlt|Hge].
    + destruct (switch_spec s 0 Hok) as (s1 & Hrun & Hok1 & Hsame & Ha & He & _); [by left|].
      rewrite (bind_ok _ _ _ _ _ Hrun). eexists. split; [reflexivity|]. split; [exact Hsame|]. split; [|lia].
      split; [by destruct Hok1|]. split; [exact (fpu_thread_same _ _ _ Hsame Ht)|]. cbn. by rewrite He.
    + unfold native_thread_using_fpu. rewrite bind_assoc. erewrite bind_ok by reflexivity. erewrite bind_ok by reflexivity.
      destruct (Z.eqb_spec (fpu_state_ptr t) (ksActiveFPUState s)) as [Ep|Ep];
        (eexists; split; [reflexivity|]; split; [done|]; split; [split; [by split|]; by split|]); cbn; [done|congruence].
Qed.

Lemma fpu_thread_ptr s t : fpu_ok s -> fpu_thread s t -> fpu_state_ptr t <> 0.
Proof. intros Hok (_ & _ & [c Hc]). by apply (ok_states _ Hok) in Hc as []. Qed.

(** The trap leaves the thread with the unit and its own registers in it. *)
Lemma trap_spec s t : 0 <= max_restores -> fpu_ok s -> fpu_thread s t ->
  exists s', (handle_fpu_fault t ;;; lazy_fpu_restore t) s = Ok (tt, s') /\ same_contents s s' /\
    fpu_inv (mk_fpu_system t s') /\ ksActiveFPUState s' = fpu_state_ptr t /\ is_fpu_enabled_cached s' = true.
Proof.
  intros Hmax Hok Ht. destruct (switch_spec s (fpu_state_ptr t) Hok) as (s1 & Hrun & Hok1 & Hsame & Ha & He & Hr); [right; apply Ht|].
  destruct (lazy_spec s1 t Hok1 (fpu_thread_same _ _ _ Hsame Ht)) as (s2 & Hrun2 & Hsame2 & Hinv & Hown).
  exists s2. unfold handle_fpu_fault. rewrite (bind_ok _ _ _ _ _ Hrun). split; [done|].
  split; [by eapply same_contents_trans|]. split; [done|]. apply Hown; [done|].
  rewrite Hr; [done|]. by apply (fpu_thread_ptr s).
Qed.

Lemma delete_spec s d : fpu_ok s -> exists s', fpu_thread_delete d s = Ok (tt, s') /\ fpu_ok s' /\ same_contents s s'.
Proof.
  intros Hok. unfold fpu_thread_delete, native_thread_using_fpu. rewrite bind_assoc. do 2 (erewrite bind_ok by reflexivity).
  destruct (_ =? _); cbn [when]; [|by exists s].
  destruct (switch_spec s 0 Hok) as (s1 & Hrun & Hok1 & Hsame & _); [by left|]. by exists s1.
Qed.

(** One step: the invariant, and whose registers change. *)
Lemma step_spec x y : 0 <= max_restores -> fpu_inv x -> fpu_step x y ->
  fpu_inv y /\ (forall p, is_Some (fpu_states (fpu y) !! p) <-> is_Some (fpu_states (fpu x) !! p)) /\
  (forall p, p <> fpu_state_ptr (cur x) -> contents (fpu y) p = contents (fpu x) p) /\
  (contents (fpu y) (fpu_state_ptr (cur x)) = contents (fpu x) (fpu_state_ptr (cur x)) \/
   is_fpu_enabled_cached (fpu x) = true /\ cur y = cur x).
Proof.
  intros Hmax (Hok & Ht & Hen) Hstep. destruct Hstep as [t s h He Hh|t s s' He Hrun|t t' s s' Ht' Hrun|t d t' s s' Hd Ht' Hne Hrun]; cbn [cur fpu] in *.
  - split; [|split; [done|split; [|by right]]].
    + split; [|by split]. destruct Hok. by split.
    + intros p Hp. unfold contents. cbn. rewrite (Hen He). by destruct (Z.eqb_spec p (fpu_state_ptr t)).
  - destruct (trap_spec s t Hmax Hok Ht) as (s1 & Hrun1 & [Hc Hd] & Hinv & _). rewrite Hrun in Hrun1. injection Hrun1 as <-.
    split; [done|]. split; [done|]. split; [by intros|by left].
  - destruct (lazy_spec s t' Hok Ht') as (s1 & Hrun1 & [Hc Hd] & Hinv & _). rewrite Hrun in Hrun1. injection Hrun1 as <-.
    split; [done|]. split; [done|]. split; [by intros|by left].
  - destruct (delete_spec s d Hok) as (s1 & Hrun1 & Hok1 & Hsame). rewrite (bind_ok _ _ _ _ _ Hrun1) in Hrun.
    destruct (lazy_spec s1 t' Hok1 (fpu_thread_same _ _ _ Hsame Ht')) as (s2 & Hrun2 & Hsame2 & Hinv & _).
    rewrite Hrun in Hrun2. injection Hrun2 as <-. destruct (same_contents_trans _ _ _ Hsame Hsame2) as [Hc Hdm].
    split; [done|]. split; [done|]. split; [by intros|by left].
Qed.

Lemma steps_inv x y : 0 <= max_restores -> fpu_inv x -> rtc fpu_step x y -> fpu_inv y.
Proof. intros Hmax Hx Hxy. induction Hxy as [|a b c Hab _ IH]; [done|]. apply IH. by apply (step_spec a b). Qed.
End protocol.

(** ** Register layouts *)

Lemma fold_writes {A} (g : nat -> A) n : forall m, (n <= length m)%nat ->
  fold_left (fun m k => <[k := g k]> m) (seq 0 n) m = (g <$> seq 0 n) ++ drop n m.
Proof.
  induction n as [|n IH]; intros m Hn; [done|]. rewrite seq_S, fold_left_app, IH by lia. cbn.
  rewrite insert_app_r_alt by (rewrite length_fmap, length_seq; lia). rewrite length_fmap, length_seq, Nat.sub_diag.
  rewrite fmap_app, <- app_assoc. f_equal. destruct (drop n m) as [|x l] eqn:E.
  - apply (f_equal length) in E. rewrite length_drop in E. cbn in E. lia.
  - cbn. f_equal. change (S n) with (1 + n)%nat. rewrite Nat.add_comm, <- drop_drop, E. done.
Qed.

Lemma map_lookup_total (l : list Z) n : length l = n -> (fun k => l !!! k) <$> seq 0 n = l.
Proof.
  intros <-. apply list_eq. intros i. rewrite list_lookup_fmap. destruct (decide (i < length l)%nat) as [Hi|Hi].
  - rewrite lookup_seq_lt by done. cbn. symmetry. by apply list_lookup_lookup_total_lt.
  - rewrite lookup_seq_ge by lia. cbn. symmetry. apply lookup_ge_None_2. lia.
Qed.

(** RISC-V with the D extension: [f0] to [f31] and [fcsr]. *)
Module RiscvD.
Record fpu_regs := mk_fpu_regs { f : list Z; csr : Z }.
Record state := mk_state { regs : list Z; fcsr : Z }.

(** [fsd fk, k*8(dest)] and [fld fk, k*8(src)] for the 32 registers. *)
Definition save_fpu_state_d (h : fpu_regs) (c : state) : state :=
  mk_state (fold_left (fun m k => <[k := f h !!! k]> m) (seq 0 32) (regs c)) (csr h).
Definition load_fpu_state_d (c : state) (h : fpu_regs) : fpu_regs :=
  mk_fpu_regs (fold_left (fun m k => <[k := regs c !!! k]> m) (seq 0 32) (f h)) (fcsr c).

#[export] Instance unit_d : FpuUnit :=
  {| hw := fpu_regs; FPUState := state; Fpu.save_fpu_state := save_fpu_state_d; Fpu.load_fpu_state := load_fpu_state_d |}.

Lemma save_all h c : length (f h) = 32%nat -> length (regs c) = 32%nat -> save_fpu_state_d h c = mk_state (f h) (csr h).
Proof.
  intros Hf Hr. unfold save_fpu_state_d. rewrite fold_writes by lia. rewrite map_lookup_total by done.
  by rewrite drop_ge, app_nil_r by lia.
Qed.

Lemma load_all c h : length (f h) = 32%nat -> length (regs c) = 32%nat -> load_fpu_state_d c h = mk_fpu_regs (regs c) (fcsr c).
Proof.
  intros Hf Hr. unfold load_fpu_state_d. rewrite fold_writes by lia. rewrite map_lookup_total by done.
  by rewrite drop_ge, app_nil_r by lia.
Qed.

Lemma save_shape h c : length (f h) = 32%nat -> length (regs c) = 32%nat -> length (regs (save_fpu_state_d h c)) = 32%nat.
Proof. intros. by rewrite save_all. Qed.
Lemma load_shape c h : length (regs c) = 32%nat -> length (f h) = 32%nat -> length (f (load_fpu_state_d c h)) = 32%nat.
Proof. intros. by rewrite load_all. Qed.
Lemma save_any h c c' : length (f h) = 32%nat -> length (regs c) = 32%nat -> length (regs c') = 32%nat ->
  save_fpu_state_d h c = save_fpu_state_d h c'.
Proof. intros. by rewrite !save_all. Qed.
Lemma save_loaded c h : length (regs c) = 32%nat -> length (f h) = 32%nat -> save_fpu_state_d (load_fpu_state_d c h) c = c.
Proof. intros. rewrite load_all, save_all by done. by destruct c. Qed.

#[export] Instance laws_d : FpuLaws unit_d :=
  {| hw_ok h := length (f h) = 32%nat; state_ok c := length (regs c) = 32%nat;
     save_ok := save_shape; load_ok := load_shape; save_overwrites := save_any; save_load := save_loaded |}.
End RiscvD.

(** RISC-V with the F extension only.  [fsw] stores 32 bits of a register at
    four times its number; [fld] loads 64 bits from there, that is the word of
    the register and that of the next one, the last time [fcsr]. *)
Module RiscvF.
Record state := mk_state { fregs : list Z; fcsr : Z }.
Definition save_fpu_state_f (h : RiscvD.fpu_regs) (c : state) : state :=
  mk_state (fold_left (fun m k => <[k := RiscvD.f h !!! k mod 2 ^ 32]> m) (seq 0 32) (fregs c)) (RiscvD.csr h).
Definition load_fpu_state_f (c : state) (h : RiscvD.fpu_regs) : RiscvD.fpu_regs :=
  let words := fregs c ++ [fcsr c] in
  RiscvD.mk_fpu_regs
    (fold_left (fun m k => <[k := words !!! k + 2 ^ 32 * words !!! S k]> m) (seq 0 32) (RiscvD.f h)) (fcsr c).

(** Single precision values are kept with the upper half of the register set. *)
Definition boxed (w : Z) : Z := w + 2 ^ 32 * (2 ^ 32 - 1).
Definition example : RiscvD.fpu_regs := RiscvD.mk_fpu_regs (boxed <$> replicate 32 0x3f800000) 0.

(** The registers do not survive being saved and loaded. *)
Lemma load_mixes_registers :
  RiscvD.f (load_fpu_state_f (save_fpu_state_f example (mk_state (replicate 32 0) 0)) example) !! 0%nat = Some 0x3f8000003f800000 /\
  RiscvD.f example !! 0%nat = Some 0xffffffff3f800000.
Proof. by vm_compute. Qed.
End RiscvF.

(** AArch64: 32 registers of 128 bits in pairs, then [fpsr] and [fpcr]. *)
Module Arm.
Record fpu_regs := mk_fpu_regs { q : list Z; hw_fpsr : Z; hw_fpcr : Z }.
Record state := mk_state { vregs : list Z; fpsr : Z; fpcr : Z }.

(** The words of a 128-bit register. *)
Definition q_word (qs : list Z) (j : nat) : Z :=
  if Nat.even j then qs !!! Nat.div2 j mod 2 ^ 64 else qs !!! Nat.div2 j / 2 ^ 64.
Definition store_q (qs m : list Z) (k : nat) : list Z :=
  <[S (2 * k) := q_word qs (S (2 * k))]> (<[(2 * k)%nat := q_word qs (2 * k)]> m).

(** [stp q2i, q2i+1, [x0, #16 * 2i]]. *)
Definition save_fpu_state_arm (h : fpu_regs) (c : state) : state :=
  mk_state (fold_left (fun m i => store_q (q h) (store_q (q h) m (2 * i)) (S (2 * i))) (seq 0 16) (vregs c))
    (hw_fpsr h mod 2 ^ 32) (hw_fpcr h mod 2 ^ 32).

Definition load_q (m qs : list Z) (k : nat) : list Z :=
  <[k := m !!! (2 * k)%nat + 2 ^ 64 * m !!! S (2 * k)]> qs.
Definition load_fpu_state_arm (c : state) (h : fpu_regs) : fpu_regs :=
  mk_fpu_regs (fold_left (fun qs i => load_q (vregs c) (load_q (vregs c) qs (2 * i)) (S (2 * i))) (seq 0 16) (q h))
    (fpsr c) (fpcr c).

#[export] Instance unit_arm : FpuUnit :=
  {| hw := fpu_regs; FPUState := state; Fpu.save_fpu_state := save_fpu_state_arm; Fpu.load_fpu_state := load_fpu_state_arm |}.

(** Two steps at a time are the single steps. *)
Lemma fold_pairs {A} (g : A -> nat -> A) n : forall a,
  fold_left (fun a i => g (g a (2 * i)%nat) (S (2 * i))) (seq 0 n) a = fold_left g (seq 0 (2 * n)) a.
Proof.
  induction n as [|n IH]; intros a; [done|]. rewrite seq_S, fold_left_app, IH.
  replace (2 * S n)%nat with (S (S (2 * n))) by lia. rewrite !seq_S, !fold_left_app. done.
Qed.

Lemma store_all qs m : length m = 64%nat ->
  fold_left (fun m i => store_q qs (store_q qs m (2 * i)) (S (2 * i))) (seq 0 16) m = q_word qs <$> seq 0 64.
Proof.
  intros Hm. rewrite (fold_pairs (store_q qs)). change (2 * 16)%nat with 32%nat.
  unfold store_q. rewrite (fold_pairs (fun (m : list Z) j => <[j := q_word qs j]> m)). rewrite fold_writes by lia.
  by rewrite drop_ge, app_nil_r by lia.
Qed.

Lemma arm_load_all m qs : length qs = 32%nat ->
  fold_left (fun qs i => load_q m (load_q m qs (2 * i)) (S (2 * i))) (seq 0 16) qs =
  (fun k => m !!! (2 * k)%nat + 2 ^ 64 * m !!! S (2 * k)) <$> seq 0 32.
Proof.
  intros Hq. rewrite (fold_pairs (load_q m)). change (2 * 16)%nat with 32%nat. unfold load_q.
  rewrite (fold_writes (fun k => m !!! (2 * k)%nat + 2 ^ 64 * m !!! S (2 * k))) by lia.
  by rewrite drop_ge, app_nil_r by lia.
Qed.

(** Splitting what was joined. *)
Lemma q_word_join m j : length m = 64%nat -> Forall is_word m -> (j < 64)%nat ->
  q_word ((fun k => m !!! (2 * k)%nat + 2 ^ 64 * m !!! S (2 * k)) <$> seq 0 32) j = m !!! j.
Proof.
  intros Hm Hw Hj. assert (Hlt : (Nat.div2 j < 32)%nat) by (rewrite Nat.div2_div; apply Nat.Div0.div_lt_upper_bound; lia).
  assert (Hword : forall i, (i < 64)%nat -> is_word (m !!! i)).
  { intros i Hi. rewrite Forall_forall in Hw. apply Hw. apply list_elem_of_lookup. exists i. apply list_lookup_lookup_total_lt. lia. }
  unfold q_word. erewrite (list_lookup_total_correct _ (Nat.div2 j)) by by rewrite list_lookup_fmap, lookup_seq_lt.
  assert (H0 := Hword (2 * Nat.div2 j)%nat ltac:(lia)). assert (H1 := Hword (S (2 * Nat.div2 j)) ltac:(lia)).
  rewrite Nat.add_0_l. unfold is_word, word_size in *. rewrite (Z.mul_comm (2 ^ 64)). destruct (Nat.even j) eqn:Ev.
  - rewrite Z.mod_add, Z.mod_small by lia. f_equal. apply Nat.even_spec, Nat.Even_double in Ev.
    unfold Nat.double in Ev. lia.
  - rewrite Z.div_add, Z.div_small by lia. rewrite Z.add_0_l. f_equal.
    assert (Ho : Nat.Odd j) by (apply Nat.odd_spec; unfold Nat.odd; by rewrite Ev).
    apply Nat.Odd_double in Ho. unfold Nat.double in Ho. lia.
Qed.

Lemma q_words m : length m = 64%nat -> Forall is_word m ->
  q_word ((fun k => m !!! (2 * k)%nat + 2 ^ 64 * m !!! S (2 * k)) <$> seq 0 32) <$> seq 0 64 = m.
Proof.
  intros Hm Hw. etrans; [|by apply (map_lookup_total m 64)]. apply list_fmap_ext. intros i j Hij.
  apply lookup_seq in Hij as [-> Hi]. by apply q_word_join.
Qed.

Definition hw_shape (h : fpu_regs) : Prop :=
  length (q h) = 32%nat /\ Forall (fun v => 0 <= v < 2 ^ 128) (q h).
Definition state_shape (c : state) : Prop :=
  length (vregs c) = 64%nat /\ Forall is_word (vregs c) /\ 0 <= fpsr c < 2 ^ 32 /\ 0 <= fpcr c < 2 ^ 32.

Lemma q_word_range qs j : Forall (fun v => 0 <= v < 2 ^ 128) qs -> (j < 2 * length qs)%nat -> is_word (q_word qs j).
Proof.
  intros Hq Hj. assert (Hlt : (Nat.div2 j < length qs)%nat) by (rewrite Nat.div2_div; apply Nat.Div0.div_lt_upper_bound; lia).
  assert (Hv : 0 <= qs !!! Nat.div2 j < 2 ^ 128).
  { rewrite Forall_forall in Hq. eapply Hq, list_elem_of_lookup_2, list_lookup_lookup_total_lt. done. }
  unfold q_word, is_word, word_size. destruct (Nat.even j); [apply Z.mod_pos_bound; lia|].
  split; [apply Z.div_pos; lia|apply Z.div_lt_upper_bound; lia].
Qed.

Lemma arm_save_shape h c : hw_shape h -> state_shape c -> state_shape (save_fpu_state_arm h c).
Proof.
  intros [Hl Hq] [Hm _]. unfold save_fpu_state_arm, state_shape. cbn [vregs fpsr fpcr]. rewrite store_all by done.
  rewrite length_fmap, length_seq. split; [done|]. split; [|split; apply Z.mod_pos_bound; lia].
  apply Forall_fmap, Forall_forall. intros j Hj. apply elem_of_seq in Hj. apply q_word_range; [done|]. lia.
Qed.

Lemma arm_load_shape c h : state_shape c -> hw_shape h -> hw_shape (load_fpu_state_arm c h).
Proof.
  intros (Hm & Hw & _) [Hl _]. unfold load_fpu_state_arm, hw_shape. cbn [q]. rewrite arm_load_all by done.
  rewrite length_fmap, length_seq. split; [done|]. apply Forall_fmap, Forall_forall. intros j Hj. apply elem_of_seq in Hj.
  rewrite Forall_forall in Hw. cbn [compose].
  assert (H0 : is_word (vregs c !!! (2 * j)%nat)) by (eapply Hw, list_elem_of_lookup_2, list_lookup_lookup_total_lt; lia).
  assert (H1 : is_word (vregs c !!! S (2 * j))) by (eapply Hw, list_elem_of_lookup_2, list_lookup_lookup_total_lt; lia).
  unfold is_word, word_size in *. lia.
Qed.

Lemma arm_save_any h c c' : hw_shape h -> state_shape c -> state_shape c' -> save_fpu_state_arm h c = save_fpu_state_arm h c'.
Proof. intros _ [Hm _] [Hm' _]. unfold save_fpu_state_arm. by rewrite !store_all. Qed.

Lemma arm_save_loaded c h : state_shape c -> hw_shape h -> save_fpu_state_arm (load_fpu_state_arm c h) c = c.
Proof.
  intros (Hm & Hw & Hs & Hc) [Hl _]. unfold save_fpu_state_arm, load_fpu_state_arm. cbn [q hw_fpsr hw_fpcr].
  rewrite arm_load_all, store_all, q_words by done. rewrite !Z.mod_small by done. by destruct c.
Qed.

#[export] Instance laws_arm : FpuLaws unit_arm :=
  {| hw_ok := hw_shape; state_ok := state_shape;
     save_ok := arm_save_shape; load_ok := arm_load_shape; save_overwrites := arm_save_any; save_load := arm_save_loaded |}.
End Arm.

(** ** The status register of a RISC-V thread

    On RISC-V the unit is disabled for a thread by the FS field of its saved
    [sstatus], written on the way back to user mode. *)

Definition SSTATUS_FS : Z := 0x6000.
Definition SSTATUS_FS_CLEAN : Z := 0x4000.

Definition set_tcb_fs_state (sstatus : Z) (enabled : bool) : Z :=
  let sstatus := Z.land sstatus (wnot SSTATUS_FS) in
  if enabled then Z.lor sstatus SSTATUS_FS_CLEAN else sstatus.

Lemma fs_state_spec sstatus enabled : is_word sstatus ->
  Z.land (set_tcb_fs_state sstatus enabled) SSTATUS_FS = (if enabled then SSTATUS_FS_CLEAN else 0) /\
  Z.land (set_tcb_fs_state sstatus enabled) (wnot SSTATUS_FS) = Z.land sstatus (wnot SSTATUS_FS).
Proof.
  intros Hs. unfold set_tcb_fs_state.
  assert (E : Z.land (wnot SSTATUS_FS) SSTATUS_FS = 0 /\ Z.land SSTATUS_FS_CLEAN (wnot SSTATUS_FS) = 0 /\
    Z.land (wnot SSTATUS_FS) (wnot SSTATUS_FS) = wnot SSTATUS_FS /\ Z.land SSTATUS_FS_CLEAN SSTATUS_FS = SSTATUS_FS_CLEAN) by done.
  destruct E as (E1 & E2 & E3 & E4). destruct enabled; rewrite ?Z.land_lor_distr_l, <- !Z.land_assoc, ?E1, ?E2, ?E3, ?E4;
    by rewrite Z.land_0_r, ?Z.lor_0_r.
Qed.

(** [restore_user_context] up to the return: the unit, then the status. *)
Definition fpu_exit `{Config, FpuUnit} (max_restores thread sstatus : Z) : F Z :=
  lazy_fpu_restore max_restores thread ;;;
  let* enabled := is_fpu_enable in
  ret (set_tcb_fs_state sstatus enabled).

(** ** Every thread has floating point registers of its own *)

(** C8. Lazy switching is invisible.  In every state reachable from one in
    which only the owner runs with the unit enabled, no step of the running
    thread or of the kernel changes the floating point registers of another
    thread; those of the running thread change only when it computes on the
    enabled unit.  A thread that uses the disabled unit is given it, holding
    its own registers, and on RISC-V every return to user mode enables the unit
    in [sstatus] exactly for the owner. *)
Theorem fpu_private_registers `{Config} `{FpuUnit} `{!FpuLaws _} max_restores x0 x y sstatus :
  0 <= max_restores -> fpu_inv x0 -> rtc (fpu_step max_restores) x0 x -> fpu_step max_restores x y -> is_word sstatus ->
  (forall p, p <> fpu_state_ptr (cur x) -> contents (fpu y) p = contents (fpu x) p) /\
  (contents (fpu y) (fpu_state_ptr (cur x)) = contents (fpu x) (fpu_state_ptr (cur x)) \/
   is_fpu_enabled_cached (fpu x) = true /\ cur y = cur x) /\
  (exists s, (handle_fpu_fault (cur x) ;;; lazy_fpu_restore max_restores (cur x)) (fpu x) = Ok (tt, s) /\
     is_fpu_enabled_cached s = true /\ ksActiveFPUState s = fpu_state_ptr (cur x) /\
     contents s (fpu_state_ptr (cur x)) = contents (fpu x) (fpu_state_ptr (cur x))) /\
  exists s w, fpu_exit max_restores (cur x) sstatus (fpu x) = Ok (w, s) /\
    (Z.land w SSTATUS_FS <> 0 -> ksActiveFPUState s = fpu_state_ptr (cur x)).
Proof.
  intros Hmax Hinv Hreach Hstep Hw. pose proof (steps_inv _ _ _ Hmax Hinv Hreach) as Hx.
  destruct (step_spec _ _ _ Hmax Hx Hstep) as (_ & _ & Hother & Hcur). split; [done|]. split; [done|].
  pose proof Hx as (Hok & Ht & _). split.
  - destruct (trap_spec _ _ _ Hmax Hok Ht) as (s & Hrun & [Hsame _] & _ & Ha & He). exists s. by rewrite Hsame.
  - destruct (lazy_spec max_restores _ _ Hok Ht) as (s & Hrun & _ & (_ & _ & Hown) & _).
    exists s, (set_tcb_fs_state sstatus (is_fpu_enabled_cached s)). unfold fpu_exit. rewrite (bind_ok _ _ _ _ _ Hrun).
    split; [done|]. destruct (fs_state_spec sstatus (is_fpu_enabled_cached s) Hw) as [-> _].
    cbn in Hown. destruct (is_fpu_enabled_cached s); [auto|done].
Qed.

Module FpuExample.
#[local] Existing Instance riscv_config.
#[local] Existing Instance RiscvD.unit_d.
#[local] Existing Instance RiscvD.laws_d.
(** Thread 0x1200 owns the unit, thread 0x2200 uses it. *)
Definition memory : gmap Z RiscvD.state :=
  <[fpu_state_ptr 0x1200 := RiscvD.mk_state (replicate 32 1) 0]> (<[fpu_state_ptr 0x2200 := RiscvD.mk_state (replicate 32 2) 0]> ∅).
Definition before : fpu_state := mk_fpu_state (RiscvD.mk_fpu_regs (replicate 32 7) 0) false (fpu_state_ptr 0x1200) 3 memory.
Definition after : fpu_state :=
  match (handle_fpu_fault 0x2200 ;;; lazy_fpu_restore 64 0x2200) before with Ok (_, s) => s | Err _ => before end.

Lemma before_ok : fpu_inv (mk_fpu_system 0x2200 before).
Proof.
  split; [|split; [|done]].
  - split; [done| |by eexists|done]. intros p c. change (memory !! p = Some c -> p <> 0 /\ length (RiscvD.regs c) = 32%nat). unfold memory.
    rewrite !lookup_insert_Some, lookup_empty.
    intros [[<- <-]|[_ [[<- <-]|[_ ?]]]]; done.
  - split; [done|]. split; [done|]. by eexists.
Qed.
Lemma trap_runs : (handle_fpu_fault 0x2200 ;;; lazy_fpu_restore 64 0x2200) before = Ok (tt, after).
Proof. by vm_compute. Qed.
End FpuExample.

Lemma fpu_private_registers_witness :
  contents FpuExample.after (@fpu_state_ptr riscv_config 0x1200) = Some (RiscvD.mk_state (replicate 32 7) 0).
Proof.
  destruct (@fpu_private_registers riscv_config RiscvD.unit_d RiscvD.laws_d 64 (mk_fpu_system 0x2200 FpuExample.before)
    (mk_fpu_system 0x2200 FpuExample.before) (mk_fpu_system 0x2200 FpuExample.after) 0) as (Hother & _).
  - discriminate.
  - exact FpuExample.before_ok.
  - apply rtc_refl.
  - apply fpu_trap; [reflexivity|exact FpuExample.trap_runs].
  - split; reflexivity || discriminate.
  - cbn [fpu cur] in Hother. rewrite Hother by (vm_compute; discriminate). vm_compute. reflexivity.
Defined.
