(* ===== verification/Trap.v ===== *)
(** * The machine of the trap code

    The assembly that saves the registers of user code into the TCB of the
    current thread and restores them is a list of instructions of a small
    machine, with the registers, the system registers and the memory it uses.
    TrapRiscv.v and TrapArm.v hold the code of the two architectures. *)

From S2P Require Import Prelude.

(** ** The machine *)

Inductive sysreg : Type :=
| sscratch | sstatus | scause | sepc                                (* RISC-V *)
| sp_el0 | elr | spsr | esr | tpidr | tpidr_el0 | tpidrro_el0.      (* AArch64 *)
#[export] Instance sysreg_eq_dec : EqDecision sysreg.
Proof. solve_decision. Defined.

(** Registers by number; memory as words by address. *)
Record cpu := mk_cpu { x : Z -> Z; sys : sysreg -> Z; mem : Z -> Z }.
#[export] Instance eta_cpu : Settable cpu := fun m => mk_cpu (x m) (sys m) (mem m).

Definition upd {B} (a : Z) (v : B) (f : Z -> B) : Z -> B := fun b => if a =? b then v else f b.
Definition upd_sys (c : sysreg) (v : Z) (f : sysreg -> Z) : sysreg -> Z :=
  fun d => if bool_decide (c = d) then v else f d.

(** Offsets of loads and stores are in words. *)
Inductive instr : Type :=
| ST (rs off base : Z)
| LD (rd off base : Z)
| RDS (rd : Z) (c : sysreg)
| WRS (c : sysreg) (rs : Z)
| SWAP (rd : Z) (c : sysreg)
| ADDI (rd rs imm : Z)
| LSR (rd rs n : Z)
| LI (rd v : Z).

Definition MV (rd rs : Z) : instr := ADDI rd rs 0.

Definition exec (i : instr) (m : cpu) : cpu :=
  match i with
  | ST rs off base => m <| mem := upd (x m base +w 8 * off) (x m rs) (mem m) |>
  | LD rd off base => m <| x := upd rd (mem m (x m base +w 8 * off)) (x m) |>
  | RDS rd c => m <| x := upd rd (sys m c) (x m) |>
  | WRS c rs => m <| sys := upd_sys c (x m rs) (sys m) |>
  | SWAP rd c => m <| x := upd rd (sys m c) (x m) |> <| sys := upd_sys c (x m rd) (sys m) |>
  | ADDI rd rs imm => m <| x := upd rd (x m rs +w imm) (x m) |>
  | LSR rd rs n => m <| x := upd rd (x m rs >>w n) (x m) |>
  | LI rd v => m <| x := upd rd v (x m) |>
  end.
Definition run (l : list instr) (m : cpu) : cpu := fold_left (fun m i => exec i m) l m.

(** ** The context

    All loads and stores go to the [CONTEXT_REG_NUM] words at the start of a
    TCB.  [view] is the machine with that block as a table, on which the
    assembly can be run symbolically. *)

Definition word_at (ctx k : Z) : Z := ctx +w 8 * k.

Record view := mk_view { vx : Z -> Z; vs : sysreg -> Z; vc : Z -> Z }.

Definition vexec (i : instr) (v : view) : view :=
  match i with
  | ST rs off _ => mk_view (vx v) (vs v) (upd off (vx v rs) (vc v))
  | LD rd off _ => mk_view (upd rd (vc v off) (vx v)) (vs v) (vc v)
  | RDS rd c => mk_view (upd rd (vs v c) (vx v)) (vs v) (vc v)
  | WRS c rs => mk_view (vx v) (upd_sys c (vx v rs) (vs v)) (vc v)
  | SWAP rd c => mk_view (upd rd (vs v c) (vx v)) (upd_sys c (vx v rd) (vs v)) (vc v)
  | ADDI rd rs imm => mk_view (upd rd (vx v rs +w imm) (vx v)) (vs v) (vc v)
  | LSR rd rs n => mk_view (upd rd (vx v rs >>w n) (vx v)) (vs v) (vc v)
  | LI rd w => mk_view (upd rd w (vx v)) (vs v) (vc v)
  end.
Definition vrun (l : list instr) (v : view) : view := fold_left (fun v i => vexec i v) l v.

Section context.
Context (size : Z).

(** Every access is to the context of [size] words at [ctx]. *)
Definition in_context (ctx : Z) (i : instr) (v : view) : Prop :=
  match i with
  | ST _ off base | LD _ off base => vx v base = ctx /\ 0 <= off < size
  | _ => True
  end.
Fixpoint all_in_context (ctx : Z) (l : list instr) (v : view) : Prop :=
  match l with
  | [] => True
  | i :: l => in_context ctx i v /\ all_in_context ctx l (vexec i v)
  end.

(** [m] looks like [v], and outside the context its memory is that of [m0]. *)
Record sim (ctx : Z) (m0 m : cpu) (v : view) : Prop := {
  sim_x : forall r, x m r = vx v r;
  sim_s : forall c, sys m c = vs v c;
  sim_c : forall k, 0 <= k < size -> mem m (word_at ctx k) = vc v k;
  sim_mem : forall a, (forall k, 0 <= k < size -> a <> word_at ctx k) -> mem m a = mem m0 a }.

Definition view_of (ctx : Z) (m : cpu) : view := mk_view (x m) (sys m) (fun k => mem m (word_at ctx k)).

Lemma sim_start ctx m : sim ctx m m (view_of ctx m).
Proof. by split. Qed.

Context (Hsize : size <= 64).
Lemma word_at_inj ctx j k : 0 <= j < size -> 0 <= k < size -> word_at ctx j = word_at ctx k -> j = k.
Proof.
  unfold word_at, wadd, wrap. intros Hj Hk E. apply (f_equal (fun z => (z - ctx) mod word_size)) in E.
  rewrite !Zminus_mod_idemp_l in E. replace (ctx + 8 * j - ctx) with (8 * j) in E by lia.
  replace (ctx + 8 * k - ctx) with (8 * k) in E by lia. unfold word_size in E. rewrite !Z.mod_small in E by lia. lia.
Qed.

Lemma upd_ext {B} a (v v' : B) f g : v = v' -> (forall b, f b = g b) -> forall b, upd a v f b = upd a v' g b.
Proof. intros -> E b. unfold upd. by rewrite E. Qed.

Lemma upd_sys_ext c v v' f g : v = v' -> (forall d, f d = g d) -> forall d, upd_sys c v f d = upd_sys c v' g d.
Proof. intros -> E d. unfold upd_sys. by rewrite E. Qed.

Lemma sim_exec ctx m0 m v i : sim ctx m0 m v -> in_context ctx i v -> sim ctx m0 (exec i m) (vexec i v).
Proof.
  intros [Hx Hs Hc Hm] Hi. destruct i as [rs off base|rd off base|rd c|c rs|rd c|rd rs imm|rd rs n|rd w]; cbn in Hi; split; cbn; try done;
    try (apply upd_ext; [|done]); try (apply upd_sys_ext; [|done]); auto.
  - intros k Hk. destruct Hi as [Hb Ho]. rewrite Hx, Hb. unfold upd. fold (word_at ctx off).
    destruct (Z.eqb_spec (word_at ctx off) (word_at ctx k)) as [E|E].
    + apply word_at_inj in E as ->; [|done..]. by rewrite Z.eqb_refl.
    + destruct (Z.eqb_spec off k) as [->|]; [done|]. by apply Hc.
  - intros a Ha. destruct Hi as [Hb Ho]. rewrite Hx, Hb. unfold upd. fold (word_at ctx off).
    destruct (Z.eqb_spec (word_at ctx off) a) as [<-|]; [by apply Ha in Ho|]. by apply Hm.
  - destruct Hi as [Hb Ho]. rewrite Hx, Hb. by apply Hc.
  - by rewrite Hx.
  - by rewrite Hx.
Qed.

Lemma sim_run ctx m0 l : forall m v, sim ctx m0 m v -> all_in_context ctx l v -> sim ctx m0 (run l m) (vrun l v).
Proof. induction l as [|i l IH]; intros m v Hs Hl; [done|]. destruct Hl as [Hi Hl]. by apply IH, Hl; apply sim_exec. Qed.

(** A check of the instructions alone: [known] are registers that hold the
    address of the context. *)
Definition known_after (i : instr) (known : list Z) : list Z :=
  match i with
  | ST _ _ _ | WRS _ _ => known
  | LD rd _ _ | RDS rd _ | SWAP rd _ | LSR rd _ _ | LI rd _ => filter (fun r => r <> rd) known
  | ADDI rd rs imm => if (imm =? 0) && bool_decide (rs ∈ known) then rd :: known else filter (fun r => r <> rd) known
  end.
Definition access_ok (i : instr) (known : list Z) : bool :=
  match i with
  | ST _ off base | LD _ off base => bool_decide (base ∈ known) && (0 <=? off) && (off <? size)
  | _ => true
  end.
Fixpoint accesses_ok (l : list instr) (known : list Z) : bool :=
  match l with
  | [] => true
  | i :: l => access_ok i known && accesses_ok l (known_after i known)
  end.

Lemma known_after_spec ctx i v known : is_word ctx -> (forall r, r ∈ known -> vx v r = ctx) ->
  forall r, r ∈ known_after i known -> vx (vexec i v) r = ctx.
Proof.
  intros Hw Hk r Hr. assert (Hother : forall rd w, r ∈ filter (fun r => r <> rd) known -> upd rd w (vx v) r = ctx).
  { intros rd w [Hne Hin]%list_elem_of_filter. unfold upd. destruct (Z.eqb_spec rd r); [done|]. by apply Hk. }
  destruct i as [rs off base|rd off base|rd c|c rs|rd c|rd rs imm|rd rs n|rd w]; cbn in *; auto.
  destruct (Z.eqb_spec imm 0) as [->|]; cbn in Hr; [|by auto]. case_bool_decide as Hin; [|by auto].
  unfold upd. destruct (Z.eqb_spec rd r) as [->|]; [rewrite Hk by done; unfold wadd; rewrite Z.add_0_r; by apply wrap_small|].
  apply Hk. by apply elem_of_cons in Hr as [->|].
Qed.

Lemma accesses_ok_spec ctx l : is_word ctx -> forall v known, (forall r, r ∈ known -> vx v r = ctx) ->
  accesses_ok l known = true -> all_in_context ctx l v.
Proof.
  intros Hw. induction l as [|i l IH]; intros v known Hk Hok; [done|]. cbn in Hok. apply andb_prop in Hok as [Hi Hl].
  split; [|by eapply IH, Hl; apply known_after_spec].
  destruct i; try done; cbn in *; apply andb_prop in Hi as [[Hb%bool_decide_eq_true ?]%andb_prop ?]; split; auto; lia.
Qed.

(** Instructions whose first one puts the address into [base]. *)
Lemma all_in_context_from ctx i l v base : is_word ctx -> in_context ctx i v -> vx (vexec i v) base = ctx ->
  accesses_ok l [base] = true -> all_in_context ctx (i :: l) v.
Proof. intros Hw Hi Hb Hl. split; [done|]. eapply accesses_ok_spec; [done| |done]. by intros r ->%list_elem_of_singleton. Qed.
End context.

Lemma forall_below (P : Z -> Prop) (n : nat) : Forall P (seqZ 0 (Z.of_nat n)) -> forall k, 0 <= k < Z.of_nat n -> P k.
Proof. rewrite Forall_forall. intros HP k Hk. apply HP, elem_of_seqZ. lia. Qed.

Lemma run_app l1 l2 m : run (l1 ++ l2) m = run l2 (run l1 m).
Proof. apply fold_left_app. Qed.

(** Instructions without stores leave memory alone. *)
Lemma run_mem l : Forall (fun i => match i with ST _ _ _ => False | _ => True end) l -> forall n, mem (run l n) = mem n.
Proof.
  induction 1 as [|i l Hi _ IH]; intros n; [done|]. cbn [run fold_left]. change (mem (run l (exec i n)) = mem n).
  rewrite IH. by destruct i.
Qed.

Lemma wadd_0_r w : is_word w -> w +w 0 = w.
Proof. intros Hw. unfold wadd. rewrite Z.add_0_r. by apply wrap_small. Qed.

(** Compute with instructions, words and their operations left as they are. *)
Ltac computes :=
  unfold vrun, vexec, view_of, word_at; cbn [x sys mem];
  generalize wadd; generalize wshr; intros; vm_compute; reflexivity.

(** System call numbers the entry code tests for. *)
Definition SYSCALL_CALL : Z := wrap (-1).
Definition SYSCALL_REPLY_RECV : Z := wrap (-2).
