(* ===== verification/TrapRiscv.v ===== *)
(** * RISC-V trap entry and exit (kernel/src/arch/riscv/traps.S, c_traps.rs),
    single core

    [trap_entry], [restore_user_context] and [fastpath_restore].  Leaving and
    returning to a thread are shown to be inverse to each other, and the words
    saved to be those the kernel reads by its register indices. *)

From S2P Require Import Prelude Monad Config Objects State Tcb Trap.

(** Where the entry code jumps, with the argument registers. *)
Inductive trap_target : Type :=
| c_handle_interrupt
| c_handle_exception
| c_handle_syscall (cptr msgInfo syscall : Z)
| c_handle_fastpath_call (cptr msgInfo : Z)
| c_handle_fastpath_reply_recv (cptr msgInfo reply : Z).

Definition ra : Z := 1.
Definition sp : Z := 2.
Definition gp : Z := 3.
Definition tp : Z := 4.
Definition t0 : Z := 5.
Definition t1 : Z := 6.
Definition t2 : Z := 7.
Definition s (i : Z) : Z := if i <? 2 then 8 + i else 16 + i.
Definition a (i : Z) : Z := 10 + i.
Definition t3 : Z := 28.
Definition t4 : Z := 29.
Definition t5 : Z := 30.
Definition t6 : Z := 31.

Section code.
Context `{Config}.
(** The addresses of [__global_pointer$] and of the end of the kernel stack,
    and whether the fast path is built in. *)
Context (global_pointer kernel_stack_end : Z) (fastpath : bool).

(** [trap_entry] up to the first branch. *)
Definition save_context : list instr :=
  [SWAP t0 sscratch;
   ST ra 0 t0; ST sp 1 t0; ST gp 2 t0; ST tp 3 t0; ST t1 5 t0; ST t2 6 t0; ST (s 0) 7 t0; ST (s 1) 8 t0;
   ST (a 0) 9 t0; ST (a 1) 10 t0; ST (a 2) 11 t0; ST (a 3) 12 t0; ST (a 4) 13 t0; ST (a 5) 14 t0;
   ST (a 6) 15 t0; ST (a 7) 16 t0;
   ST (s 2) 17 t0; ST (s 3) 18 t0; ST (s 4) 19 t0; ST (s 5) 20 t0; ST (s 6) 21 t0; ST (s 7) 22 t0;
   ST (s 8) 23 t0; ST (s 9) 24 t0; ST (s 10) 25 t0; ST (s 11) 26 t0;
   ST t3 27 t0; ST t4 28 t0; ST t5 29 t0; ST t6 30 t0;
   RDS ra sscratch; ST ra 4 t0;
   RDS ra sstatus; ST ra 32 t0;
   RDS (s 0) scause; ST (s 0) 31 t0;
   LI gp global_pointer;
   LI sp kernel_stack_end;
   RDS ra sepc; ST ra 33 t0].

(** The rest of it: [bltz], [bne] and [beq] on the registers. *)
Definition save_next : list instr := [ST ra 34 t0].
Definition save_next_syscall : list instr := [ADDI ra ra 4; ST ra 34 t0].

Definition trap_entry (m : cpu) : cpu * trap_target :=
  let m := run save_context m in
  if 2 ^ 63 <=? x m (s 0) then (run save_next m, c_handle_interrupt)
  else
    let m := run [LI (s 4) 8] m in
    if negb (x m (s 0) =? x m (s 4)) then (run save_next m, c_handle_exception)
    else
      let m := run save_next_syscall m in
      let to_slow m :=
        let m := run [MV (a 2) (a 7)] m in (m, c_handle_syscall (x m (a 0)) (x m (a 1)) (x m (a 2))) in
      if fastpath then
        let m := run [LI t3 SYSCALL_CALL] m in
        if x m (a 7) =? x m t3 then (m, c_handle_fastpath_call (x m (a 0)) (x m (a 1)))
        else
          let m := run [LI t3 SYSCALL_REPLY_RECV] m in
          let m := if kernel_mcs then run [MV (a 2) (a 6)] m else m in
          if x m (a 7) =? x m t3
          then (m, c_handle_fastpath_reply_recv (x m (a 0)) (x m (a 1)) (x m (a 2)))
          else to_slow m
      else to_slow m.

(** The assembly of [restore_user_context]; [r] is the register the compiler
    put the address of the context in. *)
Definition restore_registers : list instr :=
  [LD ra 0 t0; LD sp 1 t0; LD gp 2 t0; LD t2 6 t0; LD (s 0) 7 t0; LD (s 1) 8 t0].
Definition restore_rest : list instr :=
  [LD (a 2) 11 t0; LD (a 3) 12 t0; LD (a 4) 13 t0; LD (a 5) 14 t0; LD (a 6) 15 t0; LD (a 7) 16 t0;
   LD (s 2) 17 t0; LD (s 3) 18 t0; LD (s 4) 19 t0; LD (s 5) 20 t0; LD (s 6) 21 t0; LD (s 7) 22 t0;
   LD (s 8) 23 t0; LD (s 9) 24 t0; LD (s 10) 25 t0; LD (s 11) 26 t0;
   LD t3 27 t0; LD t4 28 t0; LD t5 29 t0; LD t6 30 t0;
   LD t1 3 t0; MV tp t1;
   LD t1 34 t0; WRS sepc t1;
   WRS sscratch t0;
   LD t1 32 t0; WRS sstatus t1; LD t1 5 t0; LD t0 4 t0].
Definition restore_user_context (r : Z) : list instr :=
  [MV t0 r] ++ restore_registers ++ [LD (a 0) 9 t0; LD (a 1) 10 t0] ++ restore_rest.

(** That of [fastpath_restore], with its three operands. *)
Definition fastpath_restore (r_badge r_info r_ctx : Z) : list instr :=
  [MV (a 0) r_badge; MV (a 1) r_info; MV t0 r_ctx] ++ restore_registers ++ restore_rest.

(** ** The context holds the registers *)

Definition next_ip (m : cpu) : Z := if sys m scause =? 8 then sys m sepc +w 4 else sys m sepc.

(** The table that entry leaves: register [n] in word [n - 1]. *)
Definition user_context (m : cpu) (k : Z) : Z :=
  if k <? 31 then x m (k + 1)
  else if k =? 31 then sys m scause else if k =? 32 then sys m sstatus
  else if k =? 33 then sys m sepc else next_ip m.

(** Where a trap goes, in terms of the user's registers. *)
Definition target_of (m : cpu) : trap_target :=
  if 2 ^ 63 <=? sys m scause then c_handle_interrupt
  else if negb (sys m scause =? 8) then c_handle_exception
  else if fastpath && (x m (a 7) =? SYSCALL_CALL) then c_handle_fastpath_call (x m (a 0)) (x m (a 1))
  else if fastpath && (x m (a 7) =? SYSCALL_REPLY_RECV)
  then c_handle_fastpath_reply_recv (x m (a 0)) (x m (a 1)) (if kernel_mcs then x m (a 6) else x m (a 2))
  else c_handle_syscall (x m (a 0)) (x m (a 1)) (x m (a 7)).

Section entry.
Context (m : cpu) (ctx : Z) (Hctx : sys m sscratch = ctx) (Hcw : is_word ctx) (Hword : forall r, is_word (x m r)).

Ltac in_ctx := apply (all_in_context_from 35 ctx (SWAP t0 sscratch) _ _ t0); [exact Hcw|done|exact Hctx|vm_compute; reflexivity].

Lemma entry_sim l : all_in_context 35 ctx l (view_of ctx m) -> sim 35 ctx m (run l m) (vrun l (view_of ctx m)).
Proof. intros Hl. by apply (sim_run 35); [|apply sim_start|]. Qed.

(** What the entry code must have done when it jumps. *)
Definition entered (m1 : cpu) : Prop := exists v, sim 35 ctx m m1 v /\
  (forall k, 0 <= k < 35 -> vc v k = user_context m k).

Lemma entered_by l : all_in_context 35 ctx l (view_of ctx m) ->
  Forall (fun k => vc (vrun l (view_of ctx m)) k = user_context m k) (seqZ 0 34) ->
  vc (vrun l (view_of ctx m)) 34 = next_ip m -> entered (run l m).
Proof.
  intros Hl Hf Hn. exists (vrun l (view_of ctx m)). split; [by apply entry_sim|].
  intros k Hk. destruct (decide (k = 34)) as [->|]; [done|]. apply (forall_below _ 34 Hf). lia.
Qed.

(** Check the table entry by entry; the next instruction is that of [ip]. *)
Ltac saves ip :=
  apply entered_by; [in_ctx| |rewrite <- ip; computes];
  let t := eval vm_compute in (seqZ 0 34) in change (seqZ 0 34) with t;
  repeat (apply Forall_cons; split; [computes|]); apply Forall_nil_2.

Lemma x_after l r w : all_in_context 35 ctx l (view_of ctx m) -> vx (vrun l (view_of ctx m)) r = w -> x (run l m) r = w.
Proof. intros Hl <-. by apply (entry_sim l). Qed.

Lemma plus_zero r : x m r +w 0 = x m r.
Proof. apply wadd_0_r, Hword. Qed.

(** Replace the reads of a register after some instructions. *)
Ltac reads r w :=
  repeat match goal with
  | |- context [x (run ?l m) r] =>
    rewrite (x_after l r w); [|in_ctx|first [computes | rewrite <- plus_zero; computes]]
  end.

(** A jump with its arguments. *)
Ltac leave ip w2 :=
  rewrite <- ?run_app; split; cbn [fst snd];
  [saves ip|reads (a 0) (x m (a 0)); reads (a 1) (x m (a 1)); reads (a 2) w2; reflexivity].

Lemma trap_entry_spec : entered (fst (trap_entry m)) /\ snd (trap_entry m) = target_of m.
Proof.
  unfold trap_entry, target_of. cbv zeta. rewrite <- !run_app. reads (s 0) (sys m scause).
  destruct (Z.leb_spec (2 ^ 63) (sys m scause)) as [Hirq|Hirq].
  { assert (Hip : sys m sepc = next_ip m) by (unfold next_ip; destruct (Z.eqb_spec (sys m scause) 8); [lia|done]).
    split; [|done]. cbn [fst]. saves Hip. }
  reads (s 4) 8. destruct (Z.eqb_spec (sys m scause) 8) as [Ecall|Ecall]; cbn [negb].
  2:{ assert (Hip : sys m sepc = next_ip m) by (unfold next_ip; by destruct (Z.eqb_spec (sys m scause) 8)).
      split; [|done]. cbn [fst]. saves Hip. }
  assert (Hip : sys m sepc +w 4 = next_ip m) by (unfold next_ip; by rewrite Ecall).
  destruct fastpath; cbn [andb]; [|leave Hip (x m (a 7))].
  reads t3 SYSCALL_CALL. reads (a 7) (x m (a 7)).
  destruct (Z.eqb_spec (x m (a 7)) SYSCALL_CALL) as [E1|E1]; [leave Hip (x m (a 2))|].
  destruct kernel_mcs; rewrite <- ?run_app; reads t3 SYSCALL_REPLY_RECV; reads (a 7) (x m (a 7));
    destruct (Z.eqb_spec (x m (a 7)) SYSCALL_REPLY_RECV) as [E2|E2].
  - leave Hip (x m (a 6)).
  - leave Hip (x m (a 7)).
  - leave Hip (x m (a 2)).
  - leave Hip (x m (a 7)).
Qed.
End entry.

(** ** Returning *)

(** Words of the context that the user's registers and the system registers
    are loaded from. *)
Definition loaded (m2 m3 : cpu) (ctx : Z) (except : Z -> bool) : Prop :=
  (forall n, 1 <= n <= 31 -> except n = false -> x m3 n = mem m2 (word_at ctx (n - 1))) /\
  sys m3 sepc = mem m2 (word_at ctx 34) /\ sys m3 sstatus = mem m2 (word_at ctx 32) /\ sys m3 sscratch = ctx /\
  forall b, mem m3 b = mem m2 b.

(** Check the registers one by one; [plus_zero] is for those moved. *)
Ltac loads plus_zero :=
  let t := eval vm_compute in (seqZ 0 31) in change (seqZ 0 31) with t;
  repeat (apply Forall_cons; split; [intros ?; first [discriminate | computes | rewrite <- plus_zero; computes]|]);
  apply Forall_nil_2.

Section exit.
Context (m : cpu) (ctx : Z) (Hmem : forall b, is_word (mem m b)) (Hcw : is_word ctx).

Lemma mem_plus_zero b : mem m b +w 0 = mem m b.
Proof. apply wadd_0_r, Hmem. Qed.

Lemma loaded_by l except : all_in_context 35 ctx l (view_of ctx m) ->
  Forall (fun i => match i with ST _ _ _ => False | _ => True end) l ->
  Forall (fun k => except (k + 1) = false -> vx (vrun l (view_of ctx m)) (k + 1) = mem m (word_at ctx k)) (seqZ 0 31) ->
  vs (vrun l (view_of ctx m)) sepc = mem m (word_at ctx 34) ->
  vs (vrun l (view_of ctx m)) sstatus = mem m (word_at ctx 32) ->
  vs (vrun l (view_of ctx m)) sscratch = ctx -> loaded m (run l m) ctx except.
Proof.
  intros Hl Hst Hx Hp Hs Hc. pose proof (sim_run 35 ltac:(done) ctx m l m _ (sim_start 35 ctx m) Hl) as Hsim.
  split; [|rewrite !(sim_s _ _ _ _ _ Hsim); split_and!; try done; intros b; by rewrite run_mem].
  intros n Hn He. rewrite (sim_x _ _ _ _ _ Hsim). pose proof (forall_below _ 31 Hx (n - 1)) as E. cbv beta in E.
  replace (n - 1 + 1) with n in E by lia. apply E; [lia|done].
Qed.

Lemma restore_spec r : x m r = ctx -> loaded m (run (restore_user_context r) m) ctx (fun _ => false).
Proof.
  intros Hr. assert (Ht : x m r +w 0 = ctx) by by rewrite Hr, wadd_0_r.
  apply loaded_by; [|repeat constructor|loads mem_plus_zero|computes|computes|].
  - apply (all_in_context_from 35 ctx (MV t0 r) _ _ t0); [done|done|exact Ht|vm_compute; reflexivity].
  - rewrite <- Ht at 2. computes.
Qed.

(** The instructions of [fastpath_restore] after its operands are in place. *)
Lemma rest_spec : x m t0 = ctx ->
  let m3 := run (restore_registers ++ restore_rest) m in
  x m3 (a 0) = x m (a 0) /\ x m3 (a 1) = x m (a 1) /\ loaded m m3 ctx (fun n => (n =? a 0) || (n =? a 1)).
Proof.
  intros Ht. assert (Hl : all_in_context 35 ctx (restore_registers ++ restore_rest) (view_of ctx m)).
  { apply (accesses_ok_spec 35 ctx _ Hcw _ [t0]); [|vm_compute; reflexivity]. by intros r ->%list_elem_of_singleton. }
  pose proof (sim_x _ _ _ _ _ (sim_run 35 ltac:(done) ctx m _ m _ (sim_start 35 ctx m) Hl)) as Hx.
  cbv zeta. split; [|split]; [rewrite Hx; computes|rewrite Hx; computes|].
  apply loaded_by; [exact Hl|repeat constructor|loads mem_plus_zero|computes|computes|]. rewrite <- Ht at 2. computes.
Qed.

(** The operands must not sit in registers that are written before they are
    read. *)
Section operands.
Context (r0 r1 r2 badge info : Z) (Hr0 : x m r0 = badge) (Hr1 : x m r1 = info) (Hr2 : x m r2 = ctx).
Context (Hb : is_word badge) (Hi : is_word info) (N1 : r1 <> a 0) (N2 : r2 <> a 0) (N3 : r2 <> a 1).

(** After the first three instructions. *)
Definition operands_moved : cpu := run [MV (a 0) r0; MV (a 1) r1; MV t0 r2] m.

Lemma operands_moved_spec : x operands_moved (a 0) = badge /\ x operands_moved (a 1) = info /\
  x operands_moved t0 = ctx /\ sys operands_moved = sys m /\ mem operands_moved = mem m.
Proof.
  assert (E1 : upd (a 0) (x m r0 +w 0) (x m) r1 = info) by (unfold upd; destruct (Z.eqb_spec (a 0) r1); congruence).
  assert (E2 : upd (a 1) (upd (a 0) (x m r0 +w 0) (x m) r1 +w 0) (upd (a 0) (x m r0 +w 0) (x m)) r2 = ctx).
  { unfold upd at 1 3. destruct (Z.eqb_spec (a 1) r2), (Z.eqb_spec (a 0) r2); congruence. }
  split_and!; try done; unfold operands_moved; cbn [run fold_left exec MV].
  - change (x m r0 +w 0 = badge). rewrite Hr0. by apply wadd_0_r.
  - change (upd (a 0) (x m r0 +w 0) (x m) r1 +w 0 = info). rewrite E1. by apply wadd_0_r.
  - change (upd (a 1) (upd (a 0) (x m r0 +w 0) (x m) r1 +w 0) (upd (a 0) (x m r0 +w 0) (x m)) r2 +w 0 = ctx).
    rewrite E2. by apply wadd_0_r.
Qed.
End operands.
End exit.

Lemma fastpath_restore_spec m ctx r0 r1 r2 badge info : (forall b, is_word (mem m b)) -> is_word ctx ->
  x m r0 = badge -> x m r1 = info -> x m r2 = ctx ->
  is_word badge -> is_word info -> r1 <> a 0 -> r2 <> a 0 -> r2 <> a 1 ->
  let m3 := run (fastpath_restore r0 r1 r2) m in
  x m3 (a 0) = badge /\ x m3 (a 1) = info /\ loaded m m3 ctx (fun n => (n =? a 0) || (n =? a 1)).
Proof.
  intros Hm Hcw H0 H1 H2 Hb Hi N1 N2 N3 m3.
  destruct (operands_moved_spec m ctx Hcw r0 r1 r2 badge info H0 H1 H2 Hb Hi N1 N2 N3) as (E0 & E1 & Ec & Es & Em).
  assert (E3 : m3 = run (restore_registers ++ restore_rest) (operands_moved m r0 r1 r2)).
  { unfold m3, fastpath_restore, operands_moved. by rewrite run_app. }
  assert (Hm2 : forall b, is_word (mem (operands_moved m r0 r1 r2) b)) by (intros b; by rewrite Em).
  destruct (rest_spec _ ctx Hm2 Hcw Ec) as (F0 & F1 & Hld). rewrite E3, F0, F1. split; [done|]. split; [done|].
  unfold loaded in *. by rewrite Em in Hld.
Qed.

(** When the compiler puts the message information in [a0], the badge is
    returned in its place. *)
Lemma fastpath_restore_clobbers m r0 r2 : is_word (x m r0) ->
  x (run (fastpath_restore r0 (a 0) r2) m) (a 1) = x m r0.
Proof.
  intros Hw. transitivity (x m r0 +w 0 +w 0); [unfold run, exec; generalize wadd; intros; vm_compute; reflexivity|]. by rewrite !wadd_0_r by (rewrite ?wadd_0_r; done).
Qed.
(** The register of a thread behind an index of the kernel. *)
Definition abi_register (m : cpu) (reg : ArchReg) : option Z :=
  match reg with
  | Cap | Badge => Some (x m (a 0))
  | MsgInfo => Some (x m (a 1))
  | Msg i => if (0 <=? i) && (i <? 4) then Some (x m (a (2 + i))) else None
  | Reply => Some (x m (a 6))
  | nbsRecvDest => Some (x m t0)
  | TlsBase => Some (x m tp)
  | FaultIP => Some (sys m sepc)
  | NextIP => Some (next_ip m)
  | _ => None
  end.

Lemma abi_index m reg w : is_riscv = true -> abi_register m reg = Some w ->
  exists k, to_index reg = Ok k /\ 0 <= k < 35 /\ user_context m k = w.
Proof.
  intros Hrv. unfold abi_register, to_index, MSG_REGISTER. rewrite Hrv. unfold is_riscv in Hrv.
  destruct target_arch; [|done].
  destruct reg as [| | | | | |i|i|i|id i| |]; try discriminate; try (intros [= <-]; eexists; by split_and!).
  destruct (Z.leb_spec 0 i), (Z.ltb_spec i 4); try discriminate. intros [= <-].
  assert (i = 0 \/ i = 1 \/ i = 2 \/ i = 3) as [-> | [-> | [-> | ->]]] by lia; eexists; by split_and!.
Qed.

(** A machine of words. *)
Definition words (m : cpu) : Prop := (forall r, is_word (x m r)) /\ forall b, is_word (mem m b).
End code.

(** C7. A trap and the return from it are inverse.  With the address of the
    current thread's context in [sscratch], the entry code fills the 35 words of
    the context, touches no other memory, jumps to the handler of the cause with
    the user's arguments and leaves every argument where the kernel's register
    indices look for it.  Returning from any state that still has these words,
    the status apart, restores all 31 registers, continues at the next
    instruction of a system call and at the trapped one otherwise, takes the
    status from the context and leaves [sscratch] as it was. *)
Theorem riscv_trap_roundtrip `{Config} global_pointer kernel_stack_end fastpath m ctx :
  sys m sscratch = ctx -> is_word ctx -> words m ->
  let m1 := fst (trap_entry global_pointer kernel_stack_end fastpath m) in
  snd (trap_entry global_pointer kernel_stack_end fastpath m) = target_of fastpath m /\
  (forall b, (forall k, 0 <= k < 35 -> b <> word_at ctx k) -> mem m1 b = mem m b) /\
  (is_riscv = true -> forall reg w, abi_register m reg = Some w ->
     exists k, to_index reg = Ok k /\ mem m1 (word_at ctx k) = w) /\
  forall m2 r, words m2 -> x m2 r = ctx ->
    (forall k, 0 <= k < 35 -> k <> 32 -> mem m2 (word_at ctx k) = mem m1 (word_at ctx k)) ->
    let m3 := run (restore_user_context r) m2 in
    (forall n, 1 <= n <= 31 -> x m3 n = x m n) /\ sys m3 sepc = next_ip m /\
    sys m3 sstatus = mem m2 (word_at ctx 32) /\ sys m3 sscratch = ctx /\ forall b, mem m3 b = mem m2 b.
Proof.
  intros Hctx Hcw [Hx Hm] m1.
  destruct (trap_entry_spec global_pointer kernel_stack_end fastpath m ctx Hctx Hcw Hx) as [(v & Hsim & Hv) ->].
  fold m1 in Hsim. assert (Hw : forall k, 0 <= k < 35 -> mem m1 (word_at ctx k) = user_context m k).
  { intros k Hk. by rewrite (sim_c _ _ _ _ _ Hsim), Hv. }
  split; [done|]. split; [apply (sim_mem _ _ _ _ _ Hsim)|]. split.
  - intros Hrv reg w Hreg. destruct (abi_index m reg w Hrv Hreg) as (k & Hk & Hr & <-). exists k. split; [done|]. by apply Hw.
  - intros m2 r [_ Hm2] Hr Hsame. destruct (restore_spec m2 ctx Hm2 Hcw r Hr) as (Hregs & Hpc & Hst & Hsc & Hmem).
    cbv zeta. rewrite Hpc, Hst, Hsc, Hsame, Hw by lia. split_and!; try done.
    intros n Hn. rewrite Hregs, Hsame, Hw by (done || lia). unfold user_context. destruct (Z.ltb_spec (n - 1) 31); [|lia].
    f_equal. lia.
Qed.

Module TrapExample.
#[local] Existing Instance riscv_config.
(** A thread with its context at 0x80000000 makes system call -3. *)
Definition user : cpu :=
  mk_cpu (fun r => if r =? a 7 then wrap (-3) else 0x100 + r mod 32)
    (fun c => match c with sscratch => 0x80000000 | scause => 8 | sepc => 0x1000 | _ => 0 end) (fun _ => 0).
(** The kernel about to return, with the address of the context in [a0]. *)
Definition kernel : cpu :=
  mk_cpu (fun _ => 0x80000000) (fun _ => 0)
    (fun b => if (0x80000000 <=? b) && (b <? 0x80000118) then user_context user ((b - 0x80000000) / 8) else 0).

Lemma user_words : words user.
Proof.
  split; intros b; cbn; [|done]. destruct (b =? a 7); [done|]. pose proof (Z.mod_pos_bound b 32 ltac:(lia)).
  unfold is_word, word_size. lia.
Qed.
Lemma kernel_words : words kernel.
Proof.
  split; intros b; [done|]. cbn. destruct (_ && _); [|done]. unfold user_context.
  destruct (_ <? 31); [apply user_words|]. by repeat case_match.
Qed.
Lemma context_kept k : 0 <= k < 35 -> mem kernel (word_at 0x80000000 k) =
  mem (fst (trap_entry 0xffffffff84010800 0xffffffff84020000 true user)) (word_at 0x80000000 k).
Proof.
  revert k. apply (forall_below (fun k => mem kernel (word_at 0x80000000 k) =
  mem (fst (trap_entry 0xffffffff84010800 0xffffffff84020000 true user)) (word_at 0x80000000 k)) 35).
  let t := eval vm_compute in (seqZ 0 (Z.of_nat 35)) in change (seqZ 0 (Z.of_nat 35)) with t.
  repeat (apply Forall_cons; split; [vm_compute; reflexivity|]). apply Forall_nil_2.
Qed.
End TrapExample.

Lemma riscv_trap_roundtrip_witness :
  snd (@trap_entry riscv_config 0xffffffff84010800 0xffffffff84020000 true TrapExample.user) =
    c_handle_syscall 0x10a 0x10b (wrap (-3)) /\
  x (run (restore_user_context (a 0)) TrapExample.kernel) sp = 0x102 /\
  sys (run (restore_user_context (a 0)) TrapExample.kernel) sepc = 0x1004.
Proof.
  destruct (@riscv_trap_roundtrip riscv_config 0xffffffff84010800 0xffffffff84020000 true TrapExample.user 0x80000000)
    as (Htarget & _ & _ & Hback).
  - reflexivity.
  - split; reflexivity || discriminate.
  - exact TrapExample.user_words.
  - destruct (Hback TrapExample.kernel (a 0)) as (Hregs & Hpc & _).
    + exact TrapExample.kernel_words.
    + reflexivity.
    + intros k Hk _. exact (TrapExample.context_kept k Hk).
    + split; [rewrite Htarget; reflexivity|]. split; [|rewrite Hpc; reflexivity].
      rewrite Hregs; [reflexivity|]. split; discriminate.
Defined.
