(* ===== verification/TrapArm.v ===== *)
(** * AArch64 trap entry and exit (kernel/src/arch/aarch64/traps.S, c_traps.rs,
    arch_tcb.rs), single core, without the hypervisor

    [kernel_enter] and the vectors for traps from user mode, the thread local
    registers, [restore_user_context] and [fastpath_restore], with the round
    trip of a trap. *)

From S2P Require Import Prelude Monad Config Objects State Tcb Trap.

Inductive trap_target : Type :=
| c_handle_interrupt
| c_handle_data_fault
| c_handle_instruction_fault
| c_handle_undefined_instruction
| c_handle_enfp
| c_handle_syscall (cptr msgInfo syscall : Z)
| c_handle_fastpath_call (cptr msgInfo : Z)
| c_handle_fastpath_reply_recv (cptr msgInfo reply : Z).

Definition ESR_EC_SHIFT : Z := 26.
Definition ESR_EC_LEL_DABT : Z := 0x24.
Definition ESR_EC_LEL_IABT : Z := 0x20.
Definition ESR_EC_LEL_SVC64 : Z := 0x15.
Definition ESR_EL1_EC_ENFP : Z := 0x7.

(** The stack pointer, after the numbers of the general registers. *)
Definition SP : Z := 31.

Definition stp (r1 r2 off : Z) : list instr := [ST r1 off SP; ST r2 (off + 1) SP].
Definition ldp (r1 r2 off : Z) : list instr := [LD r1 off SP; LD r2 (off + 1) SP].

Section code.
Context `{Config}.
Context (fastpath : bool).

Definition kernel_enter : list instr :=
  stp 0 1 0 ++ stp 2 3 2 ++ stp 4 5 4 ++ stp 6 7 6 ++ stp 8 9 8 ++ stp 10 11 10 ++ stp 12 13 12 ++
  stp 14 15 14 ++ stp 16 17 16 ++ stp 18 19 18 ++ stp 20 21 20 ++ stp 22 23 22 ++ stp 24 25 24 ++
  stp 26 27 26 ++ stp 28 29 28 ++
  [RDS 21 sp_el0; RDS 22 elr; RDS 23 spsr] ++ stp 30 21 30 ++ stp 22 23 32.

Definition lsp_i : list instr := [RDS 19 tpidr; MV SP 19].
Definition read_esr : list instr := [RDS 25 esr; LSR 24 25 ESR_EC_SHIFT].
Definition fault_ip : list instr := [RDS 20 elr; ST 20 34 SP].
Definition fault_ip_syscall : list instr := [RDS 20 elr; ADDI 20 20 (-4); ST 20 34 SP].

(** [CONFIG_SIGNAL_FASTPATH] is off: its handler is not part of the kernel. *)
Definition lower_el_sync (m : cpu) : cpu * trap_target :=
  let m := run (kernel_enter ++ read_esr) m in
  if x m 24 =? ESR_EC_LEL_DABT then (run (fault_ip ++ lsp_i) m, c_handle_data_fault)
  else if x m 24 =? ESR_EC_LEL_IABT then (run (fault_ip ++ lsp_i) m, c_handle_instruction_fault)
  else if x m 24 =? ESR_EC_LEL_SVC64 then
    let m := run (fault_ip_syscall ++ lsp_i) m in
    let to_slow m := let m := run [MV 2 7] m in (m, c_handle_syscall (x m 0) (x m 1) (x m 2)) in
    if fastpath then
      if x m 7 =? SYSCALL_CALL then (m, c_handle_fastpath_call (x m 0) (x m 1))
      else
        let reply_recv := x m 7 =? SYSCALL_REPLY_RECV in
        let m := if kernel_mcs then run [MV 2 6] m else m in
        if reply_recv then (m, c_handle_fastpath_reply_recv (x m 0) (x m 1) (x m 2)) else to_slow m
    else to_slow m
  else if (x m 24 =? ESR_EL1_EC_ENFP) && have_fpu then (run lsp_i m, c_handle_enfp)
  else (run (fault_ip ++ lsp_i) m, c_handle_undefined_instruction).

Definition lower_el_irq (m : cpu) : cpu * trap_target := (run (kernel_enter ++ fault_ip ++ lsp_i) m, c_handle_interrupt).

(** [entry_hook], that is [save_thread_local], the first thing every handler
    does, and [load_thread_local]. *)
Definition entry_hook (ctx : Z) (m : cpu) : cpu :=
  m <| mem := upd (word_at ctx 36) (sys m tpidrro_el0) (upd (word_at ctx 35) (sys m tpidr_el0) (mem m)) |>.
Definition load_thread_local (ctx : Z) (m : cpu) : cpu :=
  m <| sys := upd_sys tpidrro_el0 (mem m (word_at ctx 36)) (upd_sys tpidr_el0 (mem m (word_at ctx 35)) (sys m)) |>.

(** The assembly of [restore_user_context], its operand in [r]. *)
Definition restore_system : list instr := ldp 21 22 31 ++ [LD 23 33 SP; WRS sp_el0 21; WRS elr 22; WRS spsr 23].
Definition restore_rest : list instr :=
  ldp 2 3 2 ++ ldp 4 5 4 ++ ldp 6 7 6 ++ ldp 8 9 8 ++ ldp 10 11 10 ++ ldp 12 13 12 ++ ldp 14 15 14 ++
  ldp 16 17 16 ++ ldp 18 19 18 ++ ldp 20 21 20 ++ ldp 22 23 22 ++ ldp 24 25 24 ++ ldp 26 27 26 ++
  ldp 28 29 28 ++ [LD 30 30 SP].
Definition restore_user_context (r : Z) : list instr :=
  [MV SP r] ++ restore_system ++ ldp 0 1 0 ++ restore_rest.
Definition fastpath_restore (r_badge r_info r_ctx : Z) : list instr :=
  [MV 0 r_badge; MV 1 r_info; MV SP r_ctx] ++ restore_system ++ restore_rest.

(** ** The context holds the registers *)

Definition user_context (m : cpu) (k : Z) : Z :=
  if k <? 31 then x m k else if k =? 31 then sys m sp_el0 else if k =? 32 then sys m elr else sys m spsr.

Definition exception_class (m : cpu) : Z := sys m esr >>w ESR_EC_SHIFT.

Definition target_of (m : cpu) : trap_target :=
  if exception_class m =? ESR_EC_LEL_DABT then c_handle_data_fault
  else if exception_class m =? ESR_EC_LEL_IABT then c_handle_instruction_fault
  else if exception_class m =? ESR_EC_LEL_SVC64 then
    if fastpath && (x m 7 =? SYSCALL_CALL) then c_handle_fastpath_call (x m 0) (x m 1)
    else if fastpath && (x m 7 =? SYSCALL_REPLY_RECV)
    then c_handle_fastpath_reply_recv (x m 0) (x m 1) (if kernel_mcs then x m 6 else x m 2)
    else c_handle_syscall (x m 0) (x m 1) (x m 7)
  else if (exception_class m =? ESR_EL1_EC_ENFP) && have_fpu then c_handle_enfp
  else c_handle_undefined_instruction.

(** The address of the faulting instruction; that of a system call is the one
    before the return address. *)
Definition fault_address (m : cpu) : Z :=
  if exception_class m =? ESR_EC_LEL_SVC64 then sys m elr +w (-4) else sys m elr.

Section entry.
Context (m : cpu) (ctx : Z) (Hctx : x m SP = ctx) (Hcw : is_word ctx) (Hword : forall r, is_word (x m r)).

Ltac in_ctx := apply (accesses_ok_spec 37 ctx _ Hcw _ [SP]); [by intros r ->%list_elem_of_singleton|vm_compute; reflexivity].

(** The trap to switch the floating point unit saves no fault address. *)
Definition entered (m1 : cpu) (fault : option Z) : Prop := exists v, sim 37 ctx m m1 v /\
  (forall k, 0 <= k < 34 -> vc v k = user_context m k) /\ (forall f, fault = Some f -> vc v 34 = f) /\
  (forall k, 34 < k < 37 -> vc v k = mem m (word_at ctx k)) /\ vs v = sys m.

Lemma arm_entry_sim l : all_in_context 37 ctx l (view_of ctx m) -> sim 37 ctx m (run l m) (vrun l (view_of ctx m)).
Proof. intros Hl. by apply (sim_run 37); [|apply sim_start|]. Qed.

Lemma arm_entered_by l fault : all_in_context 37 ctx l (view_of ctx m) ->
  Forall (fun k => vc (vrun l (view_of ctx m)) k = user_context m k) (seqZ 0 34) ->
  (forall f, fault = Some f -> vc (vrun l (view_of ctx m)) 34 = f) ->
  vc (vrun l (view_of ctx m)) 35 = mem m (word_at ctx 35) -> vc (vrun l (view_of ctx m)) 36 = mem m (word_at ctx 36) ->
  vs (vrun l (view_of ctx m)) = sys m -> entered (run l m) fault.
Proof.
  intros Hl Hf H34 H35 H36 Hs. exists (vrun l (view_of ctx m)). split; [by apply arm_entry_sim|]. split; [|split; [done|split; [|done]]].
  - intros k Hk. by apply (forall_below _ 34 Hf).
  - intros k Hk. by assert (k = 35 \/ k = 36) as [-> | ->] by lia.
Qed.

Ltac saves :=
  apply arm_entered_by; [in_ctx| |intros ? [= <-]; computes|computes|computes|computes];
  let t := eval vm_compute in (seqZ 0 34) in change (seqZ 0 34) with t;
  repeat (apply Forall_cons; split; [computes|]); apply Forall_nil_2.

Lemma arm_x_after l r w : all_in_context 37 ctx l (view_of ctx m) -> vx (vrun l (view_of ctx m)) r = w -> x (run l m) r = w.
Proof. intros Hl <-. by apply (arm_entry_sim l). Qed.

Lemma arm_plus_zero r : x m r +w 0 = x m r.
Proof. apply wadd_0_r, Hword. Qed.

Ltac reads r w :=
  repeat match goal with
  | |- context [x (run ?l m) r] =>
    rewrite (arm_x_after l r w); [|in_ctx|first [computes | rewrite <- arm_plus_zero; computes]]
  end.

(** A jump with its arguments. *)
Ltac leave w2 :=
  rewrite <- ?run_app; split; cbn [fst snd]; [saves|reads 0 (x m 0); reads 1 (x m 1); reads 2 w2; reflexivity].

Definition fault_saved : option Z :=
  if (exception_class m =? ESR_EL1_EC_ENFP) && have_fpu then None else Some (fault_address m).

Lemma lower_el_sync_spec : entered (fst (lower_el_sync m)) fault_saved /\ snd (lower_el_sync m) = target_of m.
Proof.
  unfold lower_el_sync, fault_saved, target_of, fault_address. cbv zeta. rewrite <- ?run_app.
  reads 24 (sys m esr >>w ESR_EC_SHIFT). change (sys m esr >>w ESR_EC_SHIFT) with (exception_class m).
  destruct (Z.eqb_spec (exception_class m) ESR_EC_LEL_DABT) as [E1|E1].
  { rewrite E1. leave 0. }
  destruct (Z.eqb_spec (exception_class m) ESR_EC_LEL_IABT) as [E2|E2]; [rewrite E2; leave 0|].
  destruct (Z.eqb_spec (exception_class m) ESR_EC_LEL_SVC64) as [E3|E3].
  - rewrite E3. change (ESR_EC_LEL_SVC64 =? ESR_EL1_EC_ENFP) with false. cbn [andb].
    destruct fastpath; cbn [andb]; [|leave (x m 7)].
    reads 7 (x m 7). destruct (Z.eqb_spec (x m 7) SYSCALL_CALL) as [C1|C1]; [leave (x m 2)|].
    destruct kernel_mcs; destruct (Z.eqb_spec (x m 7) SYSCALL_REPLY_RECV) as [C2|C2].
    + leave (x m 6).
    + leave (x m 7).
    + leave (x m 2).
    + leave (x m 7).
  - destruct (_ && have_fpu); leave 0.
Qed.

Lemma lower_el_irq_spec : entered (fst (lower_el_irq m)) (Some (sys m elr)).
Proof. unfold lower_el_irq. cbn [fst]. saves. Qed.
End entry.

(** ** Returning *)

Definition arm_loaded (m2 m3 : cpu) (ctx : Z) (except : Z -> bool) : Prop :=
  (forall n, 0 <= n <= 30 -> except n = false -> x m3 n = mem m2 (word_at ctx n)) /\ x m3 SP = ctx /\
  sys m3 sp_el0 = mem m2 (word_at ctx 31) /\ sys m3 elr = mem m2 (word_at ctx 32) /\
  sys m3 spsr = mem m2 (word_at ctx 33) /\ (forall c, c <> sp_el0 -> c <> elr -> c <> spsr -> sys m3 c = sys m2 c) /\
  forall b, mem m3 b = mem m2 b.

(** Check the registers one by one. *)
Ltac loads :=
  let t := eval vm_compute in (seqZ 0 31) in change (seqZ 0 31) with t;
  repeat (apply Forall_cons; split; [intros ?; first [discriminate | computes]|]); apply Forall_nil_2.

Section exit.
Context (m : cpu) (ctx : Z) (Hcw : is_word ctx).

Lemma arm_loaded_by l except : all_in_context 37 ctx l (view_of ctx m) ->
  Forall (fun i => match i with ST _ _ _ => False | _ => True end) l ->
  Forall (fun k => except k = false -> vx (vrun l (view_of ctx m)) k = mem m (word_at ctx k)) (seqZ 0 31) ->
  vx (vrun l (view_of ctx m)) SP = ctx ->
  (forall c, vs (vrun l (view_of ctx m)) c = match c with
     | sp_el0 => mem m (word_at ctx 31) | elr => mem m (word_at ctx 32) | spsr => mem m (word_at ctx 33) | _ => sys m c end) ->
  arm_loaded m (run l m) ctx except.
Proof.
  intros Hl Hst Hx Hsp Hs. pose proof (sim_run 37 ltac:(done) ctx m l m _ (sim_start 37 ctx m) Hl) as Hsim.
  split; [|rewrite !(sim_s _ _ _ _ _ Hsim), (sim_x _ _ _ _ _ Hsim), !Hs; split_and!; try done].
  - intros n Hn He. rewrite (sim_x _ _ _ _ _ Hsim). apply (forall_below _ 31 Hx); [lia|done].
  - intros c ???. rewrite (sim_s _ _ _ _ _ Hsim), Hs. by destruct c.
  - intros b. by rewrite run_mem.
Qed.

Lemma arm_restore_spec r : x m r = ctx -> arm_loaded m (run (restore_user_context r) m) ctx (fun _ => false).
Proof.
  intros Hr. assert (Ht : x m r +w 0 = ctx) by by rewrite Hr, wadd_0_r.
  apply arm_loaded_by; [|repeat constructor|loads| |intros []; computes].
  - apply (all_in_context_from 37 ctx (MV SP r) _ _ SP); [done|done|exact Ht|vm_compute; reflexivity].
  - rewrite <- Ht at 2. computes.
Qed.

(** The instructions of [fastpath_restore] after its operands are in place. *)
Lemma arm_rest_spec : x m SP = ctx ->
  let m3 := run (restore_system ++ restore_rest) m in
  x m3 0 = x m 0 /\ x m3 1 = x m 1 /\ arm_loaded m m3 ctx (fun n => (n =? 0) || (n =? 1)).
Proof.
  intros Ht. assert (Hl : all_in_context 37 ctx (restore_system ++ restore_rest) (view_of ctx m)).
  { apply (accesses_ok_spec 37 ctx _ Hcw _ [SP]); [|vm_compute; reflexivity]. by intros r ->%list_elem_of_singleton. }
  pose proof (sim_x _ _ _ _ _ (sim_run 37 ltac:(done) ctx m _ m _ (sim_start 37 ctx m) Hl)) as Hx.
  cbv zeta. split; [|split]; [rewrite Hx; computes|rewrite Hx; computes|].
  apply arm_loaded_by; [exact Hl|repeat constructor|loads| |intros []; computes]. rewrite <- Ht at 2. computes.
Qed.
End exit.

(** The register of a thread behind an index of the kernel. *)
Definition abi_register (m : cpu) (reg : ArchReg) : option Z :=
  match reg with
  | Cap | Badge => Some (x m 0)
  | MsgInfo => Some (x m 1)
  | Msg i => if (0 <=? i) && (i <? 4) then Some (x m (2 + i)) else None
  | Reply => Some (x m 6)
  | nbsRecvDest => Some (x m 8)
  | TlsBase => Some (sys m tpidr_el0)
  | NextIP => Some (sys m elr)
  | _ => None
  end.

(** The words of the context once [entry_hook] has run. *)
Definition hooked_context (m : cpu) (k : Z) : Z :=
  if k =? 35 then sys m tpidr_el0 else if k =? 36 then sys m tpidrro_el0 else user_context m k.

Lemma arm_abi_index m reg w : is_riscv = false -> abi_register m reg = Some w ->
  exists k, to_index reg = Ok k /\ 0 <= k < 37 /\ k <> 34 /\ hooked_context m k = w.
Proof.
  intros Hrv. unfold abi_register, to_index, MSG_REGISTER. rewrite Hrv. unfold is_riscv in Hrv. destruct target_arch; [done|].
  destruct reg as [| | | | | |i|i|i|id i| |]; try discriminate; try (intros [= <-]; eexists; by split_and!).
  destruct (Z.leb_spec 0 i), (Z.ltb_spec i 4); try discriminate. intros [= <-].
  assert (i = 0 \/ i = 1 \/ i = 2 \/ i = 3) as [-> | [-> | [-> | ->]]] by lia; eexists; by split_and!.
Qed.

Section hook.
Context (m m1 : cpu) (ctx : Z) (fault : option Z) (He : entered m ctx m1 fault).

(** After the entry code and the hook all the context is in place. *)
Lemma hook_spec : let mk := entry_hook ctx m1 in
  (forall k, 0 <= k < 37 -> k <> 34 -> mem mk (word_at ctx k) = hooked_context m k) /\
  (forall f, fault = Some f -> mem mk (word_at ctx 34) = f) /\
  forall b, (forall k, 0 <= k < 37 -> b <> word_at ctx k) -> mem mk b = mem m b.
Proof.
  destruct He as (v & Hsim & Hv & H34 & _ & Hs).
  assert (Hne : forall j k, 0 <= j < 37 -> 0 <= k < 37 -> j <> k -> (word_at ctx j =? word_at ctx k) = false).
  { intros j k Hj Hk Hjk. apply Z.eqb_neq. intros E. by apply (word_at_inj 37) in E. }
  assert (Hsys : forall c, sys m1 c = sys m c) by (intros c; by rewrite (sim_s _ _ _ _ _ Hsim), Hs).
  cbn. rewrite !Hsys. unfold upd, hooked_context. split; [|split].
  - intros k Hk N. destruct (Z.eqb_spec k 36) as [->|N6]; [by rewrite Z.eqb_refl|]. rewrite (Hne 36 k) by lia.
    destruct (Z.eqb_spec k 35) as [->|N5]; [by rewrite Z.eqb_refl|]. rewrite (Hne 35 k) by lia.
    rewrite (sim_c _ _ _ _ _ Hsim) by lia. apply Hv. lia.
  - intros f Hf. rewrite (Hne 36 34), (Hne 35 34) by lia. rewrite (sim_c _ _ _ _ _ Hsim) by lia. by apply H34.
  - intros b Hb. assert (word_at ctx 36 =? b = false) as -> by (apply Z.eqb_neq; intros E; by apply (Hb 36)).
    assert (word_at ctx 35 =? b = false) as -> by (apply Z.eqb_neq; intros E; by apply (Hb 35)).
    by apply (sim_mem _ _ _ _ _ Hsim).
Qed.
End hook.

(** The context before the return: what [load_thread_local] and the assembly
    read. *)
Definition return_to_user (ctx r : Z) (m : cpu) : cpu := run (restore_user_context r) (load_thread_local ctx m).

Lemma return_spec m ctx r : is_word ctx -> x m r = ctx ->
  arm_loaded (load_thread_local ctx m) (return_to_user ctx r m) ctx (fun _ => false).
Proof. intros Hcw Hr. by apply arm_restore_spec. Qed.
End code.

(** C17. A trap and the return from it are inverse, on AArch64 too.  With the
    address of the current thread's context in the stack pointer, an exception
    from user mode fills the context together with the hook that every handler
    starts with, touches no other memory, jumps to the handler of the exception
    class and leaves the arguments where the kernel's register indices look for
    them; the fault address is saved unless the trap only switches the floating
    point unit.  Returning from any state with these words restores the 31
    registers, the stack pointer, the return address, the status and the two
    thread local registers, with the context in the stack pointer again. *)
Theorem arm_trap_roundtrip `{Config} fastpath m ctx :
  x m SP = ctx -> is_word ctx -> (forall r, is_word (x m r)) ->
  let mk := entry_hook ctx (fst (lower_el_sync fastpath m)) in
  snd (lower_el_sync fastpath m) = target_of fastpath m /\
  (forall b, (forall k, 0 <= k < 37 -> b <> word_at ctx k) -> mem mk b = mem m b) /\
  (target_of fastpath m <> c_handle_enfp -> mem mk (word_at ctx 34) = fault_address m) /\
  (is_riscv = false -> forall reg w, abi_register m reg = Some w ->
     exists k, to_index reg = Ok k /\ mem mk (word_at ctx k) = w) /\
  forall m2 r, x m2 r = ctx ->
    (forall k, 0 <= k < 37 -> k <> 34 -> mem m2 (word_at ctx k) = mem mk (word_at ctx k)) ->
    let m3 := return_to_user ctx r m2 in
    (forall n, 0 <= n <= 30 -> x m3 n = x m n) /\ x m3 SP = ctx /\
    (forall c, c ∈ [sp_el0; elr; spsr; tpidr_el0; tpidrro_el0] -> sys m3 c = sys m c) /\
    forall b, mem m3 b = mem m2 b.
Proof.
  intros Hctx Hcw Hx mk. destruct (lower_el_sync_spec fastpath m ctx Hctx Hcw Hx) as [He ->].
  destruct (hook_spec m _ ctx _ He) as (Hw & Hf & Hout). fold mk in Hw, Hf, Hout.
  split; [done|]. split; [done|]. split; [|split].
  - intros Hne. apply Hf. unfold fault_saved. destruct (_ && have_fpu) eqn:E; [|done]. exfalso. apply Hne.
    apply andb_prop in E as [E%Z.eqb_eq Hfpu]. unfold target_of. by rewrite E, Hfpu.
  - intros Hrv reg w Hreg. destruct (arm_abi_index m reg w Hrv Hreg) as (k & Hk & Hr & N & <-). exists k. split; [done|].
    by apply Hw.
  - intros m2 r Hr Hsame. assert (Hw2 : forall k, 0 <= k < 37 -> k <> 34 -> mem m2 (word_at ctx k) = hooked_context m k).
    { intros k Hk N. by rewrite Hsame, Hw. }
    destruct (return_spec m2 ctx r Hcw Hr) as (Hregs & Hsp & H31 & H32 & H33 & Hsys & Hmem). cbn [mem load_thread_local] in *.
    cbv zeta. split; [|split; [done|split; [|done]]].
    + intros n Hn. rewrite Hregs by done. change (mem m2 (word_at ctx n) = x m n). rewrite Hw2 by lia.
      unfold hooked_context, user_context. destruct (Z.eqb_spec n 35), (Z.eqb_spec n 36), (Z.ltb_spec n 31); done || lia.
    + intros c Hc. rewrite !elem_of_cons in Hc. destruct Hc as [-> | [-> | [-> | [-> | [-> | []%not_elem_of_nil]]]]].
      * rewrite H31. by apply Hw2.
      * rewrite H32. by apply Hw2.
      * rewrite H33. by apply Hw2.
      * rewrite Hsys by done. change (mem m2 (word_at ctx 35) = sys m tpidr_el0). by rewrite Hw2.
      * rewrite Hsys by done. change (mem m2 (word_at ctx 36) = sys m tpidrro_el0). by rewrite Hw2.
Qed.

Module ArmTrapExample.
(** A thread with its context at 0x80000000 makes system call -3. *)
Definition user : cpu :=
  mk_cpu (fun r => if r =? 7 then wrap (-3) else if r =? SP then 0x80000000 else 0x100 + r mod 32)
    (fun c => match c with esr => 0x56000000 | elr => 0x1000 | sp_el0 => 0x7ff0 | tpidr_el0 => 0x42 | _ => 0 end)
    (fun _ => 0).
(** The kernel about to return, with the address of the context in [x0]. *)
Definition kernel : cpu :=
  mk_cpu (fun _ => 0x80000000) (fun _ => 0) (fun b => hooked_context user ((b - 0x80000000) / 8)).

Lemma arm_user_words r : is_word (x user r).
Proof.
  cbn. destruct (r =? 7); [done|]. destruct (r =? SP); [done|]. pose proof (Z.mod_pos_bound r 32 ltac:(lia)).
  unfold is_word, word_size. lia.
Qed.

#[local] Existing Instance aarch64_config.
Definition kept (k : Z) : Prop := k <> 34 -> mem kernel (word_at 0x80000000 k) =
  mem (entry_hook 0x80000000 (fst (lower_el_sync true user))) (word_at 0x80000000 k).
Lemma arm_context_kept k : 0 <= k < 37 -> kept k.
Proof.
  revert k. apply (forall_below kept 37).
  let t := eval vm_compute in (seqZ 0 (Z.of_nat 37)) in change (seqZ 0 (Z.of_nat 37)) with t.
  repeat (apply Forall_cons; split; [intros ?; first [vm_compute; reflexivity | done]|]). apply Forall_nil_2.
Qed.
End ArmTrapExample.

Lemma arm_trap_roundtrip_witness :
  snd (@lower_el_sync aarch64_config true ArmTrapExample.user) = c_handle_syscall 0x100 0x101 (wrap (-3)) /\
  x (return_to_user 0x80000000 0 ArmTrapExample.kernel) 30 = 0x11e /\
  sys (return_to_user 0x80000000 0 ArmTrapExample.kernel) tpidr_el0 = 0x42.
Proof.
  destruct (@arm_trap_roundtrip aarch64_config true ArmTrapExample.user 0x80000000)
    as (Htarget & _ & _ & _ & Hback).
  - reflexivity.
  - split; reflexivity || discriminate.
  - exact ArmTrapExample.arm_user_words.
  - destruct (Hback ArmTrapExample.kernel 0) as (Hregs & _ & Hsys & _).
    + reflexivity.
    + intros k Hk. exact (ArmTrapExample.arm_context_kept k Hk).
    + split; [rewrite Htarget; reflexivity|]. split.
      * rewrite Hregs; [reflexivity|]. split; discriminate.
      * rewrite Hsys; [reflexivity|]. apply (list_elem_of_lookup_2 _ 3). reflexivity.
Defined.
