(* ===== verification/CNodeInv.v ===== *)
(** * Invocations of CNodes
    (kernel/src/syscall/invocation/decode/decode_cnode_invocation.rs,
    invoke_cnode.rs)

    Copying, minting, moving, mutating, rotating, deleting and revoking
    capabilities, saving the caller and cancelling badged sends. *)

From S2P Require Import Prelude Monad Config Objects State CapOps CSpace VSpace.
From S2P Require Import Refill TcbQueue Sched Tcb SchedCtx Schedule Ipc Finalise Syscall.

(** Fuel of the deletion loops an invocation starts. *)
Class DeletionFuel := deletion_fuel : nat.

(** [seL4_CapRights(Bitfield { arr: [w] })]. *)
Definition rights_of_word (w : Z) : seL4_CapRights :=
  mk_rights (Z.land (w >>w 3) 1) (Z.land (w >>w 2) 1) (Z.land (w >>w 1) 1) (Z.land w 1).

Section cnode.
Context `{Config} `{CSpaceDeps} `{DeletionFuel}.

(** ** Invocations *)

(** The end shared by copy and mint: derive, and insert the result. *)
Definition insert_derived (src_slot dest_slot : Z) (c : cap) : K exception_t :=
  let* dc_ret := on_ctes (derive_cap src_slot c) in
  if negb (exc_ok (dc_status dc_ret)) then ret (dc_status dc_ret)
  else if is_null_cap (dc_capability dc_ret) then illegal_operation
  else
    set_cur_restart ;;;
    on_ctes (cte_insert (dc_capability dc_ret) src_slot dest_slot) ;;;
    ret EXCEPTION_NONE.

Definition invoke_cnode_copy (src_slot dest_slot : Z) (cap_right : seL4_CapRights) : K exception_t :=
  let* c := slot_cap src_slot in
  insert_derived src_slot dest_slot (mask_cap_rights cap_right c).

Definition invoke_cnode_mint (src_slot dest_slot : Z) (cap_right : seL4_CapRights) (cap_data : Z) : K exception_t :=
  let* c := slot_cap src_slot in
  insert_derived src_slot dest_slot (update_data (mask_cap_rights cap_right c) false cap_data).

Definition invoke_cnode_mutate (src_slot dest_slot cap_data : Z) : K exception_t :=
  let* c := slot_cap src_slot in
  let new_cap := update_data c true cap_data in
  if is_null_cap new_cap then illegal_operation
  else
    set_cur_restart ;;;
    on_ctes (cte_move new_cap src_slot dest_slot) ;;;
    ret EXCEPTION_NONE.

Definition invoke_cnode_save_caller (dest_slot : Z) : K exception_t :=
  let* d := slot_cap dest_slot in
  if negb (is_null_cap d) then delete_first
  else
    set_cur_restart ;;;
    let* cur := cur_thread in
    let src_slot := get_cspace cur TCB_CALLER in
    let* c := slot_cap src_slot in
    match c with
    | cap_null_cap => ret tt
    | cap_reply_cap r =>
        when (capReplyMaster r =? 0) (on_ctes (cte_move c src_slot dest_slot))
    | _ => fail EPanic
    end ;;;
    ret EXCEPTION_NONE.

Definition invoke_cnode_rotate (slot1 slot2 slot3 src_new_data pivot_new_data : Z) : K exception_t :=
  let* c1 := slot_cap slot1 in
  let* c2 := slot_cap slot2 in
  let new_src_cap := update_data c1 true src_new_data in
  let new_pivot_cap := update_data c2 true pivot_new_data in
  if is_null_cap new_src_cap then illegal_operation
  else if is_null_cap new_pivot_cap then illegal_operation
  else
    set_cur_restart ;;;
    (if slot1 =? slot3 then on_ctes (cte_swap new_src_cap slot1 new_pivot_cap slot2)
     else
       on_ctes (cte_move new_pivot_cap slot2 slot3) ;;;
       on_ctes (cte_move new_src_cap slot1 slot2)) ;;;
    ret EXCEPTION_NONE.

Definition invoke_cnode_move (src_slot dest_slot : Z) : K exception_t :=
  let* src_cap := slot_cap src_slot in
  if is_null_cap src_cap then illegal_operation
  else
    set_cur_restart ;;;
    on_ctes (cte_move src_cap src_slot dest_slot) ;;;
    ret EXCEPTION_NONE.

(** [has_cancel_send_right] on an endpoint capability; other capabilities
    have no such right. *)
Definition has_cancel_send_right (c : cap) : bool :=
  match c with
  | cap_endpoint_cap e =>
      negb (capCanSend e =? 0) && negb (capCanReceive e =? 0)
      && negb (capCanGrant e =? 0) && negb (capCanGrantReply e =? 0)
  | _ => false
  end.

Definition invoke_cnode_cancel_badged_sends (dest_slot : Z) : K exception_t :=
  let* dest_cap := slot_cap dest_slot in
  match dest_cap with
  | cap_endpoint_cap e =>
      if negb (has_cancel_send_right dest_cap) then illegal_operation
      else
        set_cur_restart ;;;
        when (negb (capEPBadge e =? 0)) (cancel_badged_sends (capEPPtr e) (capEPBadge e)) ;;;
        ret EXCEPTION_NONE
  | _ => illegal_operation
  end.

Definition invoke_cnode_revoke (dest_slot : Z) : K exception_t :=
  set_cur_restart ;;; revoke deletion_fuel dest_slot.

Definition invoke_cnode_delete (dest_slot : Z) : K exception_t :=
  set_cur_restart ;;; delete_all deletion_fuel dest_slot true.

(** ** Decoding *)

Definition decode_cnode_invoke_with_two_slot (label : MessageLabel) (dest_slot length buffer : Z)
    : K exception_t :=
  let* missing := no_extra_cap 0 in
  if (length <? 4) || missing then truncated_message else
  let* src_index := get_syscall_arg 2 buffer in
  let* src_depth := get_syscall_arg 3 buffer in
  let* root_slot := extra_cap 0 in
  let* src_root := slot_cap root_slot in
  let* d := slot_cap dest_slot in
  if negb (is_null_cap d) then delete_first else
  let* lu_ret := lookup_slot_for_cnode_op true src_root src_index src_depth in
  if negb (exc_ok (ls_status lu_ret)) then ret (ls_status lu_ret) else
  let src_slot := ls_slot lu_ret in
  let* c := slot_cap src_slot in
  if is_null_cap c then failed_lookup_with 1 (missing_capability src_depth) else
  match label with
  | CNodeCopy =>
      if length <? 5 then truncated_message else
      let* w := get_syscall_arg 4 buffer in
      invoke_cnode_copy src_slot dest_slot (rights_of_word w)
  | CNodeMint =>
      if length <? 6 then truncated_message else
      let* w := get_syscall_arg 4 buffer in
      let* cap_data := get_syscall_arg 5 buffer in
      invoke_cnode_mint src_slot dest_slot (rights_of_word w) cap_data
  | CNodeMove => invoke_cnode_move src_slot dest_slot
  | CNodeMutate =>
      if length <? 5 then truncated_message else
      let* cap_data := get_syscall_arg 4 buffer in
      invoke_cnode_mutate src_slot dest_slot cap_data
  | _ => fail EPanic
  end.

Definition decode_cnode_rotate (dest_slot length buffer : Z) : K exception_t :=
  let* missing0 := no_extra_cap 0 in
  let* missing1 := no_extra_cap 1 in
  if (length <? 8) || missing0 || missing1 then truncated_message else
  let* pivot_new_data := get_syscall_arg 2 buffer in
  let* pivot_index := get_syscall_arg 3 buffer in
  let* pivot_depth := get_syscall_arg 4 buffer in
  let* src_new_data := get_syscall_arg 5 buffer in
  let* src_index := get_syscall_arg 6 buffer in
  let* src_depth := get_syscall_arg 7 buffer in
  let* pivot_root_slot := extra_cap 0 in
  let* pivot_root := slot_cap pivot_root_slot in
  let* src_root_slot := extra_cap 1 in
  let* src_root := slot_cap src_root_slot in
  let* lu_ret := lookup_slot_for_cnode_op true src_root src_index src_depth in
  if negb (exc_ok (ls_status lu_ret)) then ret (ls_status lu_ret) else
  let src_slot := ls_slot lu_ret in
  let* lu_ret := lookup_slot_for_cnode_op true pivot_root pivot_index pivot_depth in
  if negb (exc_ok (ls_status lu_ret)) then ret (ls_status lu_ret) else
  let pivot_slot := ls_slot lu_ret in
  if (pivot_slot =? src_slot) || (pivot_slot =? dest_slot) then illegal_operation else
  let* d := slot_cap dest_slot in
  if negb (src_slot =? dest_slot) && negb (is_null_cap d) then delete_first else
  let* c := slot_cap src_slot in
  if is_null_cap c then failed_lookup_with 1 (missing_capability src_depth) else
  let* p := slot_cap pivot_slot in
  if is_null_cap p then failed_lookup_with 0 (missing_capability pivot_depth) else
  invoke_cnode_rotate src_slot pivot_slot dest_slot src_new_data pivot_new_data.

(** [CNodeRevoke <= label <= CNODE_LAST_INVOCATION]. *)
Definition is_cnode_label (l : MessageLabel) : bool :=
  match l with
  | CNodeRevoke | CNodeDelete | CNodeCancelBadgedSends | CNodeCopy | CNodeMint
  | CNodeMove | CNodeMutate | CNodeRotate => true
  | CNodeSaveCaller => negb kernel_mcs
  | _ => false
  end.

Definition decode_cnode_invocation (invLabel : MessageLabel) (length : Z) (c : cnode_cap) (buffer : Z)
    : K exception_t :=
  if negb (is_cnode_label invLabel) then illegal_operation
  else if length <? 2 then truncated_message
  else
    let* index := get_syscall_arg 0 buffer in
    let* w_bits := get_syscall_arg 1 buffer in
    let* lu_ret := lookup_slot_for_cnode_op false (cap_cnode_cap c) index w_bits in
    if negb (exc_ok (ls_status lu_ret)) then ret (ls_status lu_ret) else
    let dest_slot := ls_slot lu_ret in
    match invLabel with
    | CNodeCopy | CNodeMint | CNodeMove | CNodeMutate =>
        decode_cnode_invoke_with_two_slot invLabel dest_slot length buffer
    | CNodeRevoke => invoke_cnode_revoke dest_slot
    | CNodeDelete => invoke_cnode_delete dest_slot
    | CNodeSaveCaller => invoke_cnode_save_caller dest_slot
    | CNodeCancelBadgedSends => invoke_cnode_cancel_badged_sends dest_slot
    | CNodeRotate => decode_cnode_rotate dest_slot length buffer
    | _ => fail EPanic
    end.
End cnode.
