(* ===== verification/TcbInv.v ===== *)
(** * Invocations of threads and of the domain capability
    (kernel/src/syscall/invocation/decode/decode_tcb_invocation.rs,
    decode_domain_invocation.rs, invoke_tcb.rs)

    Registers, priorities, scheduling parameters, address spaces, the IPC
    buffer and the bound notification of a thread. *)

From S2P Require Import Prelude Monad Config Objects State CapOps CSpace VSpace.
From S2P Require Import Refill TcbQueue Sched Tcb SchedCtx Schedule Ipc Finalise Syscall CNodeInv.

Definition COPY_REGISTERS_SUSPEND_SOURCE : Z := 0.
Definition COPY_REGISTERS_RESUME_TARGET : Z := 1.
Definition COPY_REGISTERS_TRANSFER_FRAME : Z := 2.
Definition COPY_REGISTERS_TRANSFER_INTEGER : Z := 3.
Definition READ_REGISTERS_SUSPEND : Z := 0.

Section tcb_inv.
Context `{Config} `{CSpaceDeps} `{DeletionFuel}.

Definition FRAME_REG_NUM : Z := Z.of_nat (length FRAME_REGISTERS).
Definition GP_REG_NUM : Z := Z.of_nat (length GP_REGISTERS).

(** ** Registers *)

(** A [while] loop that counts [i] up from [a] while [i < b]; the result is
    the value of [i] after it. *)
Definition count_up (a b : Z) (body : Z -> K unit) : K Z :=
  for_between a b body ;;; ret (Z.max a b).

Definition invoke_tcb_read_registers (src suspend_source n : Z) (call : bool) : K exception_t :=
  let* thread := cur_thread in
  when (negb (suspend_source =? 0)) (cancel_ipc src ;;; suspend src) ;;;
  when call
    (let* op_ipc_buffer := lookup_mut_ipc_buffer thread true in
     set_register thread Badge 0 ;;;
     let* i := count_up 0 (Z.min n (Z.min FRAME_REG_NUM MSG_REGISTER_NUM)) (fun i =>
                 let* w := get_register src (Frame i) in set_register thread (Msg i) w) in
     let* j := match op_ipc_buffer with
               | Some buf =>
                   count_up i (Z.min n FRAME_REG_NUM) (fun i =>
                     let* w := get_register src (Frame i) in buffer_set_msg buf i w)
               | None => ret i
               end in
     let* i := count_up 0 (Z.min GP_REG_NUM (Z.min (n - FRAME_REG_NUM) (MSG_REGISTER_NUM - FRAME_REG_NUM)))
                 (fun i => let* w := get_register src (GP i) in
                           set_register thread (Msg (i +w FRAME_REG_NUM)) w) in
     let* i := match op_ipc_buffer with
               | Some buf =>
                   count_up i (Z.min GP_REG_NUM (n - FRAME_REG_NUM)) (fun i =>
                     let* w := get_register src (GP i) in buffer_set_msg buf (i +w FRAME_REG_NUM) w)
               | None => ret i
               end in
     set_register thread MsgInfo (messageInfo_new 0 0 0 (i +w j))) ;;;
  set_thread_state thread ThreadStateRunning ;;;
  ret EXCEPTION_NONE.

Definition invoke_tcb_write_registers (dest resumeTarget n buffer : Z) : K exception_t :=
  let n := Z.min n (FRAME_REG_NUM +w GP_REG_NUM) in
  for_between 0 (Z.min FRAME_REG_NUM n) (fun i =>
    let* w := get_syscall_arg (i +w 2) buffer in set_register dest (Frame i) w) ;;;
  for_between 0 (Z.min GP_REG_NUM (n - FRAME_REG_NUM)) (fun i =>
    let* w := get_syscall_arg ((i +w FRAME_REG_NUM) +w 2) buffer in set_register dest (GP i) w) ;;;
  let* ip := get_register dest FaultIP in
  set_register dest NextIP ip ;;;
  when (negb (resumeTarget =? 0))
    (let* t := get_tcb dest in
     when (is_stopped t) (cancel_ipc dest) ;;;
     restart dest) ;;;
  let* cur := is_current dest in
  when cur reschedule_required ;;;
  ret EXCEPTION_NONE.

(** The flag for the integer registers is not used, and the frame flag copies
    the general purpose registers. *)
Definition invoke_tcb_copy_registers (dest src suspendSource resumeTarget transferFrame
    transferInteger : Z) : K exception_t :=
  when (negb (suspendSource =? 0)) (cancel_ipc src ;;; suspend src) ;;;
  when (negb (resumeTarget =? 0)) (cancel_ipc dest ;;; restart dest) ;;;
  when (negb (transferFrame =? 0))
    (for_between 0 GP_REG_NUM (fun i =>
       let* w := get_register src (GP i) in set_register dest (GP i) w)) ;;;
  let* cur := is_current dest in
  when cur reschedule_required ;;;
  ret EXCEPTION_NONE.

(** ** Other invocations *)

Definition invoke_tcb_suspend (thread : Z) : K exception_t :=
  cancel_ipc thread ;;; suspend thread ;;; ret EXCEPTION_NONE.

Definition invoke_tcb_resume (thread : Z) : K exception_t :=
  let* t := get_tcb thread in
  when (is_stopped t) (cancel_ipc thread) ;;;
  restart thread ;;;
  ret EXCEPTION_NONE.

Definition invoke_tcb_set_mcp (target mcp : Z) : K exception_t :=
  set_mc_priority target mcp ;;; ret EXCEPTION_NONE.

Definition invoke_tcb_set_priority (target prio : Z) : K exception_t :=
  set_priority target prio ;;; ret EXCEPTION_NONE.

(** Emptying slot [index] of the thread and putting [newCap] there, if the
    capabilities it was derived from and invoked through are still in place
    ([install_tcb_cap]; [invoke_tcb_set_space] does the same inline). *)
Definition install_tcb_cap (target : Z) (tCap : cap) (slot index : Z) (newCap : cap) (srcSlot : Z)
    : K exception_t :=
  let rootSlot := get_cspace target index in
  check (delete_all deletion_fuel rootSlot true) in
  let* src_cap := slot_cap srcSlot in
  let* same_src := lift_res (same_object_as newCap src_cap) in
  when same_src
    (let* c := slot_cap slot in
     let* same_tcb := lift_res (same_object_as tCap c) in
     when same_tcb (on_ctes (cte_insert newCap srcSlot rootSlot))) ;;;
  ret EXCEPTION_NONE.

Definition invoke_tcb_set_space (target slot fault_ep : Z) (croot_new_cap : cap) (croot_src_slot : Z)
    (vroot_new_cap : cap) (vroot_src_slot : Z) : K exception_t :=
  let target_cap := cap_thread_cap target in
  mod_tcb target (fun t => t <| TCB_FAULT_HANDLER := fault_ep |>) ;;;
  check (install_tcb_cap target target_cap slot TCB_CTABLE croot_new_cap croot_src_slot) in
  install_tcb_cap target target_cap slot TCB_VTABLE vroot_new_cap vroot_src_slot.

(** One of the updates of [invoke_tcb_thread_control_caps]. *)
Definition update_tcb_cap (target slot index : Z) (newCap : cap) (srcSlot : option Z) : K exception_t :=
  match srcSlot with
  | Some src => install_tcb_cap target (cap_thread_cap target) slot index newCap src
  | None => ret EXCEPTION_NONE
  end.

Definition has_flag (flags flag : Z) : bool := negb (Z.land flags flag =? 0).

Definition invoke_tcb_thread_control_caps (target slot : Z) (fh_newCap : cap) (fh_srcSlot : option Z)
    (th_newCap : cap) (th_srcSlot : option Z) (croot_new_cap : cap) (croot_src_slot : option Z)
    (vroot_new_cap : cap) (vroot_src_slot : option Z) (updateFlags : Z) : K exception_t :=
  check (if has_flag updateFlags THREAD_CONTROL_CAPS_UPDATE_FAULT
         then update_tcb_cap target slot TCB_FAULT_HANDLER_SLOT fh_newCap fh_srcSlot
         else ret EXCEPTION_NONE) in
  check (if has_flag updateFlags THREAD_CONTROL_CAPS_UPDATE_TIMEOUT
         then update_tcb_cap target slot TCB_TIMEOUT_HANDLER th_newCap th_srcSlot
         else ret EXCEPTION_NONE) in
  if has_flag updateFlags THREAD_CONTROL_CAPS_UPDATE_SPACE then
    check (update_tcb_cap target slot TCB_CTABLE croot_new_cap croot_src_slot) in
    update_tcb_cap target slot TCB_VTABLE vroot_new_cap vroot_src_slot
  else ret EXCEPTION_NONE.

Definition invoke_tcb_set_ipc_buffer (target slot buffer_addr : Z) (buffer_cap : cap)
    (buffer_src_slot : option Z) : K exception_t :=
  let buffer_slot := get_cspace target TCB_BUFFER in
  check (delete_all deletion_fuel buffer_slot true) in
  mod_tcb target (fun t => t <| tcbIPCBuffer := buffer_addr |>) ;;;
  match buffer_src_slot with
  | Some src =>
      let* src_cap := slot_cap src in
      let* same_src := lift_res (same_object_as buffer_cap src_cap) in
      when same_src
        (let* c := slot_cap slot in
         let* same_tcb := lift_res (same_object_as (cap_thread_cap target) c) in
         when same_tcb (on_ctes (cte_insert buffer_cap src buffer_slot)))
  | None => ret tt
  end ;;;
  let* cur := is_current target in
  when cur reschedule_required ;;;
  ret EXCEPTION_NONE.

Definition invoke_tcb_bind_notification (tcb ntfn : Z) : K exception_t :=
  do_bind_notification tcb ntfn ;;; ret EXCEPTION_NONE.
Definition invoke_tcb_unbind_notification (tcb : Z) : K exception_t :=
  safe_unbind_notification tcb ;;; ret EXCEPTION_NONE.

Definition invoke_tcb_set_tls_base (thread base : Z) : K exception_t :=
  set_register thread TlsBase base ;;;
  let* cur := is_current thread in
  when cur reschedule_required ;;;
  ret EXCEPTION_NONE.

(** ** Decoding *)

Definition decode_read_registers (thread length : Z) (call : bool) (buffer : Z) : K exception_t :=
  if length <? 2 then truncated_message else
  let* flags := get_syscall_arg 0 buffer in
  let* n := get_syscall_arg 1 buffer in
  if (n <? 1) || (FRAME_REG_NUM +w GP_REG_NUM <? n) then range_error 1 (FRAME_REG_NUM +w GP_REG_NUM) else
  let* cur := is_current thread in
  if (cur : bool) then illegal_operation else
  set_cur_restart ;;;
  invoke_tcb_read_registers thread (Z.land flags (bit READ_REGISTERS_SUSPEND)) n call.

Definition decode_write_registers (thread length buffer : Z) : K exception_t :=
  if length <? 2 then truncated_message else
  let* flags := get_syscall_arg 0 buffer in
  let* w := get_syscall_arg 1 buffer in
  if length -w 2 <? w then truncated_message else
  let* cur := is_current thread in
  if (cur : bool) then illegal_operation else
  set_cur_restart ;;;
  invoke_tcb_write_registers thread (Z.land flags (bit 0)) w buffer.

(** The missing extra capability panics; the tag that is tested is that of the
    invoked capability, so the source capability is read as a thread
    capability whatever it is. *)
Definition decode_copy_registers (thread buffer : Z) : K exception_t :=
  let* flags := get_syscall_arg 0 buffer in
  let* source_slot := extra_cap 0 in
  let* source_cap := slot_cap source_slot in
  match source_cap with
  | cap_thread_cap src_tcb =>
      invoke_tcb_copy_registers thread src_tcb
        (Z.land flags (bit COPY_REGISTERS_SUSPEND_SOURCE))
        (Z.land flags (bit COPY_REGISTERS_RESUME_TARGET))
        (Z.land flags (bit COPY_REGISTERS_TRANSFER_FRAME))
        (Z.land flags (bit COPY_REGISTERS_TRANSFER_INTEGER))
  | _ => fail EUndef
  end.

(** [decode_set_space_args]; every caller unwraps its result before looking at
    the error. *)
Definition decode_set_space_args (root_data : Z) (root_cap : cap) (root_slot : Z) : K (exception_t + cap) :=
  let c := if negb (root_data =? 0) then update_data root_cap false root_data else root_cap in
  let* dc_ret := on_ctes (derive_cap root_slot c) in
  if negb (exc_ok (dc_status dc_ret)) then
    let* _ := illegal_operation in ret (inl (dc_status dc_ret))
  else ret (inr (dc_capability dc_ret)).

Definition set_space_args_unwrap (root_data : Z) (root_cap : cap) (root_slot : Z) : K cap :=
  let* r := decode_set_space_args root_data root_cap root_slot in
  match r with inr c => ret c | inl _ => fail EPanic end.

(** The new IPC buffer of [decode_tcb_configure] and [decode_set_ipc_buffer]:
    its address and the extra capability [index]. *)
Definition decode_buffer_cap (addr index : Z) : K (exception_t + (option Z * cap)) :=
  if addr =? 0 then ret (inr (None, cap_null_cap)) else
  let* slot := extra_cap index in
  let* c := slot_cap slot in
  let* dc_ret := on_ctes (derive_cap slot c) in
  if negb (exc_ok (dc_status dc_ret)) then
    let* _ := illegal_operation in ret (inl (dc_status dc_ret))
  else
    let* status := check_ipc_buffer_vaild addr (dc_capability dc_ret) in
    if negb (exc_ok status) then ret (inl status)
    else ret (inr (Some slot, dc_capability dc_ret)).

(** The CSpace and VSpace roots shared by configure and set-space: the checks
    from the long-running deletion to the vspace root. *)
Definition decode_roots (target croot_data croot_slot vroot_data vroot_slot : Z)
    (k : cap -> cap -> K exception_t) : K exception_t :=
  let* croot_cap := slot_cap croot_slot in
  let* vroot_cap := slot_cap vroot_slot in
  let* busy_c := on_ctes (is_long_running_delete (get_cspace target TCB_CTABLE)) in
  let* busy_v := (if (busy_c : bool) then ret true
                  else on_ctes (is_long_running_delete (get_cspace target TCB_VTABLE))) in
  if (busy_v : bool) then illegal_operation else
  let* croot := set_space_args_unwrap croot_data croot_cap croot_slot in
  match croot with
  | cap_cnode_cap _ =>
      let* vroot := set_space_args_unwrap vroot_data vroot_cap vroot_slot in
      if negb (is_valid_vtable_root vroot) then illegal_operation else k croot vroot
  | _ => illegal_operation
  end.

Definition TCBCONFIGURE_ARGS : Z := if kernel_mcs then 4 else 3.

Definition decode_tcb_configure (target length target_slot buffer : Z) : K exception_t :=
  let* m0 := no_extra_cap 0 in
  let* m1 := no_extra_cap 1 in
  let* m2 := no_extra_cap 2 in
  if (length <? TCBCONFIGURE_ARGS) || m0 || m1 || m2 then truncated_message else
  let first := if kernel_mcs then 0 else 1 in
  let* fault_ep := (if kernel_mcs then ret 0 else get_syscall_arg 0 buffer) in
  let* croot_data := get_syscall_arg first buffer in
  let* vroot_data := get_syscall_arg (first + 1) buffer in
  let* new_buffer_addr := get_syscall_arg (first + 2) buffer in
  let* croot_slot := extra_cap 0 in
  let* vroot_slot := extra_cap 1 in
  let* b := decode_buffer_cap new_buffer_addr 2 in
  match b with
  | inl status => ret status
  | inr (buffer_slot, buffer_cap) =>
      decode_roots target croot_data croot_slot vroot_data vroot_slot (fun croot vroot =>
        set_cur_restart ;;;
        check (if kernel_mcs then
                 invoke_tcb_thread_control_caps target target_slot cap_null_cap None cap_null_cap None
                   croot (Some croot_slot) vroot (Some vroot_slot)
                   (Z.lor THREAD_CONTROL_CAPS_UPDATE_SPACE THREAD_CONTROL_CAPS_UPDATE_IPC_BUFFER)
               else
                 invoke_tcb_set_space target target_slot fault_ep croot croot_slot vroot vroot_slot) in
        invoke_tcb_set_ipc_buffer target target_slot new_buffer_addr buffer_cap buffer_slot)
  end.

(** The authority capability of the priority invocations. *)
Definition with_auth_tcb (k : Z -> K exception_t) : K exception_t :=
  let* slot := extra_cap 0 in
  let* auth_cap := slot_cap slot in
  match auth_cap with
  | cap_thread_cap auth_tcb => k auth_tcb
  | _ => invalid_capability 1
  end.

Definition decode_set_priority (target length buffer : Z) : K exception_t :=
  let* missing := no_extra_cap 0 in
  if (length <? 1) || missing then truncated_message else
  let* new_prio := get_syscall_arg 0 buffer in
  with_auth_tcb (fun auth_tcb =>
    check (check_prio new_prio auth_tcb) in
    set_cur_restart ;;;
    invoke_tcb_set_priority target new_prio).

Definition decode_set_mc_priority (target length buffer : Z) : K exception_t :=
  let* missing := no_extra_cap 0 in
  if (length <? 1) || missing then truncated_message else
  let* new_mcp := get_syscall_arg 0 buffer in
  with_auth_tcb (fun auth_tcb =>
    check (check_prio new_mcp auth_tcb) in
    set_cur_restart ;;;
    invoke_tcb_set_mcp target new_mcp).

(** [decode_set_sched_params] without MCS. *)
Definition decode_set_sched_params (target length buffer : Z) : K exception_t :=
  let* missing := no_extra_cap 0 in
  if (length <? 2) || missing then truncated_message else
  let* new_mcp := get_syscall_arg 0 buffer in
  let* new_prio := get_syscall_arg 1 buffer in
  with_auth_tcb (fun auth_tcb =>
    check (check_prio new_mcp auth_tcb) in
    check (check_prio new_prio auth_tcb) in
    set_cur_restart ;;;
    let* _ := invoke_tcb_set_mcp target new_mcp in
    invoke_tcb_set_priority target new_prio).

Definition set_invalid_capability : K unit :=
  let* _ := syscall_error (with_type SEL4_INVALID_CAPABILITY) in ret tt.

Definition valid_fault_handler (c : cap) : K bool :=
  match c with
  | cap_endpoint_cap e =>
      if (capCanSend e =? 0) || ((capCanGrant e =? 0) && (capCanGrantReply e =? 0))
      then set_invalid_capability ;;; ret false
      else ret true
  | cap_null_cap => ret true
  | _ => set_invalid_capability ;;; ret false
  end.

(** The check of the scheduling context argument: whether there is one. *)
Definition decode_sc_arg (tcb : Z) (sc_cap : cap) : K (exception_t + bool) :=
  let stop (m : K exception_t) := let* status := m in ret (inl status) in
  let* t := get_tcb tcb in
  match sc_cap with
  | cap_sched_context_cap data =>
      let* sc := get_sc (capSCPtr data) in
      if negb (tcbSchedContext t =? 0) then stop illegal_operation
      else if negb (scTcb sc =? 0) then stop illegal_operation
      else
        let* now := gets ksCurTime in
        let* released := (if is_blocked t then on_sc (capSCPtr data) (sc_released now) else ret true) in
        if negb released then stop illegal_operation else ret (inr true)
  | cap_null_cap =>
      let* cur := is_current tcb in
      if (cur : bool) then stop illegal_operation else ret (inr false)
  | _ => stop (invalid_capability 2)
  end.

(** [decode_set_sched_params] with MCS. *)
Definition decode_set_sched_params_mcs (tcb length slot buffer : Z) : K exception_t :=
  let* m0 := no_extra_cap 0 in
  let* m1 := no_extra_cap 1 in
  let* m2 := no_extra_cap 2 in
  if (length <? 2) || m0 || m1 || m2 then truncated_message else
  let* new_mcp := get_syscall_arg 0 buffer in
  let* new_prio := get_syscall_arg 1 buffer in
  let* sc_slot := extra_cap 1 in
  let* sc_cap := slot_cap sc_slot in
  let* fh_slot := extra_cap 2 in
  let* fh_cap := slot_cap fh_slot in
  with_auth_tcb (fun auth_tcb =>
    check (check_prio new_mcp auth_tcb) in
    check (check_prio new_prio auth_tcb) in
    let* r := decode_sc_arg tcb sc_cap in
    match r with
    | inl status => ret status
    | inr have_sc =>
        let* valid := valid_fault_handler fh_cap in
        if negb valid then invalid_capability 3 else
        set_cur_restart ;;;
        check (install_tcb_cap tcb (cap_thread_cap tcb) slot TCB_FAULT_HANDLER_SLOT fh_cap fh_slot) in
        let* _ := invoke_tcb_set_mcp tcb new_mcp in
        let* _ := invoke_tcb_set_priority tcb new_prio in
        let* t := get_tcb tcb in
        (if have_sc then
           let* sc_cap := slot_cap sc_slot in
           match sc_cap with
           | cap_sched_context_cap data =>
               when (negb (capSCPtr data =? tcbSchedContext t)) (sched_context_bind_tcb (capSCPtr data) tcb)
           | _ => fail EUndef
           end
         else
           when (negb (tcbSchedContext t =? 0)) (sched_context_unbind_tcb (tcbSchedContext t) tcb)) ;;;
        ret EXCEPTION_NONE
    end).

Definition decode_set_ipc_buffer (target length slot buffer : Z) : K exception_t :=
  let* missing := no_extra_cap 0 in
  if (length <? 1) || missing then truncated_message else
  let* buffer_addr := get_syscall_arg 0 buffer in
  let* b := decode_buffer_cap buffer_addr 0 in
  match b with
  | inl status => ret status
  | inr (buffer_slot, buffer_cap) =>
      set_cur_restart ;;;
      invoke_tcb_set_ipc_buffer target slot buffer_addr buffer_cap buffer_slot
  end.

(** [decode_set_space] without MCS. *)
Definition decode_set_space (target length slot buffer : Z) : K exception_t :=
  let* m0 := no_extra_cap 0 in
  let* m1 := no_extra_cap 1 in
  if (length <? 3) || m0 || m1 then truncated_message else
  let* fault_ep := get_syscall_arg 0 buffer in
  let* croot_data := get_syscall_arg 1 buffer in
  let* vroot_data := get_syscall_arg 2 buffer in
  let* croot_slot := extra_cap 0 in
  let* vroot_slot := extra_cap 1 in
  decode_roots target croot_data croot_slot vroot_data vroot_slot (fun croot vroot =>
    set_cur_restart ;;;
    invoke_tcb_set_space target slot fault_ep croot croot_slot vroot vroot_slot).

(** [decode_set_space] with MCS. *)
Definition decode_set_space_mcs (target length slot buffer : Z) : K exception_t :=
  let* m0 := no_extra_cap 0 in
  let* m1 := no_extra_cap 1 in
  let* m2 := no_extra_cap 2 in
  if (length <? 2) || m0 || m1 || m2 then truncated_message else
  let* croot_data := get_syscall_arg 0 buffer in
  let* vroot_data := get_syscall_arg 1 buffer in
  let* fh_slot := extra_cap 0 in
  let* fh_cap := slot_cap fh_slot in
  let* croot_slot := extra_cap 1 in
  let* vroot_slot := extra_cap 2 in
  decode_roots target croot_data croot_slot vroot_data vroot_slot (fun croot vroot =>
    let* valid := valid_fault_handler fh_cap in
    if negb valid then syscall_error (fun e => e <| invalidCapNumber := 1 |>) else
    set_cur_restart ;;;
    invoke_tcb_thread_control_caps target slot fh_cap (Some fh_slot) cap_null_cap None
      croot (Some croot_slot) vroot (Some vroot_slot)
      (Z.lor THREAD_CONTROL_CAPS_UPDATE_SPACE THREAD_CONTROL_CAPS_UPDATE_FAULT)).

(** [ntfnBoundTCB] is not looked at. *)
Definition decode_bind_notification (tcb : Z) : K exception_t :=
  let* missing := no_extra_cap 0 in
  if (missing : bool) then truncated_message else
  let* t := get_tcb tcb in
  if negb (tcbBoundNotification t =? 0) then illegal_operation else
  let* slot := extra_cap 0 in
  let* c := slot_cap slot in
  match c with
  | cap_notification_cap ntfn_cap =>
      let ntfn := capNtfnPtr ntfn_cap in
      if capNtfnCanReceive ntfn_cap =? 0 then illegal_operation else
      let* n := get_ntfn ntfn in
      if negb (ntfnQueue_head n =? 0) || negb (ntfnQueue_tail n =? 0) then illegal_operation else
      set_cur_restart ;;;
      invoke_tcb_bind_notification tcb ntfn
  | _ => illegal_operation
  end.

Definition decode_unbind_notification (tcb : Z) : K exception_t :=
  let* t := get_tcb tcb in
  if tcbBoundNotification t =? 0 then illegal_operation else
  set_cur_restart ;;;
  invoke_tcb_unbind_notification tcb.

(** A truncated message sets no error type. *)
Definition decode_set_timeout_endpoint (tcb slot : Z) : K exception_t :=
  let* missing := no_extra_cap 0 in
  if (missing : bool) then ret EXCEPTION_SYSCALL_ERROR else
  let* thSlot := extra_cap 0 in
  let* thCap := slot_cap thSlot in
  let* valid := valid_fault_handler thCap in
  if negb valid then syscall_error (fun e => e <| invalidCapNumber := 1 |>) else
  set_cur_restart ;;;
  invoke_tcb_thread_control_caps tcb slot cap_null_cap None thCap (Some thSlot) cap_null_cap None
    cap_null_cap None THREAD_CONTROL_CAPS_UPDATE_TIMEOUT.

Definition decode_set_tls_base (tcb length buffer : Z) : K exception_t :=
  if length <? 1 then truncated_message else
  let* base := get_syscall_arg 0 buffer in
  set_cur_restart ;;;
  invoke_tcb_set_tls_base tcb base.

Definition decode_tcb_invocation (invLabel : MessageLabel) (length tcb slot : Z) (call : bool) (buffer : Z)
    : K exception_t :=
  match invLabel with
  | TCBReadRegisters => decode_read_registers tcb length call buffer
  | TCBWriteRegisters => decode_write_registers tcb length buffer
  | TCBCopyRegisters => decode_copy_registers tcb buffer
  | TCBSuspend => set_cur_restart ;;; invoke_tcb_suspend tcb
  | TCBResume => set_cur_restart ;;; invoke_tcb_resume tcb
  | TCBConfigure => decode_tcb_configure tcb length slot buffer
  | TCBSetPriority => decode_set_priority tcb length buffer
  | TCBSetMCPriority => decode_set_mc_priority tcb length buffer
  | TCBSetSchedParams =>
      if kernel_mcs then decode_set_sched_params_mcs tcb length slot buffer
      else decode_set_sched_params tcb length buffer
  | TCBSetIPCBuffer => decode_set_ipc_buffer tcb length slot buffer
  | TCBSetSpace =>
      if kernel_mcs then decode_set_space_mcs tcb length slot buffer
      else decode_set_space tcb length slot buffer
  | TCBBindNotification => decode_bind_notification tcb
  | TCBUnbindNotification => decode_unbind_notification tcb
  | TCBSetTimeoutEndpoint => decode_set_timeout_endpoint tcb slot
  | TCBSetTLSBase => decode_set_tls_base tcb length buffer
  | _ => illegal_operation
  end.

(** ** Domains *)

Definition decode_domain_invocation (invLabel : MessageLabel) (length buffer : Z) : K exception_t :=
  match invLabel with
  | DomainSetSet =>
      if length =? 0 then truncated_message else
      let* domain := get_syscall_arg 0 buffer in
      if 1 <=? domain then invalid_argument 0 else
      let* missing := no_extra_cap 0 in
      if (missing : bool) then truncated_message else
      let* slot := extra_cap 0 in
      let* c := slot_cap slot in
      match c with
      | cap_thread_cap tcb =>
          set_cur_restart ;;;
          set_domain tcb domain ;;;
          ret EXCEPTION_NONE
      | _ => invalid_argument 1
      end
  | _ => illegal_operation
  end.
End tcb_inv.
