(* ===== verification/SchedInv.v ===== *)
(** * Invocations of scheduling contexts and of scheduling control
    (kernel/src/syscall/invocation/decode/decode_sched_invocation.rs,
    invoke_sched.rs; MCS builds) *)

From S2P Require Import Prelude Monad Config Objects State CapOps CSpace VSpace.
From S2P Require Import Refill TcbQueue Sched Tcb SchedCtx Schedule Ipc Finalise Syscall.

Definition SCHED_CONTEXT_SPORADIC : Z := 1.

Section sched_inv.
Context `{Config}.

(** ** Invocations *)

Definition invokeSchedContext_UnbindObject (sc : Z) (c : cap) : K exception_t :=
  match c with
  | cap_thread_cap _ =>
      let* s := get_sc sc in sched_context_unbind_tcb sc (scTcb s)
  | cap_notification_cap _ => sched_context_unbind_ntfn sc
  | _ => fail EPanic
  end ;;;
  ret EXCEPTION_NONE.

Definition invoke_sched_context_bind (sc : Z) (c : cap) : K exception_t :=
  match c with
  | cap_thread_cap tcb => sched_context_bind_tcb sc tcb
  | cap_notification_cap n => sched_context_bind_ntfn sc (capNtfnPtr n)
  | _ => fail EPanic
  end ;;;
  ret EXCEPTION_NONE.

Definition invoke_sched_context_unbind (sc : Z) : K exception_t :=
  sched_context_unbind_all_tcbs sc ;;;
  sched_context_unbind_ntfn sc ;;;
  let* s := get_sc sc in
  when (negb (scReply s =? 0))
    (mod_reply (scReply s) (fun r => r <| replyNext := call_stack_zero |>) ;;;
     mod_sc sc (set_scReply 0)) ;;;
  ret EXCEPTION_NONE.

Definition invoke_sched_context_consumed (sc : Z) : K exception_t :=
  set_consumed sc ;;; ret EXCEPTION_NONE.

Definition invoke_sched_context_yield_to (sc : Z) : K exception_t :=
  let* s := get_sc sc in
  when (negb (scYieldFrom s =? 0))
    (schedContext_completeYieldTo (scYieldFrom s) ;;;
     let* s := get_sc sc in kassert (scYieldFrom s =? 0)) ;;;
  sched_context_resume sc ;;;
  let* s := get_sc sc in
  let tcb := scTcb s in
  let* b := is_schedulable tcb in
  let* return_now :=
    (if (b : bool) then
       let* cur := cur_thread in
       let* t := get_tcb tcb in
       let* c := get_tcb cur in
       if tcbPriority t <? tcbPriority c then
         sched_dequeue tcb ;;; sched_enqueue tcb ;;; ret true
       else
         mod_tcb cur (fun t => t <| tcbYieldTo := sc |>) ;;;
         mod_sc sc (fun s => s <| scYieldFrom := cur |>) ;;;
         sched_dequeue tcb ;;;
         sched_enqueue cur ;;;
         sched_enqueue tcb ;;;
         reschedule_required ;;;
         ret false
     else ret true) in
  when return_now (set_consumed sc) ;;;
  ret EXCEPTION_NONE.

(** On a single core [cpu_id()] is 0. *)
Definition invoke_sched_control_configure_flags (target core budget period max_refills badge flags : Z)
    : K exception_t :=
  mod_sc target (fun sc => sc <| scBadge := badge |>
                              <| scSporadic := negb (Z.land flags SCHED_CONTEXT_SPORADIC =? 0) |>) ;;;
  let* sc := get_sc target in
  when (negb (scTcb sc =? 0))
    (release_remove (scTcb sc) ;;;
     sched_dequeue (scTcb sc) ;;;
     let* current := sc_is_current target in
     when current
       (let* b := check_budget in
        kassert b ;;;
        commit_time)) ;;;
  let* now := gets ksCurTime in
  let* sc := get_sc target in
  let* running :=
    (if (0 <? scRefillMax sc) && negb (scTcb sc =? 0)
     then let* t := get_tcb (scTcb sc) in ret (is_runnable t) else ret false) in
  (if budget =? period then on_sc target (refill_new now MIN_REFILLS budget 0)
   else if (running : bool) then on_sc target (refill_update now period budget max_refills)
   else on_sc target (refill_new now max_refills budget period)) ;;;
  let* sc := get_sc target in
  kassert (0 <? scRefillMax sc) ;;;
  when (negb (scTcb sc =? 0))
    (sched_context_resume target ;;;
     let* t := get_tcb (scTcb sc) in
     let* cur := cur_thread in
     (if core =? 0 then
        when (is_runnable t && negb (scTcb sc =? cur)) (possible_switch_to (scTcb sc))
      else when (is_runnable t) (sched_enqueue (scTcb sc))) ;;;
     when (scTcb sc =? cur) reschedule_required) ;;;
  ret EXCEPTION_NONE.

(** ** Decoding *)

Definition decode_sched_context_unbind_object (sc : Z) : K exception_t :=
  let* missing := no_extra_cap 0 in
  if (missing : bool) then truncated_message else
  let* slot := extra_cap 0 in
  let* c := slot_cap slot in
  let* s := get_sc sc in
  let* cur := cur_thread in
  let go := set_cur_restart ;;; invokeSchedContext_UnbindObject sc c in
  match c with
  | cap_thread_cap tcb =>
      if negb (scTcb s =? tcb) then illegal_operation
      else if scTcb s =? cur then illegal_operation
      else go
  | cap_notification_cap n =>
      if negb (scNotification s =? capNtfnPtr n) then illegal_operation else go
  | _ => invalid_capability 1
  end.

Definition decode_sched_context_bind (sc : Z) : K exception_t :=
  let* missing := no_extra_cap 0 in
  if (missing : bool) then truncated_message else
  let* slot := extra_cap 0 in
  let* c := slot_cap slot in
  let* s := get_sc sc in
  match c with
  | cap_thread_cap tcb =>
      if negb (scTcb s =? 0) then illegal_operation else
      let* t := get_tcb tcb in
      if negb (tcbSchedContext t =? 0) then illegal_operation else
      let* now := gets ksCurTime in
      let* released := (if is_blocked t then on_sc sc (sc_released now) else ret true) in
      if negb released then illegal_operation else
      set_cur_restart ;;;
      invoke_sched_context_bind sc c
  | cap_notification_cap n =>
      if negb (scNotification s =? 0) then illegal_operation else
      let* ntfn := get_ntfn (capNtfnPtr n) in
      if negb (ntfnSchedContext ntfn =? 0) then illegal_operation else
      set_cur_restart ;;;
      invoke_sched_context_bind sc c
  | _ => invalid_capability 1
  end.

Definition decode_sched_context_yield_to (sc : Z) : K exception_t :=
  let* thread := cur_thread in
  let* s := get_sc sc in
  if scTcb s =? 0 then illegal_operation
  else if scTcb s =? thread then illegal_operation
  else
    let* t := get_tcb (scTcb s) in
    let* c := get_tcb thread in
    if tcbMCP c <? tcbPriority t then illegal_operation else
    kassert (tcbYieldTo c =? 0) ;;;
    set_thread_state thread ThreadStateRestart ;;;
    invoke_sched_context_yield_to sc.

Definition decode_sched_context_invocation (inv_label : MessageLabel) (c : sched_context_cap) : K exception_t :=
  let sc := capSCPtr c in
  kassert (negb (sc =? 0)) ;;;
  match inv_label with
  | SchedContextConsumed => set_cur_restart ;;; invoke_sched_context_consumed sc
  | SchedContextBind => decode_sched_context_bind sc
  | SchedContextUnbindObject => decode_sched_context_unbind_object sc
  | SchedContextUnbind =>
      let* s := get_sc sc in
      let* cur := cur_thread in
      if scTcb s =? cur then illegal_operation
      else set_cur_restart ;;; invoke_sched_context_unbind sc
  | SchedContextYieldTo => decode_sched_context_yield_to sc
  | _ => illegal_operation
  end.

(** The range checks of [SchedControlConfigureFlags]. *)
Definition check_sched_params (target : sched_context_cap) (budget_us period_us extra_refills : Z) : K exception_t :=
  let budget_ticks := us_to_ticks budget_us in
  let period_ticks := us_to_ticks period_us in
  if (max_period_us <? budget_us) || (budget_ticks <? min_budget) then range_error min_budget_us max_period_us
  else if (max_period_us <? period_us) || (period_ticks <? min_budget)
  then range_error min_budget_us max_period_us
  else if period_ticks <? budget_ticks then range_error min_budget_us period_us
  else if refill_absolute_max target <? extra_refills +w MIN_REFILLS
  then range_error 0 (refill_absolute_max target -w MIN_REFILLS)
  else ret EXCEPTION_NONE.

(** An illegal label records the error and returns [EXCEPTION_NONE]. *)
Definition decode_sched_control_invocation (inv_label : MessageLabel) (length core buffer : Z) : K exception_t :=
  match inv_label with
  | SchedControlConfigureFlags =>
      let* missing := no_extra_cap 0 in
      if (missing : bool) then truncated_message else
      if length <? TIME_ARG_SIZE * 2 + 3 then truncated_message else
      let* budget_us := get_syscall_arg 0 buffer in
      let* period_us := get_syscall_arg TIME_ARG_SIZE buffer in
      let* extra_refills := get_syscall_arg (TIME_ARG_SIZE * 2) buffer in
      let* badge := get_syscall_arg (TIME_ARG_SIZE * 2 + 1) buffer in
      let* flags := get_syscall_arg (TIME_ARG_SIZE * 2 + 2) buffer in
      let* slot := extra_cap 0 in
      let* targetCap := slot_cap slot in
      match targetCap with
      | cap_sched_context_cap target =>
          check (check_sched_params target budget_us period_us extra_refills) in
          set_cur_restart ;;;
          invoke_sched_control_configure_flags (capSCPtr target) core (us_to_ticks budget_us)
            (us_to_ticks period_us) (extra_refills +w MIN_REFILLS) badge flags
      | _ => invalid_capability 1
      end
  | _ => let* _ := illegal_operation in ret EXCEPTION_NONE
  end.
End sched_inv.
