(* ===== verification/IrqInv.v ===== *)
(** * Invocations of interrupt capabilities and interrupt delivery
    (decode_irq_invocation.rs, invoke_irq.rs, kernel/src/interrupt/handler.rs,
    [check_irq] and [arch_decode_irq_control_invocation] of decode/arch) *)

From S2P Require Import Prelude Monad Config Objects State CapOps CSpace VSpace.
From S2P Require Import Refill TcbQueue Sched Tcb SchedCtx Schedule Ipc Interrupt Finalise Syscall.

Section irq_inv.
Context `{Config}.

Definition revoke_first : K exception_t := syscall_error (with_type SEL4_REVOKE_FIRST).

(** ** Invocations *)

Definition invoke_irq_control (irq handler_slot control_slot : Z) : K exception_t :=
  set_irq_state_by_index IRQSignal irq ;;;
  on_ctes (cte_insert (cap_irq_handler_cap irq) control_slot handler_slot) ;;;
  ret EXCEPTION_NONE.

Definition invoke_set_irq_handler `{CSpaceDeps} (irq : Z) (c : cap) (slot : Z) : K unit :=
  let* irq_slot := get_irq_handler_slot irq in
  delete_one irq_slot ;;;
  on_ctes (cte_insert c slot irq_slot).

Definition invoke_clear_irq_handler `{CSpaceDeps} (irq : Z) : K unit :=
  let* irq_slot := get_irq_handler_slot irq in delete_one irq_slot.

(** ** Decoding *)

Definition check_irq (irq : Z) : K exception_t :=
  match target_arch with
  | RISCV64 =>
      if (MAX_IRQ <? irq) || (irq =? IRQ_INVALID) then range_error 1 MAX_IRQ else ret EXCEPTION_NONE
  | AARCH64 => if MAX_IRQ <? irq then range_error 0 MAX_IRQ else ret EXCEPTION_NONE
  end.

Definition is_trigger_label (label : MessageLabel) : bool :=
  match label with
  | RISCVIRQIssueIRQHandlerTrigger | ARMIRQIssueIRQHandlerTrigger => true
  | _ => false
  end.

(** The destination slot is not checked to be empty. *)
Definition arch_decode_irq_control_invocation (label : MessageLabel) (length src_slot buffer : Z)
    : K exception_t :=
  if is_trigger_label label then
    let* missing := (if length <? 4 then ret true else no_extra_cap 0) in
    if (missing : bool) then truncated_message else
    let* irq := get_syscall_arg 0 buffer in
    let* _trigger := get_syscall_arg 1 buffer in
    let* index := get_syscall_arg 2 buffer in
    let* depth := get_syscall_arg 3 buffer in
    let* cnode_slot := extra_cap 0 in
    let* cnode_cap := slot_cap cnode_slot in
    check (check_irq irq) in
    let* active := is_irq_active irq in
    if (active : bool) then revoke_first else
    let* lu_ret := lookup_slot_for_cnode_op false cnode_cap index depth in
    if negb (exc_ok (ls_status lu_ret)) then ret (ls_status lu_ret) else
    set_cur_restart ;;;
    invoke_irq_control irq (ls_slot lu_ret) src_slot
  else illegal_operation.

Definition decode_irq_control_invocation (label : MessageLabel) (length src_slot buffer : Z) : K exception_t :=
  match label with
  | IRQIssueIRQHandler =>
      let* missing := (if length <? 3 then ret true else no_extra_cap 0) in
      if (missing : bool) then truncated_message else
      let* irq := get_syscall_arg 0 buffer in
      let* index := get_syscall_arg 1 buffer in
      let* depth := get_syscall_arg 2 buffer in
      let* cnode_slot := extra_cap 0 in
      let* cnode_cap := slot_cap cnode_slot in
      check (check_irq irq) in
      let* active := is_irq_active irq in
      if (active : bool) then revoke_first else
      let* lu_ret := lookup_slot_for_cnode_op false cnode_cap index depth in
      if negb (exc_ok (ls_status lu_ret)) then ret (ls_status lu_ret) else
      let* dest_cap := slot_cap (ls_slot lu_ret) in
      if negb (is_null_cap dest_cap) then delete_first else
      set_cur_restart ;;;
      invoke_irq_control irq (ls_slot lu_ret) src_slot
  | _ => arch_decode_irq_control_invocation label length src_slot buffer
  end.

(** A capability that is no notification is accepted as a handler. *)
Definition decode_irq_handler_invocation `{CSpaceDeps} (label : MessageLabel) (index : Z) : K exception_t :=
  let irq := idx_to_irq index in
  match label with
  | IRQAckIRQ => set_cur_restart ;;; mask_interrupt false irq ;;; ret EXCEPTION_NONE
  | IRQSetIRQHandler =>
      let* missing := no_extra_cap 0 in
      if (missing : bool) then truncated_message else
      let* slot := extra_cap 0 in
      let* ntfn_cap := slot_cap slot in
      if match ntfn_cap with cap_notification_cap n => capNtfnCanSend n =? 0 | _ => false end
      then invalid_capability 0
      else
        set_cur_restart ;;;
        invoke_set_irq_handler irq ntfn_cap slot ;;;
        ret EXCEPTION_NONE
  | IRQClearIRQHandler =>
      set_cur_restart ;;; invoke_clear_irq_handler irq ;;; ret EXCEPTION_NONE
  | _ => illegal_operation
  end.

(** ** Delivery (handler.rs) *)

(** The timer; time stands still while the kernel runs, so the loop of the
    RISC-V [reset_timer] that retries a deadline in the past does not run. *)
Definition RESET_CYCLES : Z := (TIMER_CLOCK_HZ / 1000) *w 2.
Definition set_deadline (deadline : Z) : K unit := modify (fun s => s <| hw_deadline := deadline |>).
Definition reset_timer : K unit :=
  let* now := gets hw_time in set_deadline (now +w RESET_CYCLES).
Definition ack_deadline_irq : K unit := when (negb is_riscv) (set_deadline UINT64_MAX).

Definition handle_interrput `{CSpaceDeps} (irq : Z) : K unit :=
  if MAX_IRQ <? irq then mask_interrupt true irq ;;; ack_interrupt irq
  else
    let* st := get_irq_state irq in
    match st with
    | IRQInactive => mask_interrupt true irq
    | IRQSignal =>
        let* handler_slot := get_irq_handler_slot irq in
        let* handler_cap := slot_cap handler_slot in
        match handler_cap with
        | cap_notification_cap n =>
            when (negb (capNtfnCanSend n =? 0)) (send_signal (capNtfnPtr n) (capNtfnBadge n))
        | _ => ret tt
        end ;;;
        when (negb is_riscv) (mask_interrupt true irq)
    | IRQTimer => if kernel_mcs then ack_deadline_irq ;;; set_reprogram else timer_tick ;;; reset_timer
    | IRQReserved => ret tt
    end ;;;
    ack_interrupt irq.

Definition handle_interrupt_entry `{CSpaceDeps} : K exception_t :=
  when kernel_mcs (update_timestamp ;;; let* _ := check_budget in ret tt) ;;;
  let* irq := get_active_irq in
  when (negb (irq =? IRQ_INVALID)) (handle_interrput irq) ;;;
  schedule ;;;
  activateThread ;;;
  ret EXCEPTION_NONE.
End irq_inv.
