(* ===== verification/MmuInv.v ===== *)
(** * Invocations of address-space capabilities on RISC-V, and what both
    architectures share (decode/arch/riscv64.rs, invoke_mmu_op.rs)

    Capabilities are updated in their slots.  The mapped address of a
    capability is kept in a field of 39 (RISC-V) or 48 bits that reads back
    sign-extended (sel4_common/pbf). *)

From S2P Require Import Prelude Monad Config Objects State CapOps CSpace VSpace VSpaceArm.
From S2P Require Import Refill TcbQueue Sched Tcb SchedCtx Schedule Ipc Interrupt Finalise Syscall.
From S2P Require Import Untyped CNodeInv IrqInv.

(** A [field_high] of [bits] bits, read back. *)
Definition canonical (bits v : Z) : Z :=
  let w := v mod 2 ^ bits in
  if w <? 2 ^ (bits - 1) then w else w + (word_size - 2 ^ bits).

Section mmu_inv.
Context `{Config}.

Definition mod_cap (slot : Z) (f : cap -> cap) : K unit :=
  mod_cte slot (fun c => c <| capability := f (capability c) |>).

Definition frame_address (v : Z) : Z := canonical (match target_arch with RISCV64 => 39 | AARCH64 => 48 end) v.
(** On AArch64 the field leaves out the 20 low bits. *)
Definition table_address (v : Z) : Z :=
  match target_arch with
  | RISCV64 => canonical 39 v
  | AARCH64 => canonical 48 (Z.land v 0xfffffff00000)
  end.

Definition set_frame_mapping (asid vaddr : Z) (c : cap) : cap :=
  match c with
  | cap_frame_cap f =>
      cap_frame_cap (f <| capFMappedAddress := frame_address vaddr |> <| capFMappedASID := asid mod 2 ^ 16 |>)
  | _ => c
  end.
Definition set_table_mapping (mapped asid vaddr : Z) (c : cap) : cap :=
  match c with
  | cap_page_table_cap pt =>
      cap_page_table_cap (pt <| capPTIsMapped := mapped |> <| capPTMappedASID := asid mod 2 ^ 16 |>
                             <| capPTMappedAddress := table_address vaddr |>)
  | _ => c
  end.
Definition set_table_unmapped (c : cap) : cap :=
  match c with
  | cap_page_table_cap pt => cap_page_table_cap (pt <| capPTIsMapped := 0 |>)
  | _ => c
  end.

(** [cap::cap_page_table_cap(&slot.capability)] and [cap_frame_cap] of a slot
    whose tag was tested by the caller. *)
Definition slot_page_table (slot : Z) : K page_table_cap :=
  let* c := slot_cap slot in match c with cap_page_table_cap pt => ret pt | _ => fail EUndef end.
Definition slot_frame (slot : Z) : K frame_cap :=
  let* c := slot_cap slot in match c with cap_frame_cap f => ret f | _ => fail EUndef end.

Definition read_pte (p : Z) : K Z := on_vspace (on_ptes (hget p)).
Definition write_pte (p e : Z) : K unit := on_vspace (on_ptes (hmod p (fun _ => e))).

(** ** Invocations (invoke_mmu_op.rs) *)

Definition invoke_page_table_unmap (slot : Z) : K exception_t :=
  let* pt_cap := slot_page_table slot in
  let pt := capPTBasePtr pt_cap in
  when (negb (capPTIsMapped pt_cap =? 0))
    (kassert (negb (pt =? 0)) ;;;
     on_vspace
       match target_arch with
       | RISCV64 => unmap_page_table (capPTMappedASID pt_cap) (capPTMappedAddress pt_cap) pt
       | AARCH64 => arm_unmap_page_table (capPTMappedASID pt_cap) (capPTMappedAddress pt_cap) pt
       end ;;;
     clear_memory pt SEL4_PAGE_TABLE_BITS ;;;
     new_table pt) ;;;
  mod_cap slot set_table_unmapped ;;;
  ret EXCEPTION_NONE.

Definition invoke_page_table_map (pt_cte pt_slot asid vaddr : Z) : K exception_t :=
  let* pt_cap := slot_page_table pt_cte in
  let paddr := to_paddr (capPTBasePtr pt_cap) in
  write_pte pt_slot (pte_new (paddr >>w SEL4_PAGE_BITS) PTEFlags.V_) ;;;
  mod_cap pt_cte (set_table_mapping 1 asid vaddr) ;;;
  ret EXCEPTION_NONE.

Definition invoke_page_get_address (vbase_ptr : Z) (call : bool) : K exception_t :=
  let* thread := cur_thread in
  when call
    (set_register thread Badge 0 ;;;
     let* length := set_mr thread 0 (to_paddr vbase_ptr) in
     set_register thread MsgInfo (messageInfo_new 0 0 0 length)) ;;;
  set_thread_state thread ThreadStateRestart ;;;
  ret EXCEPTION_NONE.

Definition invoke_page_unmap (frame_slot : Z) : K exception_t :=
  let* f := slot_frame frame_slot in
  when (negb (capFMappedASID f =? ASID_INVALID))
    (let* r := on_vspace
       match target_arch with
       | RISCV64 => unmap_page (capFSize f) (capFMappedASID f) (capFMappedAddress f) (capFBasePtr f)
       | AARCH64 => arm_unmap_page (capFSize f) (capFMappedASID f) (capFMappedAddress f) (capFBasePtr f)
       end in
     note_fault r) ;;;
  mod_cap frame_slot (set_frame_mapping ASID_INVALID 0) ;;;
  ret EXCEPTION_NONE.

(** [vm_attributes_t::get_execute_never]. *)
Definition get_execute_never (attr : Z) : Z := Z.land attr 0x1.

Definition invoke_page_map (w_rights_mask vaddr asid attr pt_slot frame_slot : Z) : K exception_t :=
  let* f := slot_frame frame_slot in
  let vm_rights := maskVMRights (capFVMRights f) (rights_of_word w_rights_mask) in
  let frame_addr := to_paddr (capFBasePtr f) in
  mod_cap frame_slot (set_frame_mapping asid vaddr) ;;;
  set_cur_restart ;;;
  write_pte pt_slot (make_user_pte frame_addr (get_execute_never attr =? 0) vm_rights) ;;;
  ret EXCEPTION_NONE.

(** The cleared frame becomes a pool without address spaces. *)
Definition invoke_asid_control (frame_ptr slot parent_slot asid_base : Z) : K exception_t :=
  let* u := slot_untyped parent_slot in
  set_capFreeIndex parent_slot (max_free_index (capBlockSize u)) ;;;
  clear_memory frame_ptr SEL4_PAGE_BITS ;;;
  on_vspace (on_pools (modify (fun h => <[frame_ptr := replicate 512 0]> h))) ;;;
  on_ctes (cte_insert (cap_asid_pool_cap (mk_asid_pool_cap asid_base frame_ptr)) parent_slot slot) ;;;
  kassert (Z.land asid_base (mask_bits ASID_LOW_BITS) =? 0) ;;;
  on_vspace (set_asid_pool_by_index (asid_base >>w ASID_LOW_BITS) frame_ptr) ;;;
  ret EXCEPTION_NONE.

(** riscv64/pagetable.rs *)
Definition copyGlobalMappings (Lvl1pt : Z) : K unit :=
  for_between (riscv_get_pt_index 0x80000000 0) (bit PT_INDEX_BITS) (fun i =>
    let* e := read_pte (pte_at kernel_root_page_table i) in
    write_pte (pte_at Lvl1pt i) e).

(** [pool.set_vspace_by_index(index, vspace)]. *)
Definition set_vspace_by_index (pool index vspace_ptr : Z) : K unit :=
  let* l := on_vspace (on_pools (hget pool)) in
  let* l' := lift_res (array_set l index vspace_ptr) in
  on_vspace (on_pools (hmod pool (fun _ => l'))).

Definition invoke_asid_pool (asid pool vspace_slot : Z) : K exception_t :=
  let* pt := slot_page_table vspace_slot in
  mod_cap vspace_slot (set_table_mapping 1 asid 0) ;;;
  copyGlobalMappings (capPTBasePtr pt) ;;;
  set_vspace_by_index pool (Z.land asid (mask_bits ASID_LOW_BITS)) (capPTBasePtr pt) ;;;
  ret EXCEPTION_NONE.

(** ** Decoding (decode/arch/riscv64.rs) *)

(** sel4_vspace/src/utils.rs *)
Definition check_vp_alignment (sz w : Z) : res bool :=
  match pageBitsForSize sz with
  | Ok bits => Ok (Z.land w (mask_bits bits) =? 0)
  | Err e => Err e
  end.

(** An address in the kernel window: the argument number is left as it was. *)
Definition invalid_address : K exception_t :=
  syscall_error (fun e => with_type SEL4_INVALID_ARGUMENT e <| invalidCapNumber := 0 |>).

(** The root and the ASID, or the status to return. *)
Definition get_vspace (lvl1pt_cap : cap) : K (exception_t + (Z * Z)) :=
  let failed (m : K exception_t) := let* status := m in ret (inl status) in
  match lvl1pt_cap with
  | cap_page_table_cap pt =>
      if capPTIsMapped pt =? ASID_INVALID then failed (invalid_capability 1) else
      let lvl1pt := capPTBasePtr pt in
      kassert (negb (lvl1pt =? 0)) ;;;
      let asid := capPTMappedASID pt in
      let* find_ret := on_vspace (find_vspace_for_asid asid) in
      if negb (exc_ok (fv_status find_ret)) then
        let* f := unwrap (fv_lookup_fault find_ret) in
        failed (failed_lookup_with 0 f)
      else
        let* root := unwrap (fv_vspace_root find_ret) in
        if negb (root =? lvl1pt) then failed (invalid_capability 1)
        else ret (inr (lvl1pt, asid))
  | _ => failed (invalid_capability 1)
  end.

(** A frame that is mapped must be mapped again at the same place. *)
Definition check_frame_remap (f : frame_cap) (asid vaddr pte : Z) : K exception_t :=
  if negb (capFMappedASID f =? ASID_INVALID) then
    if negb (capFMappedASID f =? asid) then invalid_capability 1
    else if negb (capFMappedAddress f =? vaddr) then invalid_argument 0
    else if is_pte_table pte then delete_first
    else ret EXCEPTION_NONE
  else if negb (get_valid pte =? 0) then delete_first
  else ret EXCEPTION_NONE.

Definition decode_frame_map (length frame_slot buffer : Z) : K exception_t :=
  let* missing := (if length <? 3 then ret true else no_extra_cap 0) in
  if (missing : bool) then truncated_message else
  let* vaddr := get_syscall_arg 0 buffer in
  let* w_rights_mask := get_syscall_arg 1 buffer in
  let* attr := get_syscall_arg 2 buffer in
  let* root_slot := extra_cap 0 in
  let* lvl1pt_cap := slot_cap root_slot in
  let* vs := get_vspace lvl1pt_cap in
  match vs with
  | inl status => ret EXCEPTION_SYSCALL_ERROR
  | inr (lvl1pt, asid) =>
      let* f := slot_frame frame_slot in
      let frame_size := capFSize f in
      let* bits := lift_res (pageBitsForSize frame_size) in
      let vtop := (vaddr +w bit bits) -w 1 in
      if USER_TOP <=? vtop then invalid_address else
      let* aligned := lift_res (check_vp_alignment frame_size vaddr) in
      if negb aligned then alignment_error else
      let* lu_ret := on_vspace (lookup_pt_slot lvl1pt vaddr) in
      if negb (ptBitsLeft lu_ret =? bits) then
        failed_lookup_with 0 (missing_capability (ptBitsLeft lu_ret))
      else
        let* pte := read_pte (ptSlot lu_ret) in
        check (check_frame_remap f asid vaddr pte) in
        invoke_page_map w_rights_mask vaddr asid attr (ptSlot lu_ret) frame_slot
  end.

Definition decode_frame_invocation (label : MessageLabel) (length frame_slot : Z) (call : bool) (buffer : Z)
    : K exception_t :=
  match label with
  | RISCVPageMap => decode_frame_map length frame_slot buffer
  | RISCVPageUnmap => set_cur_restart ;;; invoke_page_unmap frame_slot
  | RISCVPageGetAddress =>
      set_cur_restart ;;;
      let* f := slot_frame frame_slot in
      invoke_page_get_address (capFBasePtr f) call
  | _ => illegal_operation
  end.

(** The first free entry of the table of pools, from [i] on. *)
Fixpoint free_pool (n : nat) (i : Z) : K Z :=
  match n with
  | O => ret i
  | S n =>
      let* v := gets vspace in
      let* p := lift_res (array_get (asid_table v) i) in
      if p =? 0 then ret i else free_pool n (i + 1)
  end.

Definition decode_asid_control (label : MessageLabel) (length buffer : Z) : K exception_t :=
  match label with
  | RISCVASIDControlMakePool =>
      let* missing :=
        (if length <? 2 then ret true else
         let* m0 := no_extra_cap 0 in if (m0 : bool) then ret true else no_extra_cap 1) in
      if (missing : bool) then truncated_message else
      let* index := get_syscall_arg 0 buffer in
      let* depth := get_syscall_arg 1 buffer in
      let* parent_slot := extra_cap 0 in
      let* untyped_cap := slot_cap parent_slot in
      let* root_slot := extra_cap 1 in
      let* root := slot_cap root_slot in
      let* i := free_pool (Z.to_nat N_ASID_POOLS) 0 in
      if i =? N_ASID_POOLS then delete_first else
      let asid_base := i <<w ASID_LOW_BITS in
      match untyped_cap with
      | cap_untyped_cap u =>
          if negb (capBlockSize u =? SEL4_ASID_POOL_BITS) || negb (capIsDevice u =? 0)
          then invalid_capability 1
          else
            let* status := on_ctes (ensure_no_children parent_slot) in
            if negb (exc_ok status) then let* _ := revoke_first in ret status else
            let* lu_ret := lookup_slot_for_cnode_op false root index depth in
            if negb (exc_ok (ls_status lu_ret)) then ret (ls_status lu_ret) else
            let* dest_cap := slot_cap (ls_slot lu_ret) in
            if negb (is_null_cap dest_cap) then delete_first else
            set_cur_restart ;;;
            invoke_asid_control (capPtr u) (ls_slot lu_ret) parent_slot asid_base
      | _ => invalid_capability 1
      end
  | _ => illegal_operation
  end.

(** The first ASID of the pool that is neither 0 nor taken, counted in the pool. *)
Fixpoint free_asid (n : nat) (asid i : Z) (pool : list Z) : K Z :=
  match n with
  | O => ret i
  | S n =>
      let* used := (if asid +w i =? 0 then ret true
                    else let* p := lift_res (array_get pool i) in ret (negb (p =? 0))) in
      if (used : bool) then free_asid n asid (i + 1) pool else ret i
  end.

Definition decode_asid_pool (label : MessageLabel) (cte : Z) : K exception_t :=
  match label with
  | RISCVASIDPoolAssign =>
      let* missing := no_extra_cap 0 in
      if (missing : bool) then truncated_message else
      let* vspace_slot := extra_cap 0 in
      let* vspace_cap := slot_cap vspace_slot in
      if match vspace_cap with
         | cap_page_table_cap pt => negb (capPTIsMapped pt =? 0)
         | _ => true
         end then invalid_capability 1 else
      let* c := slot_cap cte in
      match c with
      | cap_asid_pool_cap ap =>
          let asid := capASIDBase ap in
          let index := asid >>w ASID_LOW_BITS in
          let* v := gets vspace in
          let* pool := (if bit ASID_HIGH_BITS <=? index then ret 0
                        else lift_res (array_get (asid_table v) index)) in
          if pool =? 0 then failed_lookup_with 0 invalid_root
          else if negb (pool =? capASIDPool ap) then invalid_capability 0
          else
            let* l := on_vspace (on_pools (hget pool)) in
            let* i := free_asid (Z.to_nat (bit ASID_LOW_BITS)) asid 0 l in
            if i =? bit ASID_LOW_BITS then delete_first else
            set_cur_restart ;;;
            invoke_asid_pool (asid +w i) pool vspace_slot
      | _ => fail EUndef
      end
  | _ => illegal_operation
  end.

(** When the ASID is found but its root is another table, the lookup fault is
    unwrapped although there is none. *)
Definition decode_page_table_unmap (pt_cte : Z) : K exception_t :=
  let* final := on_ctes (is_final_cap pt_cte) in
  if negb final then revoke_first else
  let* c := slot_page_table pt_cte in
  let go := set_cur_restart ;;; invoke_page_table_unmap pt_cte in
  if negb (capPTIsMapped c =? 0) then
    let* find_ret := on_vspace (find_vspace_for_asid (capPTMappedASID c)) in
    let* is_root :=
      (if exc_ok (fv_status find_ret)
       then let* root := unwrap (fv_vspace_root find_ret) in ret (root =? capPTBasePtr c)
       else ret false) in
    if (is_root : bool) then revoke_first
    else
      let* f := unwrap (fv_lookup_fault find_ret) in
      set_lookup_fault f ;;;
      go
  else go.

Definition decode_page_table_map (length pt_cte buffer : Z) : K exception_t :=
  let* missing := (if length <? 2 then ret true else no_extra_cap 0) in
  if (missing : bool) then truncated_message else
  let* c := slot_page_table pt_cte in
  if negb (capPTIsMapped c =? 0) then invalid_capability 0 else
  let* vaddr := get_syscall_arg 0 buffer in
  if USER_TOP <=? vaddr then invalid_address else
  let* root_slot := extra_cap 0 in
  let* lvl1pt_cap := slot_cap root_slot in
  let* vs := get_vspace lvl1pt_cap in
  match vs with
  | inl status => ret EXCEPTION_SYSCALL_ERROR
  | inr (lvl1pt, asid) =>
      let* lu_ret := on_vspace (lookup_pt_slot lvl1pt vaddr) in
      let* e := read_pte (ptSlot lu_ret) in
      if (ptBitsLeft lu_ret =? SEL4_PAGE_BITS) || negb (get_valid e =? 0) then delete_first else
      set_cur_restart ;;;
      invoke_page_table_map pt_cte (ptSlot lu_ret) asid (Z.land vaddr (wnot (mask_bits (ptBitsLeft lu_ret))))
  end.

Definition decode_page_table_invocation (label : MessageLabel) (length cte buffer : Z) : K exception_t :=
  match label with
  | RISCVPageTableUnmap => decode_page_table_unmap cte
  | RISCVPageTableMap => decode_page_table_map length cte buffer
  | _ => illegal_operation
  end.

Definition riscv_decode_mmu_invocation (label : MessageLabel) (length slot : Z) (call : bool) (buffer : Z)
    : K exception_t :=
  let* c := slot_cap slot in
  match c with
  | cap_page_table_cap _ => decode_page_table_invocation label length slot buffer
  | cap_frame_cap _ => decode_frame_invocation label length slot call buffer
  | cap_asid_control_cap => decode_asid_control label length buffer
  | cap_asid_pool_cap _ => decode_asid_pool label slot
  | _ => fail EPanic
  end.
End mmu_inv.
