(* ===== verification/MmuArm.v ===== *)
(** * Invocations of address-space capabilities on AArch64
    (decode/arch/aarch64.rs, the AArch64 parts of invoke_mmu_op.rs, and
    [set_vm_root_for_flush] of kernel/src/arch/aarch64/pg.rs)

    Cache maintenance has no counterpart in the model: a flush leaves the
    translation root it switches to and back.  The secure monitor that serves
    SMC calls is firmware; its answer is the argument [smc] of the operations
    that call it. *)

From S2P Require Import Prelude Monad Config Objects State CapOps CSpace VSpace VSpaceArm.
From S2P Require Import Refill TcbQueue Sched Tcb SchedCtx Schedule Ipc Interrupt Finalise Syscall.
From S2P Require Import Untyped CNodeInv IrqInv MmuInv.
Import ArmPTE.

Section mmu_arm.
Context `{Config}.

Definition slot_vspace (slot : Z) : K vspace_cap :=
  let* c := slot_cap slot in match c with cap_vspace_cap v => ret v | _ => fail EUndef end.

(** An error with the number of an argument where seL4 reports a capability. *)
Definition invalid_capability_arg (n : Z) : K exception_t :=
  syscall_error (fun e => with_type SEL4_INVALID_CAPABILITY e <| invalidArgumentNumber := n |>).

(** ** Mapping *)

(** The root and ASID of a capability to a mapped address space.  A failing
    lookup of the ASID leaves [current_lookup_fault] as it is. *)
Definition arm_find_root (v : vspace_cap) : K (exception_t + Z) :=
  let failed (m : K exception_t) := let* status := m in ret (inl status) in
  let* find_ret := on_vspace (aarch64_find_vspace_for_asid (capVSMappedASID v)) in
  if negb (exc_ok (fv_status find_ret)) then failed (failed_lookup 0)
  else
    let* root := unwrap (fv_vspace_root find_ret) in
    if negb (root =? capVSBasePtr v) then failed (invalid_capability 1) else ret (inr root).

Definition arm_decode_page_table_unmap (pt_cte : Z) : K exception_t :=
  let* final := on_ctes (is_final_cap pt_cte) in
  if negb final then revoke_first else
  set_cur_restart ;;;
  invoke_page_table_unmap pt_cte.

Definition arm_map_page_table (cte vaddr : Z) (v : vspace_cap) : K exception_t :=
  let* found := arm_find_root v in
  match found with
  | inl status => ret status
  | inr vspace_root =>
      let* pd_slot := on_vspace (arm_lookup_pt_slot vspace_root vaddr) in
      let* e := read_pte (ptSlot pd_slot) in
      if (ptBitsLeft pd_slot =? SEL4_PAGE_BITS) || negb (ArmPTE.get_type e =? pte_invalid_type)
      then delete_first
      else
        let* pt := slot_page_table cte in
        let pte := pte_new_table (to_paddr (capPTBasePtr pt)) in
        mod_cap cte (set_table_mapping 1 (capVSMappedASID v)
                       (Z.land vaddr (wnot (mask_bits (ptBitsLeft pd_slot))))) ;;;
        set_cur_restart ;;;
        write_pte (ptSlot pd_slot) pte ;;;
        ret EXCEPTION_NONE
  end.

Definition arm_decode_page_table_invocation (label : MessageLabel) (length cte buffer : Z) : K exception_t :=
  match label with
  | ARMPageTableUnmap =>
      let* final := on_ctes (is_final_cap cte) in
      if negb final then revoke_first else
      set_cur_restart ;;;
      arm_decode_page_table_unmap cte
  | ARMPageTableMap =>
      let* missing := (if length <? 2 then ret true else no_extra_cap 0) in
      if (missing : bool) then truncated_message else
      let* pt := slot_page_table cte in
      if capPTIsMapped pt =? 1 then invalid_capability_arg 0 else
      let* vaddr := get_syscall_arg 0 buffer in
      let* root_slot := extra_cap 0 in
      let* root_cap := slot_cap root_slot in
      if negb (is_valid_native_root root_cap) then invalid_capability 1 else
      let* v := slot_vspace root_slot in
      if USER_TOP <? vaddr then invalid_argument 0 else
      arm_map_page_table cte vaddr v
  | _ => illegal_operation
  end.

(** [invoke_page_map] of AArch64. *)
Definition arm_invoke_page_map (asid pte pt_slot : Z) : K exception_t :=
  let* old := read_pte pt_slot in
  let tlbflush_required := negb (ArmPTE.get_type old =? pte_invalid_type) in
  write_pte pt_slot pte ;;;
  when tlbflush_required (kassert (asid <? bit 16)) ;;;
  ret EXCEPTION_NONE.

(** A frame that is mapped must be mapped again at the same place; another
    one must lie below [USER_TOP]. *)
Definition arm_check_frame (f : frame_cap) (asid vaddr bits : Z) : K exception_t :=
  if negb (capFMappedASID f =? ASID_INVALID) then
    if negb (capFMappedASID f =? asid) then invalid_capability_arg 0
    else if negb (capFMappedAddress f =? vaddr) then invalid_argument 2
    else ret EXCEPTION_NONE
  else if USER_TOP <? (vaddr +w bit bits) -w 1 then invalid_argument 0
  else ret EXCEPTION_NONE.

Definition arm_decode_frame_map (length frame_slot buffer : Z) : K exception_t :=
  let* missing := (if length <? 3 then ret true else no_extra_cap 0) in
  if (missing : bool) then truncated_message else
  let* vaddr := get_syscall_arg 0 buffer in
  let* attr := get_syscall_arg 2 buffer in
  let* root_slot := extra_cap 0 in
  let* root_cap := slot_cap root_slot in
  let* f := slot_frame frame_slot in
  let* w_rights_mask := get_syscall_arg 1 buffer in
  let vm_rights := maskVMRights (capFVMRights f) (rights_of_word w_rights_mask) in
  if negb (is_valid_native_root root_cap) then invalid_capability 1 else
  let* v := slot_vspace root_slot in
  let asid := capVSMappedASID v in
  let* found := arm_find_root v in
  match found with
  | inl status => ret status
  | inr vspace_root =>
      let* bits := lift_res (pageBitsForSize (capFSize f)) in
      if negb (Z.land vaddr (mask_bits bits) =? 0) then alignment_error else
      check (arm_check_frame f asid vaddr bits) in
      let base := to_paddr (capFBasePtr f) in
      let* lu_ret := on_vspace (arm_lookup_pt_slot vspace_root vaddr) in
      if negb (ptBitsLeft lu_ret =? bits) then
        failed_lookup_with 0 (missing_capability (ptBitsLeft lu_ret))
      else
        set_cur_restart ;;;
        mod_cap frame_slot (set_frame_mapping asid vaddr) ;;;
        let* pte := lift_res (ArmPTE.make_user_pte base vm_rights attr (capFSize f)) in
        arm_invoke_page_map asid pte (ptSlot lu_ret)
  end.

(** ** Flushing *)

(** kernel/src/arch/aarch64/pg.rs; the root is not translated to a physical
    address. *)
Definition set_vm_root_for_flush (vspace_ptr asid : Z) : K bool :=
  let* thread_root := current_vtable in
  if is_valid_native_root thread_root &&
     match thread_root with cap_vspace_cap v => capVSBasePtr v =? vspace_ptr | _ => false end
  then ret false
  else on_vspace (set_current_user_vspace_root (ttbr_new asid vspace_ptr)) ;;; ret true.

Definition is_page_flush (label : MessageLabel) : bool :=
  match label with
  | ARMPageClean_Data | ARMPageInvalidate_Data | ARMPageCleanInvalidate_Data | ARMPageUnify_Instruction => true
  | _ => false
  end.
Definition is_vspace_flush (label : MessageLabel) : bool :=
  match label with
  | ARMVSpaceClean_Data | ARMVSpaceInvalidate_Data | ARMVSpaceCleanInvalidate_Data
  | ARMVSpaceUnify_Instruction => true
  | _ => false
  end.

Definition decode_page_clean_invocation (length cte buffer : Z) : K exception_t :=
  if length <? 2 then truncated_message else
  let* f := slot_frame cte in
  if capFMappedASID f =? 0 then illegal_operation else
  let asid := capFMappedASID f in
  let* find_ret := on_vspace (aarch64_find_vspace_for_asid asid) in
  if negb (exc_ok (fv_status find_ret)) then failed_lookup 0 else
  let* start := get_syscall_arg 0 buffer in
  let* end_ := get_syscall_arg 1 buffer in
  if end_ <=? start then invalid_argument 1 else
  let* bits := lift_res (pageBitsForSize (capFSize f)) in
  let page_size := bit bits in
  if (page_size <=? start) || (page_size <? end_) then invalid_argument 0 else
  set_cur_restart ;;;
  when (start <? end_)
    (let* root := unwrap (fv_vspace_root find_ret) in
     let* root_switched := set_vm_root_for_flush root asid in
     when root_switched
       (let* cur := cur_thread in
        let* r := tcb_set_vm_root cur in
        kassert (match r with None => true | Some _ => false end))) ;;;
  ret EXCEPTION_NONE.

Definition decode_vspace_flush_invocation (vspace_ptr asid start end_ : Z) : K exception_t :=
  when (start <? end_)
    (let* root_switched := set_vm_root_for_flush vspace_ptr asid in
     when root_switched (let* cur := cur_thread in let* _ := tcb_set_vm_root cur in ret tt)) ;;;
  ret EXCEPTION_NONE.

(** The ASID is read with the accessor of ASID pools: the top bit of that
    field is the mapped bit of the address space, the rest is zero.  The
    table to walk is taken from the first entry of the root. *)
Definition arm_flush_vspace (v : vspace_cap) (start end_ : Z) : K exception_t :=
  let vspace_root := capVSBasePtr v in
  let asid := capVSIsMapped v <<w 15 in
  let* find_ret := on_vspace (aarch64_find_vspace_for_asid asid) in
  if negb (exc_ok (fv_status find_ret)) then failed_lookup 0 else
  let* root := unwrap (fv_vspace_root find_ret) in
  if negb (root =? vspace_root) then invalid_capability 0 else
  let* first := read_pte vspace_root in
  let* resolve_ret := on_vspace (arm_lookup_pt_slot first start) in
  let* pte := read_pte (ptSlot resolve_ret) in
  if negb (ArmPTE.get_type pte =? pte_page) then set_cur_restart ;;; ret EXCEPTION_NONE else
  let* bits := lift_res (pageBitsForSize (ptBitsLeft resolve_ret)) in
  let page_base_start := Z.land start (wnot (mask_bits bits)) in
  let page_base_end := Z.land (end_ -w 1) (wnot (mask_bits bits)) in
  if negb (page_base_start =? page_base_end) then range_error start (page_base_start +w mask_bits bits)
  else
    set_cur_restart ;;;
    decode_vspace_flush_invocation root asid start end_.

Definition decode_vspace_root_invocation (label : MessageLabel) (length cte buffer : Z) : K exception_t :=
  if is_vspace_flush label then
    if length <? 2 then truncated_message else
    let* start := get_syscall_arg 0 buffer in
    let* end_ := get_syscall_arg 1 buffer in
    if end_ <=? start then invalid_argument 1
    else if USER_TOP <? end_ then illegal_operation
    else
      let* c := slot_cap cte in
      if negb (is_valid_native_root c) then invalid_capability 0 else
      let* v := slot_vspace cte in
      arm_flush_vspace v start end_
  else illegal_operation.

Definition arm_decode_frame_invocation (label : MessageLabel) (length frame_slot : Z) (call : bool)
    (buffer : Z) : K exception_t :=
  match label with
  | ARMPageMap => arm_decode_frame_map length frame_slot buffer
  | ARMPageUnmap => set_cur_restart ;;; invoke_page_unmap frame_slot
  | ARMPageGetAddress =>
      set_cur_restart ;;;
      let* f := slot_frame frame_slot in
      invoke_page_get_address (capFBasePtr f) call
  | _ =>
      if is_page_flush label then decode_page_clean_invocation length frame_slot buffer
      else illegal_operation
  end.

(** ** ASIDs *)

(** The children of the untyped are checked without recording an error. *)
Definition arm_decode_asid_control (label : MessageLabel) (length buffer : Z) : K exception_t :=
  match label with
  | ARMASIDControlMakePool =>
      let* missing :=
        (if length <? 2 then ret true else
         let* m0 := no_extra_cap 0 in if (m0 : bool) then ret true else no_extra_cap 1) in
      if (missing : bool) then truncated_message else
      let* index := get_syscall_arg 0 buffer in
      let* depth := get_syscall_arg 1 buffer in
      let* parent_slot := extra_cap 0 in
      let* untyped_cap := slot_cap parent_slot in
      let* root_slot := extra_cap 1 in
      let* root := slot_cap root_slot in
      let* i := free_pool (Z.to_nat N_ASID_POOLS) 0 in
      if i =? N_ASID_POOLS then delete_first else
      let asid_base := i <<w ASID_LOW_BITS in
      match untyped_cap with
      | cap_untyped_cap u =>
          if negb (capBlockSize u =? SEL4_ASID_POOL_BITS) || (capIsDevice u =? 1)
          then invalid_capability 0
          else
            check (on_ctes (ensure_no_children parent_slot)) in
            let frame := capPtr u in
            let* lu_ret := lookup_slot_for_cnode_op false root index depth in
            if negb (exc_ok (ls_status lu_ret)) then ret (ls_status lu_ret) else
            check (ensure_empty_slot (ls_slot lu_ret)) in
            set_cur_restart ;;;
            set_capFreeIndex parent_slot (max_free_index (capBlockSize u)) ;;;
            clear_memory frame SEL4_ASID_POOL_BITS ;;;
            on_vspace (on_map_pools (modify (fun h => <[frame := replicate 512 asid_map_none]> h))) ;;;
            on_ctes (cte_insert (cap_asid_pool_cap (mk_asid_pool_cap asid_base frame)) parent_slot
                       (ls_slot lu_ret)) ;;;
            kassert (Z.land asid_base (mask_bits ASID_LOW_BITS) =? 0) ;;;
            on_vspace (set_asid_pool_by_index (asid_base >>w ASID_LOW_BITS) frame) ;;;
            ret EXCEPTION_NONE
      | _ => invalid_capability 0
      end
  | _ => illegal_operation
  end.

(** [pool[i].0.arr[0] != 0]: an entry for an address space is never the zero word. *)
Definition map_used (m : asid_map) : bool := match m with asid_map_none => false | asid_map_vspace _ => true end.

Fixpoint arm_free_asid (n : nat) (asid i : Z) (pool : list asid_map) : K Z :=
  match n with
  | O => ret i
  | S n =>
      let* used := (if asid +w i =? 0 then ret true
                    else let* m := lift_res (array_get pool i) in ret (map_used m)) in
      if (used : bool) then arm_free_asid n asid (i + 1) pool else ret i
  end.

Definition set_vspace_mapping (asid : Z) (c : cap) : cap :=
  match c with
  | cap_vspace_cap v => cap_vspace_cap (v <| capVSMappedASID := asid mod 2 ^ 16 |> <| capVSIsMapped := 1 |>)
  | _ => c
  end.

Definition arm_decode_asid_pool (label : MessageLabel) (cte : Z) : K exception_t :=
  match label with
  | ARMASIDPoolAssign =>
      let* missing := no_extra_cap 0 in
      if (missing : bool) then truncated_message else
      let* vspace_slot := extra_cap 0 in
      let* root_cap := slot_cap vspace_slot in
      match root_cap with
      | cap_vspace_cap v =>
          if capVSIsMapped v =? 1 then invalid_capability_arg 1 else
          let* c := slot_cap cte in
          match c with
          | cap_asid_pool_cap ap =>
              let* vs := gets vspace in
              let* pool := lift_res (array_get (asid_table vs) (capASIDBase ap >>w ASID_LOW_BITS)) in
              if pool =? 0 then failed_lookup_with 0 invalid_root
              else if negb (pool =? capASIDPool ap) then invalid_capability 0
              else
                let* l := on_vspace (on_map_pools (hget pool)) in
                let* i := arm_free_asid (Z.to_nat (bit ASID_LOW_BITS)) (capASIDBase ap) 0 l in
                if i =? bit ASID_LOW_BITS then delete_first else
                let asid := capASIDBase ap +w i in
                set_cur_restart ;;;
                mod_cap vspace_slot (set_vspace_mapping asid) ;;;
                let* l' := lift_res (array_set l (Z.land asid (mask_bits ASID_LOW_BITS))
                                       (asid_map_vspace (capVSBasePtr v))) in
                on_vspace (on_map_pools (hmod pool (fun _ => l'))) ;;;
                ret EXCEPTION_NONE
          | _ => fail EUndef
          end
      | _ => invalid_capability_arg 1
      end
  | _ => illegal_operation
  end.

Definition arm_decode_mmu_invocation (label : MessageLabel) (length slot : Z) (call : bool) (buffer : Z)
    : K exception_t :=
  let* c := slot_cap slot in
  match c with
  | cap_vspace_cap _ => decode_vspace_root_invocation label length slot buffer
  | cap_page_table_cap _ => arm_decode_page_table_invocation label length slot buffer
  | cap_frame_cap _ => arm_decode_frame_invocation label length slot call buffer
  | cap_asid_control_cap => arm_decode_asid_control label length buffer
  | cap_asid_pool_cap _ => arm_decode_asid_pool label slot
  | _ => fail EPanic
  end.

Definition decode_mmu_invocation (label : MessageLabel) (length slot : Z) (call : bool) (buffer : Z)
    : K exception_t :=
  match target_arch with
  | RISCV64 => riscv_decode_mmu_invocation label length slot call buffer
  | AARCH64 => arm_decode_mmu_invocation label length slot call buffer
  end.

(** ** SMC calls *)

Definition NUM_SMC_REGS : Z := 8.

Fixpoint syscall_args (n : nat) (i buffer : Z) : K (list Z) :=
  match n with
  | O => ret []
  | S n => let* a := get_syscall_arg i buffer in let* l := syscall_args n (i + 1) buffer in ret (a :: l)
  end.

(** The words that do not fit in registers are stored one index too high. *)
Definition invoke_smc_call (smc : list Z -> list Z) (buffer : Z) (call : bool) : K exception_t :=
  let* thread := cur_thread in
  let* op_ipc_buffer := lookup_mut_ipc_buffer thread true in
  let* args := syscall_args (Z.to_nat NUM_SMC_REGS) 0 buffer in
  let out := smc args in
  when call
    (for_between 0 MSG_REGISTER_NUM (fun i =>
       let* a := lift_res (array_get out i) in set_register thread (Msg i) a) ;;;
     match op_ipc_buffer with
     | Some ipc_buffer =>
         for_between MSG_REGISTER_NUM NUM_SMC_REGS (fun i =>
           let* a := lift_res (array_get out i) in buffer_set_msg ipc_buffer (i + 1) a)
     | None => ret tt
     end ;;;
     set_register thread Badge 0 ;;;
     set_register thread MsgInfo 0) ;;;
  set_thread_state thread ThreadStateRunning ;;;
  ret EXCEPTION_NONE.

Definition decode_arm_smc_invocation (smc : list Z -> list Z) (label : MessageLabel) (length badge : Z)
    (call : bool) (buffer : Z) : K exception_t :=
  match label with
  | ARMSMCCall =>
      if length <? NUM_SMC_REGS then truncated_message else
      let* smc_func_id := get_syscall_arg 0 buffer in
      if negb (badge =? 0) && negb (badge =? smc_func_id) then illegal_operation else
      set_cur_restart ;;;
      invoke_smc_call smc buffer call
  | _ => illegal_operation
  end.
End mmu_arm.
