(* ===== verification/Invocation.v ===== *)
(** * System calls (kernel/src/syscall/mod.rs, invocation/mod.rs,
    invocation/decode/mod.rs, kernel/src/arch/*/exception.rs)

    The entry points of the kernel: an invocation looks its capability up,
    reads the message and is decoded by the type of the capability; receiving,
    replying and yielding; unknown system calls and the faults of user code.
    Every entry ends with [schedule] and [activateThread]. *)

From S2P Require Import Prelude Monad Config Objects State CapOps CSpace VSpace VSpaceArm.
From S2P Require Import Refill TcbQueue Sched Tcb SchedCtx Schedule Ipc Interrupt Finalise Syscall.
From S2P Require Import Untyped CNodeInv TcbInv SchedInv IrqInv MmuInv MmuArm.

(** What the kernel asks of code and memory outside the model: the secure
    monitor, and the length of the string of bytes at an address. *)
Class Outside := {
  smc_call : list Z -> list Z;
  strnlen : Z -> Z }.

(** [w as isize]. *)
Definition as_isize (w : Z) : Z := if w <? 2 ^ 63 then w else w - word_size.

Section numbers.
Context `{Config}.

Definition SYS_CALL : Z := -1.
Definition SYSCALL_MAX : Z := SYS_CALL.
Definition SYS_REPLY_RECV : Z := -2.
Definition SYS_SEND : Z := if kernel_mcs then -5 else -3.
Definition SYS_NB_SEND : Z := if kernel_mcs then -6 else -4.
Definition SYS_RECV : Z := if kernel_mcs then -7 else -5.
(** Without MCS only. *)
Definition SYS_REPLY : Z := -6.
Definition SYS_YIELD : Z := if kernel_mcs then -11 else -7.
(** With MCS only. *)
Definition SYS_NB_SEND_RECV : Z := -3.
Definition SYS_NB_SEND_WAIT : Z := -4.
Definition SYS_WAIT : Z := -9.
Definition SYS_NB_WAIT : Z := -10.
Definition SYS_NB_RECV : Z := -8.
Definition SYSCALL_MIN : Z := if kernel_mcs then SYS_YIELD else SYS_NB_RECV.
Definition SYS_DEBUG_PUT_CHAR : Z := SYSCALL_MIN - 1.
Definition SYS_DEBUG_DUMP_SCHEDULER : Z := SYS_DEBUG_PUT_CHAR - 1.
Definition SYS_DEBUG_HALT : Z := SYS_DEBUG_DUMP_SCHEDULER - 1.
Definition SYS_DEBUG_CAP_IDENTIFY : Z := SYS_DEBUG_HALT - 1.
Definition SYS_DEBUG_SNAPSHOT : Z := SYS_DEBUG_CAP_IDENTIFY - 1.
Definition SYS_DEBUG_NAME_THREAD : Z := SYS_DEBUG_SNAPSHOT - 1.
Definition SYS_GET_CLOCK : Z := if kernel_mcs then -33 else -30.
End numbers.

Section invocation.
Context `{Config} `{CSpaceDeps} `{DeletionFuel} `{Outside}.

(** ** Decoding by the type of the capability (decode/mod.rs) *)

(** In the first phase of a two-phase MCS call the capabilities below may not
    be invoked; the error is recorded, the status is [EXCEPTION_NONE]. *)
Definition second_phase (firstPhase : bool) (m : K exception_t) : K exception_t :=
  if firstPhase then let* _ := invalid_capability 0 in ret EXCEPTION_NONE else m.

Definition decode_endpoint (e : endpoint_cap) (block call canDonate : bool) : K exception_t :=
  if capCanSend e =? 0 then invalid_capability 0 else
  set_cur_restart ;;;
  let* cur := cur_thread in
  let grant := negb (capCanGrant e =? 0) in
  let grant_reply := negb (capCanGrantReply e =? 0) in
  (if kernel_mcs then send_ipc_mcs (capEPPtr e) cur block call grant (capEPBadge e) grant_reply canDonate
   else send_ipc (capEPPtr e) cur block call grant (capEPBadge e) grant_reply) ;;;
  ret EXCEPTION_NONE.

Definition decode_notification (n : notification_cap) : K exception_t :=
  if capNtfnCanSend n =? 0 then invalid_capability 0 else
  set_cur_restart ;;;
  send_signal (capNtfnPtr n) (capNtfnBadge n) ;;;
  ret EXCEPTION_NONE.

Definition decode_reply (r : reply_cap) (slot : Z) : K exception_t :=
  let grant := negb (capReplyCanGrant r =? 0) in
  if kernel_mcs then
    set_cur_restart ;;;
    let* cur := cur_thread in
    do_reply_mcs cur (capReplyPtr r) grant ;;;
    ret EXCEPTION_NONE
  else if negb (capReplyMaster r =? 0) then invalid_capability 0
  else
    set_cur_restart ;;;
    let* cur := cur_thread in
    do_reply cur (capReplyTCBPtr r) slot grant ;;;
    ret EXCEPTION_NONE.

Definition decode_invocation (label : MessageLabel) (length slot : Z) (c : cap)
    (block call canDonate firstPhase : bool) (buffer : Z) : K exception_t :=
  let later := second_phase (kernel_mcs && firstPhase) in
  match c with
  | cap_null_cap | cap_zombie_cap _ => invalid_capability 0
  | cap_endpoint_cap e => decode_endpoint e block call canDonate
  | cap_notification_cap n => decode_notification n
  | cap_reply_cap r => decode_reply r slot
  | cap_thread_cap tcb => later (decode_tcb_invocation label length tcb slot call buffer)
  | cap_domain_cap => later (decode_domain_invocation label length buffer)
  | cap_cnode_cap n => decode_cnode_invocation label length n buffer
  | cap_untyped_cap u => decode_untyed_invocation label length slot u buffer
  | cap_irq_control_cap => decode_irq_control_invocation label length slot buffer
  | cap_irq_handler_cap irq => decode_irq_handler_invocation label irq
  | cap_sched_control_cap core =>
      if kernel_mcs then later (decode_sched_control_invocation label length core buffer)
      else decode_mmu_invocation label length slot call buffer
  | cap_sched_context_cap sc =>
      if kernel_mcs then later (decode_sched_context_invocation label sc)
      else decode_mmu_invocation label length slot call buffer
  | cap_smc_cap badge =>
      if enable_smc then decode_arm_smc_invocation smc_call label length badge call buffer
      else decode_mmu_invocation label length slot call buffer
  | _ => decode_mmu_invocation label length slot call buffer
  end.

(** ** Invocations (invocation/mod.rs) *)

(** What the caller is told. *)
Definition finish_invocation (thread : Z) (isCall : bool) (status : exception_t) : K exception_t :=
  match status with
  | EXCEPTION_PREEMTED => ret status
  | EXCEPTION_SYSCALL_ERROR => when isCall (reply_error_from_kernel thread) ;;; ret EXCEPTION_NONE
  | _ =>
      let* t := get_tcb thread in
      when (bool_decide (get_state t = ThreadStateRestart))
        (when isCall (reply_success_from_kernel thread) ;;;
         set_thread_state thread ThreadStateRunning) ;;;
      ret EXCEPTION_NONE
  end.

(** A message longer than the registers is cut when there is no buffer, but
    the buffer is unwrapped in any case. *)
Definition handle_invocation_at (isCall isBlocking canDonate firstPhase : bool) (cptr : Z) : K exception_t :=
  let* thread := cur_thread in
  let* w := get_register thread MsgInfo in
  let info := from_word_security w in
  let* lu_ret := lookup_slot thread cptr in
  if negb (exc_ok (ls_status lu_ret)) then
    set_fault (seL4_Fault_CapFault cptr 0) ;;;
    when isBlocking (handle_fault thread) ;;;
    ret EXCEPTION_NONE
  else
    let* buffer := lookup_ipc_buffer thread false in
    let* status := syscall_lookup_extra_caps_with_buf thread buffer in
    if negb (exc_ok status) then
      when isBlocking (handle_fault thread) ;;;
      ret EXCEPTION_NONE
    else
      let length := if (MSG_REGISTER_NUM <? get_length info) && negb (bool_decide (is_Some buffer))
                    then MSG_REGISTER_NUM else get_length info in
      let* c := slot_cap (ls_slot lu_ret) in
      let* label := lift_res (get_message_label info) in
      let* buf := unwrap buffer in
      let* status := decode_invocation label length (ls_slot lu_ret) c isBlocking isCall canDonate
                       firstPhase buf in
      finish_invocation thread isCall status.

(** Without MCS the capability is always in its register. *)
Definition handle_invocation (isCall isBlocking : bool) : K exception_t :=
  let* cur := cur_thread in
  let* cptr := get_register cur Cap in
  handle_invocation_at isCall isBlocking false false cptr.

(** ** Receiving, replying, yielding *)

Definition handle_reply : K unit :=
  let* cur := cur_thread in
  let caller_slot := get_cspace cur TCB_CALLER in
  let* c := slot_cap caller_slot in
  match c with
  | cap_reply_cap r =>
      when (capReplyMaster r =? 0)
        (do_reply cur (capReplyTCBPtr r) caller_slot (negb (capReplyCanGrant r =? 0)))
  | _ => ret tt
  end.

(** A capability one cannot receive from. *)
Definition receive_fault (thread ep_cptr : Z) : K unit :=
  set_lookup_fault (missing_capability 0) ;;;
  set_fault (seL4_Fault_CapFault ep_cptr 1) ;;;
  handle_fault thread.

Definition recv_endpoint (cur ep_cptr : Z) (e : endpoint_cap) (block canReply : bool) : K unit :=
  if capCanReceive e =? 0 then receive_fault cur ep_cptr
  else if kernel_mcs then
    if canReply then
      let* lu_ret := lookup_reply in
      if negb (exc_ok (lc_status lu_ret)) then ret tt
      else
        match lc_capability lu_ret with
        | cap_reply_cap r => receive_ipc_mcs (capEPPtr e) cur block (Some r)
        | _ => fail EUndef
        end
    else receive_ipc_mcs (capEPPtr e) cur block None
  else
    delete_caller_cap cur ;;;
    receive_ipc (capEPPtr e) cur block (negb (capCanGrant e =? 0)).

Definition recv_notification (cur ep_cptr : Z) (n : notification_cap) (block : bool) : K unit :=
  let* ntfn := get_ntfn (capNtfnPtr n) in
  let bound := ntfnBoundTCB ntfn in
  if (capNtfnCanReceive n =? 0) || (negb (bound =? 0) && negb (bound =? cur))
  then receive_fault cur ep_cptr
  else receive_signal (capNtfnPtr n) cur block.

(** [canReply] is an argument with MCS only. *)
Definition handle_recv (block canReply : bool) : K unit :=
  let* cur := cur_thread in
  let* ep_cptr := get_register cur Cap in
  let* lu_ret := lookup_slot cur ep_cptr in
  if negb (exc_ok (ls_status lu_ret)) then
    set_fault (seL4_Fault_CapFault ep_cptr 1) ;;; handle_fault cur
  else
    let* c := slot_cap (ls_slot lu_ret) in
    match c with
    | cap_endpoint_cap e => recv_endpoint cur ep_cptr e block canReply
    | cap_notification_cap n => recv_notification cur ep_cptr n block
    | _ => receive_fault cur ep_cptr
    end.

Definition handle_yield : K unit :=
  if kernel_mcs then
    let* scp := gets ksCurSC in
    let* sc := get_sc scp in
    let* ks := gets ksConsumed in
    let consumed := scConsumed sc +w ks in
    let* head := on_sc scp refill_head in
    charge_budget (rAmount head) false ;;;
    let* scp := gets ksCurSC in
    mod_sc scp (fun sc => sc <| scConsumed := consumed |>)
  else
    let* cur := cur_thread in
    sched_dequeue cur ;;;
    sched_append cur ;;;
    reschedule_required.

(** ** System calls *)

Definition serve_interrupt : K unit :=
  let* irq := get_active_irq in
  when (negb (irq =? IRQ_INVALID)) (handle_interrput irq).

(** A preempted invocation: serve the interrupt, the call is made again. *)
Definition after_invocation (ret_ : exception_t) : K unit :=
  when (negb (exc_ok ret_)) ((if kernel_mcs then mcs_preemption_point else ret tt) ;;; serve_interrupt).

Definition handlesyscall_non_mcs (syscall : Z) : K exception_t :=
  (if syscall =? SYS_SEND then let* r := handle_invocation false true in after_invocation r
   else if syscall =? SYS_NB_SEND then let* r := handle_invocation false false in after_invocation r
   else if syscall =? SYS_CALL then let* r := handle_invocation true true in after_invocation r
   else if syscall =? SYS_RECV then handle_recv true true
   else if syscall =? SYS_REPLY then handle_reply
   else if syscall =? SYS_REPLY_RECV then handle_reply ;;; handle_recv true true
   else if syscall =? SYS_NB_RECV then handle_recv false true
   else if syscall =? SYS_YIELD then handle_yield
   else fail EPanic) ;;;
  schedule ;;;
  activateThread ;;;
  ret EXCEPTION_NONE.

(** An invocation of the capability in a register, with MCS. *)
Definition invoke_register (reg : ArchReg) (isCall isBlocking canDonate firstPhase : bool) : K exception_t :=
  let* cur := cur_thread in
  let* cptr := get_register cur reg in
  handle_invocation_at isCall isBlocking canDonate firstPhase cptr.

(** The first phase, then receiving unless it was preempted. *)
Definition then_recv (r : exception_t) (block canReply : bool) : K unit :=
  if exc_ok r then handle_recv block canReply else after_invocation r.

Definition mcs_syscall (syscall : Z) : K unit :=
  if syscall =? SYS_SEND then
    let* r := invoke_register Cap false true false false in after_invocation r
  else if syscall =? SYS_NB_SEND then
    let* r := invoke_register Cap false false false false in after_invocation r
  else if syscall =? SYS_CALL then
    let* r := invoke_register Cap true true true false in after_invocation r
  else if syscall =? SYS_RECV then handle_recv true true
  else if syscall =? SYS_WAIT then handle_recv true false
  else if syscall =? SYS_NB_WAIT then handle_recv false false
  else if syscall =? SYS_REPLY_RECV then
    let* r := invoke_register Reply false false true true in
    kassert (exc_ok r) ;;;
    handle_recv true true
  else if syscall =? SYS_NB_SEND_RECV then
    let* r := invoke_register nbsRecvDest false false true true in then_recv r true true
  else if syscall =? SYS_NB_SEND_WAIT then
    let* r := invoke_register Reply false false true true in then_recv r true false
  else if syscall =? SYS_NB_RECV then handle_recv false true
  else if syscall =? SYS_YIELD then handle_yield
  else fail EPanic.

(** The kernel work of an entry with MCS: charge the time since the last
    entry, and do the work when the budget lasts. *)
Definition with_budget (m : K unit) : K unit :=
  update_timestamp ;;;
  let* b := check_budget_restart in
  when b m.

Definition handlesyscall_mcs (syscall : Z) : K exception_t :=
  with_budget (mcs_syscall syscall) ;;;
  schedule ;;;
  activateThread ;;;
  ret EXCEPTION_NONE.

Definition handlesyscall (syscall : Z) : K exception_t :=
  if kernel_mcs then handlesyscall_mcs syscall else handlesyscall_non_mcs syscall.

(** ** Exceptions (arch/riscv/exception.rs, arch/aarch64/exception.rs) *)

Definition budgeted_fault (m : K unit) : K unit := if kernel_mcs then with_budget m else m.

(** The test for a null name never fires: the name is one past the buffer. *)
Definition debug_name_thread (thread : Z) : K exception_t :=
  let* cptr := get_register thread Cap in
  let* lu_ret := lookupCapAndSlot thread cptr in
  (if match lcs_capability lu_ret with cap_thread_cap _ => true | _ => false end then ret tt
   else fail EHalt) ;;;
  let* buf := lookup_ipc_buffer thread true in
  let name := match buf with Some b => b | None => 0 end +w 1 in
  when (name =? 0) (fail EHalt) ;;;
  let len := strnlen name in
  when (len =? SEL4_MSG_MAX_LENGTH *w 8) (fail EHalt) ;;;
  ret EXCEPTION_NONE.

(** On RISC-V the fault of an unknown system call is not charged for. *)
Definition handle_unknown_syscall (w : Z) : K exception_t :=
  let* thread := cur_thread in
  if w =? SYS_DEBUG_PUT_CHAR then let* _ := get_register thread Cap in ret EXCEPTION_NONE
  else if w =? SYS_DEBUG_DUMP_SCHEDULER then ret EXCEPTION_NONE
  else if w =? SYS_DEBUG_HALT then ret EXCEPTION_NONE
  else if w =? SYS_DEBUG_SNAPSHOT then ret EXCEPTION_NONE
  else if w =? SYS_DEBUG_CAP_IDENTIFY then
    let* cptr := get_register thread Cap in
    let* lu_ret := lookupCapAndSlot thread cptr in
    set_register thread Cap (get_tag (lcs_capability lu_ret)) ;;;
    ret EXCEPTION_NONE
  else if w =? SYS_DEBUG_NAME_THREAD then debug_name_thread thread
  else if w =? SYS_GET_CLOCK then
    let* now := gets hw_time in
    set_register thread Cap now ;;;
    ret EXCEPTION_NONE
  else
    let fault := set_fault (seL4_Fault_UnknownSyscall (wrap w)) ;;; handle_fault thread in
    match target_arch with RISCV64 => fault | AARCH64 => budgeted_fault fault end ;;;
    schedule ;;;
    activateThread ;;;
    ret EXCEPTION_NONE.

Definition handleUserLevelFault (w_a w_b : Z) : K exception_t :=
  budgeted_fault
    (let* cur := cur_thread in
     set_fault (seL4_Fault_UserException (w_a mod 2 ^ 32) (w_b mod 2 ^ 28)) ;;;
     handle_fault cur) ;;;
  schedule ;;;
  activateThread ;;;
  ret EXCEPTION_NONE.

Definition RISCV_INSTRUCTION_ACCESS_FAULT : Z := 1.
Definition RISCV_LOAD_ACCESS_FAULT : Z := 5.
Definition RISCV_STORE_ACCESS_FAULT : Z := 7.
Definition RISCV_INSTRUCTION_PAGE_FAULT : Z := 12.
Definition RISCV_LOAD_PAGE_FAULT : Z := 13.
Definition RISCV_STORE_PAGE_FAULT : Z := 15.
Definition ARM_DATA_ABORT : Z := 0.
Definition ARM_PREFETCH_ABORT : Z := 1.

(** [addr] and [esr] are the fault registers: [stval] on RISC-V, [FAR] and
    [ESR] on AArch64. *)
Definition handle_vm_fault (addr esr type_ : Z) : K exception_t :=
  match target_arch with
  | RISCV64 =>
      if (type_ =? RISCV_LOAD_PAGE_FAULT) || (type_ =? RISCV_LOAD_ACCESS_FAULT) then
        set_fault (seL4_Fault_VMFault addr RISCV_LOAD_ACCESS_FAULT 0) ;;; ret EXCEPTION_FAULT
      else if (type_ =? RISCV_STORE_PAGE_FAULT) || (type_ =? RISCV_STORE_ACCESS_FAULT) then
        set_fault (seL4_Fault_VMFault addr RISCV_STORE_ACCESS_FAULT 0) ;;; ret EXCEPTION_FAULT
      else if (type_ =? RISCV_INSTRUCTION_ACCESS_FAULT) || (type_ =? RISCV_INSTRUCTION_PAGE_FAULT) then
        set_fault (seL4_Fault_VMFault addr RISCV_INSTRUCTION_ACCESS_FAULT 1) ;;; ret EXCEPTION_FAULT
      else fail EPanic
  | AARCH64 =>
      if type_ =? ARM_DATA_ABORT then
        set_fault (seL4_Fault_VMFault addr (esr mod 2 ^ 32) 0) ;;; ret EXCEPTION_FAULT
      else if type_ =? ARM_PREFETCH_ABORT then
        let* cur := cur_thread in
        let* pc := get_register cur FaultIP in
        set_fault (seL4_Fault_VMFault pc (esr mod 2 ^ 32) 1) ;;; ret EXCEPTION_FAULT
      else fail EPanic
  end.

Definition handleVMFaultEvent (addr esr vm_faultType : Z) : K exception_t :=
  budgeted_fault
    (let* status := handle_vm_fault addr esr vm_faultType in
     let* cur := cur_thread in
     when (negb (exc_ok status)) (handle_fault cur)) ;;;
  schedule ;;;
  activateThread ;;;
  ret EXCEPTION_NONE.

(** [slowpath], up to the return to user mode. *)
Definition slowpath (syscall : Z) : K exception_t :=
  let n := as_isize syscall in
  if (n <? SYSCALL_MIN) || (SYSCALL_MAX <? n) then handle_unknown_syscall n
  else handlesyscall n.
End invocation.
