(* ===== verification/ErrorProps.v ===== *)
(** * A failed invocation changes nothing

    A decoder checks every argument before it acts: when it answers
    [EXCEPTION_SYSCALL_ERROR], all that changed is the record of the error and
    the lookup fault the caller is told about.  [on_error] is that statement
    for one program, proved along the program text: what runs before the last
    check only reads, and what runs after it never answers with an error. *)

From S2P Require Import Prelude Monad Config Objects State CapOps CSpace CSpaceProps VSpace VSpaceArm.
From S2P Require Import Refill TcbQueue Sched Frame Tcb SchedCtx Schedule Ipc Interrupt Finalise Syscall.
From S2P Require Import Untyped CNodeInv TcbInv SchedInv IrqInv MmuInv MmuArm Invocation Example.

(** ** Programs that only read *)

Definition reads {S A} (m : M S A) : Prop := forall s a s', m s = Ok (a, s') -> s' = s.

Section reads.
Context {S : Type}.

Lemma reads_ret {A} (a : A) : reads (S := S) (ret a).
Proof. intros s b s' E. by apply ret_inv in E as [_ ->]. Qed.
Lemma reads_fail {A} e : reads (S := S) (A := A) (fail e).
Proof. intros s b s' E. discriminate E. Qed.
Lemma reads_gets {A} (f : S -> A) : reads (gets f).
Proof. intros s b s' E. by injection E as _ <-. Qed.
Lemma reads_kassert b : reads (S := S) (kassert b).
Proof. intros s a s' E. by apply kassert_inv in E as [_ ->]. Qed.
Lemma reads_lift_res {A} (r : res A) : reads (S := S) (lift_res r).
Proof. intros s a s' E. by apply lift_res_inv in E as [_ ->]. Qed.
Lemma reads_bind {A B} (m : M S A) (k : A -> M S B) :
  reads m -> (forall a, reads (k a)) -> reads (bind m k).
Proof.
  intros Hm Hk s b s' E. apply bind_inv in E as (a & s1 & E1 & E2).
  apply Hk in E2. apply Hm in E1. congruence.
Qed.
Lemma reads_lift_part {P A} (get : S -> P) put (m : M P A) :
  (forall s, put (get s) s = s) -> reads m -> reads (lift_part get put m).
Proof.
  intros Hp Hm s a s' E. unfold lift_part in E. destruct (m (get s)) as [[x p]|] eqn:E1; [|done].
  injection E as _ <-. apply Hm in E1 as ->. apply Hp.
Qed.
End reads.

Lemma reads_hget {V} (p : Z) : reads (hget (A := V) p).
Proof. intros h a h' E. unfold hget in E. repeat case_match; naive_solver. Qed.

Create HintDb reads discriminated.
#[export] Hint Resolve reads_hget : reads.

Ltac reads_step :=
  match goal with
  | |- reads (bind _ _) => apply reads_bind; [|intros ?]
  | |- reads (ret _) => apply reads_ret
  | |- reads (gets _) => apply reads_gets
  | |- reads (fail _) => apply reads_fail
  | |- reads (kassert _) => apply reads_kassert
  | |- reads (lift_res _) => apply reads_lift_res
  | |- reads (lift_part _ _ _) => apply reads_lift_part; [by intros []|]
  | |- reads (match ?x with _ => _ end) => destruct x
  | |- reads _ => solve [eauto with reads nocore]
  end.
Ltac reads_tac := repeat (reads_step; cbv beta zeta).

(** ** Programs that answer with an error *)

Section answers.
Context (R : relation kstate) `{!PreOrder R}.

Definition on_error (m : K exception_t) : Prop :=
  forall s s', m s = Ok (EXCEPTION_SYSCALL_ERROR, s') -> R s s'.

Definition no_error (m : K exception_t) : Prop :=
  forall s s', m s <> Ok (EXCEPTION_SYSCALL_ERROR, s').

Lemma frame_reads {A} (m : K A) : reads m -> frame R m.
Proof. intros Hm s a s' E. apply Hm in E as ->. reflexivity. Qed.

Lemma on_error_frame m : frame R m -> on_error m.
Proof. intros Hm s s' E. by eapply Hm. Qed.

Lemma on_error_no_error m : no_error m -> on_error m.
Proof. intros Hm s s' E. by destruct (Hm s s'). Qed.

Lemma on_error_bind {A} (m : K A) k :
  frame R m -> (forall a, on_error (k a)) -> on_error (bind m k).
Proof.
  intros Hm Hk s s' E. apply bind_inv in E as (a & s1 & E1 & E2).
  etrans; [by eapply Hm|by eapply Hk].
Qed.

Lemma no_error_bind {A} (m : K A) k : (forall a, no_error (k a)) -> no_error (bind m k).
Proof. intros Hk s s' E. apply bind_inv in E as (a & s1 & _ & E). by eapply Hk. Qed.

Lemma no_error_ret e : e <> EXCEPTION_SYSCALL_ERROR -> no_error (ret e).
Proof. intros He s s' E. apply ret_inv in E as [E _]. done. Qed.

Lemma no_error_fail e : no_error (fail e).
Proof. intros s s' E. discriminate E. Qed.

Lemma no_error_check m k :
  no_error m -> no_error k -> no_error (check m in k).
Proof.
  intros Hm Hk s s' E. apply bind_inv in E as (a & s1 & E1 & E).
  destruct (exc_ok a); [by eapply Hk|]. apply ret_inv in E as [<- _]. by eapply Hm.
Qed.

Lemma no_error_check_neg m k :
  no_error m -> no_error k ->
  no_error (let* status := m in if negb (exc_ok status) then ret status else k).
Proof.
  intros Hm Hk s s' E. apply bind_inv in E as (a & s1 & E1 & E).
  destruct (exc_ok a); [by eapply Hk|]. apply ret_inv in E as [<- _]. by eapply Hm.
Qed.

(** A last step whose error is its own. *)
Lemma on_error_check m k : on_error m -> no_error k -> on_error (check m in k).
Proof.
  intros Hm Hk s s' E. apply bind_inv in E as (a & s1 & E1 & E).
  destruct (exc_ok a); [by destruct (Hk s1 s')|]. apply ret_inv in E as [<- ->]. by apply Hm.
Qed.
End answers.

Create HintDb no_error discriminated.
Create HintDb on_error discriminated.

Ltac no_error_step :=
  match goal with
  | |- no_error (ret _) => apply no_error_ret; first [discriminate | case_match; discriminate]
  | |- no_error (fail _) => apply no_error_fail
  | |- no_error (bind _ (fun status => if exc_ok status then _ else ret status)) =>
      apply no_error_check
  | |- no_error (bind _ (fun status => if negb (exc_ok status) then ret status else _)) =>
      apply no_error_check_neg
  | |- no_error (bind _ _) => apply no_error_bind; intros ?
  | |- no_error (match ?x with _ => _ end) => destruct x
  | |- no_error _ => solve [eauto with no_error typeclass_instances nocore]
  end.
Ltac no_error_tac := repeat (no_error_step; cbv beta zeta).

(** ** Only the error is recorded *)

Definition errors_erased (s : kstate) : kstate :=
  s <| current_syscall_error := mk_syscall_error 0 0 0 0 0 0 0 |> <| current_lookup_fault := invalid_root |>.
Definition only_errors : relation kstate := same errors_erased.
#[export] Instance only_errors_preorder : PreOrder only_errors := same_preorder _.

Section reading.
Context `{Config}.

Lemma reads_on_ctes {A} (m : M (gmap Z cte_t) A) : reads m -> reads (on_ctes m).
Proof. apply reads_lift_part. by intros []. Qed.
Lemma reads_on_tcbs {A} (m : M (gmap Z tcb_t) A) : reads m -> reads (on_tcbs m).
Proof. apply reads_lift_part. by intros []. Qed.
Lemma reads_on_scs {A} (m : M (gmap Z sched_context) A) : reads m -> reads (on_scs m).
Proof. apply reads_lift_part. by intros []. Qed.
Lemma reads_on_ntfns {A} (m : M (gmap Z notification) A) : reads m -> reads (on_ntfns m).
Proof. apply reads_lift_part. by intros []. Qed.
Lemma reads_on_buffers {A} (m : M (gmap Z seL4_IPCBuffer) A) : reads m -> reads (on_buffers m).
Proof. apply reads_lift_part. by intros []. Qed.
Lemma reads_on_vspace {A} (m : M vspace_state A) : reads m -> reads (on_vspace m).
Proof. apply reads_lift_part. by intros []. Qed.
Lemma reads_on_ptes {A} (m : M (gmap Z Z) A) : reads m -> reads (on_ptes m).
Proof. apply reads_lift_part. by intros []. Qed.
Lemma reads_on_pools {A} (m : M (gmap Z (list Z)) A) : reads m -> reads (on_pools m).
Proof. apply reads_lift_part. by intros []. Qed.
Lemma reads_on_map_pools {A} (m : M (gmap Z (list asid_map)) A) : reads m -> reads (on_map_pools m).
Proof. apply reads_lift_part. by intros []. Qed.
Hint Resolve reads_on_ctes reads_on_tcbs reads_on_scs reads_on_ntfns reads_on_buffers reads_on_vspace
  reads_on_ptes reads_on_pools reads_on_map_pools : reads.

(** Capability slots. *)
Lemma reads_resolve_loop fuel ib cn cp nb : reads (resolve_loop fuel ib cn cp nb).
Proof. revert cn nb. induction fuel; intros; cbn [resolve_loop]; reads_tac. Qed.
Hint Resolve reads_resolve_loop : reads.
Lemma reads_resolve_address_bits c cp nb : reads (resolve_address_bits c cp nb).
Proof. unfold resolve_address_bits. reads_tac. Qed.
Lemma reads_ensure_no_children p : reads (ensure_no_children p).
Proof. unfold ensure_no_children. reads_tac. Qed.
Hint Resolve reads_resolve_address_bits reads_ensure_no_children : reads.
Lemma reads_derive_cap p c : reads (derive_cap p c).
Proof. unfold derive_cap, arch_derive_cap. reads_tac. Qed.
Lemma reads_is_final_cap p : reads (is_final_cap p).
Proof. unfold is_final_cap. reads_tac. Qed.
Hint Resolve reads_derive_cap reads_is_final_cap : reads.
Lemma reads_is_long_running_delete p : reads (is_long_running_delete p).
Proof. unfold is_long_running_delete. reads_tac. Qed.
Hint Resolve reads_is_long_running_delete : reads.

(** Page tables and ASIDs. *)
Lemma reads_unwrap {S A} (o : option A) : reads (S := S) (unwrap o).
Proof. unfold unwrap. reads_tac. Qed.
Hint Resolve reads_unwrap : reads.
Lemma reads_aarch64_find asid : reads (aarch64_find_vspace_for_asid asid).
Proof. unfold aarch64_find_vspace_for_asid, find_map_for_asid. reads_tac. Qed.
Hint Resolve reads_aarch64_find : reads.
Lemma reads_find_vspace asid : reads (find_vspace_for_asid asid).
Proof. unfold find_vspace_for_asid, riscv_find_vspace_for_asid. reads_tac. Qed.
Lemma reads_lookup_pt_loop n v r : reads (lookup_pt_loop n v r).
Proof. revert r. induction n; intros; cbn [lookup_pt_loop]; reads_tac. Qed.
Lemma reads_arm_lookup_pt_loop n v r : reads (arm_lookup_pt_loop n v r).
Proof. revert r. induction n; intros; cbn [arm_lookup_pt_loop]; reads_tac. Qed.
Hint Resolve reads_lookup_pt_loop reads_arm_lookup_pt_loop : reads.
Lemma reads_lookup_pt_slot root v : reads (lookup_pt_slot root v).
Proof. unfold lookup_pt_slot. reads_tac. Qed.
Lemma reads_arm_lookup_pt_slot root v : reads (arm_lookup_pt_slot root v).
Proof. unfold arm_lookup_pt_slot. reads_tac. Qed.
Hint Resolve reads_find_vspace reads_lookup_pt_slot reads_arm_lookup_pt_slot : reads.
Lemma reads_read_pte p : reads (read_pte p).
Proof. unfold read_pte. reads_tac. Qed.
Lemma reads_free_pool n i : reads (free_pool n i).
Proof. revert i. induction n; intros; cbn [free_pool]; reads_tac. Qed.
Lemma reads_free_asid n a i l : reads (free_asid n a i l).
Proof. revert i. induction n; intros; cbn [free_asid]; reads_tac. Qed.
Lemma reads_arm_free_asid n a i l : reads (arm_free_asid n a i l).
Proof. revert i. induction n; intros; cbn [arm_free_asid]; reads_tac. Qed.
Hint Resolve reads_read_pte reads_free_pool reads_free_asid reads_arm_free_asid : reads.

(** The time of a scheduling context. *)
Lemma reads_on_sc {A} p (m : Refill.R A) : reads m -> reads (on_sc p m).
Proof.
  intros Hm. unfold on_sc. apply reads_on_scs. intros h a h' E.
  apply bind_inv in E as (sc & h1 & E1 & E). pose proof (reads_hget _ _ _ _ E1) as ->.
  destruct (m sc) as [[x sc']|] eqn:Em; [|discriminate]. apply Hm in Em as ->.
  apply bind_inv in E as (u & h2 & E2 & E). apply ret_inv in E as [_ ->].
  unfold hget in E1. unfold hmod in E2. destruct (p =? 0); [discriminate|].
  destruct (h !! p) eqn:Ep; [|discriminate]. simplify_eq. by rewrite insert_id.
Qed.
Hint Resolve reads_on_sc : reads.
Lemma reads_refill_index i : reads (refill_index i).
Proof. intros sc r sc' E. unfold refill_index in E. case_match; by simplify_eq. Qed.
Hint Resolve reads_refill_index : reads.
Lemma reads_sc_released now : reads (sc_released now).
Proof. unfold sc_released, refill_sufficient, refill_capacity, refill_ready, refill_head. reads_tac. Qed.
Hint Resolve reads_sc_released : reads.

(** Objects and arguments. *)
Lemma reads_get_cte p : reads (get_cte p).
Proof. unfold get_cte. reads_tac. Qed.
Lemma reads_get_tcb p : reads (get_tcb p).
Proof. unfold get_tcb. reads_tac. Qed.
Lemma reads_get_sc p : reads (get_sc p).
Proof. unfold get_sc. reads_tac. Qed.
Lemma reads_get_ntfn p : reads (get_ntfn p).
Proof. unfold get_ntfn. reads_tac. Qed.
Lemma reads_get_buffer p : reads (get_buffer p).
Proof. unfold get_buffer. reads_tac. Qed.
Hint Resolve reads_get_cte reads_get_tcb reads_get_sc reads_get_ntfn reads_get_buffer : reads.
Lemma reads_slot_cap p : reads (slot_cap p).
Proof. unfold slot_cap. reads_tac. Qed.
Hint Resolve reads_slot_cap : reads.
Lemma reads_extra i : reads (get_extra_cap_by_index i).
Proof. unfold get_extra_cap_by_index. reads_tac. Qed.
Hint Resolve reads_extra : reads.
Lemma reads_no_extra_cap i : reads (no_extra_cap i).
Proof. unfold no_extra_cap. reads_tac. Qed.
Lemma reads_extra_cap i : reads (extra_cap i).
Proof. unfold extra_cap. reads_tac. Qed.
Lemma reads_get_syscall_arg i b : reads (get_syscall_arg i b).
Proof. unfold get_syscall_arg, cur_thread, get_register, buffer_get_msg. reads_tac. Qed.
Lemma reads_cur_thread : reads cur_thread.
Proof. unfold cur_thread. reads_tac. Qed.
Lemma reads_is_current p : reads (is_current p).
Proof. unfold is_current. reads_tac. Qed.
Lemma reads_slot_page_table p : reads (slot_page_table p).
Proof. unfold slot_page_table. reads_tac. Qed.
Lemma reads_slot_frame p : reads (slot_frame p).
Proof. unfold slot_frame. reads_tac. Qed.
Lemma reads_slot_vspace p : reads (slot_vspace p).
Proof. unfold slot_vspace. reads_tac. Qed.
Lemma reads_is_irq_active i : reads (is_irq_active i).
Proof. unfold is_irq_active. reads_tac. Qed.
End reading.
#[export] Hint Resolve reads_on_ctes reads_on_tcbs reads_on_scs reads_on_ntfns reads_on_buffers reads_on_vspace
  reads_on_ptes reads_on_pools reads_on_map_pools reads_resolve_address_bits reads_ensure_no_children
  reads_derive_cap reads_is_final_cap reads_is_long_running_delete reads_unwrap reads_aarch64_find
  reads_find_vspace reads_lookup_pt_slot reads_arm_lookup_pt_slot reads_read_pte reads_free_pool
  reads_free_asid reads_arm_free_asid reads_on_sc reads_sc_released reads_get_cte reads_get_tcb reads_get_sc
  reads_get_ntfn reads_slot_cap reads_no_extra_cap reads_extra_cap reads_get_syscall_arg reads_cur_thread
  reads_is_current reads_slot_page_table reads_slot_frame reads_slot_vspace reads_is_irq_active : reads.

(** ** Checks record at most an error *)

Ltac checks_step :=
  first [ frame_step
        | apply frame_reads; [exact _|]; solve [reads_tac]
        | progress cbv beta zeta ].
Ltac checks_tac := repeat checks_step.

Section checks.
Context `{Config}.

Lemma checks_syscall_error f : frame only_errors (syscall_error f).
Proof. unfold syscall_error. checks_tac. Qed.
Lemma checks_set_lookup_fault f : frame only_errors (set_lookup_fault f).
Proof. unfold set_lookup_fault. checks_tac. Qed.
Hint Resolve checks_syscall_error checks_set_lookup_fault : frame.
Lemma checks_failed_lookup_with w f : frame only_errors (failed_lookup_with w f).
Proof. unfold failed_lookup_with, failed_lookup. checks_tac. Qed.
Hint Resolve checks_failed_lookup_with : frame.
Lemma checks_lookup_slot_for_cnode_op b c p d : frame only_errors (lookup_slot_for_cnode_op b c p d).
Proof. unfold lookup_slot_for_cnode_op, range_error, failed_lookup. checks_tac. Qed.
Hint Resolve checks_lookup_slot_for_cnode_op : frame.
Lemma checks_get_target_cnode i d : frame only_errors (get_target_cnode i d).
Proof. unfold get_target_cnode. checks_tac. Qed.
Lemma checks_window n c i : frame only_errors (check_window n c i).
Proof. revert i. induction n; intros; cbn [check_window]; unfold delete_first; checks_tac; eauto. Qed.
Hint Resolve checks_window : frame.
Lemma checks_cnode_slot c o w : frame only_errors (check_cnode_slot c o w).
Proof. unfold check_cnode_slot, range_error. checks_tac. Qed.
Lemma checks_object_type t n : frame only_errors (check_object_type t n).
Proof. unfold check_object_type, invalid_argument. checks_tac. Qed.
Lemma checks_prio p t : frame only_errors (check_prio p t).
Proof. unfold check_prio, range_error. checks_tac. Qed.
Lemma checks_buffer_cap a i : frame only_errors (decode_buffer_cap a i).
Proof.
  unfold decode_buffer_cap, check_ipc_buffer_vaild, illegal_operation, alignment_error. checks_tac.
Qed.
Lemma checks_set_space_args d c p : frame only_errors (set_space_args_unwrap d c p).
Proof. unfold set_space_args_unwrap, decode_set_space_args, illegal_operation. checks_tac. Qed.
Lemma checks_valid_fault_handler c : frame only_errors (valid_fault_handler c).
Proof. unfold valid_fault_handler, set_invalid_capability. checks_tac. Qed.
Lemma checks_sc_arg t c : frame only_errors (decode_sc_arg t c).
Proof. unfold decode_sc_arg, illegal_operation, invalid_capability. checks_tac. Qed.
Lemma checks_sched_params t b p e : frame only_errors (check_sched_params t b p e).
Proof. unfold check_sched_params, range_error. checks_tac. Qed.
Lemma checks_irq i : frame only_errors (check_irq i).
Proof. unfold check_irq, range_error. checks_tac. Qed.
Lemma checks_get_vspace c : frame only_errors (get_vspace c).
Proof. unfold get_vspace, invalid_capability. checks_tac. Qed.
Lemma checks_frame_remap f a v e : frame only_errors (check_frame_remap f a v e).
Proof. unfold check_frame_remap, invalid_capability, invalid_argument, delete_first. checks_tac. Qed.
Lemma checks_arm_find_root v : frame only_errors (arm_find_root v).
Proof. unfold arm_find_root, invalid_capability, failed_lookup. checks_tac. Qed.
Lemma checks_arm_check_frame f a v b : frame only_errors (arm_check_frame f a v b).
Proof. unfold arm_check_frame, invalid_capability_arg, invalid_argument. checks_tac. Qed.
Lemma checks_ensure_empty_slot p : frame only_errors (ensure_empty_slot p).
Proof. unfold ensure_empty_slot, delete_first. checks_tac. Qed.
End checks.
#[export] Hint Resolve checks_syscall_error checks_set_lookup_fault checks_failed_lookup_with
  checks_lookup_slot_for_cnode_op checks_get_target_cnode checks_cnode_slot checks_object_type checks_prio
  checks_buffer_cap checks_set_space_args checks_valid_fault_handler checks_sc_arg checks_sched_params
  checks_irq checks_get_vspace checks_frame_remap checks_arm_find_root checks_arm_check_frame
  checks_ensure_empty_slot : frame.

(** One step of a decoder: a check, or the work that follows the last one. *)
Ltac on_error_step :=
  match goal with
  | |- on_error _ (bind _ _) =>
      first [ apply on_error_bind; [exact _ | solve [checks_tac] | intros ?]
            | apply on_error_no_error; solve [no_error_tac] ]
  | |- on_error _ (match ?x with _ => _ end) => destruct x
  | |- on_error _ _ =>
      first [ solve [eauto with on_error nocore]
            | apply on_error_frame; solve [checks_tac]
            | apply on_error_no_error; solve [no_error_tac] ]
  end.
Ltac on_error_tac := repeat (on_error_step; cbv beta zeta).

(** ** Work that never answers with an error *)

Section work.
Context `{Config} `{CSpaceDeps} `{DeletionFuel}.
Hypothesis preemption_no_error : no_error preemption_point.

(** Deletion stops early only when it is preempted. *)
Lemma deletion_no_error n :
  (forall p b s r s', finalise n p b s = Ok (r, s') -> fs_status r <> EXCEPTION_SYSCALL_ERROR) /\
  (forall p b, no_error (reduce_zombie n p b)) /\ (forall p b, no_error (delete_all n p b)).
Proof.
  induction n as [|n (IHf & IHr & IHd)]; [by split_and!|]. split_and!.
  - intros p b s r s' E. cbn [finalise] in E.
    apply bind_inv in E as (c & s1 & _ & E). destruct (is_null_cap _); [by apply ret_inv in E as [-> _]|].
    apply bind_inv in E as (f & s2 & _ & E). apply bind_inv in E as (fc & s3 & _ & E).
    apply bind_inv in E as (rm & s4 & _ & E). destruct rm; [by apply ret_inv in E as [-> _]|].
    apply bind_inv in E as (u & s5 & _ & E). destruct (_ && _); [by apply ret_inv in E as [-> _]|].
    apply bind_inv in E as (st & s6 & E6 & E). destruct (exc_ok st); cbn [negb] in E.
    + apply bind_inv in E as (st' & s7 & E7 & E). destruct (exc_ok st'); cbn [negb] in E; [by eapply IHf|].
      apply ret_inv in E as [-> _]. cbn. intros ->. by eapply preemption_no_error.
    + apply ret_inv in E as [-> _]. cbn. intros ->. by eapply IHr.
  - intros p b. cbn [reduce_zombie].
    no_error_tac; apply IHd.
  - intros p b s s' E. cbn [delete_all] in E. apply bind_inv in E as (r & s1 & E1 & E).
    destruct (exc_ok _); cbn [negb] in E.
    + by apply bind_inv in E as (? & ? & _ & [? _]%ret_inv).
    + apply ret_inv in E as [E _]. by destruct (IHf _ _ _ _ _ E1).
Qed.

Lemma delete_all_no_error n p b : no_error (delete_all n p b).
Proof. apply deletion_no_error. Qed.
Hint Resolve preemption_no_error delete_all_no_error : no_error.

Lemma revoke_no_error n p : no_error (revoke n p).
Proof. induction n; cbn [revoke]; no_error_tac; done. Qed.
Hint Resolve revoke_no_error : no_error.

Lemma reset_loop_no_error n p r o : no_error (reset_loop n p r o).
Proof. revert o. induction n; intros; cbn [reset_loop]; no_error_tac; eauto. Qed.
Hint Resolve reset_loop_no_error : no_error.
Lemma retype_no_error a b c d e f g h i : no_error (invoke_untyped_retype a b c d e f g h i).
Proof. unfold invoke_untyped_retype, reset_untyped_cap. no_error_tac. Qed.

Lemma install_tcb_cap_no_error a b c d e f : no_error (install_tcb_cap a b c d e f).
Proof. unfold install_tcb_cap. no_error_tac. Qed.
Hint Resolve install_tcb_cap_no_error : no_error.
Lemma update_tcb_cap_no_error a b c d e : no_error (update_tcb_cap a b c d e).
Proof. unfold update_tcb_cap. no_error_tac. Qed.
Hint Resolve update_tcb_cap_no_error : no_error.
Lemma set_space_no_error a b c d e f g : no_error (invoke_tcb_set_space a b c d e f g).
Proof. unfold invoke_tcb_set_space. no_error_tac. Qed.
Lemma thread_control_no_error a b c d e f g h i j k :
  no_error (invoke_tcb_thread_control_caps a b c d e f g h i j k).
Proof. unfold invoke_tcb_thread_control_caps. no_error_tac. Qed.
Lemma set_ipc_buffer_no_error a b c d e : no_error (invoke_tcb_set_ipc_buffer a b c d e).
Proof. unfold invoke_tcb_set_ipc_buffer. no_error_tac. Qed.
Hint Resolve retype_no_error set_space_no_error thread_control_no_error set_ipc_buffer_no_error : no_error.

(** ** The decoders *)

Lemma untyped_error l n p u b : on_error only_errors (decode_untyed_invocation l n p u b).
Proof.
  unfold decode_untyed_invocation, decode_retype, illegal_operation, truncated_message, invalid_argument,
    range_error. on_error_tac.
Qed.

Lemma insert_derived_error a b c : on_error only_errors (insert_derived a b c).
Proof. unfold insert_derived, illegal_operation. on_error_tac. Qed.
Hint Resolve insert_derived_error : on_error.
Lemma cnode_two_slot_error l d n b : on_error only_errors (decode_cnode_invoke_with_two_slot l d n b).
Proof.
  unfold decode_cnode_invoke_with_two_slot, invoke_cnode_copy, invoke_cnode_mint, invoke_cnode_move,
    invoke_cnode_mutate, truncated_message, delete_first, illegal_operation. on_error_tac.
Qed.
Lemma cnode_rotate_error d n b : on_error only_errors (decode_cnode_rotate d n b).
Proof.
  unfold decode_cnode_rotate, invoke_cnode_rotate, truncated_message, delete_first, illegal_operation.
  on_error_tac.
Qed.
Hint Resolve cnode_two_slot_error cnode_rotate_error : on_error.
Lemma cnode_error l n c b : on_error only_errors (decode_cnode_invocation l n c b).
Proof.
  unfold decode_cnode_invocation, invoke_cnode_revoke, invoke_cnode_delete, invoke_cnode_save_caller,
    invoke_cnode_cancel_badged_sends, truncated_message, delete_first, illegal_operation. on_error_tac.
Qed.

Lemma decode_roots_error t cd cs vd vs k :
  (forall c v, on_error only_errors (k c v)) -> on_error only_errors (decode_roots t cd cs vd vs k).
Proof. intros Hk. unfold decode_roots, illegal_operation. on_error_tac. Qed.
Lemma with_auth_tcb_error k :
  (forall t, on_error only_errors (k t)) -> on_error only_errors (with_auth_tcb k).
Proof. intros Hk. unfold with_auth_tcb, invalid_capability. on_error_tac. Qed.

Lemma tcb_registers_error t n c b :
  on_error only_errors (decode_read_registers t n c b) /\ on_error only_errors (decode_write_registers t n b) /\
  on_error only_errors (decode_copy_registers t b).
Proof.
  unfold decode_read_registers, decode_write_registers, decode_copy_registers, invoke_tcb_read_registers,
    invoke_tcb_write_registers, invoke_tcb_copy_registers, truncated_message, range_error, illegal_operation.
  split_and!; on_error_tac.
Qed.
Lemma tcb_configure_error t n p b : on_error only_errors (decode_tcb_configure t n p b).
Proof.
  unfold decode_tcb_configure, truncated_message. on_error_tac.
  apply decode_roots_error. intros. on_error_tac.
Qed.
Lemma tcb_set_space_error t n p b :
  on_error only_errors (decode_set_space t n p b) /\ on_error only_errors (decode_set_space_mcs t n p b).
Proof.
  unfold decode_set_space, decode_set_space_mcs, truncated_message. split; on_error_tac;
    apply decode_roots_error; intros; on_error_tac.
Qed.
Lemma tcb_priority_error t n b :
  on_error only_errors (decode_set_priority t n b) /\ on_error only_errors (decode_set_mc_priority t n b) /\
  on_error only_errors (decode_set_sched_params t n b).
Proof.
  unfold decode_set_priority, decode_set_mc_priority, decode_set_sched_params, invoke_tcb_set_mcp,
    invoke_tcb_set_priority, truncated_message.
  split_and!; on_error_tac; apply with_auth_tcb_error; intros; on_error_tac.
Qed.
Lemma tcb_sched_params_mcs_error t n p b : on_error only_errors (decode_set_sched_params_mcs t n p b).
Proof.
  unfold decode_set_sched_params_mcs, invoke_tcb_set_mcp, invoke_tcb_set_priority, truncated_message,
    invalid_capability. on_error_tac.
  apply with_auth_tcb_error. intros. on_error_tac.
Qed.
Lemma tcb_other_error t n p b :
  on_error only_errors (decode_set_ipc_buffer t n p b) /\ on_error only_errors (decode_bind_notification t) /\
  on_error only_errors (decode_unbind_notification t) /\ on_error only_errors (decode_set_timeout_endpoint t p) /\
  on_error only_errors (decode_set_tls_base t n b).
Proof.
  unfold decode_set_ipc_buffer, decode_bind_notification, decode_unbind_notification, illegal_operation,
    decode_set_timeout_endpoint, decode_set_tls_base, truncated_message, invoke_tcb_bind_notification,
    invoke_tcb_unbind_notification, invoke_tcb_set_tls_base.
  split_and!; on_error_tac.
Qed.
Lemma tcb_error l n t p c b : on_error only_errors (decode_tcb_invocation l n t p c b).
Proof.
  pose proof (tcb_registers_error t n c b) as (? & ? & ?).
  pose proof (tcb_set_space_error t n p b) as (? & ?).
  pose proof (tcb_priority_error t n b) as (? & ? & ?).
  pose proof (tcb_other_error t n p b) as (? & ? & ? & ? & ?).
  pose proof (tcb_configure_error t n p b). pose proof (tcb_sched_params_mcs_error t n p b).
  unfold decode_tcb_invocation, invoke_tcb_suspend, invoke_tcb_resume, illegal_operation.
  destruct l; try assumption; on_error_tac.
Qed.
Lemma domain_error l n b : on_error only_errors (decode_domain_invocation l n b).
Proof. unfold decode_domain_invocation, illegal_operation, truncated_message, invalid_argument. on_error_tac. Qed.

Lemma sched_context_error l c : on_error only_errors (decode_sched_context_invocation l c).
Proof.
  unfold decode_sched_context_invocation, decode_sched_context_bind, decode_sched_context_unbind_object,
    decode_sched_context_yield_to, invoke_sched_context_consumed, invoke_sched_context_bind,
    invoke_sched_context_unbind, invoke_sched_context_yield_to, invokeSchedContext_UnbindObject,
    illegal_operation, truncated_message, invalid_capability. on_error_tac.
Qed.
Lemma sched_control_error l n c b : on_error only_errors (decode_sched_control_invocation l n c b).
Proof.
  unfold decode_sched_control_invocation, invoke_sched_control_configure_flags, illegal_operation,
    truncated_message, invalid_capability. on_error_tac.
Qed.

Lemma irq_control_error l n p b : on_error only_errors (decode_irq_control_invocation l n p b).
Proof.
  unfold decode_irq_control_invocation, arch_decode_irq_control_invocation, invoke_irq_control,
    illegal_operation, truncated_message, revoke_first, delete_first. on_error_tac.
Qed.
Lemma irq_handler_error l i : on_error only_errors (decode_irq_handler_invocation l i).
Proof.
  unfold decode_irq_handler_invocation, illegal_operation, truncated_message, invalid_capability. on_error_tac.
Qed.

Lemma frame_error l n p c b : on_error only_errors (decode_frame_invocation l n p c b).
Proof.
  unfold decode_frame_invocation, decode_frame_map, invoke_page_map, invoke_page_unmap,
    invoke_page_get_address, invalid_address, alignment_error, illegal_operation, truncated_message.
  on_error_tac.
Qed.
Lemma page_table_error l n p b : on_error only_errors (decode_page_table_invocation l n p b).
Proof.
  unfold decode_page_table_invocation, decode_page_table_unmap, decode_page_table_map, revoke_first,
    invoke_page_table_unmap, invoke_page_table_map, invalid_address, delete_first, illegal_operation,
    truncated_message, invalid_capability. on_error_tac.
Qed.
Lemma asid_error l n p b :
  on_error only_errors (decode_asid_control l n b) /\ on_error only_errors (decode_asid_pool l p).
Proof.
  unfold decode_asid_control, decode_asid_pool, invoke_asid_control, invoke_asid_pool, revoke_first,
    illegal_operation, truncated_message, invalid_capability, delete_first. split; on_error_tac.
Qed.

(** The second test that the capability is the last one to its table gives
    the answer of the first: changing the thread's state moves no slot. *)
Lemma arm_page_table_unmap_error p :
  on_error only_errors (let* final := on_ctes (is_final_cap p) in
    if negb final then revoke_first else set_cur_restart ;;; arm_decode_page_table_unmap p).
Proof.
  intros s s' E. apply bind_inv in E as (final & s1 & E1 & E).
  pose proof (reads_on_ctes _ (reads_is_final_cap p) _ _ _ E1) as ->.
  destruct final; cbn [negb] in E; [exfalso|by apply (checks_syscall_error _ _ _ _ E)].
  apply bind_inv in E as (u & s2 & E2 & E).
  assert (Hf : frame (same ctes) set_cur_restart) by (unfold set_cur_restart, cur_thread; frame_tac).
  pose proof (Hf _ _ _ E2) as Hc. unfold same in Hc.
  unfold arm_decode_page_table_unmap in E. apply bind_inv in E as (final & s3 & E3 & E).
  assert (final = true) as ->.
  { unfold on_ctes, lift_part in E1, E3. rewrite Hc in E3.
    destruct (is_final_cap p (ctes s)) as [[r h]|]; [|discriminate]. congruence. }
  revert E. cbn [negb]. apply no_error_bind. intros _. unfold invoke_page_table_unmap. no_error_tac.
Qed.

Lemma endpoint_error e x y z :
  on_error only_errors (decode_endpoint e x y z).
Proof. unfold decode_endpoint, invalid_capability. on_error_tac. Qed.
Lemma notification_error n : on_error only_errors (decode_notification n).
Proof. unfold decode_notification, invalid_capability. on_error_tac. Qed.
Lemma reply_error r p : on_error only_errors (decode_reply r p).
Proof. unfold decode_reply, invalid_capability. on_error_tac. Qed.

Lemma arm_frame_error l n p c b : on_error only_errors (arm_decode_frame_invocation l n p c b).
Proof.
  unfold arm_decode_frame_invocation, arm_decode_frame_map, arm_invoke_page_map, invoke_page_unmap,
    invoke_page_get_address, alignment_error, illegal_operation, truncated_message, invalid_capability,
    decode_page_clean_invocation, invalid_argument, failed_lookup.
  on_error_tac.
Qed.
Lemma arm_vspace_root_error l n p b : on_error only_errors (decode_vspace_root_invocation l n p b).
Proof.
  unfold decode_vspace_root_invocation, arm_flush_vspace, decode_vspace_flush_invocation, illegal_operation,
    truncated_message, invalid_capability, invalid_argument, failed_lookup, range_error.
  on_error_tac.
Qed.
Lemma arm_asid_error l n p b :
  on_error only_errors (arm_decode_asid_control l n b) /\ on_error only_errors (arm_decode_asid_pool l p).
Proof.
  unfold arm_decode_asid_control, arm_decode_asid_pool, invalid_capability_arg,
    illegal_operation, truncated_message, invalid_capability, delete_first. split; on_error_tac.
Qed.
Lemma smc_error f l n bd c b : on_error only_errors (decode_arm_smc_invocation f l n bd c b).
Proof.
  unfold decode_arm_smc_invocation, invoke_smc_call, illegal_operation, truncated_message. on_error_tac.
Qed.
Lemma arm_page_table_error l n p b : on_error only_errors (arm_decode_page_table_invocation l n p b).
Proof.
  unfold arm_decode_page_table_invocation, arm_map_page_table, illegal_operation, truncated_message,
    invalid_capability, invalid_capability_arg, invalid_argument, delete_first.
  destruct l; first [apply arm_page_table_unmap_error | on_error_tac].
Qed.

Hint Resolve untyped_error cnode_error tcb_error domain_error sched_context_error sched_control_error
  irq_control_error irq_handler_error frame_error page_table_error endpoint_error notification_error
  reply_error arm_frame_error arm_vspace_root_error smc_error arm_page_table_error : on_error.
Lemma mmu_error l n p c b : on_error only_errors (decode_mmu_invocation l n p c b).
Proof.
  destruct (asid_error l n p b), (arm_asid_error l n p b).
  unfold decode_mmu_invocation, riscv_decode_mmu_invocation, arm_decode_mmu_invocation. on_error_tac.
Qed.
Hint Resolve mmu_error : on_error.

Lemma decode_error `{Outside} l n p c x y z w b : on_error only_errors (decode_invocation l n p c x y z w b).
Proof. unfold decode_invocation, second_phase, invalid_capability. on_error_tac. Qed.
End work.

Lemma kernel_preemption_no_error `{Config} : no_error kernel_preemption_point.
Proof. unfold kernel_preemption_point. no_error_tac. Qed.

(** A state with another error record and another lookup fault. *)
Definition with_errors (e : syscall_error_t) (f : lookup_fault) (s : kstate) : kstate :=
  s <| current_syscall_error := e |> <| current_lookup_fault := f |>.

Section atomic.
Context `{Config} `{DeletionFuel} `{Outside} (nest : nat).
#[local] Instance kernel_crate : CSpaceDeps := kernel_deps nest.

(** C2. An invocation that is answered with an error has changed nothing: for
    every capability, label and message, on both architectures and with or
    without MCS, the state afterwards is the state before with another error
    record and another lookup fault. *)
Theorem invocation_error_atomic label length slot c (block call canDonate firstPhase : bool) buffer s s' :
  decode_invocation label length slot c block call canDonate firstPhase buffer s =
    Ok (EXCEPTION_SYSCALL_ERROR, s') ->
  exists e f, s' = with_errors e f s.
Proof.
  intros E. exists (current_syscall_error s'), (current_lookup_fault s'). unfold with_errors.
  assert (Hp : no_error (@preemption_point (kernel_deps nest)))
    by (destruct nest; apply kernel_preemption_no_error).
  pose proof (decode_error Hp _ _ _ _ _ _ _ _ _ _ _ E) as R.
  unfold only_errors, same in R.
  trans ((errors_erased s') <| current_syscall_error := current_syscall_error s' |>
           <| current_lookup_fault := current_lookup_fault s' |>); [by destruct s'|].
  rewrite R. by destruct s.
Qed.
End atomic.

(** Copying to a slot that is taken. *)
Module ErrorExample.
#[local] Instance fuel : DeletionFuel := 10%nat.
#[local] Instance no_outside : Outside := {| smc_call := id; strnlen := fun _ => 0 |}.
Definition state : kstate :=
  (Example.invoking 1 0 [3; 64; 2; 64] [0; 0; 0; 0; 15] []) <| current_extra_caps := [slot_addr 1; 0; 0] |>.
Definition run : res (exception_t * kstate) :=
  @decode_invocation riscv_config (@kernel_crate riscv_config 2) _ _ CNodeCopy 5 (slot_addr 1) root_cnode
    true true false false 0x4000 state.
Definition after : kstate := match run with Ok (_, s) => s | Err _ => state end.
End ErrorExample.

Lemma invocation_error_atomic_witness :
  ErrorExample.run = Ok (EXCEPTION_SYSCALL_ERROR, ErrorExample.after) /\
  exists e f, ErrorExample.after =
    ErrorExample.state <| current_syscall_error := e |> <| current_lookup_fault := f |>.
Proof.
  split; [vm_compute; reflexivity|].
  eapply (@invocation_error_atomic riscv_config ErrorExample.fuel ErrorExample.no_outside 2 CNodeCopy 5
    (slot_addr 1) root_cnode true true false false 0x4000).
  vm_compute. reflexivity.
Defined.
