(* ===== verification/CapWf.v ===== *)
(** * Well-formed capabilities

    A CNode capability must translate at least one bit and no more than a
    word, with a guard that fits its size; a zombie must have the type of a
    thread or a radix.  Looking a capability up panics on a CNode that
    translates nothing, and the bits of a longer one wrap.  [keeps Q m] says
    that [m] leaves every slot with a well-formed capability and that its
    result satisfies [Q]; the tactic [keeps_tac] descends into the program. *)

From S2P Require Import Prelude Monad Config Objects State CapOps CSpace VSpace VSpaceArm.
From S2P Require Import Refill TcbQueue Sched Tcb SchedCtx Schedule Ipc Interrupt Finalise Syscall.
From S2P Require Import Untyped CNodeInv TcbInv SchedInv IrqInv MmuInv MmuArm Invocation Example.

Definition cnode_wf (c : cnode_cap) : Prop :=
  1 <= capCNodeRadix c < 63 /\ 0 <= capCNodeGuardSize c /\
  capCNodeRadix c + capCNodeGuardSize c <= 64 /\ 0 <= capCNodeGuard c < 2 ^ capCNodeGuardSize c.

Definition cap_wf (c : cap) : Prop :=
  match c with
  | cap_cnode_cap n => cnode_wf n
  | cap_zombie_cap z => zombie_type_ok (capZombieType z)
  | _ => True
  end.

Definition slots_wf (h : gmap Z cte_t) : Prop := map_Forall (fun _ c => cap_wf (capability c)) h.

(** ** Programs that keep the slots well formed *)

Section keeps.
Context {S : Type} (I : S -> Prop).

Definition keeps {A} (Q : A -> Prop) (m : M S A) : Prop :=
  forall s a s', I s -> m s = Ok (a, s') -> I s' /\ Q a.

Lemma keeps_ret {A} (Q : A -> Prop) a : Q a -> keeps Q (ret a).
Proof. intros HQ s b s' Hs E. by apply ret_inv in E as [-> ->]. Qed.
Lemma keeps_fail {A} (Q : A -> Prop) e : keeps Q (fail e).
Proof. intros s b s' Hs E. discriminate E. Qed.
Lemma keeps_gets {A} (f : S -> A) : keeps (fun _ => True) (gets f).
Proof. intros s b s' Hs E. by injection E as _ <-. Qed.
Lemma keeps_kassert b : keeps (fun _ => True) (kassert b).
Proof. intros s a s' Hs E. by apply kassert_inv in E as [_ ->]. Qed.
Lemma keeps_lift_res {A} (r : res A) : keeps (fun a => r = Ok a) (lift_res r).
Proof. intros s a s' Hs E. by apply lift_res_inv in E as [-> ->]. Qed.
Lemma keeps_modify g : (forall s, I s -> I (g s)) -> keeps (fun _ => True) (modify g).
Proof. intros Hg s a s' Hs E. injection E as _ <-. split; [by apply Hg|done]. Qed.
Lemma keeps_when b m : keeps (fun _ => True) m -> keeps (fun _ => True) (when b m).
Proof. destruct b; [done|]. intros _. by apply keeps_ret. Qed.

Lemma keeps_bind {A B} (P : A -> Prop) (Q : B -> Prop) (m : M S A) k :
  keeps P m -> (forall a, P a -> keeps Q (k a)) -> keeps Q (bind m k).
Proof.
  intros Hm Hk s b s' Hs E. apply bind_inv in E as (a & s1 & E1 & E2).
  apply Hm in E1 as [H1 HP]; [|done]. by apply (Hk a HP) in E2.
Qed.
Lemma keeps_mono {A} (P Q : A -> Prop) m : keeps P m -> (forall a, P a -> Q a) -> keeps Q m.
Proof. intros Hm HPQ s a s' Hs E. apply Hm in E as [? ?]; [|done]. eauto. Qed.
Lemma keeps_true {A} (P : A -> Prop) m : keeps P m -> keeps (fun _ => True) m.
Proof. intros Hm. by eapply keeps_mono. Qed.

Lemma keeps_for_range n i body :
  (forall j, keeps (fun _ => True) (body j)) -> keeps (fun _ => True) (for_range n i body).
Proof.
  intros Hb. revert i. induction n as [|n IH]; intros i; [by apply keeps_ret|].
  eapply keeps_bind; [apply Hb|]. intros; apply IH.
Qed.

(** A loop whose fuel is read off the state. *)
Lemma keeps_state {A} (Q : A -> Prop) (f : S -> M S A) :
  (forall s, keeps Q (f s)) -> keeps Q (fun s => f s s).
Proof. intros Hf s a s' Hs E. by apply (Hf s s). Qed.
End keeps.

Lemma keeps_lift_part {S P A} (I : S -> Prop) (J : P -> Prop) (Q : A -> Prop) get put (m : M P A) :
  (forall s, I s -> J (get s)) -> (forall s p, I s -> J p -> I (put p s)) ->
  keeps J Q m -> keeps I Q (lift_part get put m).
Proof.
  intros HJ HI Hm s a s' Hs E. unfold lift_part in E. destruct (m (get s)) as [[x p]|] eqn:E1; [|done].
  injection E as <- <-. apply Hm in E1 as [? ?]; eauto.
Qed.

(** ** Slots *)

Section slots.
Context `{Config}.

Lemma keeps_hget p : keeps slots_wf (fun c => cap_wf (capability c)) (hget p).
Proof.
  intros h c h' Hh E. unfold hget in E. destruct (p =? 0); [done|].
  destruct (h !! p) eqn:Hp; [|done]. simplify_eq. split; [done|]. by apply (Hh p).
Qed.
Lemma keeps_hmod p f :
  (forall c, cap_wf (capability c) -> cap_wf (capability (f c))) -> keeps slots_wf (fun _ => True) (hmod p f).
Proof.
  intros Hf h c h' Hh E. unfold hmod in E. destruct (p =? 0); [done|].
  destruct (h !! p) eqn:Hp; [|done]. simplify_eq. split; [|done].
  apply map_Forall_insert_2; [|done]. apply Hf. by apply (Hh p).
Qed.
End slots.

(** Every slot of the kernel. *)
Definition caps_wf (s : kstate) : Prop := slots_wf (ctes s).
Lemma keeps_on_ctes {A} (Q : A -> Prop) m : keeps slots_wf Q m -> keeps caps_wf Q (on_ctes m).
Proof. apply keeps_lift_part; done. Qed.

(** The value of a program is looked up in the database [value], a program
    whose value does not matter in [keeps]. *)
Create HintDb value discriminated.
Create HintDb keeps discriminated.
Create HintDb wf discriminated.

Ltac head_of t := lazymatch t with ?f _ => head_of f | _ => t end.
Ltac wf_solve :=
  solve [ exact I | assumption | eauto with wf nocore
        | repeat match goal with H : _ /\ _ |- _ => destruct H end; cbn in *; eauto with wf nocore ].
Ltac keeps_case x :=
  let E := fresh "E" in
  destruct x eqn:E; cbv beta match in *;
  try match goal with H : cap_wf x |- _ => rewrite E in H end.
Ltac keeps_step :=
  lazymatch goal with
  | |- keeps _ _ (bind _ _) =>
      first [ eapply keeps_bind; [solve [eauto with value wf nocore]|let H := fresh in intros ? H; cbv beta in H]
            | eapply (keeps_bind _ (fun _ => True)); [|intros ? _] ]
  | |- keeps _ _ (ret _) => apply keeps_ret; wf_solve
  | |- keeps _ _ (fail _) => apply keeps_fail
  | |- keeps _ _ (gets _) => apply keeps_gets
  | |- keeps _ _ (kassert _) => apply keeps_kassert
  | |- keeps _ _ (lift_res _) => eapply keeps_mono; [apply keeps_lift_res|intros ? ?; wf_solve]
  | |- keeps _ _ (when _ _) => apply keeps_when
  | |- keeps _ _ (modify _) => apply keeps_modify; intros ? ?; assumption
  | |- keeps _ _ (for_range _ _ _) => apply keeps_for_range; intros ?
  | |- keeps _ _ (match ?x with _ => _ end) => keeps_case x
  | |- keeps _ _ (for_between _ _ _) => unfold for_between
  | |- keeps _ _ (on_ctes _) =>
      first [ solve [eauto with keeps wf nocore] | solve [eapply keeps_true; eauto with value wf nocore]
            | apply keeps_on_ctes ]
  | |- keeps slots_wf _ (hmod _ _) => apply keeps_hmod; intros; cbn; wf_solve
  | |- keeps _ _ ?m =>
      first [ solve [eauto with keeps wf nocore] | solve [eauto with value wf nocore]
            | solve [eapply keeps_true; eauto with value wf nocore]
            | let f := head_of m in unfold f ]
  end.
Ltac keeps_tac := repeat (keeps_step; cbv beta zeta).
#[export] Hint Resolve keeps_hget : value.

Section slots.
Context `{Config}.

Lemma cte_insert_keeps c p q : cap_wf c -> keeps slots_wf (fun _ => True) (cte_insert c p q).
Proof. intros Hc. unfold cte_insert. keeps_tac. Qed.
Lemma cte_move_keeps c p q : cap_wf c -> keeps slots_wf (fun _ => True) (cte_move c p q).
Proof. intros Hc. unfold cte_move. keeps_tac. Qed.
Lemma cte_swap_keeps c p d q : cap_wf c -> cap_wf d -> keeps slots_wf (fun _ => True) (cte_swap c p d q).
Proof. intros Hc Hd. unfold cte_swap. keeps_tac. Qed.
Lemma insert_new_cap_keeps p q c : cap_wf c -> keeps slots_wf (fun _ => True) (insert_new_cap p q c).
Proof. intros Hc. unfold insert_new_cap. keeps_tac. Qed.
Lemma unlink_slot_keeps p : keeps slots_wf (fun _ => True) (unlink_slot p).
Proof. unfold unlink_slot. keeps_tac. Qed.
Lemma arch_derive_cap_wf c r : cap_wf c -> arch_derive_cap c = Ok r -> cap_wf (dc_capability r).
Proof. unfold arch_derive_cap. intros Hc E. repeat case_match; by simplify_eq. Qed.
Hint Resolve arch_derive_cap_wf : wf.
Lemma derive_cap_keeps p c : cap_wf c -> keeps slots_wf (fun r => cap_wf (dc_capability r)) (derive_cap p c).
Proof. intros Hc. unfold derive_cap. keeps_tac. Qed.

(** What is computed from a capability. *)
Lemma mask_cap_rights_wf r c : cap_wf c -> cap_wf (mask_cap_rights r c).
Proof. unfold mask_cap_rights, arch_mask_cap_rights. intros. repeat case_match; done. Qed.
Lemma update_data_wf c b d : cap_wf c -> cap_wf (update_data c b d).
Proof.
  intros Hc. unfold update_data, arch_updatedata.
  destruct (is_arch_cap c); [by repeat case_match|]. destruct c; try (by repeat case_match).
  cbn in Hc. destruct Hc as (Hr & Hg & Hs & Hb).
  destruct (_ >? _) eqn:Hgt; [done|]. rewrite Z.gtb_ltb, Z.ltb_ge in Hgt. cbn.
  set (g := CNodeCapData.get_guard_size d) in *.
  assert (0 <= g < 64) by (subst g; unfold CNodeCapData.get_guard_size; change 0x3f with (Z.ones 6);
    rewrite Z.land_ones by lia; apply Z.mod_pos_bound; lia).
  rewrite (wadd_small g) in Hgt by (unfold word_size; lia).
  change WORD_BITS with 64 in *. unfold cnode_wf. cbn.
  rewrite (mask_bits_ones g) by lia. rewrite Z.land_ones by lia.
  pose proof (Z.mod_pos_bound (CNodeCapData.get_guard d) (2 ^ g)). lia.
Qed.
Lemma set_zombie_number_wf z n : cap_wf (cap_zombie_cap z) -> cap_wf (cap_zombie_cap (set_zombie_number z n)).
Proof. done. Qed.
End slots.
#[export] Hint Resolve cte_insert_keeps cte_move_keeps cte_swap_keeps insert_new_cap_keeps unlink_slot_keeps : keeps.
#[export] Hint Resolve derive_cap_keeps : value.
#[export] Hint Resolve mask_cap_rights_wf update_data_wf set_zombie_number_wf arch_derive_cap_wf : wf.

(** ** The kernel state *)

Section kernel.
Context `{Config}.

Lemma keeps_on_tcbs {A} (m : M (gmap Z tcb_t) A) : keeps caps_wf (fun _ => True) (on_tcbs m).
Proof. by apply (keeps_lift_part _ (fun _ => True)). Qed.
Lemma keeps_on_eps {A} (m : M (gmap Z endpoint) A) : keeps caps_wf (fun _ => True) (on_eps m).
Proof. by apply (keeps_lift_part _ (fun _ => True)). Qed.
Lemma keeps_on_ntfns {A} (m : M (gmap Z notification) A) : keeps caps_wf (fun _ => True) (on_ntfns m).
Proof. by apply (keeps_lift_part _ (fun _ => True)). Qed.
Lemma keeps_on_scs {A} (m : M (gmap Z sched_context) A) : keeps caps_wf (fun _ => True) (on_scs m).
Proof. by apply (keeps_lift_part _ (fun _ => True)). Qed.
Lemma keeps_on_replies {A} (m : M (gmap Z reply) A) : keeps caps_wf (fun _ => True) (on_replies m).
Proof. by apply (keeps_lift_part _ (fun _ => True)). Qed.
Lemma keeps_on_buffers {A} (m : M (gmap Z seL4_IPCBuffer) A) : keeps caps_wf (fun _ => True) (on_buffers m).
Proof. by apply (keeps_lift_part _ (fun _ => True)). Qed.
Lemma keeps_on_vspace {A} (m : M vspace_state A) : keeps caps_wf (fun _ => True) (on_vspace m).
Proof. by apply (keeps_lift_part _ (fun _ => True)). Qed.
End kernel.
#[export] Hint Resolve keeps_on_tcbs keeps_on_eps keeps_on_ntfns keeps_on_scs keeps_on_replies keeps_on_buffers
  keeps_on_vspace : keeps.
#[export] Hint Resolve keeps_on_ctes : value keeps.

Section reading.
Context `{Config}.

Lemma resolve_loop_keeps n ib c p b : keeps slots_wf (fun _ => True) (resolve_loop n ib c p b).
Proof. revert c b. induction n; intros; cbn [resolve_loop]; keeps_tac; eauto. Qed.
Hint Resolve resolve_loop_keeps : keeps.
Lemma resolve_address_bits_keeps c p b : keeps slots_wf (fun _ => True) (resolve_address_bits c p b).
Proof. keeps_tac. Qed.
Lemma is_final_cap_keeps p : keeps slots_wf (fun _ => True) (is_final_cap p).
Proof. keeps_tac. Qed.
Lemma ensure_no_children_keeps p : keeps slots_wf (fun _ => True) (ensure_no_children p).
Proof. keeps_tac. Qed.
Lemma get_cte_keeps p : keeps caps_wf (fun c => cap_wf (capability c)) (get_cte p).
Proof. apply keeps_on_ctes, keeps_hget. Qed.
Hint Resolve resolve_address_bits_keeps is_final_cap_keeps ensure_no_children_keeps : keeps.
Hint Resolve get_cte_keeps : value.
Lemma slot_cap_keeps p : keeps caps_wf cap_wf (slot_cap p).
Proof. keeps_tac. Qed.
Lemma tcb_cap_keeps t i : keeps caps_wf cap_wf (tcb_cap t i).
Proof. keeps_tac. Qed.
Hint Resolve slot_cap_keeps tcb_cap_keeps : value.
Lemma is_long_running_delete_keeps p : keeps slots_wf (fun _ => True) (is_long_running_delete p).
Proof. keeps_tac. Qed.
Lemma mod_cte_keeps p f :
  (forall c, cap_wf (capability c) -> cap_wf (capability (f c))) -> keeps caps_wf (fun _ => True) (mod_cte p f).
Proof. intros. by apply keeps_on_ctes, keeps_hmod. Qed.
Lemma lookup_slot_keeps t p : keeps caps_wf (fun _ => True) (lookup_slot t p).
Proof. keeps_tac. Qed.
Lemma lookup_ipc_buffer_keeps t b : keeps caps_wf (fun _ => True) (lookup_ipc_buffer t b).
Proof. keeps_tac. Qed.
Lemma lookup_mut_ipc_buffer_keeps t b : keeps caps_wf (fun _ => True) (lookup_mut_ipc_buffer t b).
Proof. keeps_tac. Qed.
Lemma get_register_keeps t r : keeps caps_wf (fun _ => True) (get_register t r).
Proof. keeps_tac. Qed.
Lemma set_register_keeps t r w : keeps caps_wf (fun _ => True) (set_register t r w).
Proof. keeps_tac. Qed.
Hint Resolve is_long_running_delete_keeps lookup_slot_keeps lookup_ipc_buffer_keeps
  lookup_mut_ipc_buffer_keeps get_register_keeps set_register_keeps : keeps.
Lemma set_mr_keeps t o w : keeps caps_wf (fun _ => True) (set_mr t o w).
Proof. keeps_tac. Qed.
Hint Resolve set_mr_keeps : keeps.
Lemma set_lookup_fault_mrs_keeps t o f : keeps caps_wf (fun _ => True) (set_lookup_fault_mrs t o f).
Proof. keeps_tac. Qed.
Lemma get_receive_slot_keeps t : keeps caps_wf (fun _ => True) (get_receive_slot t).
Proof. keeps_tac. Qed.
Hint Resolve set_lookup_fault_mrs_keeps get_receive_slot_keeps : keeps.
End reading.
#[export] Hint Resolve resolve_address_bits_keeps is_final_cap_keeps ensure_no_children_keeps
  is_long_running_delete_keeps lookup_slot_keeps lookup_ipc_buffer_keeps lookup_mut_ipc_buffer_keeps
  get_register_keeps set_register_keeps set_mr_keeps set_lookup_fault_mrs_keeps get_receive_slot_keeps : keeps.
#[export] Hint Resolve get_cte_keeps slot_cap_keeps tcb_cap_keeps : value.

Notation kept := (keeps caps_wf (fun _ => True)).

(** ** Scheduling *)

Section scheduling.
Context `{Config}.

Lemma is_schedulable_wf t : kept (is_schedulable t).
Proof. keeps_tac. Qed.
Lemma sched_enqueue_wf t : kept (sched_enqueue t).
Proof. keeps_tac. Qed.
Lemma sched_dequeue_wf t : kept (sched_dequeue t).
Proof. keeps_tac. Qed.
Lemma sched_append_wf t : kept (sched_append t).
Proof. keeps_tac. Qed.
Hint Resolve is_schedulable_wf sched_enqueue_wf sched_dequeue_wf sched_append_wf : keeps.
Lemma reschedule_required_wf : kept (reschedule_required).
Proof. keeps_tac. Qed.
Lemma possible_switch_to_wf t : kept (possible_switch_to t).
Proof. keeps_tac. Qed.
Hint Resolve reschedule_required_wf possible_switch_to_wf : keeps.
Lemma set_thread_state_wf t st : kept (set_thread_state t st).
Proof. keeps_tac. Qed.
Lemma set_domain_wf t d : kept (set_domain t d).
Proof. keeps_tac. Qed.
Lemma release_remove_wf t : kept (release_remove t).
Proof. keeps_tac. Qed.
Lemma find_time_after_wf n a t : kept (find_time_after n a t).
Proof. revert a. induction n; intros; cbn [find_time_after]; keeps_tac. Qed.
Hint Resolve set_thread_state_wf set_domain_wf release_remove_wf find_time_after_wf : keeps.
Lemma release_enqueue_wf t : kept (release_enqueue t).
Proof. keeps_tac. Qed.
Lemma tcb_release_dequeue_wf : kept (tcb_release_dequeue).
Proof. keeps_tac. Qed.
Hint Resolve release_enqueue_wf tcb_release_dequeue_wf : keeps.
Lemma postpone_wf sc : kept (postpone sc).
Proof. keeps_tac. Qed.
Lemma sc_refill_unblock_check_wf sc : kept (sc_refill_unblock_check sc).
Proof. keeps_tac. Qed.
Lemma sched_context_resume_wf sc : kept (sched_context_resume sc).
Proof. keeps_tac. Qed.
Hint Resolve postpone_wf sc_refill_unblock_check_wf sched_context_resume_wf : keeps.
Lemma sched_context_bind_tcb_wf sc t : kept (sched_context_bind_tcb sc t).
Proof. keeps_tac. Qed.
Lemma sched_context_unbind_tcb_wf sc t : kept (sched_context_unbind_tcb sc t).
Proof. keeps_tac. Qed.
Lemma sched_context_donate_wf sc t : kept (sched_context_donate sc t).
Proof. keeps_tac. Qed.
Lemma sched_context_bind_ntfn_wf sc n : kept (sched_context_bind_ntfn sc n).
Proof. keeps_tac. Qed.
Lemma sched_context_unbind_ntfn_wf sc : kept (sched_context_unbind_ntfn sc).
Proof. keeps_tac. Qed.
Lemma set_consumed_wf sc : kept (set_consumed sc).
Proof. keeps_tac. Qed.
Hint Resolve sched_context_bind_tcb_wf sched_context_unbind_tcb_wf sched_context_donate_wf
  sched_context_bind_ntfn_wf sched_context_unbind_ntfn_wf set_consumed_wf : keeps.
Lemma sched_context_unbind_all_tcbs_wf sc : kept (sched_context_unbind_all_tcbs sc).
Proof. keeps_tac. Qed.
Lemma schedContext_completeYieldTo_wf t : kept (schedContext_completeYieldTo t).
Proof. keeps_tac. Qed.
Lemma sched_context_cancel_yield_to_wf t : kept (sched_context_cancel_yield_to t).
Proof. keeps_tac. Qed.
Lemma reply_unlink_wf r t : kept (reply_unlink r t).
Proof. keeps_tac. Qed.
Hint Resolve sched_context_unbind_all_tcbs_wf schedContext_completeYieldTo_wf sched_context_cancel_yield_to_wf
  reply_unlink_wf : keeps.
Lemma reply_push_wf r a b d : kept (reply_push r a b d).
Proof. keeps_tac. Qed.
Lemma reply_pop_wf r t : kept (reply_pop r t).
Proof. keeps_tac. Qed.
Lemma reply_remove_wf r t : kept (reply_remove r t).
Proof. keeps_tac. Qed.
Lemma reply_remove_tcb_wf t : kept (reply_remove_tcb t).
Proof. keeps_tac. Qed.
Lemma reply_clear_wf r t : kept (reply_clear r t).
Proof. keeps_tac. Qed.
Hint Resolve reply_push_wf reply_pop_wf reply_remove_wf reply_remove_tcb_wf reply_clear_wf : keeps.
Lemma awaken_loop_wf n : kept (awaken_loop n).
Proof. induction n; cbn [awaken_loop]; keeps_tac. Qed.
Lemma tcb_set_vm_root_wf t : kept (tcb_set_vm_root t).
Proof. keeps_tac. Qed.
Hint Resolve awaken_loop_wf tcb_set_vm_root_wf : keeps.
Lemma awaken_wf : kept (awaken).
Proof. apply (keeps_state _ _ (fun s => awaken_loop (S (size (tcbs s))))). intros. keeps_tac. Qed.
Lemma choose_thread_wf : kept (choose_thread).
Proof. keeps_tac. Qed.
Lemma commit_time_wf : kept (commit_time).
Proof. keeps_tac. Qed.
Lemma switch_sched_context_wf : kept (switch_sched_context).
Proof. keeps_tac. Qed.
Lemma set_next_interrupt_wf : kept (set_next_interrupt).
Proof. keeps_tac. Qed.
Hint Resolve awaken_wf choose_thread_wf commit_time_wf switch_sched_context_wf set_next_interrupt_wf : keeps.
Lemma schedule_choose_new_thread_wf : kept (schedule_choose_new_thread).
Proof. keeps_tac. Qed.
Lemma schedule_candidate_wf t b : kept (schedule_candidate t b).
Proof. keeps_tac. Qed.
Lemma suspend_wf t : kept (suspend t).
Proof. keeps_tac. Qed.
Lemma restart_wf t : kept (restart t).
Proof. keeps_tac. Qed.
Lemma timer_tick_wf : kept (timer_tick).
Proof. keeps_tac. Qed.
Lemma update_timestamp_wf : kept (update_timestamp).
Proof. keeps_tac. Qed.
Lemma activateThread_wf : kept (activateThread).
Proof. keeps_tac. Qed.
Hint Resolve schedule_choose_new_thread_wf schedule_candidate_wf suspend_wf restart_wf timer_tick_wf
  update_timestamp_wf activateThread_wf : keeps.
Lemma schedule_wf : kept (schedule).
Proof. keeps_tac. Qed.
Hint Resolve schedule_wf : keeps.
End scheduling.
#[export] Hint Resolve is_schedulable_wf sched_enqueue_wf sched_dequeue_wf sched_append_wf
  reschedule_required_wf possible_switch_to_wf set_thread_state_wf set_domain_wf release_remove_wf
  find_time_after_wf release_enqueue_wf tcb_release_dequeue_wf postpone_wf sc_refill_unblock_check_wf
  sched_context_resume_wf sched_context_bind_tcb_wf sched_context_unbind_tcb_wf sched_context_donate_wf
  sched_context_bind_ntfn_wf sched_context_unbind_ntfn_wf set_consumed_wf sched_context_unbind_all_tcbs_wf
  schedContext_completeYieldTo_wf sched_context_cancel_yield_to_wf reply_unlink_wf reply_push_wf reply_pop_wf
  reply_remove_wf reply_remove_tcb_wf reply_clear_wf awaken_loop_wf tcb_set_vm_root_wf awaken_wf
  choose_thread_wf commit_time_wf switch_sched_context_wf set_next_interrupt_wf schedule_choose_new_thread_wf
  schedule_candidate_wf suspend_wf restart_wf timer_tick_wf update_timestamp_wf activateThread_wf schedule_wf
  : keeps.

(** ** Deletion

    What the deletion of slots needs of the kernel crate. *)

Class DepsWf `{Config} (D : CSpaceDeps) : Prop := {
  finalise_cap_wf : forall c final exposed, cap_wf c ->
    keeps caps_wf (fun r => cap_wf (fc_remainder r)) (finalise_cap c final exposed);
  post_cap_deletion_wf : forall c, kept (post_cap_deletion c);
  preemption_point_wf : kept preemption_point }.
#[export] Hint Resolve finalise_cap_wf : value.
#[export] Hint Resolve post_cap_deletion_wf preemption_point_wf : keeps.

(** ** Deleting slots *)

Section deletion.
Context `{Config} `{D : CSpaceDeps} `{!DepsWf D}.

Lemma set_empty_wf p c : kept (set_empty p c).
Proof. keeps_tac. Qed.
Lemma delete_one_wf p : kept (delete_one p).
Proof. keeps_tac. Qed.
Hint Resolve set_empty_wf delete_one_wf : keeps.
Lemma deletion_wf n : (forall p b, kept (finalise n p b)) /\ (forall p b, kept (reduce_zombie n p b)) /\
  (forall p b, kept (delete_all n p b)).
Proof.
  induction n as [|n (IHf & IHr & IHd)]; [by split_and!; intros; apply keeps_fail|].
  split_and!; intros; cbn [finalise reduce_zombie delete_all]; keeps_tac.
Qed.
Lemma delete_all_wf n p b : kept (delete_all n p b).
Proof. apply deletion_wf. Qed.
Hint Resolve delete_all_wf : keeps.
Lemma revoke_wf n p : kept (revoke n p).
Proof. induction n; cbn [revoke]; keeps_tac. Qed.
Hint Resolve revoke_wf : keeps.
Lemma delete_caller_cap_wf t : kept (delete_caller_cap t).
Proof. keeps_tac. Qed.
Hint Resolve delete_caller_cap_wf : keeps.
End deletion.
#[export] Hint Resolve set_empty_wf delete_one_wf delete_all_wf revoke_wf delete_caller_cap_wf : keeps.

(** ** Communication *)

Section ipc.
Context `{Config}.

Lemma copy_mrs_wf a b n : kept (copy_mrs a b n).
Proof. keeps_tac. Qed.
Lemma set_fault_mrs_wf a b : kept (set_fault_mrs a b).
Proof. keeps_tac. Qed.
Lemma extra_caps_loop_wf n t b i l : kept (extra_caps_loop n t b i l).
Proof. revert i l. induction n; intros; cbn [extra_caps_loop]; keeps_tac. Qed.
Hint Resolve copy_mrs_wf set_fault_mrs_wf extra_caps_loop_wf : keeps.
Lemma lookup_extra_caps_wf t l : kept (lookup_extra_caps t l).
Proof. keeps_tac. Qed.
Lemma lookup_extra_caps_with_buf_wf t l b : kept (lookup_extra_caps_with_buf t l b).
Proof. keeps_tac. Qed.
Lemma transfer_caps_loop_wf n i e l b d w : kept (transfer_caps_loop n i e l b d w).
Proof. revert i d w. induction n; intros; cbn [transfer_caps_loop]; keeps_tac. Qed.
Hint Resolve lookup_extra_caps_wf lookup_extra_caps_with_buf_wf transfer_caps_loop_wf : keeps.
Lemma set_transfer_caps_wf t e i l : kept (set_transfer_caps t e i l).
Proof. keeps_tac. Qed.
Lemma do_fault_transfer_wf a b w : kept (do_fault_transfer a b w).
Proof. keeps_tac. Qed.
Hint Resolve set_transfer_caps_wf do_fault_transfer_wf : keeps.
Lemma do_normal_transfer_wf a b e w g : kept (do_normal_transfer a b e w g).
Proof. keeps_tac. Qed.
Lemma do_fault_reply_transfer_wf a b : kept (do_fault_reply_transfer a b).
Proof. keeps_tac. Qed.
Hint Resolve do_normal_transfer_wf do_fault_reply_transfer_wf : keeps.
Lemma do_ipc_transfer_wf a b e w g : kept (do_ipc_transfer a b e w g).
Proof. keeps_tac. Qed.
Lemma setup_caller_cap_wf a b g : kept (setup_caller_cap a b g).
Proof. keeps_tac. Qed.
Lemma setup_reply_master_wf t : kept (setup_reply_master t).
Proof. keeps_tac. Qed.
Lemma ep_take_wf e t : kept (ep_take e t).
Proof. keeps_tac. Qed.
Lemma ntfn_take_wf n t : kept (ntfn_take n t).
Proof. keeps_tac. Qed.
Lemma ep_block_wf e t st : kept (ep_block e t st).
Proof. keeps_tac. Qed.
Lemma unblock_check_sporadic_wf sc : kept (unblock_check_sporadic sc).
Proof. keeps_tac. Qed.
Lemma unblock_check_assert_wf sc : kept (unblock_check_assert sc).
Proof. keeps_tac. Qed.
Hint Resolve do_ipc_transfer_wf setup_caller_cap_wf setup_reply_master_wf ep_take_wf ntfn_take_wf ep_block_wf
  unblock_check_sporadic_wf unblock_check_assert_wf : keeps.
Lemma for_each_thread_wf body t : (forall t, kept (body t)) -> kept (for_each_thread body t).
Proof.
  intros Hb. apply (keeps_state _ _ (fun s => along_queue (S (size (tcbs s))) body t)). intros s.
  generalize (S (size (tcbs s))). intros n. revert t.
  induction n; intros; cbn [along_queue]; keeps_tac.
Qed.
Hint Resolve for_each_thread_wf : keeps.
Lemma cancel_one_wf t : kept (cancel_one t).
Proof. keeps_tac. Qed.
Lemma cancel_one_signal_wf t : kept (cancel_one_signal t).
Proof. keeps_tac. Qed.
Lemma cancel_badged_wf b q t : kept (cancel_badged b q t).
Proof. keeps_tac. Qed.
Hint Resolve cancel_one_wf cancel_one_signal_wf cancel_badged_wf : keeps.
Lemma cancel_badged_loop_wf n b q t : kept (cancel_badged_loop n b q t).
Proof. revert q t. induction n; intros; cbn [cancel_badged_loop]; keeps_tac. Qed.
Hint Resolve cancel_badged_loop_wf : keeps.
Lemma cancel_all_ipc_wf e : kept (cancel_all_ipc e).
Proof. keeps_tac. Qed.
Lemma cacncel_all_signal_wf n : kept (cacncel_all_signal n).
Proof. keeps_tac. Qed.
Lemma maybe_return_sched_context_wf n t : kept (maybe_return_sched_context n t).
Proof. keeps_tac. Qed.
Lemma maybe_donate_sched_context_wf n t : kept (maybe_donate_sched_context n t).
Proof. keeps_tac. Qed.
Lemma cancel_badged_sends_wf e b : kept (cancel_badged_sends e b).
Proof. keeps_tac. eapply (keeps_state _ _ (fun s => cancel_badged_loop (S (size (tcbs s))) _ _ _)). intros. keeps_tac. Qed.
Lemma ep_cancel_ipc_wf e t : kept (ep_cancel_ipc e t).
Proof. keeps_tac. Qed.
Lemma cancel_signal_wf e t : kept (cancel_signal e t).
Proof. keeps_tac. Qed.
Hint Resolve cancel_all_ipc_wf cacncel_all_signal_wf maybe_return_sched_context_wf
  maybe_donate_sched_context_wf cancel_badged_sends_wf ep_cancel_ipc_wf cancel_signal_wf : keeps.
End ipc.
#[export] Hint Resolve copy_mrs_wf set_fault_mrs_wf extra_caps_loop_wf lookup_extra_caps_wf
  lookup_extra_caps_with_buf_wf transfer_caps_loop_wf set_transfer_caps_wf do_fault_transfer_wf
  do_normal_transfer_wf do_fault_reply_transfer_wf do_ipc_transfer_wf setup_caller_cap_wf
  setup_reply_master_wf ep_take_wf ntfn_take_wf ep_block_wf unblock_check_sporadic_wf unblock_check_assert_wf
  cancel_one_wf cancel_one_signal_wf cancel_badged_wf cancel_badged_loop_wf cancel_all_ipc_wf
  cacncel_all_signal_wf maybe_return_sched_context_wf maybe_donate_sched_context_wf cancel_badged_sends_wf
  ep_cancel_ipc_wf cancel_signal_wf : keeps.

(** ** Messages that wait for replies *)

Section replies.
Context `{Config} `{D : CSpaceDeps} `{!DepsWf D}.

Lemma cancel_ipc_wf t : kept (cancel_ipc t).
Proof. keeps_tac. Qed.
Hint Resolve cancel_ipc_wf : keeps.
Lemma complete_signal_wf n : kept (complete_signal n).
Proof. keeps_tac. Qed.
Lemma signalled_wf n t b : kept (signalled n t b).
Proof. keeps_tac. Qed.
Lemma receive_signal_wf n t b : kept (receive_signal n t b).
Proof. keeps_tac. Qed.
Lemma send_blocked_wf e t b c g w r : kept (send_blocked e t b c g w r).
Proof. keeps_tac. Qed.
Lemma take_receiver_wf p e : kept (take_receiver p e).
Proof. keeps_tac. Qed.
Hint Resolve complete_signal_wf signalled_wf receive_signal_wf send_blocked_wf take_receiver_wf : keeps.
Lemma send_signal_wf n b : kept (send_signal n b).
Proof. keeps_tac. Qed.
Lemma send_ipc_wf e t b c g w r : kept (send_ipc e t b c g w r).
Proof. keeps_tac. Qed.
Lemma send_ipc_mcs_wf e t b c g w r d : kept (send_ipc_mcs e t b c g w r d).
Proof. keeps_tac. Qed.
Lemma receive_ipc_wf e t b g : kept (receive_ipc e t b g).
Proof. keeps_tac. Qed.
Lemma receive_ipc_mcs_wf e t b r : kept (receive_ipc_mcs e t b r).
Proof. keeps_tac. Qed.
Lemma fault_reply_wf a b : kept (fault_reply a b).
Proof. keeps_tac. Qed.
Hint Resolve send_signal_wf send_ipc_wf send_ipc_mcs_wf receive_ipc_wf receive_ipc_mcs_wf fault_reply_wf :
  keeps.
Lemma do_reply_wf t r p g : kept (do_reply t r p g).
Proof. keeps_tac. Qed.
Hint Resolve do_reply_wf : keeps.
End replies.
#[export] Hint Resolve cancel_ipc_wf complete_signal_wf signalled_wf receive_signal_wf send_blocked_wf
  take_receiver_wf send_signal_wf send_ipc_wf send_ipc_mcs_wf receive_ipc_wf receive_ipc_mcs_wf fault_reply_wf
  do_reply_wf : keeps.

(** ** Finalising *)

Section finalising.
Context `{Config} `{D : CSpaceDeps} `{!DepsWf D}.

Lemma deleteASID_wf a v : kept (deleteASID a v).
Proof. keeps_tac. Qed.
Lemma deleteASIDPool_wf a v : kept (deleteASIDPool a v).
Proof. keeps_tac. Qed.
Lemma safe_unbind_notification_wf t : kept (safe_unbind_notification t).
Proof. keeps_tac. Qed.
Lemma deleting_irq_handler_wf i : kept (deleting_irq_handler i).
Proof. keeps_tac. Qed.
Hint Resolve deleteASID_wf deleteASIDPool_wf safe_unbind_notification_wf deleting_irq_handler_wf : keeps.
Lemma finalise_ntfn_wf n : kept (finalise_ntfn n).
Proof. keeps_tac. Qed.
Lemma finalise_reply_wf r : kept (finalise_reply r).
Proof. keeps_tac. Qed.
Lemma finalise_sc_wf sc : kept (finalise_sc sc).
Proof. keeps_tac. Qed.
Lemma kernel_post_cap_deletion_wf c : kept (kernel_post_cap_deletion c).
Proof. keeps_tac. Qed.
Lemma kernel_preemption_point_wf : kept (kernel_preemption_point).
Proof. keeps_tac. Qed.
Hint Resolve finalise_ntfn_wf finalise_reply_wf finalise_sc_wf kernel_post_cap_deletion_wf
  kernel_preemption_point_wf : keeps.
Lemma finalise_thread_wf t : keeps caps_wf (fun r => cap_wf (fc_remainder r)) (finalise_thread t).
Proof. keeps_tac. apply keeps_ret. by left. Qed.
Hint Resolve finalise_thread_wf : value.
Lemma kernel_finalise_cap_wf c f e : cap_wf c ->
  keeps caps_wf (fun r => cap_wf (fc_remainder r)) (kernel_finalise_cap c f e).
Proof.
  intros Hc. keeps_tac. apply keeps_ret. destruct f; [|done].
  right. destruct Hc as (? & _). cbn. lia.
Qed.
End finalising.
#[export] Hint Resolve deleteASID_wf deleteASIDPool_wf safe_unbind_notification_wf deleting_irq_handler_wf
  finalise_ntfn_wf finalise_reply_wf finalise_sc_wf kernel_post_cap_deletion_wf kernel_preemption_point_wf :
  keeps.

#[export] Instance kernel_deps_wf `{Config} n : DepsWf (kernel_deps n).
Proof.
  induction n as [|n IH]; split; cbn; intros; try apply keeps_fail;
    by first [apply kernel_finalise_cap_wf | apply kernel_post_cap_deletion_wf | apply kernel_preemption_point_wf].
Qed.
