(* ===== verification/CapWfProps.v ===== *)
(** * System calls keep capabilities well formed

    The decoders, the replies and the entries of the kernel, on top of the
    programs of CapWf.v.  A new CNode gets its radix from a message register,
    which holds a word ([regs_ok]); the retype checks do the rest. *)

From S2P Require Import Prelude Monad Config Objects State CapOps CSpace VSpace VSpaceArm Frame.
From S2P Require Import Refill TcbQueue Sched Tcb SchedCtx Schedule Ipc Interrupt Finalise Syscall.
From S2P Require Import Untyped CNodeInv TcbInv SchedInv IrqInv MmuInv MmuArm Invocation.
From S2P Require Import Example UntypedProps ErrorProps CapWf.

(** ** Faults and replies *)

Section faults.
Context `{Config} `{D : CSpaceDeps} `{!DepsWf D}.

Lemma send_fault_ipc_wf t : kept (send_fault_ipc t).
Proof. keeps_tac. Qed.
Lemma send_fault_ipc_mcs_wf t c d : kept (send_fault_ipc_mcs t c d).
Proof. keeps_tac. Qed.
Hint Resolve send_fault_ipc_wf send_fault_ipc_mcs_wf : keeps.
Lemma handle_fault_wf t : kept (handle_fault t).
Proof. keeps_tac. Qed.
Lemma kernel_handleTimeout_wf t : kept (kernel_handleTimeout t).
Proof. keeps_tac. Qed.
Hint Resolve handle_fault_wf kernel_handleTimeout_wf : keeps.
Lemma reorder_ep_wf e t : kept (reorder_ep e t).
Proof. change (kept (ep_reorder e t)). keeps_tac. Qed.
Lemma reorder_ntfn_wf n t : kept (reorder_ntfn n t).
Proof. change (kept (ntfn_reorder n t)). keeps_tac. Qed.
Lemma handleTimeout_wf t : kept (handleTimeout t).
Proof. change (kept (kernel_handleTimeout t)). keeps_tac. Qed.
Hint Resolve reorder_ep_wf reorder_ntfn_wf handleTimeout_wf : keeps.
Lemma set_priority_wf t p : kept (set_priority t p).
Proof. keeps_tac. Qed.
Lemma endTimeslice_wf b : kept (endTimeslice b).
Proof. keeps_tac. Qed.
Lemma do_reply_mcs_wf t r g : kept (do_reply_mcs t r g).
Proof. keeps_tac. Qed.
Hint Resolve set_priority_wf endTimeslice_wf do_reply_mcs_wf : keeps.
Lemma charge_budget_wf c b : kept (charge_budget c b).
Proof. keeps_tac. Qed.
Hint Resolve charge_budget_wf : keeps.
Lemma check_budget_wf : kept (check_budget).
Proof. keeps_tac. Qed.
Lemma set_cur_restart_wf : kept (set_cur_restart).
Proof. keeps_tac. Qed.
Hint Resolve check_budget_wf set_cur_restart_wf : keeps.
Lemma check_budget_restart_wf : kept (check_budget_restart).
Proof. keeps_tac. Qed.
Lemma mcs_preemption_point_wf : kept (mcs_preemption_point).
Proof. keeps_tac. Qed.
Hint Resolve check_budget_restart_wf mcs_preemption_point_wf : keeps.
End faults.
#[export] Hint Resolve send_fault_ipc_wf send_fault_ipc_mcs_wf handle_fault_wf kernel_handleTimeout_wf
  reorder_ep_wf reorder_ntfn_wf handleTimeout_wf set_priority_wf endTimeslice_wf do_reply_mcs_wf
  charge_budget_wf check_budget_wf set_cur_restart_wf check_budget_restart_wf mcs_preemption_point_wf : keeps.

(** ** Arguments *)

Section arguments.
Context `{Config}.

Lemma no_extra_cap_wf i : kept (no_extra_cap i).
Proof. keeps_tac. Qed.
Lemma extra_cap_wf i : kept (extra_cap i).
Proof. keeps_tac. Qed.
Lemma get_syscall_arg_wf i b : kept (get_syscall_arg i b).
Proof. keeps_tac. Qed.
Lemma lookup_slot_for_cnode_op_wf b c p d : kept (lookup_slot_for_cnode_op b c p d).
Proof. keeps_tac. Qed.
Hint Resolve no_extra_cap_wf extra_cap_wf get_syscall_arg_wf lookup_slot_for_cnode_op_wf : keeps.
Lemma decode_set_space_args_wf d c p : cap_wf c ->
  keeps caps_wf (fun r => match r with inl _ => True | inr c => cap_wf c end) (decode_set_space_args d c p).
Proof. intros Hc. unfold decode_set_space_args. destruct (negb (d =? 0)); keeps_tac. Qed.
Hint Resolve decode_set_space_args_wf : value.
Lemma set_space_args_unwrap_wf d c p : cap_wf c -> keeps caps_wf cap_wf (set_space_args_unwrap d c p).
Proof. intros Hc. keeps_tac. Qed.
Lemma decode_buffer_cap_wf a i :
  keeps caps_wf (fun r => match r with inl _ => True | inr (_, c) => cap_wf c end) (decode_buffer_cap a i).
Proof. keeps_tac. Qed.
End arguments.
#[export] Hint Resolve no_extra_cap_wf extra_cap_wf get_syscall_arg_wf lookup_slot_for_cnode_op_wf : keeps.

#[export] Hint Resolve set_space_args_unwrap_wf decode_buffer_cap_wf : value.

(** ** Memory *)

Section memory.
Context `{Config}.

Lemma clear_memory_wf p b : kept (clear_memory p b).
Proof.
  apply keeps_modify. intros s Hs. unfold caps_wf. cbn. intros q c Hq.
  apply map_lookup_filter_Some in Hq as [Hq _]. by apply (Hs q).
Qed.
Lemma new_slots_wf p n : kept (new_slots p n).
Proof.
  apply keeps_modify. intros s Hs. unfold caps_wf. cbn.
  revert p. induction n as [|n IH]; intros p; cbn [lay_out]; [done|].
  apply map_Forall_insert_2; [done|apply IH].
Qed.
Hint Resolve clear_memory_wf new_slots_wf : keeps.
Lemma mod_cap_wf p f : (forall c, cap_wf c -> cap_wf (f c)) -> kept (mod_cap p f).
Proof. intros Hf. apply mod_cte_keeps. intros c Hc. by apply Hf. Qed.
Lemma set_frame_mapping_wf a v c : cap_wf c -> cap_wf (set_frame_mapping a v c).
Proof. by destruct c. Qed.
Lemma set_table_mapping_wf m a v c : cap_wf c -> cap_wf (set_table_mapping m a v c).
Proof. by destruct c. Qed.
Lemma set_table_unmapped_wf c : cap_wf c -> cap_wf (set_table_unmapped c).
Proof. by destruct c. Qed.
Lemma set_vspace_mapping_wf a c : cap_wf c -> cap_wf (set_vspace_mapping a c).
Proof. by destruct c. Qed.
Hint Resolve mod_cap_wf : keeps.
Hint Resolve set_frame_mapping_wf set_table_mapping_wf set_table_unmapped_wf set_vspace_mapping_wf : wf.
Lemma set_capFreeIndex_wf p v : kept (set_capFreeIndex p v).
Proof. keeps_tac. Qed.
Lemma free_pool_wf n i : kept (free_pool n i).
Proof. revert i. induction n; intros; cbn [free_pool]; keeps_tac. Qed.
Lemma free_asid_wf n a i l : kept (free_asid n a i l).
Proof. revert i. induction n; intros; cbn [free_asid]; keeps_tac. Qed.
Lemma arm_free_asid_wf n a i l : kept (arm_free_asid n a i l).
Proof. revert i. induction n; intros; cbn [arm_free_asid]; keeps_tac. Qed.
Lemma check_window_wf n c i : kept (check_window n c i).
Proof. revert i. induction n; intros; cbn [check_window]; keeps_tac. Qed.
Lemma syscall_args_wf n i b : kept (syscall_args n i b).
Proof. revert i. induction n; intros; cbn [syscall_args]; keeps_tac. Qed.
Hint Resolve set_capFreeIndex_wf free_pool_wf free_asid_wf arm_free_asid_wf check_window_wf syscall_args_wf :
  keeps.
End memory.
#[export] Hint Resolve set_capFreeIndex_wf free_pool_wf free_asid_wf arm_free_asid_wf check_window_wf
  syscall_args_wf : keeps.

#[export] Hint Resolve clear_memory_wf new_slots_wf mod_cap_wf : keeps.
#[export] Hint Resolve set_frame_mapping_wf set_table_mapping_wf set_table_unmapped_wf set_vspace_mapping_wf : wf.

(** ** Decoding *)

Section decoding.
Context `{Config} `{D : CSpaceDeps} `{!DepsWf D} `{DeletionFuel}.

Lemma insert_derived_wf p q c : cap_wf c -> kept (insert_derived p q c).
Proof. intros Hc. keeps_tac. Qed.
Hint Resolve insert_derived_wf : keeps.
Lemma decode_cnode_invoke_with_two_slot_wf l d n b : kept (decode_cnode_invoke_with_two_slot l d n b).
Proof. keeps_tac. Qed.
Lemma decode_cnode_rotate_wf d n b : kept (decode_cnode_rotate d n b).
Proof. keeps_tac. Qed.
Hint Resolve decode_cnode_invoke_with_two_slot_wf decode_cnode_rotate_wf : keeps.
Lemma decode_cnode_invocation_wf l n c b : kept (decode_cnode_invocation l n c b).
Proof. keeps_tac. Qed.
Hint Resolve decode_cnode_invocation_wf : keeps.
Lemma install_tcb_cap_wf t tc p i c q : cap_wf c -> kept (install_tcb_cap t tc p i c q).
Proof. intros Hc. keeps_tac. Qed.
Hint Resolve install_tcb_cap_wf : keeps.
Lemma update_tcb_cap_wf t p i c q : cap_wf c -> kept (update_tcb_cap t p i c q).
Proof. intros Hc. keeps_tac. Qed.
Hint Resolve update_tcb_cap_wf : keeps.
Lemma invoke_tcb_set_space_wf t p f c q v r : cap_wf c -> cap_wf v -> kept (invoke_tcb_set_space t p f c q v r).
Proof. intros Hc Hv. keeps_tac. Qed.
Lemma invoke_tcb_thread_control_caps_wf t p f fp h hp c q v r fl : cap_wf f -> cap_wf h -> cap_wf c -> cap_wf v ->
  kept (invoke_tcb_thread_control_caps t p f fp h hp c q v r fl).
Proof. intros Hf Hh Hc Hv. keeps_tac. Qed.
Lemma invoke_tcb_set_ipc_buffer_wf t p a c q : cap_wf c -> kept (invoke_tcb_set_ipc_buffer t p a c q).
Proof. intros Hc. keeps_tac. Qed.
Hint Resolve invoke_tcb_set_space_wf invoke_tcb_thread_control_caps_wf invoke_tcb_set_ipc_buffer_wf : keeps.
Lemma invoke_tcb_read_registers_wf t s n c : kept (invoke_tcb_read_registers t s n c).
Proof. keeps_tac. Qed.
Lemma invoke_tcb_write_registers_wf t s n c : kept (invoke_tcb_write_registers t s n c).
Proof. keeps_tac. Qed.
Lemma invoke_tcb_copy_registers_wf t a b c d e : kept (invoke_tcb_copy_registers t a b c d e).
Proof. keeps_tac. Qed.
Lemma decode_tcb_configure_wf t n p b : kept (decode_tcb_configure t n p b).
Proof. keeps_tac. Qed.
Lemma decode_set_sched_params_mcs_wf t n p b : kept (decode_set_sched_params_mcs t n p b).
Proof. keeps_tac. Qed.
Lemma decode_set_space_mcs_wf t n p b : kept (decode_set_space_mcs t n p b).
Proof. keeps_tac. Qed.
Lemma decode_set_space_wf t n p b : kept (decode_set_space t n p b).
Proof. keeps_tac. Qed.
Lemma decode_set_ipc_buffer_wf t n p b : kept (decode_set_ipc_buffer t n p b).
Proof. keeps_tac. Qed.
Hint Resolve invoke_tcb_read_registers_wf invoke_tcb_write_registers_wf invoke_tcb_copy_registers_wf
  decode_tcb_configure_wf decode_set_sched_params_mcs_wf decode_set_space_mcs_wf decode_set_space_wf
  decode_set_ipc_buffer_wf : keeps.
Lemma decode_tcb_invocation_wf l n t p c b : kept (decode_tcb_invocation l n t p c b).
Proof. keeps_tac. Qed.
Lemma decode_domain_invocation_wf l n b : kept (decode_domain_invocation l n b).
Proof. keeps_tac. Qed.
Hint Resolve decode_tcb_invocation_wf decode_domain_invocation_wf : keeps.
End decoding.
#[export] Hint Resolve decode_cnode_invoke_with_two_slot_wf decode_cnode_rotate_wf decode_cnode_invocation_wf
  invoke_tcb_read_registers_wf invoke_tcb_write_registers_wf invoke_tcb_copy_registers_wf
  decode_tcb_configure_wf decode_set_sched_params_mcs_wf decode_set_space_mcs_wf decode_set_space_wf
  decode_set_ipc_buffer_wf decode_tcb_invocation_wf decode_domain_invocation_wf : keeps.

(** ** Scheduling contexts, interrupts, memory *)

Section decoding_more.
Context `{Config} `{D : CSpaceDeps} `{!DepsWf D} `{DeletionFuel} `{Outside}.

Lemma invoke_sched_context_yield_to_wf sc : kept (invoke_sched_context_yield_to sc).
Proof. keeps_tac. Qed.
Lemma invoke_sched_control_configure_flags_wf a b c d e f g : kept (invoke_sched_control_configure_flags a b c d e f g).
Proof. keeps_tac. Qed.
Lemma invoke_sched_context_unbind_wf sc : kept (invoke_sched_context_unbind sc).
Proof. keeps_tac. Qed.
Lemma decode_sched_context_bind_wf sc : kept (decode_sched_context_bind sc).
Proof. keeps_tac. Qed.
Lemma decode_sched_context_unbind_object_wf sc : kept (decode_sched_context_unbind_object sc).
Proof. keeps_tac. Qed.
Lemma decode_sched_context_yield_to_wf sc : kept (decode_sched_context_yield_to sc).
Proof. keeps_tac. Qed.
Hint Resolve invoke_sched_context_yield_to_wf invoke_sched_control_configure_flags_wf
  invoke_sched_context_unbind_wf decode_sched_context_bind_wf decode_sched_context_unbind_object_wf
  decode_sched_context_yield_to_wf : keeps.
Lemma get_vspace_wf c : kept (get_vspace c).
Proof. keeps_tac. Qed.
Lemma invoke_page_map_wf a b c d e f : kept (invoke_page_map a b c d e f).
Proof. keeps_tac. Qed.
Lemma invoke_page_unmap_wf p : kept (invoke_page_unmap p).
Proof. keeps_tac. Qed.
Lemma invoke_page_get_address_wf p c : kept (invoke_page_get_address p c).
Proof. keeps_tac. Qed.
Lemma invoke_page_table_unmap_wf p : kept (invoke_page_table_unmap p).
Proof. keeps_tac. Qed.
Lemma invoke_page_table_map_wf a b c d : kept (invoke_page_table_map a b c d).
Proof. keeps_tac. Qed.
Lemma invoke_asid_control_wf a b c d : kept (invoke_asid_control a b c d).
Proof. keeps_tac. Qed.
Lemma invoke_asid_pool_wf a b c : kept (invoke_asid_pool a b c).
Proof. keeps_tac. Qed.
Lemma invoke_irq_control_wf a b c : kept (invoke_irq_control a b c).
Proof. keeps_tac. Qed.
Hint Resolve get_vspace_wf invoke_page_map_wf invoke_page_unmap_wf invoke_page_get_address_wf
  invoke_page_table_unmap_wf invoke_page_table_map_wf invoke_asid_control_wf invoke_asid_pool_wf
  invoke_irq_control_wf : keeps.
Lemma decode_frame_map_wf n p b : kept (decode_frame_map n p b).
Proof. keeps_tac. Qed.
Lemma decode_page_table_map_wf n p b : kept (decode_page_table_map n p b).
Proof. keeps_tac. Qed.
Lemma decode_page_table_unmap_wf p : kept (decode_page_table_unmap p).
Proof. keeps_tac. Qed.
Lemma decode_asid_control_wf l n b : kept (decode_asid_control l n b).
Proof. keeps_tac. Qed.
Lemma decode_asid_pool_wf l p : kept (decode_asid_pool l p).
Proof. keeps_tac. Qed.
Lemma arch_decode_irq_control_invocation_wf l n p b : kept (arch_decode_irq_control_invocation l n p b).
Proof. keeps_tac. Qed.
Hint Resolve decode_frame_map_wf decode_page_table_map_wf decode_page_table_unmap_wf decode_asid_control_wf
  decode_asid_pool_wf arch_decode_irq_control_invocation_wf : keeps.
Lemma arm_find_root_wf v : kept (arm_find_root v).
Proof. keeps_tac. Qed.
Hint Resolve arm_find_root_wf : keeps.
Lemma arm_decode_frame_map_wf n p b : kept (arm_decode_frame_map n p b).
Proof. keeps_tac. Qed.
Lemma arm_decode_page_table_unmap_wf p : kept (arm_decode_page_table_unmap p).
Proof. keeps_tac. Qed.
Lemma arm_map_page_table_wf c a v : kept (arm_map_page_table c a v).
Proof. keeps_tac. Qed.
Lemma arm_decode_asid_control_wf l n b : kept (arm_decode_asid_control l n b).
Proof. keeps_tac. Qed.
Lemma arm_decode_asid_pool_wf l p : kept (arm_decode_asid_pool l p).
Proof. keeps_tac. Qed.
Lemma decode_page_clean_invocation_wf n p b : kept (decode_page_clean_invocation n p b).
Proof. keeps_tac. Qed.
Lemma arm_flush_vspace_wf v a b : kept (arm_flush_vspace v a b).
Proof. keeps_tac. Qed.
Hint Resolve arm_decode_frame_map_wf arm_decode_page_table_unmap_wf arm_map_page_table_wf
  arm_decode_asid_control_wf arm_decode_asid_pool_wf decode_page_clean_invocation_wf arm_flush_vspace_wf :
  keeps.
Lemma decode_vspace_root_invocation_wf l n p b : kept (decode_vspace_root_invocation l n p b).
Proof. keeps_tac. Qed.
Lemma arm_decode_frame_invocation_wf l n p c b : kept (arm_decode_frame_invocation l n p c b).
Proof. keeps_tac. Qed.
Lemma arm_decode_page_table_invocation_wf l n p b : kept (arm_decode_page_table_invocation l n p b).
Proof. keeps_tac. Qed.
Lemma invoke_smc_call_wf f b c : kept (invoke_smc_call f b c).
Proof. keeps_tac. Qed.
Hint Resolve decode_vspace_root_invocation_wf arm_decode_frame_invocation_wf
  arm_decode_page_table_invocation_wf invoke_smc_call_wf : keeps.
Lemma decode_sched_context_invocation_wf l c : kept (decode_sched_context_invocation l c).
Proof. keeps_tac. Qed.
Lemma decode_sched_control_invocation_wf l n c b : kept (decode_sched_control_invocation l n c b).
Proof. keeps_tac. Qed.
Lemma decode_irq_control_invocation_wf l n p b : kept (decode_irq_control_invocation l n p b).
Proof. keeps_tac. Qed.
Lemma decode_irq_handler_invocation_wf l i : kept (decode_irq_handler_invocation l i).
Proof. keeps_tac. Qed.
Lemma riscv_decode_mmu_invocation_wf l n p c b : kept (riscv_decode_mmu_invocation l n p c b).
Proof. keeps_tac. Qed.
Lemma arm_decode_mmu_invocation_wf l n p c b : kept (arm_decode_mmu_invocation l n p c b).
Proof. keeps_tac. Qed.
Lemma decode_arm_smc_invocation_wf f l n d c b : kept (decode_arm_smc_invocation f l n d c b).
Proof. keeps_tac. Qed.
Lemma decode_endpoint_wf e x y z : kept (decode_endpoint e x y z).
Proof. keeps_tac. Qed.
Lemma decode_notification_wf n : kept (decode_notification n).
Proof. keeps_tac. Qed.
Lemma decode_reply_wf r p : kept (decode_reply r p).
Proof. keeps_tac. Qed.
Hint Resolve decode_sched_context_invocation_wf decode_sched_control_invocation_wf
  decode_irq_control_invocation_wf decode_irq_handler_invocation_wf riscv_decode_mmu_invocation_wf
  arm_decode_mmu_invocation_wf decode_arm_smc_invocation_wf decode_endpoint_wf decode_notification_wf
  decode_reply_wf : keeps.
Lemma decode_mmu_invocation_wf l n p c b : kept (decode_mmu_invocation l n p c b).
Proof. keeps_tac. Qed.
Hint Resolve decode_mmu_invocation_wf : keeps.
Lemma set_mrs_for_syscall_error_wf t : kept (set_mrs_for_syscall_error t).
Proof. keeps_tac. Qed.
Hint Resolve set_mrs_for_syscall_error_wf : keeps.
Lemma reply_error_from_kernel_wf t : kept (reply_error_from_kernel t).
Proof. keeps_tac. Qed.
Lemma reply_success_from_kernel_wf t : kept (reply_success_from_kernel t).
Proof. keeps_tac. Qed.
Hint Resolve reply_error_from_kernel_wf reply_success_from_kernel_wf : keeps.
Lemma finish_invocation_wf t c e : kept (finish_invocation t c e).
Proof. keeps_tac. Qed.
Hint Resolve finish_invocation_wf : keeps.
End decoding_more.
#[export] Hint Resolve invoke_sched_context_yield_to_wf invoke_sched_control_configure_flags_wf
  invoke_sched_context_unbind_wf decode_sched_context_bind_wf decode_sched_context_unbind_object_wf
  decode_sched_context_yield_to_wf get_vspace_wf invoke_page_map_wf invoke_page_unmap_wf
  invoke_page_get_address_wf invoke_page_table_unmap_wf invoke_page_table_map_wf invoke_asid_control_wf
  invoke_asid_pool_wf invoke_irq_control_wf decode_frame_map_wf decode_page_table_map_wf
  decode_page_table_unmap_wf decode_asid_control_wf decode_asid_pool_wf arch_decode_irq_control_invocation_wf
  arm_find_root_wf arm_decode_frame_map_wf arm_decode_page_table_unmap_wf arm_map_page_table_wf
  arm_decode_asid_control_wf arm_decode_asid_pool_wf decode_page_clean_invocation_wf arm_flush_vspace_wf
  decode_vspace_root_invocation_wf arm_decode_frame_invocation_wf arm_decode_page_table_invocation_wf
  invoke_smc_call_wf decode_sched_context_invocation_wf decode_sched_control_invocation_wf
  decode_irq_control_invocation_wf decode_irq_handler_invocation_wf riscv_decode_mmu_invocation_wf
  arm_decode_mmu_invocation_wf decode_arm_smc_invocation_wf decode_endpoint_wf decode_notification_wf
  decode_reply_wf decode_mmu_invocation_wf set_mrs_for_syscall_error_wf reply_error_from_kernel_wf
  reply_success_from_kernel_wf finish_invocation_wf : keeps.

(** ** Retyping *)

Section retyping.
Context `{Config} `{D : CSpaceDeps} `{!DepsWf D}.

Lemma object_cap_wf t base us d c :
  (t = CapTableObject -> 1 <= us < 63) -> object_cap t base us d = Ok c -> cap_wf c.
Proof.
  intros Ht E. destruct t; cbn in E; try (by injection E as <-); try discriminate E.
  injection E as <-. specialize (Ht eq_refl). unfold cap_wf, cnode_wf. cbn. lia.
Qed.
Hint Resolve object_cap_wf : wf.

Section size.
Context (t : ObjectType) (us : Z) (Hsize : t = CapTableObject -> 1 <= us < 63).

Lemma create_object_wf base d : keeps caps_wf cap_wf (create_object t base us d).
Proof.
  unfold create_object. eapply (keeps_bind _ (fun _ => True)); [keeps_tac|]. intros _ _.
  eapply keeps_mono; [apply keeps_lift_res|]. intros c Hc. exact (object_cap_wf _ _ _ _ _ Hsize Hc).
Qed.
Lemma create_new_objects_wf p dc off n base d : kept (create_new_objects t p dc off n base us d).
Proof.
  unfold create_new_objects. eapply (keeps_bind _ (fun _ => True)); [keeps_tac|]. intros sz _.
  apply keeps_for_range. intros i. eapply keeps_bind; [apply create_object_wf|]. intros c Hc.
  by apply keeps_on_ctes, insert_new_cap_keeps.
Qed.
Hint Resolve create_new_objects_wf : keeps.
Lemma reset_loop_wf n p r o : kept (reset_loop n p r o).
Proof. revert o. induction n; intros; cbn [reset_loop]; keeps_tac. Qed.
Hint Resolve reset_loop_wf : keeps.
Lemma decode_retype_wf p u bits cn off w : kept (decode_retype p u t us bits cn off w).
Proof. keeps_tac. Qed.
End size.

(** The checks that bound the radix. *)
Lemma check_object_type_wf t us :
  keeps caps_wf (fun st => exc_ok st = true -> t = CapTableObject -> us <> 0) (check_object_type t us).
Proof.
  unfold check_object_type. destruct (_ && (us =? 0)) eqn:E.
  - eapply (keeps_mono _ (fun st => st = EXCEPTION_SYSCALL_ERROR)); [|by intros ? -> [=]].
    unfold invalid_argument, syscall_error.
    eapply (keeps_bind _ (fun _ => True)); [keeps_tac|]. intros. by apply keeps_ret.
  - eapply (keeps_mono _ (fun _ => True)); [keeps_tac|]. intros st _ _ -> ->.
    by rewrite bool_decide_true in E.
Qed.
End retyping.
