(* ===== verification/TypeProps.v ===== *)
(** * Every entry into the kernel keeps capabilities well formed

    The invariant [caps_wf] of CapWf.v through whole entries: system calls
    (with or without MCS), faults of user code and interrupts. *)

From S2P Require Import Prelude Monad Config Objects State CapOps CSpace VSpace VSpaceArm Frame.
From S2P Require Import Refill TcbQueue Sched Tcb SchedCtx Schedule Ipc Interrupt Finalise Syscall.
From S2P Require Import Untyped CNodeInv TcbInv SchedInv IrqInv MmuInv MmuArm Invocation.
From S2P Require Import Example UntypedProps ErrorProps CapWf CapWfProps.

(** From a state whose registers hold words. *)
Definition kept_from {A} (m : K A) : Prop :=
  forall s a s', regs_ok s -> caps_wf s -> m s = Ok (a, s') -> caps_wf s'.

Lemma kept_from_keeps {A} (Q : A -> Prop) (m : K A) : keeps caps_wf Q m -> kept_from m.
Proof. intros Hm s a s' _ Hs E. by apply Hm in E as [? _]. Qed.

Lemma kept_from_prefix {A B} (P : A -> Prop) (m : K A) (k : A -> K B) :
  frame (same tcbs) m -> keeps caps_wf P m -> (forall a, P a -> kept_from (k a)) -> kept_from (bind m k).
Proof.
  intros Hf Hm Hk s b s' Hr Hs E. apply bind_inv in E as (a & s1 & E1 & E).
  pose proof (Hf _ _ _ E1) as Ht. apply Hm in E1 as [Hs1 HP]; [|done].
  eapply (Hk a HP s1); [|done..]. intros p t Hp. apply (Hr p). unfold same in Ht. by rewrite Ht in Hp.
Qed.

Lemma kept_from_suffix {A B} (m : K A) (k : A -> K B) :
  kept_from m -> (forall a, kept (k a)) -> kept_from (bind m k).
Proof.
  intros Hm Hk s b s' Hr Hs E. apply bind_inv in E as (a & s1 & E1 & E).
  apply Hm in E1; [|done..]. by apply Hk in E as [? _].
Qed.

(** Programs that leave the threads alone. *)
Ltac same_tcbs :=
  repeat (first [frame_step | apply frame_reads; [exact _|]; solve [reads_tac]
                | progress unfold lookup_slot, lookup_ipc_buffer, tcb_cap, syscall_lookup_extra_caps_with_buf,
                    lookup_extra_caps_with_buf, set_fault, get_register, unwrap]; cbv beta zeta).

Section entries.
Context `{Config} `{D : CSpaceDeps} `{!DepsWf D} `{DeletionFuel} `{Outside}.

Lemma untyped_rest_wf (t : ObjectType) us bits p u ni nd off w :
  is_word us -> get_object_size t us = Ok bits ->
  kept (if (WORD_BITS <=? us) || (SEL4_MAX_UNTYPED_BITS <? bits) then range_error 0 SEL4_MAX_UNTYPED_BITS else
        check (check_object_type t us) in
        if kernel_mcs && bool_decide (t = SchedContextObject) && (us <? SEL4_MIN_SCHED_CONTEXT_BITS)
        then invalid_argument 1 else
        let* target := get_target_cnode ni nd in
        match target with
        | inl status => ret status
        | inr cn => check (check_cnode_slot cn off w) in decode_retype p u t us bits cn off w
        end).
Proof.
  intros Hw Hb. destruct (_ || _) eqn:E; [keeps_tac|].
  eapply keeps_bind; [apply check_object_type_wf|]. intros st Hst.
  destruct (exc_ok st) eqn:Est; [|keeps_tac]. specialize (Hst Est).
  assert (Hsize : t = CapTableObject -> 1 <= us < 63).
  { intros ->. specialize (Hst eq_refl). apply orb_false_iff in E as [E1 E2]. zbool.
    change WORD_BITS with 64 in *. unfold SEL4_MAX_UNTYPED_BITS in *. unfold is_word in Hw.
    cbn in Hb. injection Hb as <-. change SEL4_SLOT_BITS with 5 in *.
    rewrite wadd_small in E2 by (unfold word_size; lia). destruct target_arch; lia. }
  pose proof (fun u bits cn off w => decode_retype_wf t us Hsize p u bits cn off w). keeps_tac.
Qed.

Lemma decode_untyed_wf l n p u b : kept_from (decode_untyed_invocation l n p u b).
Proof.
  unfold decode_untyed_invocation. destruct l; try (apply (kept_from_keeps (fun _ => True)); keeps_tac; fail).
  apply (kept_from_prefix (fun _ => True));
    [apply frame_reads; [exact _|apply reads_no_extra_cap]|keeps_tac|intros missing _].
  destruct (_ || _); [apply (kept_from_keeps (fun _ => True)); keeps_tac|].
  apply (kept_from_prefix (fun _ => True));
    [apply frame_reads; [exact _|apply reads_get_syscall_arg]|keeps_tac|intros ty _].
  destruct (from_usize ty) as [t|]; [|apply (kept_from_keeps (fun _ => True)); keeps_tac].
  intros s a s' Hr Hs E. apply bind_inv in E as (us & s1 & E1 & E).
  pose proof (get_syscall_arg_word 1 _ _ _ _ Hr ltac:(reflexivity) E1) as Hw.
  apply get_syscall_arg_reads in E1 as ->.
  do 4 (apply bind_inv in E as (? & s1 & E1 & E); apply get_syscall_arg_reads in E1 as ->).
  apply bind_inv in E as (bits & s1 & E1 & E). apply lift_res_inv in E1 as [E1 ->].
  by apply (untyped_rest_wf t us bits) in E as [? _].
Qed.

Lemma decode_invocation_wf l n p c x y z w b : cap_wf c -> kept_from (decode_invocation l n p c x y z w b).
Proof.
  intros Hc. unfold decode_invocation, second_phase.
  destruct c; try apply decode_untyed_wf; apply (kept_from_keeps (fun _ => True)); keeps_tac.
Qed.

Lemma extra_caps_loop_tcbs n t b i l : frame (same tcbs) (extra_caps_loop n t b i l).
Proof. revert i l. induction n; intros; cbn [extra_caps_loop]; same_tcbs; eauto. Qed.

Lemma handle_invocation_wf x y z w p : kept_from (handle_invocation_at x y z w p).
Proof.
  unfold handle_invocation_at. pose proof extra_caps_loop_tcbs.
  do 3 (apply (kept_from_prefix (fun _ => True)); [same_tcbs|keeps_tac|intros ? _]).
  destruct (negb _); [apply (kept_from_keeps (fun _ => True)); keeps_tac|].
  do 2 (apply (kept_from_prefix (fun _ => True)); [same_tcbs; eauto|keeps_tac|intros ? _]).
  destruct (negb _); [apply (kept_from_keeps (fun _ => True)); keeps_tac|].
  apply (kept_from_prefix cap_wf); [same_tcbs|keeps_tac|intros c Hc].
  do 2 (apply (kept_from_prefix (fun _ => True)); [same_tcbs|keeps_tac|intros ? _]).
  apply kept_from_suffix; [by apply decode_invocation_wf|]. intros. keeps_tac.
Qed.

Lemma reads_refill_sufficient c : reads (refill_sufficient c).
Proof. unfold refill_sufficient, refill_capacity, refill_head. reads_tac. apply reads_refill_index. Qed.
Lemma reads_sc_refill_ready sc : reads (sc_refill_ready sc).
Proof.
  unfold sc_refill_ready, refill_ready, refill_head. reads_tac.
  apply reads_on_sc. reads_tac. apply reads_refill_index.
Qed.

(** With budget left, accounting changes nothing. *)
Lemma check_budget_true s s' : check_budget s = Ok (true, s') -> s' = s.
Proof.
  unfold check_budget. intros E.
  apply bind_inv in E as (scp & s1 & E1 & E). apply reads_gets in E1 as ->.
  apply bind_inv in E as (rd & s1 & E1 & E). apply reads_sc_refill_ready in E1 as ->.
  apply bind_inv in E as (u & s1 & E1 & E). apply reads_kassert in E1 as ->.
  apply bind_inv in E as (c & s1 & E1 & E). apply reads_gets in E1 as ->.
  apply bind_inv in E as (b & s1 & E1 & E).
  apply (reads_on_sc _ _ (reads_refill_sufficient c)) in E1 as ->.
  destruct b; [|by apply bind_inv in E as (? & ? & _ & [? _]%ret_inv)].
  apply bind_inv in E as (e & s1 & E1 & E). apply ret_inv in E as [_ ->]. revert E1.
  assert (Hr : reads is_cur_domain_expired) by (unfold is_cur_domain_expired; reads_tac). apply Hr.
Qed.
Lemma check_budget_restart_true s s' : check_budget_restart s = Ok (true, s') -> s' = s.
Proof.
  unfold check_budget_restart. intros E.
  apply bind_inv in E as (cur & s1 & E1 & E). apply reads_gets in E1 as ->.
  apply bind_inv in E as (t & s1 & E1 & E). apply reads_get_tcb in E1 as ->.
  apply bind_inv in E as (u & s1 & E1 & E). apply reads_kassert in E1 as ->.
  apply bind_inv in E as (r & s1 & E1 & E).
  apply bind_inv in E as (cur' & s2 & E2 & E). apply reads_gets in E2 as ->.
  apply bind_inv in E as (t' & s2 & E2 & E). apply reads_get_tcb in E2 as ->.
  apply bind_inv in E as (u' & s2 & E2 & E). apply ret_inv in E as [<- ->].
  apply ret_inv in E2 as [_ ->]. by apply check_budget_true.
Qed.

Lemma with_budget_wf m : kept_from m -> kept_from (with_budget m).
Proof.
  intros Hm. unfold with_budget. apply (kept_from_prefix (fun _ => True)); [|keeps_tac|].
  { unfold update_timestamp, set_ksConsumed. same_tcbs. }
  intros _ _ s a s' Hr Hs E. apply bind_inv in E as (b & s1 & E1 & E). destruct b; cbn in E.
  - apply check_budget_restart_true in E1 as ->. by eapply Hm.
  - apply check_budget_restart_wf in E1 as [? _]; [|done]. by apply ret_inv in E as [_ ->].
Qed.

Lemma invoke_register_wf r x y z w : kept_from (invoke_register r x y z w).
Proof.
  unfold invoke_register. do 2 (apply (kept_from_prefix (fun _ => True)); [same_tcbs|keeps_tac|intros ? _]).
  apply handle_invocation_wf.
Qed.
Lemma handle_recv_wf x y : kept (handle_recv x y).
Proof. keeps_tac. Qed.
Lemma handle_interrput_wf i : kept (handle_interrput i).
Proof. keeps_tac. Qed.
Hint Resolve handle_recv_wf handle_interrput_wf : keeps.
Lemma after_invocation_wf r : kept (after_invocation r).
Proof. keeps_tac. Qed.
Hint Resolve after_invocation_wf : keeps.

Lemma handlesyscall_wf n : kept_from (handlesyscall n).
Proof.
  unfold handlesyscall, handlesyscall_mcs, handlesyscall_non_mcs.
  destruct kernel_mcs; (apply kept_from_suffix; [|intros; keeps_tac]).
  - apply with_budget_wf. unfold mcs_syscall. repeat case_match;
      first [ apply kept_from_suffix; [apply invoke_register_wf|intros; keeps_tac]
            | apply (kept_from_keeps (fun _ => True)); keeps_tac ].
  - repeat case_match;
      first [ apply kept_from_suffix; [apply (invoke_register_wf Cap)|intros; keeps_tac]
            | apply (kept_from_keeps (fun _ => True)); keeps_tac ].
Qed.

Lemma budgeted_fault_wf m : kept m -> kept_from (budgeted_fault m).
Proof.
  intros Hm. apply kept_from_keeps in Hm. unfold budgeted_fault.
  destruct kernel_mcs; [by apply with_budget_wf|done].
Qed.

Lemma handle_unknown_syscall_wf n : kept_from (handle_unknown_syscall n).
Proof. apply (kept_from_keeps (fun _ => True)). keeps_tac. Qed.

Lemma slowpath_wf n : kept_from (slowpath n).
Proof. unfold slowpath. case_match; [apply handle_unknown_syscall_wf|apply handlesyscall_wf]. Qed.

Lemma handleUserLevelFault_wf a b : kept_from (handleUserLevelFault a b).
Proof.
  unfold handleUserLevelFault. apply kept_from_suffix; [|intros; keeps_tac].
  apply budgeted_fault_wf. keeps_tac.
Qed.
Lemma handleVMFaultEvent_wf a e t : kept_from (handleVMFaultEvent a e t).
Proof.
  unfold handleVMFaultEvent. apply kept_from_suffix; [|intros; keeps_tac].
  apply budgeted_fault_wf. keeps_tac.
Qed.
Lemma handle_interrupt_entry_wf : kept_from handle_interrupt_entry.
Proof. apply (kept_from_keeps (fun _ => True)). keeps_tac. Qed.

(** One entry into the kernel, as the trap handlers make them. *)
Inductive kernel_entry (s s' : kstate) : Prop :=
| entry_syscall n r : slowpath n s = Ok (r, s') -> kernel_entry s s'
| entry_user_fault a b r : handleUserLevelFault a b s = Ok (r, s') -> kernel_entry s s'
| entry_vm_fault a e t r : handleVMFaultEvent a e t s = Ok (r, s') -> kernel_entry s s'
| entry_interrupt r : handle_interrupt_entry s = Ok (r, s') -> kernel_entry s s'.
End entries.

(** Whatever user code asks for, when every slot holds a well-formed capability
    the same is true after any system call, fault or interrupt that returns. *)
Lemma kernel_entry_caps_wf `{Config} `{DeletionFuel} `{Outside} nest s s' :
  @kernel_entry _ (kernel_deps nest) _ _ s s' -> regs_ok s -> caps_wf s -> caps_wf s'.
Proof.
  intros E Hr Hs. destruct E as [n r E|a b r E|a e t r E|r E].
  - by eapply slowpath_wf in E.
  - by eapply handleUserLevelFault_wf in E.
  - by eapply handleVMFaultEvent_wf in E.
  - by eapply handle_interrupt_entry_wf in E.
Qed.

#[export] Instance cap_wf_dec c : Decision (cap_wf c).
Proof. destruct c; cbn; unfold cnode_wf, zombie_type_ok; apply _. Defined.
