(* ===== verification/Fastpath.v ===== *)
(** * The IPC fast path (kernel/src/kernel/fastpath.rs)

    Calls and replies between two threads that need no scheduling decision.
    Every condition that does not hold hands the call to [slowpath], which
    does not come back.  Otherwise the result is what [fastpath_restore] puts
    in the registers of the thread that runs next: the badge and the message
    information.  Packed words are written whole: writing the word that holds
    [tsType] clears [blockingObject] with it. *)

From S2P Require Import Prelude Monad Config Objects State CapOps CSpace CSpaceProps VSpace.
From S2P Require Import Refill TcbQueue Sched Tcb SchedCtx Schedule Ipc Interrupt Finalise Syscall.
From S2P Require Import Untyped CNodeInv TcbInv SchedInv IrqInv MmuInv MmuArm Invocation.

Definition SEL4_MSG_LENGTH_BITS : Z := 7.
Definition SEL4_MSG_EXTRA_CAP_BITS : Z := 2.

(** ** Lookup *)

Fixpoint lookup_fp_loop (fuel : nat) (cnode : cnode_cap) (cptr bits : Z) : M (gmap Z cte_t) cap :=
  match fuel with
  | O => fail EFuel
  | S fuel =>
      let guardBits := capCNodeGuardSize cnode in
      let radixBits := capCNodeRadix cnode in
      let cptr2 := cptr <<w bits in
      let capGuard := capCNodeGuard cnode in
      if negb (guardBits =? 0) && negb (cptr2 >>w (WORD_BITS -w guardBits) =? capGuard)
      then ret cap_null_cap
      else
        let radix := (cptr2 <<w guardBits) >>w (WORD_BITS -w radixBits) in
        let slot := get_offset_slot (capCNodePtr cnode) radix in
        let* c := hget slot in
        let bits := bits +w (guardBits +w radixBits) in
        match capability c with
        | cap_cnode_cap cnode' =>
            if bits <? WORD_BITS then lookup_fp_loop fuel cnode' cptr bits
            else ret (if WORD_BITS <? bits then cap_null_cap else capability c)
        | _ => ret (if WORD_BITS <? bits then cap_null_cap else capability c)
        end
  end.

(** A CNode resolves at least one bit, so that a word has at most 64 levels. *)
Definition lookup_fp (c : cap) (cptr : Z) : M (gmap Z cte_t) cap :=
  match c with
  | cap_cnode_cap cnode => lookup_fp_loop (S (Z.to_nat WORD_BITS)) cnode cptr 0
  | _ => ret cap_null_cap
  end.

Section fastpath.
Context `{Config} `{CSpaceDeps} `{DeletionFuel} `{Outside}.

(** ** Writing packed words *)

(** [tcbState.0.arr[0] = ep | tsType]. *)
Definition thread_state_ptr_mset_blockingObject_tsType (ep : Z) (st : ThreadState) (t : tcb_t) : tcb_t :=
  set_tcb_state (fun ts => ts <| tsType := st |> <| blockingObject := ep |>) t.

Definition endpoint_ptr_mset_epQueue_tail_state (ptr tail : Z) (st : EPState) : K unit :=
  mod_ep ptr (fun e => e <| epQueue_tail := tail |> <| ep_state := st |>).

Definition mdb_node_ptr_mset_mdbNext_mdbRevocable_mdbFirstBadged (next revocable first_badged : Z)
    (m : mdb_node) : mdb_node :=
  m <| mdbNext := next |> <| mdbRevocable := revocable |> <| mdbFirstBadged := first_badged |>.

Definition isValidVTableRoot_fp (c : cap) : bool :=
  match c with cap_page_table_cap pt => negb (capPTIsMapped pt =? 0) | _ => false end.

(** True when the message does not fit the registers, or has extra caps. *)
Definition fastpath_mi_check (msgInfo : Z) : bool :=
  4 <? Z.land msgInfo (mask_bits (SEL4_MSG_LENGTH_BITS + SEL4_MSG_EXTRA_CAP_BITS)).

Definition fastpath_copy_mrs (length src dest : Z) : K unit :=
  let* first := lift_res (to_index (Msg 0)) in
  for_range (Z.to_nat length) first (fun i =>
    let* s := get_tcb src in
    let* v := lift_res (array_get (registers (tcbArch s)) i) in
    let* d := get_tcb dest in
    let* l := lift_res (array_set (registers (tcbArch d)) i v) in
    mod_tcb dest (set_registers l)).

Definition switch_to_thread_fp (thread vroot asid : Z) : K unit :=
  on_vspace
    match target_arch with
    | RISCV64 => set_vspace_root (to_paddr vroot) asid
    | AARCH64 => set_current_user_vspace_root (ttbr_new asid (to_paddr vroot))
    end ;;;
  set_current_thread thread.

(** ** Results *)

(** [inl]: the call took the slow path. *)
Definition fp_result : Type := (exception_t + (Z * Z))%type.

Definition slow (syscall : Z) : K fp_result :=
  let* e := slowpath (wrap syscall) in ret (inl e).

(** [if condition { slowpath(..) }]. *)
Definition unless_slow (syscall : Z) (condition : bool) (k : K fp_result) : K fp_result :=
  if condition then slow syscall else k.

Definition slot_vtable (c : cap) : K page_table_cap :=
  match c with cap_page_table_cap pt => ret pt | _ => fail EUndef end.

(** The end of every fast path: copy the message, run the thread. *)
Definition fastpath_finish (current dest msgInfo badge : Z) (vtable : cap) : K fp_result :=
  fastpath_copy_mrs (get_length msgInfo) current dest ;;;
  mod_tcb dest (thread_state_ptr_mset_blockingObject_tsType 0 ThreadStateRunning) ;;;
  let* pt := slot_vtable vtable in
  switch_to_thread_fp dest (capPTBasePtr pt) (capPTMappedASID pt) ;;;
  ret (inr (badge, set_capsUnwrapped msgInfo 0)).

(** ** Call *)

(** Take the receiver off the queue.  The new head keeps its [tcbEPPrev];
    its [tcbEPNext] is cleared instead. *)
Definition fp_dequeue (ep dest : Z) : K unit :=
  let* d := get_tcb dest in
  let next := tcbEPNext d in
  mod_ep ep (fun e => e <| epQueue_head := next |>) ;;;
  if negb (next =? 0) then mod_tcb next (fun t => t <| tcbEPNext := 0 |>)
  else mod_ep ep (fun e => e <| epQueue_tail := 0 |> <| ep_state := EP_Idle |>).

(** The reply capability of the receiver (without MCS). *)
Definition fp_setup_caller (current dest : Z) : K unit :=
  let reply_slot := get_cspace current TCB_REPLY in
  let caller_slot := get_cspace dest TCB_CALLER in
  let* d := get_tcb dest in
  let grant := blockingIPCCanGrant (tcbState d) in
  mod_cte caller_slot (fun c =>
    c <| capability := cap_reply_cap (mk_reply_cap 0 current 0 grant) |>
      <| cteMDBNode ::= fun m => m <| mdbPrev := reply_slot |> |>) ;;;
  mod_cte reply_slot (fun c =>
    c <| cteMDBNode ::= mdb_node_ptr_mset_mdbNext_mdbRevocable_mdbFirstBadged caller_slot 1 1 |>).

Definition assert_not_scheduled (t : tcb_t) : K unit :=
  kassert (tcbQueued (tcbState t) =? 0) ;;;
  kassert (tcbInReleaseQueue (tcbState t) =? 0).

(** Push the reply object of the receiver on the call stack and donate the
    scheduling context (with MCS). *)
Definition fp_push_reply (current dest : Z) : K unit :=
  let* d := get_tcb dest in
  let reply := replyObject (tcbState d) in
  assert_not_scheduled d ;;;
  mod_tcb dest (set_replyObject 0) ;;;
  let* c := get_tcb current in
  assert_not_scheduled c ;;;
  mod_tcb current (set_replyObject reply) ;;;
  mod_reply reply (fun r => r <| replyTCB := current |>) ;;;
  let sc := tcbSchedContext c in
  mod_sc sc (set_scTcb dest) ;;;
  mod_tcb dest (set_tcbSchedContext sc) ;;;
  mod_tcb current (set_tcbSchedContext 0) ;;;
  let* s := get_sc sc in
  mod_reply reply (fun r => r <| replyPrev := mk_call_stack 0 (scReply s) |>) ;;;
  when (negb (scReply s =? 0))
    (mod_reply (scReply s) (fun r => r <| replyNext := mk_call_stack 0 reply |>)) ;;;
  mod_reply reply (fun r => r <| replyNext := mk_call_stack 1 sc |>) ;;;
  mod_sc sc (set_scReply reply).

Definition fastpath_call_to (current dest : Z) (e : endpoint_cap) (msgInfo : Z) (vtable : cap)
    : K fp_result :=
  fp_dequeue (capEPPtr e) dest ;;;
  mod_tcb current (thread_state_ptr_mset_blockingObject_tsType 0 ThreadStateBlockedOnReply) ;;;
  (if kernel_mcs then fp_push_reply current dest else fp_setup_caller current dest) ;;;
  fastpath_finish current dest msgInfo (capEPBadge e) vtable.

Definition fastpath_call (cptr msgInfo : Z) : K fp_result :=
  let* current := cur_thread in
  let* c := get_tcb current in
  unless_slow SYS_CALL (fastpath_mi_check msgInfo || negb (is_null_fault (tcbFault c)))
  (let* ctable := tcb_cap current TCB_CTABLE in
   let* lookup_fp_ret := on_ctes (lookup_fp ctable cptr) in
   match lookup_fp_ret with
   | cap_endpoint_cap e =>
       unless_slow SYS_CALL (capCanSend e =? 0)
       (let* ep := get_ep (capEPPtr e) in
        unless_slow SYS_CALL (negb (bool_decide (ep_state ep = EP_Recv)))
        (let dest := epQueue_head ep in
         let* d := get_tcb dest in
         let* new_vtable := tcb_cap dest TCB_VTABLE in
         unless_slow SYS_CALL (negb (isValidVTableRoot_fp new_vtable))
         (let* low := (if tcbPriority d <? tcbPriority c
                       then let* b := is_highest_prio 0 (tcbPriority d) in ret (negb b)
                       else ret false) in
          unless_slow SYS_CALL low
          (unless_slow SYS_CALL ((capCanGrant e =? 0) && (capCanGrantReply e =? 0))
           (unless_slow SYS_CALL (kernel_mcs && negb (tcbSchedContext d =? 0))
            (when kernel_mcs (assert_not_scheduled d) ;;;
             unless_slow SYS_CALL (kernel_mcs && (replyObject (tcbState d) =? 0))
               (fastpath_call_to current dest e msgInfo new_vtable)))))))
   | _ => slow SYS_CALL
   end).

(** ** Reply and receive, without MCS *)

(** Append the receiver at the tail. *)
Definition fp_enqueue (ep current : Z) : K unit :=
  let* e := get_ep ep in
  (if negb (epQueue_tail e =? 0) then
     mod_tcb (epQueue_tail e) (fun t => t <| tcbEPNext := current |>) ;;;
     mod_tcb current (fun t => t <| tcbEPPrev := epQueue_tail e |> <| tcbEPNext := 0 |>)
   else
     mod_tcb current (fun t => t <| tcbEPPrev := 0 |> <| tcbEPNext := 0 |>) ;;;
     mod_ep ep (fun e => e <| epQueue_head := current |>)) ;;;
  endpoint_ptr_mset_epQueue_tail_state ep current EP_Recv.

(** The reply capability is used up. *)
Definition fp_delete_caller (caller_slot : Z) : K unit :=
  let* c := get_cte caller_slot in
  mod_cte (mdbPrev (cteMDBNode c)) (fun n =>
    n <| cteMDBNode ::= mdb_node_ptr_mset_mdbNext_mdbRevocable_mdbFirstBadged 0 1 1 |>) ;;;
  mod_cte caller_slot (fun _ => mk_cte cap_null_cap mdb_zero).

Definition ntfn_active (ntfn : Z) : K bool :=
  if ntfn =? 0 then ret false
  else let* n := get_ntfn ntfn in ret (bool_decide (ntfn_state n = Ntfn_Active)).

Definition fastpath_reply_to (current caller : Z) (e : endpoint_cap) (msgInfo : Z) (vtable : cap)
    : K fp_result :=
  mod_tcb current (fun t =>
    set_tcb_state (fun ts => ts <| blockingIPCCanGrant := capCanGrant e |>)
      (thread_state_ptr_mset_blockingObject_tsType (capEPPtr e) ThreadStateBlockedOnReceive t)) ;;;
  fp_enqueue (capEPPtr e) current ;;;
  fp_delete_caller (get_cspace current TCB_CALLER) ;;;
  fastpath_finish current caller msgInfo 0 vtable.

Definition fastpath_reply_recv (cptr msgInfo : Z) : K fp_result :=
  let* current := cur_thread in
  let* c := get_tcb current in
  unless_slow SYS_REPLY_RECV (fastpath_mi_check msgInfo || negb (is_null_fault (tcbFault c)))
  (let* ctable := tcb_cap current TCB_CTABLE in
   let* lookup_fp_ret := on_ctes (lookup_fp ctable cptr) in
   match lookup_fp_ret with
   | cap_endpoint_cap e =>
       unless_slow SYS_REPLY_RECV (capCanSend e =? 0)
       (let* active := ntfn_active (tcbBoundNotification c) in
        unless_slow SYS_REPLY_RECV active
        (let* ep := get_ep (capEPPtr e) in
         unless_slow SYS_REPLY_RECV (bool_decide (ep_state ep = EP_Send))
         (let* caller_cap := tcb_cap current TCB_CALLER in
          match caller_cap with
          | cap_reply_cap r =>
              let caller := capReplyTCBPtr r in
              let* t := get_tcb caller in
              unless_slow SYS_REPLY_RECV (negb (is_null_fault (tcbFault t)))
              (let* new_vtable := tcb_cap caller TCB_VTABLE in
               unless_slow SYS_REPLY_RECV (negb (isValidVTableRoot_fp new_vtable))
               (let* high := is_highest_prio 0 (tcbPriority t) in
                unless_slow SYS_REPLY_RECV (negb high)
                  (fastpath_reply_to current caller e msgInfo new_vtable)))
          | _ => slow SYS_REPLY_RECV
          end)))
   | _ => slow SYS_REPLY_RECV
   end).

(** ** Reply and receive, with MCS *)

(** The waiting thread becomes the one the reply object belongs to, before
    [scTcb] is set from it. *)
Definition fastpath_reply_to_mcs (current caller reply : Z) (e : endpoint_cap) (msgInfo : Z) (vtable : cap)
    : K fp_result :=
  let ep := capEPPtr e in
  let* c := get_tcb current in
  kassert (replyObject (tcbState c) =? 0) ;;;
  mod_tcb current (thread_state_ptr_mset_blockingObject_tsType ep ThreadStateBlockedOnReceive) ;;;
  mod_tcb caller (set_replyObject 0) ;;;
  mod_tcb current (set_replyObject reply) ;;;
  mod_reply reply (fun r => r <| replyTCB := current |>) ;;;
  let* p := get_ep ep in
  (if negb (epQueue_tail p =? 0) then
     let* queue := on_tcbs (ep_append (ep_get_queue p) current) in
     mod_ep ep (fun e => e <| epQueue_head := head queue |>) ;;;
     endpoint_ptr_mset_epQueue_tail_state ep (tail queue) EP_Recv
   else
     mod_tcb current (fun t => t <| tcbEPPrev := 0 |> <| tcbEPNext := 0 |>) ;;;
     mod_ep ep (fun e => e <| epQueue_head := current |>) ;;;
     endpoint_ptr_mset_epQueue_tail_state ep current EP_Recv) ;;;
  let* r := get_reply reply in
  let prev_ptr := callStackPtr (replyPrev r) in
  let sc := tcbSchedContext c in
  mod_tcb current (set_tcbSchedContext 0) ;;;
  mod_tcb caller (set_tcbSchedContext sc) ;;;
  mod_sc sc (fun s => set_scReply prev_ptr (set_scTcb (replyTCB r) s)) ;;;
  when (negb (prev_ptr =? 0)) (mod_reply prev_ptr (fun p => p <| replyNext := replyNext r |>)) ;;;
  mod_reply reply (fun r => r <| replyPrev := call_stack_zero |> <| replyNext := call_stack_zero |>) ;;;
  fastpath_finish current caller msgInfo 0 vtable.

(** The tag of the reply capability is compared with that of endpoints: a
    reply capability takes the slow path, and from an endpoint capability the
    word at the place of the reply pointer, its badge, is used. *)
Definition fastpath_reply_recv_mcs (cptr msgInfo reply : Z) : K fp_result :=
  let* current := cur_thread in
  let* c := get_tcb current in
  unless_slow SYS_REPLY_RECV (fastpath_mi_check msgInfo || negb (is_null_fault (tcbFault c)))
  (let* ctable := tcb_cap current TCB_CTABLE in
   let* lookup_fp_ret := on_ctes (lookup_fp ctable cptr) in
   match lookup_fp_ret with
   | cap_endpoint_cap e =>
       unless_slow SYS_REPLY_RECV (capCanSend e =? 0)
       (let* reply_cap := on_ctes (lookup_fp ctable reply) in
        match reply_cap with
        | cap_endpoint_cap fake =>
            let* active := ntfn_active (tcbBoundNotification c) in
            unless_slow SYS_REPLY_RECV active
            (let* ep := get_ep (capEPPtr e) in
             unless_slow SYS_REPLY_RECV (bool_decide (ep_state ep = EP_Send))
             (let reply_ptr := capEPBadge fake in
              let* r := get_reply reply_ptr in
              unless_slow SYS_REPLY_RECV
                ((replyTCB r =? 0) || (isHead (replyNext r) =? 0)
                 || negb (callStackPtr (replyNext r) =? tcbSchedContext c))
              (let caller := replyTCB r in
               let* t := get_tcb caller in
               unless_slow SYS_REPLY_RECV (negb (is_null_fault (tcbFault t)))
               (let* new_vtable := tcb_cap caller TCB_VTABLE in
                unless_slow SYS_REPLY_RECV (negb (isValidVTableRoot_fp new_vtable))
                (let* high := is_highest_prio 0 (tcbPriority t) in
                 unless_slow SYS_REPLY_RECV (negb high)
                 (unless_slow SYS_REPLY_RECV (negb (tcbSchedContext t =? 0))
                    (fastpath_reply_to_mcs current caller reply_ptr e msgInfo new_vtable)))))))
        | _ => slow SYS_REPLY_RECV
        end)
   | _ => slow SYS_REPLY_RECV
   end).
End fastpath.
