(* ===== verification/FastpathProps.v ===== *)
(** * The fast path's capability lookup is the slow path's

    [lookup_fp] shifts the address to the left and compares and selects with
    its top bits; [resolve_address_bits] keeps the address and counts the bits
    that remain.  Both read the same slots. *)

From S2P Require Import Prelude Monad Config Objects State CapOps CSpace MDB CSpaceProps Tcb.
From S2P Require Import Syscall Example Fastpath.

(** CNodes have at least two slots, since a retype refuses a radix of 0, and
    a guard fits in its size, since [update_data] masks it. *)
Definition fp_ok (cn : cnode_cap) : Prop :=
  0 < capCNodeRadix cn /\ (capCNodeGuardSize cn = 0 -> capCNodeGuard cn = 0).
Definition fp_all_ok (h : gmap Z cte_t) : Prop :=
  forall a c cn, h !! a = Some c -> capability c = cap_cnode_cap cn -> fp_ok cn.

Section lookup.
Context (h : gmap Z cte_t) (ptr : Z).

(** The top [len] bits of the address shifted by [bits] are the [len] bits
    below the [64 - bits] that remain. *)
Lemma top_bits bits len :
  0 <= bits < 64 -> 0 < len < 64 -> len <= 64 - bits ->
  (ptr <<w bits) >>w (WORD_BITS -w len) = addr_bits ptr (64 - bits) len.
Proof.
  intros Hb Hl Hn. unfold WORD_BITS. rewrite wsub_small by (rewrite ?word_size_val; lia).
  rewrite wshr_div by lia. unfold wshl, wrap, addr_bits. rewrite (Z.mod_small bits 64) by lia.
  rewrite Z.shiftl_mul_pow2 by lia. change word_size with (2 ^ 64).
  replace (2 ^ 64) with (2 ^ (64 - bits) * 2 ^ bits) by (rewrite <- Z.pow_add_r by lia; f_equal; lia).
  pose proof (pow2_pos bits ltac:(lia)). pose proof (pow2_pos (64 - bits) ltac:(lia)).
  pose proof (pow2_pos (64 - bits - len) ltac:(lia)). pose proof (pow2_pos len ltac:(lia)).
  rewrite Z.mul_mod_distr_r by lia.
  replace (2 ^ (64 - len)) with (2 ^ (64 - bits - len) * 2 ^ bits)
    by (rewrite <- Z.pow_add_r by lia; f_equal; lia).
  rewrite Z.div_mul_cancel_r by lia.
  replace (2 ^ (64 - bits)) with (2 ^ (64 - bits - len) * 2 ^ len)
    by (rewrite <- Z.pow_add_r by lia; f_equal; lia).
  rewrite Z.rem_mul_r by lia. rewrite (Z.mul_comm (2 ^ (64 - bits - len))), Z.div_add by lia.
  rewrite (Z.div_small (ptr mod _)) by (apply Z.mod_pos_bound; done). done.
Qed.

Lemma wshl_wshl x a b : 0 <= a -> 0 <= b -> a + b < 64 -> (x <<w a) <<w b = x <<w (a + b).
Proof.
  intros. unfold wshl, wrap. rewrite (Z.mod_small a 64), (Z.mod_small b 64), (Z.mod_small (a + b) 64) by lia.
  rewrite !Z.shiftl_mul_pow2 by lia.
  rewrite Z.mul_mod_idemp_l by done. f_equal. rewrite Z.pow_add_r by lia. lia.
Qed.

Lemma top_bits_range w len : is_word w -> 0 < len < 64 -> 0 <= w >>w (WORD_BITS -w len) < 2 ^ len.
Proof.
  intros Hw Hl. unfold WORD_BITS. rewrite wsub_small by (rewrite ?word_size_val; lia).
  rewrite wshr_div by lia. pose proof (pow2_pos (64 - len) ltac:(lia)).
  unfold is_word in Hw. split; [apply Z.div_pos; lia|].
  apply Z.div_lt_upper_bound; [lia|]. rewrite <- Z.pow_add_r by lia.
  replace (64 - len + len) with 64 by lia. unfold word_size in Hw. lia.
Qed.

(** The slot the shifted address selects. *)
Definition fp_slot (cn : cnode_cap) (bits : Z) : Z :=
  get_offset_slot (capCNodePtr cn)
    (((ptr <<w bits) <<w capCNodeGuardSize cn) >>w (WORD_BITS -w capCNodeRadix cn)).

Lemma fp_slot_level cn bits :
  cnode_ok h cn -> 0 < capCNodeRadix cn -> 0 <= bits < 64 -> level_bits cn <= 64 - bits ->
  fp_slot cn bits = level_slot cn ptr (64 - bits).
Proof.
  intros (Hr & Hg & _) Hr0 Hb Hl. unfold level_bits in Hl. unfold fp_slot, level_slot.
  rewrite wshl_wshl by lia. rewrite top_bits by lia. do 2 f_equal. lia.
Qed.

Lemma fp_slot_ok cn bits :
  cnode_ok h cn -> 0 < capCNodeRadix cn -> fp_slot cn bits <> 0 /\ is_Some (h !! fp_slot cn bits).
Proof.
  intros (Hr & _ & _ & Hs) Hr0. apply Hs, top_bits_range; [apply wrap_range|lia].
Qed.

(** One turn of the fast loop, by the cases of the slow one. *)
Lemma lookup_fp_loop_unfold fuel cn bits c :
  cnode_ok h cn -> fp_ok cn -> 0 <= bits < 64 -> h !! fp_slot cn bits = Some c ->
  lookup_fp_loop (S fuel) cn ptr bits h =
    if decide (capCNodeGuardSize cn <= 64 - bits /\ guard_matches cn ptr (64 - bits)
               /\ level_bits cn <= 64 - bits) then
      match capability c with
      | cap_cnode_cap cn' =>
          if decide (64 - bits = level_bits cn) then Ok (capability c, h)
          else lookup_fp_loop fuel cn' ptr (bits + level_bits cn) h
      | _ => Ok (capability c, h)
      end
    else Ok (cap_null_cap, h).
Proof.
  intros Hcn [Hr0 Hg0] Hb Hc. pose proof (fp_slot_ok cn bits Hcn Hr0) as [Hs0 _].
  destruct Hcn as (Hr & Hg & Hl & _). unfold level_bits in *. cbn [lookup_fp_loop].
  fold (fp_slot cn bits).
  rewrite !(wadd_small (capCNodeGuardSize cn)) by (rewrite ?word_size_val; lia).
  rewrite wadd_small by (rewrite ?word_size_val; lia).
  destruct (negb _ && negb _) eqn:Eg.
  { zbool. rewrite decide_False; [done|]. intros (Hle & Hm & _). unfold guard_matches in Hm.
    rewrite <- top_bits in Hm by lia. congruence. }
  assert (Hgm : capCNodeGuardSize cn <= 64 - bits -> guard_matches cn ptr (64 - bits)).
  { intros Hle. unfold guard_matches. apply andb_false_iff in Eg as [Eg|Eg]; zbool.
    - rewrite Eg, Hg0 by done. unfold addr_bits. apply Z.mod_1_r.
    - destruct (decide (capCNodeGuardSize cn = 0)) as [E0|].
      + rewrite E0, Hg0 by done. unfold addr_bits. apply Z.mod_1_r.
      + by rewrite <- top_bits by lia. }
  erewrite bind_ok by (by apply hget_ok).
  unfold WORD_BITS. destruct (decide _) as [(Hle & Hm & Hlb)|Hno].
  - rewrite (proj2 (Z.ltb_ge 64 _)) by lia.
    destruct (capability c) as [| | | | |cn'| | | | | | | | | | | | |]; try done.
    destruct (decide _) as [E|E].
    + by rewrite (proj2 (Z.ltb_ge _ 64)) by lia.
    + rewrite (proj2 (Z.ltb_lt _ 64)) by lia. f_equal. lia.
  - assert (64 - bits < capCNodeRadix cn + capCNodeGuardSize cn).
    { destruct (decide (capCNodeGuardSize cn <= 64 - bits)) as [Hle|]; [|lia].
      destruct (decide (capCNodeRadix cn + capCNodeGuardSize cn <= 64 - bits)); [|lia].
      exfalso. apply Hno. auto. }
    rewrite (proj2 (Z.ltb_lt 64 _)), (proj2 (Z.ltb_ge _ 64)) by lia. by destruct (capability c).
Qed.

(** The two loops agree, with the bits consumed by one remaining in the other. *)
Lemma lookup_fp_loop_resolve fuel fuel' init cn bits :
  cnodes_ok h -> fp_all_ok h -> cnode_ok h cn -> fp_ok cn -> 0 <= bits < 64 ->
  64 - bits < Z.of_nat fuel -> 64 - bits < Z.of_nat fuel' ->
  exists r c, resolve_loop fuel init cn ptr (64 - bits) h = Ok (r, h) /\
    lookup_fp_loop fuel' cn ptr bits h = Ok (c, h) /\
    (if decide (ra_status r = EXCEPTION_NONE)
     then ra_slot r <> 0 /\ exists e, h !! ra_slot r = Some e /\ capability e = c
     else c = cap_null_cap).
Proof.
  intros Hall Hfp. revert fuel' cn bits. induction fuel as [|fuel IH]; intros fuel' cn bits Hcn Hok Hb Hf Hf';
    [lia|]. destruct fuel' as [|fuel']; [lia|].
  rewrite resolve_loop_unfold by (done || lia).
  pose proof (fp_slot_ok cn bits Hcn (proj1 Hok)) as [Hs0 [c Hc]].
  rewrite (lookup_fp_loop_unfold _ _ _ c) by done.
  destruct (decide (capCNodeGuardSize cn <= 64 - bits /\ _)) as [(Hgn & Hm & Hle)|Hno].
  2: { do 2 eexists. split; [done|]. split; [done|]. by rewrite decide_False. }
  rewrite fp_slot_level in Hc, Hs0 by (done || apply Hok). rewrite Hc.
  assert (Hdone : forall n, exists r c0,
    Ok (mk_resolve_ret EXCEPTION_NONE (level_slot cn ptr (64 - bits)) n, h) = Ok (r, h) /\
    Ok (capability c, h) = Ok (c0, h) /\
    (if decide (ra_status r = EXCEPTION_NONE)
     then ra_slot r <> 0 /\ exists e, h !! ra_slot r = Some e /\ capability e = c0
     else c0 = cap_null_cap)).
  { intros n. do 2 eexists. split; [done|]. split; [done|]. rewrite decide_True by done. eauto. }
  pose proof Hcn as (Hr & Hg & Hl & _).
  destruct (decide (64 - bits = level_bits cn)) as [E|E].
  { destruct (capability c); apply Hdone. }
  destruct (capability c) as [| | | | |cn'| | | | | | | | | | | | |] eqn:Ec; try apply Hdone.
  replace (64 - bits - level_bits cn) with (64 - (bits + level_bits cn)) by lia.
  apply IH; [by eapply Hall|by eapply Hfp|lia..].
Qed.
End lookup.

Lemma lookup_slot_run `{Config} s thread ptr e r :
  get_cspace thread TCB_CTABLE <> 0 -> ctes s !! get_cspace thread TCB_CTABLE = Some e ->
  resolve_address_bits (capability e) ptr WORD_BITS (ctes s) = Ok (r, ctes s) ->
  lookup_slot thread ptr s = Ok (mk_lookupSlot_raw_ret (ra_status r) (ra_slot r), s).
Proof.
  intros H0 He Hr. unfold lookup_slot.
  assert (tcb_cap thread TCB_CTABLE s = Ok (capability e, s)) as Ht.
  { unfold tcb_cap. by erewrite bind_ok by (by apply get_cte_run). }
  erewrite bind_ok by exact Ht. by erewrite bind_ok by (by apply on_ctes_read).
Qed.

(** C18. The lookup of the IPC fast path finds what the slow path finds.  In a
    CSpace whose CNodes have slots, resolve at least one bit with their radix
    and have guards that fit, [lookup_fp] on the root of a thread returns the
    capability that [lookup_cap] of the slow path returns, for every root and
    every address (the null capability where that one faults); neither
    changes the state. *)
Theorem lookup_fp_slow_lookup `{Config} s thread root ptr :
  get_cspace thread TCB_CTABLE <> 0 ->
  capability <$> ctes s !! get_cspace thread TCB_CTABLE = Some root ->
  cnodes_ok (ctes s) -> fp_all_ok (ctes s) ->
  exists r, lookup_cap thread ptr s = Ok (r, s) /\
    on_ctes (lookup_fp root ptr) s = Ok (lc_capability r, s).
Proof.
  intros H0 Hroot Hall Hfp. destruct (ctes s !! _) as [e|] eqn:He; [|done].
  injection Hroot as <-. unfold lookup_cap.
  destruct (capability e) as [| | | | |cn| | | | | | | | | | | | |] eqn:Ec;
    try (exists (mk_lookupCap_ret EXCEPTION_LOOKUP_FAULT cap_null_cap); split; [|by apply on_ctes_read];
         erewrite bind_ok by (eapply (lookup_slot_run s thread ptr e); rewrite ?Ec; (done || reflexivity));
         reflexivity).
  destruct (lookup_fp_loop_resolve (ctes s) ptr 65 65 64 cn 0) as (r & c & Hr & Hl & Hrc);
    [done|done|by eapply Hall|by eapply Hfp|lia|lia|lia|].
  rewrite (on_ctes_read (lookup_fp (cap_cnode_cap cn) ptr) s c Hl).
  erewrite bind_ok by (eapply (lookup_slot_run s thread ptr e r); [done|done|]; rewrite Ec; exact Hr).
  cbn [ls_status ls_slot]. destruct (decide (ra_status r = EXCEPTION_NONE)) as [E|E].
  - rewrite E. destruct Hrc as (Hs0 & e' & He' & <-). cbn [exc_ok negb].
    assert (slot_cap (ra_slot r) s = Ok (capability e', s)) as Hsc.
    { unfold slot_cap. by erewrite bind_ok by (by apply get_cte_run). }
    erewrite bind_ok by exact Hsc. by eexists.
  - destruct (ra_status r) eqn:Es; try done; cbn [exc_ok negb]; subst c; by eexists.
Qed.

Module LookupExample.
(** The thread at 0x4200 has the CSpace of [PathExample]: a CNode of two slots
    behind a guard of 62 bits, with a second CNode in its slot 1. *)
Definition leaf : cnode_cap := mk_cnode_cap 1 0 0 0x2000.
Definition root : cnode_cap := mk_cnode_cap 1 62 5 0x1000.
Definition slots : gmap Z cte_t :=
  <[0x4000 := mk_cte (cap_cnode_cap root) mdb_zero]>
  (<[0x1000 := mk_cte cap_null_cap mdb_zero]>
  (<[0x1020 := mk_cte (cap_cnode_cap leaf) mdb_zero]>
  (<[0x2000 := mk_cte (cap_thread_cap 0x4200) mdb_zero]>
  (<[0x2020 := mk_cte cap_null_cap mdb_zero]> ∅)))).

Ltac two_slots := intros i Hi; cbn in Hi; assert (i = 0 \/ i = 1) as [-> | ->] by lia; (split; [done|by eexists]).

Lemma example_slots_ok : cnodes_ok slots /\ fp_all_ok slots.
Proof.
  split; intros a c cn Ha Hc; unfold slots in Ha;
    repeat (apply lookup_insert_Some in Ha as [[<- <-]|[_ Ha]]; [try done|]); try done;
    injection Hc as <-; (split; [cbn; lia|]); cbn; try lia; (split; [lia|]); (split; [done|]); two_slots.
Qed.
End LookupExample.

(** Witness: the address guard 5, slot 1, slot 0 leads both lookups to the
    thread capability. *)
Lemma lookup_fp_slow_lookup_witness :
  let s := base_state <| ctes := LookupExample.slots |> in
  exists r, @lookup_cap riscv_config 0x4200 22 s = Ok (r, s) /\
    on_ctes (lookup_fp (cap_cnode_cap LookupExample.root) 22) s = Ok (lc_capability r, s) /\
    lc_capability r = cap_thread_cap 0x4200.
Proof.
  intros s.
  destruct (@lookup_fp_slow_lookup riscv_config s 0x4200 (cap_cnode_cap LookupExample.root) 22)
    as (r & Hslow & Hfast);
    [done|reflexivity|exact (proj1 LookupExample.example_slots_ok)|exact (proj2 LookupExample.example_slots_ok)|].
  exists r. split; [exact Hslow|]. split; [exact Hfast|].
  assert (on_ctes (lookup_fp (cap_cnode_cap LookupExample.root) 22) s = Ok (cap_thread_cap 0x4200, s)) as E
    by (vm_compute; reflexivity).
  rewrite E in Hfast. by injection Hfast as <-.
Defined.
