(* ===== verification/Findings.v ===== *)
(** * Runs that show where the code departs from its intent

    Each lemma runs a definition of the development, on the small system of
    Example.v or for every state of a certain shape. *)

From S2P Require Import Prelude Monad Config Objects State CapOps CSpace CSpaceProps VSpace.
From S2P Require Import Refill TcbQueue Sched Tcb Schedule Ipc Finalise Syscall.
From S2P Require Import Untyped CNodeInv TcbInv IrqInv MmuInv Invocation Fastpath Example.

Section runs.
#[local] Instance config : Config := riscv_config.
#[local] Instance crate : CSpaceDeps := kernel_deps 2.
#[local] Instance fuel : DeletionFuel := 10%nat.
#[local] Instance no_outside : Outside := {| smc_call := id; strnlen := fun _ => 0 |}.

(** The number of the system call Call. *)
Definition call_number : Z := word_size - 1.

(** A message with label [l], [n] words and [e] extra capabilities. *)
Definition call (cptr l n e : Z) (mrs buf_msg extra : list Z) : kstate :=
  Example.invoking cptr (messageInfo_new l 0 e n) mrs buf_msg extra.

Definition returns (r : res (exception_t * kstate)) : bool := match r with Ok _ => true | Err _ => false end.

(** A thread sets its TLS register, a message of one word.  With an IPC buffer
    the call returns; without one the kernel panics. *)
Lemma invocation_without_buffer_panics :
  let s := call 3 15 1 0 [0x1234] [] [] in
  returns (slowpath call_number s) = true /\
  slowpath call_number (s <| ctes ::= insert 0x1080 zero_cte |>) = Err EPanic.
Proof. vm_compute. split; reflexivity. Qed.

(** The untyped of the example with a child. *)
Definition with_child (s : kstate) : kstate :=
  s <| ctes ::= fun h =>
    <[slot_addr 2 := mk_cte (cap_untyped_cap example_untyped) (mk_mdb_node (slot_addr 5) 1 1 0)]>
    (<[slot_addr 5 := mk_cte (cap_endpoint_cap (mk_endpoint_cap 0 1 1 1 1 0x8000))
                        (mk_mdb_node 0 1 1 (slot_addr 2))]> h) |>.

(** Copying it is refused, but no error was recorded, so replying panics. *)
Lemma copy_untyped_with_children_panics :
  slowpath call_number (with_child (call 1 19 5 1 [4; 64; 2; 64] [0; 0; 0; 0; 15] [1])) = Err EPanic.
Proof. vm_compute. reflexivity. Qed.

(** CopyRegisters without its extra capability. *)
Lemma copy_registers_without_cap_panics :
  slowpath call_number (call 3 4 1 0 [0] [] []) = Err EPanic.
Proof. vm_compute. reflexivity. Qed.

(** Unmapping a mapped page table of an address space that is in use: the
    ASID 1 has the root 0x20000 and the table at 0x21000 is not it. *)
Lemma page_table_unmap_panics :
  let pt := cap_page_table_cap (mk_page_table_cap 1 0x21000 1 0x40000000) in
  let s := call 4 31 0 0 [] [] [] in
  let s := s <| ctes ::= insert (slot_addr 4) (plain_slot pt) |>
             <| vspace := mk_vspace (0x30000 :: replicate 127 0)
                            {[0x30000 := 0 :: 0x20000 :: replicate 510 0]} ∅ ∅ 0 |> in
  slowpath call_number s = Err EPanic.
Proof. vm_compute. reflexivity. Qed.

(** The address of a frame is put in the first message register (x11), then
    the message information (x10) of the reply says that there are no words. *)
Lemma get_address_reply_is_empty :
  let s := call 4 34 0 0 [0] [] [] in
  match slowpath call_number (s <| ctes ::= insert (slot_addr 4) (plain_slot buffer_frame) |>) with
  | Ok (EXCEPTION_NONE, s') =>
      (fun t => (registers (tcbArch t) !! 11%nat, registers (tcbArch t) !! 10%nat)) <$> tcbs s' !! 0x1200
  | _ => None
  end = Some (Some (to_paddr 0x4000), Some 0).
Proof. vm_compute. reflexivity. Qed.

(** Configuring a thread with an address-space root that cannot be derived (a
    page table that is not mapped) is unwrapped before it is tested. *)
Lemma configure_with_unmapped_root_panics :
  let pt := cap_page_table_cap (mk_page_table_cap 0 0x20000 0 0) in
  let s := call 3 5 4 3 [0; 0; 0; 0] [] [1; 4; 4] in
  let s := s <| ctes ::= insert (slot_addr 4) (plain_slot pt) |>
             <| ctes ::= insert 0x1000 (mk_cte root_cnode (mk_mdb_node (slot_addr 1) 1 1 0)) |> in
  slowpath call_number s = Err EPanic.
Proof. vm_compute. reflexivity. Qed.

(** An address space with ASID 1, its root at 0x20000. *)
Definition with_root (s : kstate) : kstate :=
  s <| ctes ::= insert (slot_addr 5) (plain_slot (cap_page_table_cap (mk_page_table_cap 1 0x20000 1 0))) |>
    <| vspace := mk_vspace (0x30000 :: replicate 127 0) {[0x30000 := 0 :: 0x20000 :: replicate 510 0]} ∅
                   (lay_out 512 0x20000 8 0 ∅) 0 |>.

(** A gigabyte page is mapped at 2^38, in the upper half of the root (entry
    256), which holds the kernel's mappings. *)
Lemma map_in_kernel_half :
  let frame := cap_frame_cap (mk_frame_cap 0 (PPTR_BASE_OFFSET + 2 ^ 30) 2 3 0 0) in
  let s := with_root (call 4 32 3 1 [2 ^ 38; 3; 0] [] [5]) in
  match slowpath call_number (s <| ctes ::= insert (slot_addr 4) (plain_slot frame) |>) with
  | Ok (EXCEPTION_NONE, s') => get_valid <$> ptes (vspace s') !! (0x20000 + 8 * 256)
  | _ => None
  end = Some 1.
Proof. vm_compute. reflexivity. Qed.
End runs.

(** ** The queue of an endpoint on the fast path *)

(** The receiver at the head leaves the queue and the next one loses its link
    to the rest: whoever waited behind it is no longer in the queue. *)
Lemma fp_dequeue_cuts_queue ep dest next e d n s :
  eps s !! ep = Some e -> tcbs s !! dest = Some d -> tcbs s !! next = Some n ->
  ep <> 0 -> dest <> 0 -> next <> 0 -> tcbEPNext d = next ->
  exists s', fp_dequeue ep dest s = Ok (tt, s') /\
    (exists e', eps s' !! ep = Some e' /\ epQueue_head e' = next /\ epQueue_tail e' = epQueue_tail e) /\
    (exists n', tcbs s' !! next = Some n' /\ tcbEPNext n' = 0 /\ tcbEPPrev n' = tcbEPPrev n).
Proof.
  intros He Hd Hn Hep Hdest Hnext Hlink.
  exists (s <| eps := <[ep := e <| epQueue_head := next |>]> (eps s) |>
            <| tcbs := <[next := n <| tcbEPNext := 0 |>]> (tcbs s) |>).
  split; [|cbn; rewrite !lookup_insert_eq; eauto 10].
  unfold fp_dequeue.
  erewrite bind_ok by (unfold get_tcb, on_tcbs, lift_part; by rewrite (hget_ok _ _ _ Hdest Hd)).
  erewrite bind_ok by (unfold mod_ep, on_eps, lift_part; cbn; by rewrite (hmod_ok _ _ _ _ Hep He)).
  rewrite Hlink. destruct (Z.eqb_spec next 0) as [|_]; [done|]. cbn [negb].
  unfold mod_tcb, on_tcbs, lift_part. cbn. by rewrite (hmod_ok _ _ _ _ Hnext Hn).
Qed.
