(* ===== verification/BootMem.v ===== *)
(** * Memory at boot: reserved and free regions, untyped capabilities

    kernel/src/boot/mm.rs divides the physical memory the platform offers into
    regions in use and free regions, kernel/src/boot/untyped.rs makes untyped
    capabilities of what is left, kernel/src/boot/utils.rs puts capabilities
    in the slots of the root CNode.  [bstate] is the state of the boot code:
    the kernel state it fills, the static variables of kernel/src/boot and the
    boot information page. *)

From S2P Require Import Prelude Monad Config Objects State CapOps CSpace VSpace.

(** ** Regions (rel4-arch/src/basic/region.rs) *)

Record Region := mk_Region { start : Z; end_ : Z }.
Record PRegion := mk_PRegion { pstart : Z; pend : Z }.
Record VRegion := mk_VRegion { vstart : Z; vend : Z }.
#[export] Instance eta_Region : Settable Region := fun r => mk_Region (start r) (end_ r).
#[export] Instance eta_PRegion : Settable PRegion := fun r => mk_PRegion (pstart r) (pend r).

Definition Region_empty : Region := mk_Region 0 0.
Definition PRegion_empty : PRegion := mk_PRegion 0 0.
Definition is_empty (r : Region) : bool := start r =? end_ r.

Section regions.
Context `{Config}.
Definition to_pregion (r : Region) : PRegion := mk_PRegion (to_paddr (start r)) (to_paddr (end_ r)).
Definition to_region (r : PRegion) : Region := mk_Region (to_pptr (pstart r)) (to_pptr (pend r)).
End regions.

(** Macros of rel4-utils/src/macros.rs. *)
Definition round_down (n b : Z) : Z := (n >>w b) <<w b.
Definition round_up (n b : Z) : Z := (((n -w 1) >>w b) +w 1) <<w b.
Definition is_aligned (n b : Z) : bool := Z.land n (mask_bits b) =? 0.

(** ** Constants (sel4_config.rs, arch/*/config.rs, rel4_config/cfg) *)

Definition MAX_NUM_FREEMEM_REG : Z := 16.
Definition NUM_RESERVED_REGIONS : Z := 3.
Definition MAX_NUM_RESV_REG : Z := MAX_NUM_FREEMEM_REG + NUM_RESERVED_REGIONS.
Definition CONFIG_MAX_NUM_BOOTINFO_UNTYPED_CAPS : Z := 230.
Definition CONFIG_ROOT_CNODE_SIZE_BITS : Z := 12.
Definition SEL4_NUM_INITIAL_CAPS : Z := 16.

Section constants.
Context `{Config}.
Definition PPTR_BASE : Z := PPTR_BASE_OFFSET.
Definition PPTR_TOP : Z :=
  match target_arch with RISCV64 => 0xFFFFFFFF80000000 | AARCH64 => 0xffffffffc0000000 end.
Definition PADDR_TOP : Z := PPTR_TOP -w PPTR_BASE_OFFSET.
Definition CONFIG_PADDR_USER_DEVICE_TOP : Z :=
  match target_arch with RISCV64 => 549755813888 | AARCH64 => 1099511627776 end.
End constants.

(** ** The boot information page and the static variables *)

Record SlotRegion := mk_SlotRegion { slot_start : Z; slot_end : Z }.
Definition SlotRegion_zero : SlotRegion := mk_SlotRegion 0 0.

Record UntypedDesc := mk_UntypedDesc { paddr : Z; sizeBits : Z; isDevice : Z }.

Record BootInfo := mk_BootInfo {
  extraLen : Z;
  nodeID : Z;
  numNodes : Z;
  numIOPTLevels : Z;
  ipcBuffer : Z;
  empty : SlotRegion;
  sharedFrames : SlotRegion;
  userImageFrames : SlotRegion;
  userImagePaging : SlotRegion;
  ioSpaceCaps : SlotRegion;
  extraBIPages : SlotRegion;
  initThreadCNodeSizeBits : Z;
  initThreadDomain : Z;
  schedcontrol : SlotRegion;
  untyped : SlotRegion;
  untypedList : list UntypedDesc }.
#[export] Instance eta_BootInfo : Settable BootInfo :=
  fun r => mk_BootInfo (extraLen r) (nodeID r) (numNodes r) (numIOPTLevels r) (ipcBuffer r) (empty r)
             (sharedFrames r) (userImageFrames r) (userImagePaging r) (ioSpaceCaps r) (extraBIPages r)
             (initThreadCNodeSizeBits r) (initThreadDomain r) (schedcontrol r) (untyped r) (untypedList r).

(** A cleared boot information page. *)
Definition BootInfo_zero : BootInfo :=
  mk_BootInfo 0 0 0 0 0 SlotRegion_zero SlotRegion_zero SlotRegion_zero SlotRegion_zero SlotRegion_zero
    SlotRegion_zero 0 0 SlotRegion_zero SlotRegion_zero
    (replicate (Z.to_nat CONFIG_MAX_NUM_BOOTINFO_UNTYPED_CAPS) (mk_UntypedDesc 0 0 0)).

Record BootInfoHeader := mk_BootInfoHeader { id : Z; len : Z }.

Record rootserver_mem_t := mk_rootserver_mem {
  rs_cnode : Z;
  rs_vspace : Z;
  rs_asid_pool : Z;
  rs_ipc_buf : Z;
  rs_boot_info : Z;
  rs_extra_bi : Z;
  rs_tcb : Z;
  rs_sc : Z;
  rs_paging : Region }.
#[export] Instance eta_rootserver_mem : Settable rootserver_mem_t :=
  fun r => mk_rootserver_mem (rs_cnode r) (rs_vspace r) (rs_asid_pool r) (rs_ipc_buf r) (rs_boot_info r)
             (rs_extra_bi r) (rs_tcb r) (rs_sc r) (rs_paging r).

(** [reserved] .. [slot_pos_cur] are the fields of [ndks_boot]; [boot_info] is
    the page [bi_frame] points to, [headers] and [bytes] the memory of the
    extra boot information and of the device tree. *)
Record bstate := mk_bstate {
  kern : kstate;
  reserved : list PRegion;
  resv_count : Z;
  freemem : list Region;
  bi_frame : Z;
  slot_pos_cur : Z;
  boot_info : BootInfo;
  headers : gmap Z BootInfoHeader;
  bytes : gmap Z Z;
  avail_reg : list Region;
  res_reg : list Region;
  rootserver_mem : Region;
  rootserver : rootserver_mem_t;
  ksNumCPUs : Z }.
#[export] Instance eta_bstate : Settable bstate :=
  fun r => mk_bstate (kern r) (reserved r) (resv_count r) (freemem r) (bi_frame r) (slot_pos_cur r)
             (boot_info r) (headers r) (bytes r) (avail_reg r) (res_reg r) (rootserver_mem r)
             (rootserver r) (ksNumCPUs r).

(** The values the static variables are linked with. *)
Definition boot_static (k : kstate) : bstate :=
  mk_bstate k (replicate (Z.to_nat MAX_NUM_RESV_REG) PRegion_empty) 0
    (replicate (Z.to_nat MAX_NUM_FREEMEM_REG) Region_empty) 0 SEL4_NUM_INITIAL_CAPS BootInfo_zero ∅ ∅
    (replicate (Z.to_nat MAX_NUM_FREEMEM_REG) Region_empty) (replicate (Z.to_nat NUM_RESERVED_REGIONS) Region_empty)
    Region_empty (mk_rootserver_mem 0 0 0 0 0 0 0 0 Region_empty) 0.

Definition B (A : Type) : Type := M bstate A.
Definition on_kernel {A} (m : K A) : B A := lift_part kern (fun k s => s <| kern := k |>) m.

Definition get_reserved (i : Z) : B PRegion :=
  let* l := gets reserved in lift_res (array_get l i).
Definition set_reserved (i : Z) (r : PRegion) : B unit :=
  let* l := gets reserved in
  let* l := lift_res (array_set l i r) in modify (fun s => s <| reserved := l |>).
Definition set_resv_count (n : Z) : B unit := modify (fun s => s <| resv_count := n |>).
Definition get_freemem (i : Z) : B Region :=
  let* l := gets freemem in lift_res (array_get l i).
Definition set_freemem (i : Z) (r : Region) : B unit :=
  let* l := gets freemem in
  let* l := lift_res (array_set l i r) in modify (fun s => s <| freemem := l |>).
Definition get_avail (i : Z) : B Region :=
  let* l := gets avail_reg in lift_res (array_get l i).
Definition set_avail (i : Z) (r : Region) : B unit :=
  let* l := gets avail_reg in
  let* l := lift_res (array_set l i r) in modify (fun s => s <| avail_reg := l |>).

(** [( *ndks_boot.bi_frame)]. *)
Definition mod_boot_info (f : BootInfo -> BootInfo) : B unit :=
  let* p := gets bi_frame in
  if p =? 0 then fail EUndef else modify (fun s => s <| boot_info ::= f |>).

(** ** The reserved regions (mm.rs)

    The loops run over arrays of fixed length: the fuel is that length. *)

Definition resv_fuel : nat := S (Z.to_nat MAX_NUM_RESV_REG).

(** The inner loop of [merge_regions]: entries from [j] on move down by one. *)
Definition shift_down (j : Z) : B Z :=
  while resv_fuel
    (fun j => let* n := gets resv_count in ret (j <? n))
    (fun j => let* r := get_reserved j in set_reserved (j - 1) r ;;; ret (j + 1)) j.

Definition merge_regions : B unit :=
  while resv_fuel
    (fun i => let* n := gets resv_count in ret (i <? n))
    (fun i =>
       let* a := get_reserved (i - 1) in
       let* b := get_reserved i in
       if pend a =? pstart b then
         set_reserved (i - 1) (a <| pend := pend b |>) ;;;
         shift_down (i + 1) ;;;
         let* n := gets resv_count in set_resv_count (n - 1) ;;; ret i
       else ret (i + 1)) 1 ;;;
  ret tt.

(** Entries from [i] on move up by one. *)
Definition shift_up (i j : Z) : B Z :=
  while resv_fuel
    (fun j => ret (i <? j))
    (fun j => let* r := get_reserved (j - 1) in set_reserved j r ;;; ret (j - 1)) j.

Fixpoint reserve_loop (fuel : nat) (reg : PRegion) (i : Z) : B bool :=
  match fuel with
  | O => fail EFuel
  | S fuel =>
      let* n := gets resv_count in
      if i <? n then
        let* r := get_reserved i in
        if pstart r =? pend reg then
          set_reserved i (r <| pstart := pstart reg |>) ;;; merge_regions ;;; ret true
        else if pend r =? pstart reg then
          set_reserved i (r <| pend := pend reg |>) ;;; merge_regions ;;; ret true
        else if pend reg <? pstart r then
          if MAX_NUM_RESV_REG <=? n + 1 then ret false else
          shift_up i n ;;; set_reserved i reg ;;; set_resv_count (n + 1) ;;; ret true
        else reserve_loop fuel reg (i + 1)
      else if i + 1 =? MAX_NUM_RESV_REG then ret false
      else set_reserved i reg ;;; set_resv_count (n + 1) ;;; ret true
  end.

Definition reserve_region (reg : PRegion) : B bool :=
  kassert (pstart reg <=? pend reg) ;;;
  if pstart reg =? pend reg then ret true else reserve_loop resv_fuel reg 0.

Section boot.
Context `{Config}.

(** ** The free regions (mm.rs) *)

Fixpoint insert_loop (fuel : nat) (reg : Region) (i : Z) : B bool :=
  match fuel with
  | O => fail EFuel
  | S fuel =>
      let* l := gets freemem in
      if i <? Z.of_nat (length l) then
        let* r := get_freemem i in
        if is_empty r then reserve_region (to_pregion reg) ;;; set_freemem i reg ;;; ret true
        else insert_loop fuel reg (i + 1)
      else kassert false ;;; ret false
  end.

Definition insert_region (reg : Region) : B bool :=
  kassert (start reg <=? end_ reg) ;;;
  if is_empty reg then ret true else insert_loop (S (Z.to_nat MAX_NUM_FREEMEM_REG)) reg 0.

(** The regions are logged and compared in order; a region out of order is
    reported only for the reserved ones. *)
Fixpoint check_available_loop (l : list PRegion) : bool :=
  match l with
  | [] => true
  | r :: l =>
      if pend r <? pstart r then false
      else if pstart r =? pend r then false
      else check_available_loop l
  end.
Definition check_available_memory (available : list PRegion) : bool :=
  match available with [] => false | _ => check_available_loop available end.

Fixpoint check_reserved_loop (first : bool) (last : Region) (l : list Region) : bool :=
  match l with
  | [] => true
  | r :: l =>
      if end_ r <? start r then false
      else if negb first && (start r <? end_ last) then false
      else check_reserved_loop false r l
  end.
Definition check_reserved_memory (l : list Region) : bool := check_reserved_loop true Region_empty l.

Definition ceiling_kernel_window (p : Z) : Z := if PADDR_TOP <? to_paddr p then PPTR_TOP else p.
Definition pptr_in_kernel_window (pptr : Z) : bool := (PPTR_BASE <=? pptr) && (pptr <? PPTR_TOP).

(** An available region as a kernel region, cut off at the top of the window. *)
Definition clip (r : PRegion) : Region :=
  mk_Region (ceiling_kernel_window (start (to_region r))) (ceiling_kernel_window (end_ (to_region r))).

Fixpoint set_avail_regs (i : Z) (l : list PRegion) : B unit :=
  match l with
  | [] => ret tt
  | r :: l => set_avail i (clip r) ;;; set_avail_regs (i + 1) l
  end.

(** One round of the main loop: the next available region [a] against the
    next reserved region [r]. *)
Definition freemem_step (l : list Region) (x : Z * Z) : B (Z * Z) :=
  let '(a, r) := x in
  let* res := lift_res (array_get l r) in
  if start res =? end_ res then ret (a, r + 1) else
  let* av := get_avail a in
  if end_ av <=? start av then ret (a + 1, r)
  else if end_ res <=? start av then
    reserve_region (to_pregion res) ;;; ret (a, r + 1)
  else if end_ av <=? start res then
    insert_region av ;;; ret (a + 1, r)
  else if start res <=? start av then
    set_avail a (av <| start := if end_ av <? end_ res then end_ av else end_ res |>) ;;;
    reserve_region (to_pregion res) ;;; ret (a, r + 1)
  else
    kassert (start res <? end_ av) ;;;
    insert_region (av <| end_ := start res |>) ;;;
    if end_ res <? end_ av then
      set_avail a (av <| start := end_ res |>) ;;;
      reserve_region (to_pregion res) ;;; ret (a, r + 1)
    else ret (a + 1, r).

(** The rounds after the main loop: what is left of either list. *)
Definition reserve_rest (l : list Region) (i : Z) : B unit :=
  let* r := lift_res (array_get l i) in
  when (start r <? end_ r) (reserve_region (to_pregion r) ;;; ret tt).
Definition insert_rest (i : Z) : B unit :=
  let* r := get_avail i in
  when (start r <? end_ r) (insert_region r ;;; ret tt).

(** [available] holds the [n_available] regions at the address passed by the
    loader, [l] the first [n_reserved] entries of the array of reserved regions. *)
Definition rust_init_freemem (available : list PRegion) (l : list Region) : B bool :=
  let n_available := Z.of_nat (length available) in
  let n_reserved := Z.of_nat (length l) in
  if negb (check_available_memory available) || negb (check_reserved_memory l) then ret false else
  modify (fun s => s <| freemem := map (fun _ => Region_empty) (freemem s) |>) ;;;
  set_avail_regs 0 available ;;;
  let* x := while (S (length available + length l))
              (fun x => ret ((x.1 <? n_available) && (x.2 <? n_reserved)))
              (freemem_step l) (0, 0) in
  for_range (Z.to_nat (n_reserved - x.2)) x.2 (reserve_rest l) ;;;
  for_range (Z.to_nat (n_available - x.1)) x.1 insert_rest ;;;
  let* m := gets freemem in
  let* last := get_freemem (Z.of_nat (length m) - 1) in
  ret (is_empty last).

(** ** Capabilities of the root CNode (utils.rs) *)

(** Both fields of the slot are written. *)
Definition write_slot (ptr : Z) (c : cap) : B unit :=
  on_kernel (modify (fun s => s <| ctes := <[ptr := mk_cte c (mk_mdb_node 0 1 1 0)]> (ctes s) |>)).

Definition provide_cap (root_cnode_cap : cnode_cap) (c : cap) : B bool :=
  let* pos := gets slot_pos_cur in
  if bit CONFIG_ROOT_CNODE_SIZE_BITS <=? pos then ret false else
  write_slot (get_offset_slot (capCNodePtr root_cnode_cap) pos) c ;;;
  modify (fun s => s <| slot_pos_cur := pos + 1 |>) ;;;
  ret true.

(** ** Untyped capabilities (untyped.rs) *)

Definition provide_untyped_cap (root_cnode_cap : cnode_cap) (device_memory : bool)
    (pptr size_bits first_untyped_slot : Z) : B bool :=
  if (SEL4_MAX_UNTYPED_BITS <? size_bits) || (size_bits <? SEL4_MIN_UNTYPED_BITS) then ret false
  else if negb (is_aligned pptr size_bits) then ret false
  else if negb device_memory && negb (pptr_in_kernel_window pptr) then ret false
  else if negb device_memory && negb (pptr_in_kernel_window (pptr +w mask_bits size_bits)) then ret false
  else
    let* pos := gets slot_pos_cur in
    let i := pos -w first_untyped_slot in
    if i <? CONFIG_MAX_NUM_BOOTINFO_UNTYPED_CAPS then
      mod_boot_info (fun bi => bi <| untypedList ::=
        <[Z.to_nat i := mk_UntypedDesc (to_paddr pptr) size_bits (bool_to_word device_memory)]> |>) ;;;
      provide_cap root_cnode_cap
        (cap_untyped_cap (mk_untyped_cap (max_free_index size_bits) (bool_to_word device_memory) size_bits pptr))
    else ret true.

(** The largest block at the start of a region: no larger than the region, an
    untyped, or the alignment of its address. *)
Definition block_bits (reg : Region) : Z :=
  let size_bits := (WORD_BITS -w 1) -w leading_zeros (end_ reg -w start reg) in
  let size_bits := if SEL4_MAX_UNTYPED_BITS <? size_bits then SEL4_MAX_UNTYPED_BITS else size_bits in
  if negb (start reg =? 0) then
    let align_bits := trailing_zeros (start reg) in
    if align_bits <? size_bits then align_bits else size_bits
  else size_bits.

Fixpoint untypeds_loop (fuel : nat) (root_cnode_cap : cnode_cap) (device_memory : bool)
    (reg : Region) (first_untyped_slot : Z) : B bool :=
  match fuel with
  | O => fail EFuel
  | S fuel =>
      if is_empty reg then ret true else
      let size_bits := block_bits reg in
      let* provided :=
        if SEL4_MIN_UNTYPED_BITS <=? size_bits
        then provide_untyped_cap root_cnode_cap device_memory (start reg) size_bits first_untyped_slot
        else ret true in
      if provided : bool then
        untypeds_loop fuel root_cnode_cap device_memory
          (reg <| start := start reg +w bit size_bits |>) first_untyped_slot
      else ret false
  end.

(** Blocks grow with the alignment of their address, shrink with what is left,
    and in between have the largest size: at most 64 blocks on the way up and
    on the way down, and as many of the largest as fit. *)
Definition untypeds_fuel (reg : Region) : nat :=
  Z.to_nat (132 + (end_ reg -w start reg) / 2 ^ SEL4_MAX_UNTYPED_BITS).

Definition create_untypeds_for_region (root_cnode_cap : cnode_cap) (device_memory : bool)
    (reg : Region) (first_untyped_slot : Z) : B bool :=
  untypeds_loop (untypeds_fuel reg) root_cnode_cap device_memory reg first_untyped_slot.

(** The gaps before the reserved regions, from physical address [start_] on;
    the value is the end of the last one, or nothing when a region failed. *)
Fixpoint device_gaps (root_cnode_cap : cnode_cap) (first_untyped_slot : Z) (n : nat) (i start_ : Z)
    : B (option Z) :=
  match n with
  | O => ret (Some start_)
  | S n =>
      let* r := get_reserved i in
      let reg := to_region (mk_PRegion start_ (pstart r)) in
      let* created := create_untypeds_for_region root_cnode_cap true reg first_untyped_slot in
      if created : bool
      then device_gaps root_cnode_cap first_untyped_slot n (i + 1) (pend r)
      else ret None
  end.

(** A failure in a free region is only logged. *)
Definition free_untypeds (root_cnode_cap : cnode_cap) (first_untyped_slot i : Z) : B unit :=
  let* reg := get_freemem i in
  set_freemem i Region_empty ;;;
  create_untypeds_for_region root_cnode_cap false reg first_untyped_slot ;;;
  ret tt.

Definition create_untypeds (root_cnode_cap : cnode_cap) (boot_mem_reuse_reg : Region) : B bool :=
  let* first_untyped_slot := gets slot_pos_cur in
  let* n := gets resv_count in
  let* gaps := device_gaps root_cnode_cap first_untyped_slot (Z.to_nat n) 0 0 in
  match gaps with
  | None => ret false
  | Some start_ =>
      let* top :=
        if start_ <? CONFIG_PADDR_USER_DEVICE_TOP then
          create_untypeds_for_region root_cnode_cap true
            (to_region (mk_PRegion start_ CONFIG_PADDR_USER_DEVICE_TOP)) first_untyped_slot
        else ret true in
      if negb top then ret false else
      let* reused := create_untypeds_for_region root_cnode_cap false boot_mem_reuse_reg first_untyped_slot in
      if negb reused then ret false else
      let* m := gets freemem in
      for_range (length m) 0 (free_untypeds root_cnode_cap first_untyped_slot) ;;;
      let* pos := gets slot_pos_cur in
      mod_boot_info (fun bi => bi <| untyped := mk_SlotRegion first_untyped_slot pos |>) ;;;
      ret true
  end.
End boot.
