(* ===== verification/BootMemProps.v ===== *)
(** * Free and reserved memory at boot

    The linked loops of kernel/src/boot/mm.rs over arrays are functions on
    lists of regions ([merge], [reserve_list]); a region stands for the
    addresses it covers ([covers], [pcovers]). *)

From S2P Require Import Prelude Monad Config Objects State CapOps CSpace VSpace Example BootMem.

Definition inside (r : Region) (x : Z) : Prop := start r <= x < end_ r.
Definition pinside (r : PRegion) (x : Z) : Prop := pstart r <= x < pend r.
Definition covers (l : list Region) (x : Z) : Prop := Exists (fun r => inside r x) l.
Definition pcovers (l : list PRegion) (x : Z) : Prop := Exists (fun r => pinside r x) l.

(** The reserved regions in use. *)
Definition resv (s : bstate) : list PRegion := take (Z.to_nat (resv_count s)) (reserved s).

(** ** Loops and arrays *)

Lemma array_get_app {A} (p q : list A) a i :
  i = Z.of_nat (length p) -> array_get (p ++ a :: q) i = Ok a.
Proof. intros ->. apply array_get_ok; [lia|]. rewrite Nat2Z.id. by rewrite list_lookup_middle. Qed.

Lemma array_set_app {A} (p q : list A) a b i :
  i = Z.of_nat (length p) -> array_set (p ++ a :: q) i b = Ok (p ++ b :: q).
Proof.
  intros ->. rewrite array_set_ok by (rewrite length_app; cbn; lia).
  rewrite Nat2Z.id. rewrite insert_app_r_alt by lia. by rewrite Nat.sub_diag.
Qed.

Lemma map_replicate {A C} (c : C) (l : list A) : map (fun _ => c) l = replicate (length l) c.
Proof. induction l; cbn; congruence. Qed.

(** ** Reserved regions on lists *)

(** Coverage of lists that differ in one region. *)
Ltac pcovers_tac :=
  unfold pcovers; rewrite ?Exists_app, ?Exists_cons, ?Exists_nil; unfold pinside; cbn [pstart pend];
  repeat match goal with |- context [Exists ?P ?l] => generalize (Exists P l); intros ? end;
  intuition lia.

(** [a] and the regions behind it, those that touch joined. *)
Fixpoint merge (a : PRegion) (t : list PRegion) : list PRegion :=
  match t with
  | [] => [a]
  | b :: t => if pend a =? pstart b then merge (mk_PRegion (pstart a) (pend b)) t else a :: merge b t
  end.
Definition merge_all (l : list PRegion) : list PRegion :=
  match l with [] => [] | a :: t => merge a t end.

Fixpoint reserve_list (reg : PRegion) (p t : list PRegion) : list PRegion :=
  match t with
  | [] => p ++ [reg]
  | r :: t =>
      if pstart r =? pend reg then merge_all (p ++ mk_PRegion (pstart reg) (pend r) :: t)
      else if pend r =? pstart reg then merge_all (p ++ mk_PRegion (pstart r) (pend reg) :: t)
      else if pend reg <? pstart r then p ++ reg :: r :: t
      else reserve_list reg (p ++ [r]) t
  end.

(** *** The array loops compute these functions *)

Definition resv_state (arr : list PRegion) (n : Z) (s : bstate) : bstate :=
  s <| reserved := arr |> <| resv_count := n |>.

Lemma resv_state_id s : resv_state (reserved s) (resv_count s) s = s.
Proof. by destruct s. Qed.

Lemma get_reserved_ok p a q i n s :
  i = Z.of_nat (length p) ->
  get_reserved i (resv_state (p ++ a :: q) n s) = Ok (a, resv_state (p ++ a :: q) n s).
Proof. intros Hi. unfold get_reserved, bind, gets, lift_res. cbn. by rewrite array_get_app. Qed.

Lemma set_reserved_ok p a q b i n s :
  i = Z.of_nat (length p) ->
  set_reserved i b (resv_state (p ++ a :: q) n s) = Ok (tt, resv_state (p ++ b :: q) n s).
Proof. intros Hi. unfold set_reserved, bind, gets, lift_res, modify. cbn. by rewrite array_set_app. Qed.

(** Run the next access of the array of reserved regions. *)
Ltac array_step :=
  erewrite bind_ok by
    first [ apply get_reserved_ok; rewrite ?length_app; cbn; lia
          | apply set_reserved_ok; rewrite ?length_app; cbn; lia
          | reflexivity ];
  cbv beta.

Lemma shift_down_ok p t y q n s j :
  j = Z.of_nat (length p) + 1 -> Z.of_nat (length (p ++ y :: t)) = n -> (length t < resv_fuel)%nat ->
  exists z k, shift_down j (resv_state (p ++ y :: t ++ q) n s) = Ok (k, resv_state (p ++ t ++ z :: q) n s).
Proof.
  unfold shift_down. generalize resv_fuel as fuel. intros fuel. revert p t y j.
  induction fuel as [|fuel IH]; intros p t y j -> Hn Hf; [lia|]. cbn [while].
  rewrite length_app in Hn. cbn in Hn. array_step. cbn [resv_state resv_count set].
  destruct t as [|c t]; cbn in Hn, Hf.
  - destruct (Z.ltb_spec (Z.of_nat (length p) + 1) n); [lia|]. eauto.
  - destruct (Z.ltb_spec (Z.of_nat (length p) + 1) n); [|lia].
    rewrite bind_assoc. cbn [app]. replace (p ++ y :: c :: t ++ q) with ((p ++ [y]) ++ c :: t ++ q) by by rewrite <- app_assoc.
    array_step. rewrite <- app_assoc. cbn [app]. rewrite bind_assoc. array_step. array_step.
    destruct (IH (p ++ [c]) t c (Z.of_nat (length p) + 1 + 1)) as (z & k & E);
      [rewrite length_app; cbn; lia|rewrite !length_app; cbn; lia|lia|].
    rewrite <- !app_assoc in E. cbn [app] in E. eauto.
Qed.

Lemma shift_up_ok p t y q n s i j :
  i = Z.of_nat (length p) -> j = i + Z.of_nat (length t) -> (length t < resv_fuel)%nat ->
  exists z k, shift_up i j (resv_state (p ++ t ++ y :: q) n s) = Ok (k, resv_state (p ++ z :: t ++ q) n s).
Proof.
  unfold shift_up. generalize resv_fuel as fuel. intros fuel. revert t y q j.
  induction fuel as [|fuel IH]; intros t y q j Hi Hj Hf; [lia|]. cbn [while]. array_step.
  destruct (decide (t = [])) as [->|Hne]; cbn in Hj.
  - destruct (Z.ltb_spec i j); [lia|]. cbn. eauto.
  - destruct (Z.ltb_spec i j); [|destruct t; cbn in Hj; [done|lia]].
    destruct t as [|c t _] using rev_ind; [done|]. rewrite length_app in Hj, Hf. cbn in Hj, Hf.
    rewrite bind_assoc. rewrite <- !app_assoc. cbn [app].
    rewrite (app_assoc p t). array_step. rewrite bind_assoc.
    replace ((p ++ t) ++ c :: y :: q) with (((p ++ t) ++ [c]) ++ y :: q) by by rewrite <- app_assoc.
    array_step. array_step. rewrite <- !app_assoc. cbn [app].
    destruct (IH t c (c :: q) (j - 1)) as (z & k & E); [done|lia|lia|]. eauto.
Qed.

Lemma merge_loop_ok fuel p a t q n s i :
  i = Z.of_nat (length p) + 1 -> n = i + Z.of_nat (length t) -> (length t < fuel)%nat ->
  (length t < resv_fuel)%nat ->
  exists q' k, length (merge a t ++ q') = length (a :: t ++ q) /\
    while fuel (fun i => let* n := gets resv_count in ret (i <? n))
      (fun i =>
         let* a := get_reserved (i - 1) in
         let* b := get_reserved i in
         if pend a =? pstart b then
           set_reserved (i - 1) (a <| pend := pend b |>) ;;;
           shift_down (i + 1) ;;;
           let* n := gets resv_count in set_resv_count (n - 1) ;;; ret i
         else ret (i + 1)) i (resv_state (p ++ a :: t ++ q) n s) =
      Ok (k, resv_state ((p ++ merge a t) ++ q') (Z.of_nat (length (p ++ merge a t))) s).
Proof.
  revert p a t q n i. induction fuel as [|fuel IH]; intros p a t q n i -> -> Hf Hr; [lia|].
  cbn [while]. array_step. cbn [resv_state resv_count set]. destruct t as [|b t].
  - destruct (Z.ltb_spec (Z.of_nat (length p) + 1) (Z.of_nat (length p) + 1 + Z.of_nat (length (@nil PRegion))));
      [cbn in *; lia|]. exists q, (Z.of_nat (length p) + 1). split; [done|]. cbn [merge]. unfold ret. do 3 f_equal.
    + by rewrite <- app_assoc.
    + rewrite length_app. cbn. lia.
  - destruct (Z.ltb_spec (Z.of_nat (length p) + 1) (Z.of_nat (length p) + 1 + Z.of_nat (length (b :: t))));
      [|cbn in *; lia]. cbn [app].
    rewrite bind_assoc. array_step. rewrite bind_assoc.
    replace (p ++ a :: b :: t ++ q) with ((p ++ [a]) ++ b :: t ++ q) by by rewrite <- app_assoc.
    array_step. rewrite <- app_assoc. cbn [app merge]. cbn in Hf, Hr.
    destruct (pend a =? pstart b).
    + rewrite bind_assoc. array_step. rewrite bind_assoc.
      change (a <| pend := pend b |>) with (mk_PRegion (pstart a) (pend b)).
      set (ab := mk_PRegion (pstart a) (pend b)).
      replace (p ++ ab :: b :: t ++ q) with ((p ++ [ab]) ++ b :: t ++ q) by by rewrite <- app_assoc.
      destruct (shift_down_ok (p ++ [ab]) t b q
        (Z.of_nat (length p) + 1 + Z.of_nat (length (b :: t))) s (Z.of_nat (length p) + 1 + 1)) as (z & k & E);
        [rewrite length_app; cbn; lia|rewrite !length_app; cbn; lia|lia|].
      rewrite (bind_ok _ _ _ _ _ E), bind_assoc. array_step. rewrite bind_assoc. array_step. array_step.
      destruct (IH p ab t (z :: q) (Z.of_nat (length p) + 1 + Z.of_nat (length t)) (Z.of_nat (length p) + 1))
        as (q' & k' & Hlen & E'); [done|done|lia|lia|].
      exists q', k'. split; [rewrite Hlen; cbn; rewrite !length_app; cbn; lia|].
      rewrite <- E'. f_equal. rewrite <- app_assoc. unfold resv_state, set. cbn. f_equal. lia.
    + array_step. destruct (IH (p ++ [a]) b t q (Z.of_nat (length p) + 1 + Z.of_nat (length (b :: t)))
        (Z.of_nat (length p) + 1 + 1)) as (q' & k' & Hlen & E');
        [rewrite length_app; cbn; lia|cbn; lia|lia|lia|].
      exists q', k'. split; [cbn in *; lia|]. rewrite <- !app_assoc in E'. rewrite <- !app_assoc. exact E'.
Qed.

Lemma merge_regions_ok l q n s :
  Z.of_nat (length l) = n -> (length l < resv_fuel)%nat ->
  exists q', length (merge_all l ++ q') = length (l ++ q) /\
    merge_regions (resv_state (l ++ q) n s) =
      Ok (tt, resv_state (merge_all l ++ q') (Z.of_nat (length (merge_all l))) s).
Proof.
  intros Hn Hf. unfold merge_regions. destruct l as [|a t].
  - exists q. cbn in Hn. subst n. done.
  - destruct (merge_loop_ok resv_fuel [] a t q n s 1) as (q' & k & Hlen & E);
      [done|cbn in *; lia|cbn in *; lia|cbn in *; lia|].
    exists q'. split; [done|]. by rewrite (bind_ok _ _ _ _ _ E).
Qed.

Lemma reserve_loop_ok fuel reg p t y q n s i :
  i = Z.of_nat (length p) -> n = i + Z.of_nat (length t) -> n + 1 < MAX_NUM_RESV_REG ->
  (length t < fuel)%nat ->
  exists q', length (reserve_list reg p t ++ q') = length (p ++ t ++ y :: q) /\
    reserve_loop fuel reg i (resv_state (p ++ t ++ y :: q) n s) =
      Ok (true, resv_state (reserve_list reg p t ++ q') (Z.of_nat (length (reserve_list reg p t))) s).
Proof.
  change MAX_NUM_RESV_REG with 19. revert p t i. induction fuel as [|fuel IH]; intros p t i Hi Hn Hc Hf; [lia|].
  cbn [reserve_loop]. array_step. cbn [resv_state resv_count set]. change MAX_NUM_RESV_REG with 19.
  assert (Hfuel : resv_fuel = 20%nat) by reflexivity.
  destruct t as [|r t]; cbn [reserve_list].
  - cbn in Hn. destruct (Z.ltb_spec i n); [lia|]. destruct (Z.eqb_spec (i + 1) 19); [lia|].
    cbn [app]. array_step. array_step. exists q. rewrite <- app_assoc. cbn [app]. split; [by rewrite !length_app|].
    replace (Z.of_nat (length (p ++ [reg]))) with (n + 1) by (rewrite length_app; cbn; lia). reflexivity.
  - cbn in Hn, Hf. destruct (Z.ltb_spec i n); [|lia]. cbn [app]. array_step.
    assert (Hset : forall r', exists q', length (merge_all (p ++ r' :: t) ++ q') = length (p ++ r :: t ++ y :: q) /\
      (set_reserved i r' ;;; merge_regions ;;; ret true) (resv_state (p ++ r :: t ++ y :: q) n s) =
        Ok (true, resv_state (merge_all (p ++ r' :: t) ++ q')
                    (Z.of_nat (length (merge_all (p ++ r' :: t)))) s)).
    { intros r'. array_step.
      destruct (merge_regions_ok (p ++ r' :: t) (y :: q) n s) as (q' & Hlen & E);
        [rewrite length_app; cbn; lia|rewrite length_app; cbn; lia|].
      exists q'. rewrite <- app_assoc in Hlen, E. cbn [app] in Hlen, E.
      rewrite (bind_ok _ _ _ _ _ E). split; [|done]. rewrite Hlen, !length_app. done. }
    destruct (pstart r =? pend reg); [apply Hset|]. destruct (pend r =? pstart reg); [apply Hset|].
    destruct (pend reg <? pstart r).
    + destruct (Z.leb_spec 19 (n + 1)); [lia|].
      destruct (shift_up_ok p (r :: t) y q n s i n) as (z & k & E); [done|cbn; lia|cbn; lia|].
      cbn [app] in E. rewrite (bind_ok _ _ _ _ _ E). array_step. array_step. exists q.
      rewrite <- app_assoc. split; [rewrite !length_app; cbn; rewrite !length_app; cbn; lia|].
      replace (Z.of_nat (length (p ++ reg :: r :: t))) with (n + 1) by (rewrite length_app; cbn; lia). reflexivity.
    + destruct (IH (p ++ [r]) t (i + 1)) as (q' & Hlen & E); [rewrite length_app; cbn; lia|lia|lia|lia|].
      rewrite <- app_assoc in Hlen, E. eauto.
Qed.

(** The array has its full length and a free entry. *)
Definition resv_room (s : bstate) : Prop :=
  length (reserved s) = 19%nat /\ 0 <= resv_count s /\ resv_count s + 1 < MAX_NUM_RESV_REG.

Lemma reserve_region_list reg s :
  resv_room s -> pstart reg < pend reg ->
  exists arr, length arr = 19%nat /\
    let l := reserve_list reg [] (resv s) in
    reserve_region reg s = Ok (true, resv_state arr (Z.of_nat (length l)) s) /\ take (length l) arr = l.
Proof.
  intros (Hlen & H0 & Hc) Hr. change MAX_NUM_RESV_REG with 19 in Hc. unfold reserve_region.
  destruct (Z.leb_spec (pstart reg) (pend reg)); [|lia]. rewrite (bind_ok _ _ s tt s) by done.
  destruct (Z.eqb_spec (pstart reg) (pend reg)) as [|_]; [lia|].
  unfold resv. set (n := resv_count s) in *.
  destruct (drop (Z.to_nat n) (reserved s)) as [|y q] eqn:Ed.
  { apply (f_equal length) in Ed. rewrite length_drop in Ed. cbn in Ed. lia. }
  assert (Es : resv_state (take (Z.to_nat n) (reserved s) ++ y :: q) n s = s).
  { rewrite <- Ed, take_drop. apply resv_state_id. }
  assert (Ht : length (take (Z.to_nat n) (reserved s)) = Z.to_nat n) by (rewrite length_take; lia).
  destruct (reserve_loop_ok resv_fuel reg [] (take (Z.to_nat n) (reserved s)) y q n s 0) as (q' & Hl & E);
    [done|lia|change MAX_NUM_RESV_REG with 19; lia|rewrite Ht; change resv_fuel with 20%nat; lia|].
  cbn [app] in Hl, E. rewrite Es in E. eexists. split; [|split; [exact E|by rewrite take_app_length]].
  rewrite Hl, <- Ed, take_drop. done.
Qed.

(** *** What the functions mean *)

(** Nonempty regions in order, at least [gap] apart, from [lo] on. *)
Fixpoint regions_from (gap lo : Z) (l : list PRegion) : Prop :=
  match l with
  | [] => True
  | r :: l => lo + gap <= pstart r /\ pstart r < pend r /\ regions_from gap (pend r) l
  end.

Lemma regions_from_weaken lo l : regions_from 1 lo l -> regions_from 0 lo l.
Proof. revert lo. induction l; cbn; intros lo; [done|]. intros (? & ? & ?). split_and!; [lia|lia|eauto]. Qed.

Lemma merge_from g lo a t :
  lo + g <= pstart a -> pstart a < pend a -> regions_from 0 (pend a) t ->
  exists b u, merge a t = b :: u /\ lo + g <= pstart b /\ pstart b < pend b /\ regions_from 1 (pend b) u /\
    (forall x, pcovers (merge a t) x <-> pcovers (a :: t) x).
Proof.
  revert lo g a. induction t as [|b t IH]; intros lo g a Hlo Ha Ht; cbn.
  - exists a, []. done.
  - cbn in Ht. destruct Ht as (Hb1 & Hb2 & Ht). destruct (Z.eqb_spec (pend a) (pstart b)).
    + destruct (IH lo g (mk_PRegion (pstart a) (pend b))) as (c & u & E & H1 & H2 & H3 & H4); [done|cbn; lia|done|].
      exists c, u. split_and!; [done..|]. intros x. rewrite H4. unfold pcovers. rewrite !Exists_cons.
      unfold pinside. cbn. split; [intros [?|?]|intros [?|[?|?]]]; auto with lia.
    + destruct (IH (pend a) 1 b) as (c & u & E & H1 & H2 & H3 & H4); [lia|lia|done|].
      exists a, (merge b t). split_and!; [done..| |].
      * rewrite E. cbn. split_and!; auto.
      * intros x. unfold pcovers in *. rewrite !Exists_cons, H4, !Exists_cons. done.
Qed.

Lemma merge_all_from l :
  regions_from 0 0 l ->
  regions_from 1 (-1) (merge_all l) /\ (forall x, pcovers (merge_all l) x <-> pcovers l x).
Proof.
  destruct l as [|a t]; cbn [merge_all]; [done|]. intros (Ha & Hb & Ht).
  destruct (merge_from 1 (-1) a t) as (b & u & E & H1 & H2 & H3 & H4); [lia|done|done|].
  split; [|done]. rewrite E. done.
Qed.

Lemma regions_from_tail gap lo p t : regions_from gap lo (p ++ t) -> exists lo', regions_from gap lo' t.
Proof. revert lo. induction p as [|a p IH]; intros lo; cbn; [eauto|]. intros (_ & _ & Hp). eauto. Qed.

(** Replace what follows [p] by [r] and [u]. *)
Lemma regions_from_glue gap lo p t r u :
  regions_from gap lo (p ++ t) -> lo + gap <= pstart r -> Forall (fun a => pend a + gap <= pstart r) p ->
  pstart r < pend r -> regions_from gap (pend r) u -> regions_from gap lo (p ++ r :: u).
Proof.
  revert lo. induction p as [|a p IH]; intros lo; cbn; [done|].
  intros (? & ? & Hp) ? [? Hf]%Forall_cons ? ?. split_and!; [done..|]. by apply IH.
Qed.

Lemma regions_from_shift lo l : regions_from 1 lo l -> regions_from 0 (lo + 1) l.
Proof. destruct l; cbn; [done|]. intros (? & ? & ?). split_and!; [lia|lia|]. by apply regions_from_weaken. Qed.

Lemma regions_from_before gap lo p r t :
  0 <= gap -> regions_from gap lo (p ++ r :: t) ->
  lo + gap <= pstart r /\ Forall (fun a => pend a + gap <= pstart r) p.
Proof.
  intros Hg. revert lo. induction p as [|a p IH]; intros lo; cbn; [naive_solver|].
  intros (? & ? & Hp). apply IH in Hp as [? ?]. split; [lia|]. by constructor.
Qed.

Lemma reserve_list_spec reg p t :
  0 <= pstart reg -> pstart reg < pend reg -> regions_from 1 (-1) (p ++ t) ->
  Forall (fun a => pend a < pstart reg) p -> (forall x, pinside reg x -> ~ pcovers (p ++ t) x) ->
  regions_from 1 (-1) (reserve_list reg p t) /\
  (forall x, pcovers (reserve_list reg p t) x <-> pcovers (p ++ t) x \/ pinside reg x).
Proof.
  intros H0 Hreg. revert p. induction t as [|r t IH]; intros p Hs Hp Hd; cbn [reserve_list].
  - split.
    + apply (regions_from_glue _ _ _ [] reg []); [done|lia| |done|done]. eapply Forall_impl; [exact Hp|]. cbn. lia.
    + intros x. unfold pcovers. rewrite app_nil_r, Exists_app, Exists_cons, Exists_nil. tauto.
  - pose proof (regions_from_tail _ _ _ _ Hs) as (lo' & _ & Hr & Ht). fold regions_from in Ht.
    pose proof (regions_from_before 1 (-1) p r t ltac:(lia) Hs) as [Hrlo Hbefore].
    assert (Hcov : forall x, pinside r x -> pcovers (p ++ r :: t) x).
    { intros x Hx. unfold pcovers. rewrite Exists_app, Exists_cons. auto. }
    assert (Hrep : forall r', pstart r' < pend r' -> 0 <= pstart r' -> pend r' <= pend r \/ regions_from 0 (pend r') t ->
      Forall (fun a => pend a <= pstart r') p -> regions_from 0 0 (p ++ r' :: t)).
    { intros r' H1 H2 H3 H4. apply (regions_from_glue _ _ _ (r :: t)); [by apply regions_from_shift in Hs|lia| |done|].
      - eapply Forall_impl; [exact H4|]. cbn. lia.
      - destruct H3 as [H3|H3]; [|done]. destruct t as [|b t]; [done|]. cbn in Ht |- *.
        destruct Ht as (? & ? & ?). split_and!; [lia|done|]. by apply regions_from_weaken. }
    destruct (Z.eqb_spec (pstart r) (pend reg)); [|destruct (Z.eqb_spec (pend r) (pstart reg))];
      [| |destruct (Z.ltb_spec (pend reg) (pstart r))].
    + destruct (merge_all_from (p ++ mk_PRegion (pstart reg) (pend r) :: t)) as [H1 H2].
      { apply Hrep; cbn; [lia|done|left; lia|]. eapply Forall_impl; [exact Hp|]. cbn. lia. }
      split; [done|]. intros x. rewrite H2. pcovers_tac.
    + destruct (merge_all_from (p ++ mk_PRegion (pstart r) (pend reg) :: t)) as [H1 H2].
      { apply Hrep; cbn; [lia|lia|right|].
        - destruct t as [|b t]; [done|]. cbn in Ht |- *. destruct Ht as (? & ? & Ht).
          split_and!; [|done|by apply regions_from_weaken]. destruct (Z.lt_ge_cases (pstart b) (pend reg)); [|lia].
          destruct (Hd (pstart b)); [unfold pinside; lia|]. unfold pcovers. rewrite Exists_app, !Exists_cons.
          unfold pinside. right; right; left. lia.
        - eapply Forall_impl; [exact Hbefore|]. cbn. lia. }
      split; [done|]. intros x. rewrite H2. pcovers_tac.
    + split; [|intros x; pcovers_tac]. apply (regions_from_glue _ _ _ (r :: t)); [done|lia| |done|].
      * eapply Forall_impl; [exact Hp|]. cbn. lia.
      * cbn. split_and!; [lia|done|done].
    + destruct (IH (p ++ [r])) as [H1 H2].
      * by rewrite <- app_assoc.
      * apply Forall_app. split; [done|]. constructor; [|done].
        destruct (Z.lt_ge_cases (pstart reg) (pend r)); [|lia].
        destruct (Hd (Z.max (pstart r) (pstart reg))); [unfold pinside; lia|]. apply Hcov. unfold pinside. lia.
      * intros x Hx. rewrite <- app_assoc. by apply Hd.
      * split; [done|]. intros x. rewrite H2, <- app_assoc. done.
Qed.

Lemma merge_length a t : (length (merge a t) <= S (length t))%nat.
Proof.
  revert a. induction t as [|b t IH]; intros a; cbn; [lia|]. case_match; [pose proof (IH (mk_PRegion (pstart a) (pend b)))|pose proof (IH b)]; cbn; lia.
Qed.
Lemma merge_all_length l : (length (merge_all l) <= length l)%nat.
Proof. destruct l; cbn [merge_all length]; [lia|apply merge_length]. Qed.
Lemma reserve_list_length reg p t : (length (reserve_list reg p t) <= S (length (p ++ t)))%nat.
Proof.
  revert p. induction t as [|r t IH]; intros p; cbn [reserve_list].
  - rewrite !length_app. cbn. lia.
  - repeat case_match.
    + pose proof (merge_all_length (p ++ mk_PRegion (pstart reg) (pend r) :: t)) as E.
      rewrite !length_app in *. cbn in *. lia.
    + pose proof (merge_all_length (p ++ mk_PRegion (pstart r) (pend reg) :: t)) as E.
      rewrite !length_app in *. cbn in *. lia.
    + rewrite !length_app. cbn. lia.
    + pose proof (IH (p ++ [r])) as E. rewrite !length_app in *. cbn in *. lia.
Qed.

(** ** [reserve_region] *)

(** The regions in use are nonempty, in order and do not touch. *)
Definition resv_wf (s : bstate) : Prop :=
  length (reserved s) = 19%nat /\ 0 <= resv_count s /\ regions_from 1 (-1) (resv s).

Lemma reserve_region_ok reg s :
  resv_wf s -> resv_count s + 1 < MAX_NUM_RESV_REG -> 0 <= pstart reg <= pend reg ->
  (forall x, pinside reg x -> ~ pcovers (resv s) x) ->
  exists arr n, let s' := resv_state arr n s in
    reserve_region reg s = Ok (true, s') /\ resv_wf s' /\ n <= resv_count s + 1 /\
    (forall x, pcovers (resv s') x <-> pcovers (resv s) x \/ pinside reg x).
Proof.
  intros (Hlen & Hn & Hs) Hroom Hreg Hd. destruct (decide (pstart reg = pend reg)) as [E|E].
  - exists (reserved s), (resv_count s). cbn zeta. rewrite resv_state_id. split_and!; [|done|lia|].
    + unfold reserve_region. destruct (Z.leb_spec (pstart reg) (pend reg)); [|lia].
      rewrite (bind_ok _ _ s tt s) by done. by destruct (Z.eqb_spec (pstart reg) (pend reg)).
    + intros x. unfold pinside. intuition lia.
  - destruct (reserve_region_list reg s) as (arr & Ha & E1 & E2); [done|lia|].
    destruct (reserve_list_spec reg [] (resv s)) as [H1 H2]; [lia|lia|done|by constructor|done|].
    pose proof (reserve_list_length reg [] (resv s)) as H3. cbn [app] in *.
    set (l := reserve_list reg [] (resv s)) in *.
    assert (Er : resv (resv_state arr (Z.of_nat (length l)) s) = l).
    { unfold resv. cbn. by rewrite Nat2Z.id. }
    exists arr, (Z.of_nat (length l)). cbn zeta. rewrite Er. split_and!; [done| | |done].
    + split_and!; [done|cbn; lia|by rewrite Er].
    + unfold resv in H3. rewrite length_take in H3. lia.
Qed.

(** ** Kernel regions and physical regions *)

Section window.
Context `{Config}.
#[local] Abbreviation OFF := PPTR_BASE_OFFSET.

(** A region of the kernel's view of physical memory. *)
Definition in_window (r : Region) : Prop := OFF <= start r <= end_ r /\ end_ r < word_size.

Lemma PPTR_BASE_OFFSET_word : 0 < OFF < word_size.
Proof. unfold PPTR_BASE_OFFSET, word_size. destruct target_arch; lia. Qed.

Lemma to_pregion_window r :
  in_window r -> to_pregion r = mk_PRegion (start r - OFF) (end_ r - OFF).
Proof.
  intros [? ?]. pose proof PPTR_BASE_OFFSET_word. unfold to_pregion, to_paddr.
  by rewrite !wsub_small by lia.
Qed.

Lemma pinside_window r x : in_window r -> pinside (to_pregion r) x <-> inside r (x + OFF).
Proof. intros Hr. rewrite to_pregion_window by done. unfold pinside, inside. cbn. lia. Qed.

Lemma to_pptr_small x : 0 <= x -> x < word_size - OFF -> to_pptr x = x + OFF.
Proof. intros. pose proof PPTR_BASE_OFFSET_word. unfold to_pptr. apply wadd_small; lia. Qed.
End window.

(** Regions in order from [lo] on; they may be empty. *)
Fixpoint ordered (lo : Z) (l : list Region) : Prop :=
  match l with
  | [] => True
  | r :: l => lo <= start r <= end_ r /\ ordered (end_ r) l
  end.

Lemma ordered_weaken lo lo' l : lo' <= lo -> ordered lo l -> ordered lo' l.
Proof. destruct l; cbn; [done|]. intros ? [? ?]. split; [lia|done]. Qed.
Lemma ordered_covers lo l x : ordered lo l -> covers l x -> lo <= x.
Proof.
  revert lo. induction l as [|r l IH]; intros lo Ho Hc; [by apply Exists_nil in Hc|].
  destruct Ho as [? Ho]. apply Exists_cons in Hc as [Hc|Hc]; [unfold inside in Hc; lia|].
  apply (IH _ Ho) in Hc. lia.
Qed.
Lemma ordered_snoc lo l c :
  ordered lo l -> lo <= start c <= end_ c -> (forall x, covers l x -> x < start c) ->
  Forall (fun r => start r < end_ r) l -> ordered lo (l ++ [c]).
Proof.
  revert lo. induction l as [|r l IH]; intros lo Ho Hc Hl Hne; cbn; [done|].
  destruct Ho as [? Ho]. apply Forall_cons in Hne as [Hr Hne]. split; [done|].
  assert (end_ r - 1 < start c) by (apply Hl, Exists_cons; left; unfold inside; lia).
  apply IH; [done|lia| |done]. intros x Hx. apply Hl, Exists_cons. by right.
Qed.
Lemma ordered_drop lo l n : ordered lo l -> exists lo', ordered lo' (drop n l).
Proof.
  revert lo n. induction l as [|r l IH]; intros lo [|n] Ho; cbn; eauto. destruct Ho as [_ Ho]. eauto.
Qed.
(** What comes before entry [n] ends before it starts. *)
Lemma ordered_take lo l n r x : ordered lo l -> l !! n = Some r -> covers (take n l) x -> x < start r.
Proof.
  revert lo n. induction l as [|a l IH]; intros lo [|n] Ho Hr Hc; cbn in *; try done; [by apply Exists_nil in Hc|].
  destruct Ho as [Ha Ho]. apply Exists_cons in Hc as [Hc|Hc]; [|by eapply IH].
  assert (end_ a <= start r); [|unfold inside in Hc; lia].
  clear -Ho Hr. revert a n Ho Hr. induction l as [|b l IH]; intros a [|n] Ho Hr; cbn in *; try done.
  - injection Hr as ->. lia.
  - destruct Ho as [? Ho]. specialize (IH b n Ho Hr). lia.
Qed.

(** A reserved region that begins before the end of an available region ends
    before the next one: it does not bridge two of them. *)
Fixpoint no_bridge (r : Region) (A : list Region) : Prop :=
  match A with
  | [] => True
  | b :: A => (start r < end_ b -> forall x, covers A x -> end_ r <= x) /\ no_bridge r A
  end.

Lemma check_reserved_ordered l : check_reserved_memory l = true -> exists lo, ordered lo l.
Proof.
  unfold check_reserved_memory. destruct l as [|r l]; cbn; [exists 0; done|].
  destruct (Z.ltb_spec (end_ r) (start r)); [done|]. intros E. exists (start r). split; [lia|].
  revert r H E. induction l as [|b l IH]; intros r Hr E; cbn in *; [done|].
  destruct (Z.ltb_spec (end_ b) (start b)); [done|]. destruct (Z.ltb_spec (start b) (end_ r)); [done|].
  split; [lia|]. by apply (IH b).
Qed.

(** ** The free regions *)

Section freemem.
Context `{Config}.
#[local] Abbreviation OFF := PPTR_BASE_OFFSET.

(** The available regions as the loop sees them, the reserved ones and the
    state before. *)
Context (A0 l : list Region) (s0 : bstate).
Context (Hwin : Forall in_window l) (Hwin0 : Forall in_window A0).
Context (Hord : exists lo, ordered lo l).
Context (Hnew : forall x, pcovers (resv s0) x -> ~ covers A0 (x + OFF) /\ ~ covers l (x + OFF)).
Context (Hcap : resv_count s0 + Z.of_nat (length A0) + 2 * Z.of_nat (length l) < MAX_NUM_RESV_REG).
Context (Hcap' : (length A0 + length l < 16)%nat).

(** [rest s]: only the memory tables have changed. *)
Definition rest (s : bstate) : Prop :=
  exists arr n m av, s = s0 <| reserved := arr |> <| resv_count := n |> <| freemem := m |> <| avail_reg := av |>.

(** After [r] reserved regions, [F] being the free regions found. *)
Definition progress (F : list Region) (r : nat) (s : bstate) : Prop :=
  rest s /\ resv_wf s /\ resv_count s <= resv_count s0 + Z.of_nat (length F + r) /\
  freemem s = F ++ replicate (16 - length F) Region_empty /\ Forall (fun f => start f < end_ f) F /\
  (exists lo, ordered lo F) /\
  (forall x, pcovers (resv s) x <-> pcovers (resv s0) x \/ covers F (x + OFF) \/ covers (take r l) (x + OFF)).

Definition wanted (x : Z) : Prop := covers A0 x /\ ~ covers l x.

Lemma progress_skip F r s res :
  progress F r s -> l !! r = Some res -> start res = end_ res -> progress F (S r) s.
Proof.
  intros (Hr & Hw & Hc & Hf & Hn & Ho & Hx) Hl E. split_and!; [done|done|lia|done|done|done|].
  intros x. rewrite Hx, (take_S_r _ _ _ Hl). unfold covers. rewrite Exists_app, Exists_cons, Exists_nil.
  unfold inside at 5. intuition lia.
Qed.

Lemma progress_reserve F r s res :
  progress F r s -> l !! r = Some res -> (length F <= length A0 + length l)%nat ->
  (forall x, covers F x -> wanted x) ->
  wp (reserve_region (to_pregion res)) (fun _ s' => progress F (S r) s' /\ avail_reg s' = avail_reg s) s.
Proof.
  intros (Hr & Hw & Hc & Hf & Hn & Ho & Hx) Hl HF HG.
  pose proof (lookup_lt_Some _ _ _ Hl). pose proof (proj1 (Forall_forall _ _) Hwin res (list_elem_of_lookup_2 _ _ _ Hl)) as Hres.
  destruct (reserve_region_ok (to_pregion res) s) as (arr & n & E & Hw' & Hn' & Hx').
  - done.
  - lia.
  - rewrite to_pregion_window by done. cbn. unfold in_window in Hres. lia.
  - intros x Hin. rewrite pinside_window in Hin by done. rewrite Hx.
    assert (covers l (x + OFF)) by (apply Exists_exists; eexists; split; [by eapply list_elem_of_lookup_2|done]).
    intros [Hp|[Hp|Hp]].
    + by apply Hnew in Hp as [_ ?].
    + by apply HG in Hp as [_ ?].
    + destruct Hord as [lo Hlo]. eapply ordered_take in Hp; [|done..]. unfold inside in Hin. lia.
  - eapply wp_ok; [exact E|]. split; [|done]. split_and!; [|done|cbn; lia|done|done|done|].
    + destruct Hr as (? & ? & m & av & ->). by exists arr, n, m, av.
    + intros x. rewrite Hx', Hx, pinside_window, (take_S_r _ _ _ Hl) by done. unfold covers.
      rewrite Exists_app, Exists_cons, Exists_nil. tauto.
Qed.

Lemma insert_loop_find fuel reg p t k s i :
  freemem s = p ++ t ++ replicate (S k) Region_empty -> Forall (fun f => start f < end_ f) t ->
  i = Z.of_nat (length p) -> (length t < fuel)%nat ->
  insert_loop fuel reg i s =
    (reserve_region (to_pregion reg) ;;; set_freemem (i + Z.of_nat (length t)) reg ;;; ret true) s.
Proof.
  revert p t i. induction fuel as [|fuel IH]; intros p t i Hf Ht Hi Hlen; [lia|]. cbn [insert_loop].
  rewrite (bind_ok _ _ s (p ++ t ++ replicate (S k) Region_empty) s) by (unfold gets; by rewrite Hf).
  rewrite !length_app, length_replicate. destruct (Z.ltb_spec i (Z.of_nat (length p + (length t + S k)))); [|lia].
  unfold get_freemem. rewrite bind_assoc, (bind_ok _ _ s (p ++ t ++ replicate (S k) Region_empty) s) by
    (unfold gets; by rewrite Hf).
  destruct t as [|f t]; cbn [app replicate].
  - rewrite array_get_app by done. rewrite (bind_ok _ _ s Region_empty s) by done. cbn [is_empty].
    change (start Region_empty =? end_ Region_empty) with true. cbn [length]. by rewrite Z.add_0_r.
  - rewrite array_get_app by done. rewrite (bind_ok _ _ s f s) by done.
    apply Forall_cons in Ht as [Hf1 Ht]. unfold is_empty. destruct (Z.eqb_spec (start f) (end_ f)); [lia|].
    rewrite (IH (p ++ [f]) t); [|by rewrite <- app_assoc|done|rewrite length_app; cbn; lia|cbn in Hlen; lia].
    cbn [length]. replace (i + 1 + Z.of_nat (length t)) with (i + Z.of_nat (S (length t))) by lia. done.
Qed.

Lemma progress_insert F r s c :
  progress F r s -> (length F < 16)%nat -> (r <= length l)%nat -> (length F < length A0 + length l)%nat ->
  in_window c -> start c < end_ c -> (forall x, inside c x -> wanted x) ->
  (forall x, covers F x -> wanted x /\ x < start c) ->
  wp (insert_region c) (fun _ s' => progress (F ++ [c]) r s' /\ avail_reg s' = avail_reg s) s.
Proof.
  intros (Hr & Hw & Hc & Hf & Hn & [lo Ho] & Hx) HF Hrl HF' Hcw Hce HG HFc.
  destruct (reserve_region_ok (to_pregion c) s) as (arr & n & E & Hw' & Hn' & Hx').
  - done.
  - lia.
  - rewrite to_pregion_window by done. cbn. unfold in_window in Hcw. lia.
  - intros x Hin. rewrite pinside_window in Hin by done. rewrite Hx. apply HG in Hin as Hin'.
    intros [Hp|[Hp|Hp]].
    + apply Hnew in Hp as [? _]. by destruct Hin'.
    + apply HFc in Hp as [_ ?]. unfold inside in Hin. lia.
    + destruct Hin' as [_ Hin']. apply Hin'. unfold covers in *. rewrite <- (take_drop r l), Exists_app. by left.
  - unfold insert_region. apply wp_bind, wp_assert; [by apply Z.leb_le; lia|].
    unfold is_empty. destruct (Z.eqb_spec (start c) (end_ c)); [lia|].
    replace (16 - length F)%nat with (S (15 - length F)) in Hf by lia.
    unfold wp. rewrite (insert_loop_find _ c [] F (15 - length F)) by
      (try done; cbn; change (Z.to_nat MAX_NUM_FREEMEM_REG) with 16%nat; lia).
    rewrite (bind_ok _ _ _ _ _ E). unfold set_freemem. rewrite bind_assoc.
    set (s1 := resv_state arr n s) in *. assert (Hf1 : freemem s1 = freemem s) by done.
    rewrite (bind_ok _ _ s1 _ s1 (f_equal (fun m => Ok (m, s1)) (eq_trans Hf1 Hf))). cbn [replicate].
    rewrite array_set_app by (cbn; lia). unfold bind, lift_res, modify, ret. split; [|done].
    split_and!; [|done|cbn; rewrite length_app; cbn; lia| |by apply Forall_app; split; [|by constructor]| |].
    + destruct Hr as (? & ? & ? & av & ->). by eexists arr, n, _, av.
    + cbn. rewrite length_app, <- app_assoc. cbn. do 2 f_equal. f_equal. lia.
    + exists (Z.min lo (start c)). apply ordered_snoc; [|lia| |done].
      * eapply ordered_weaken; [|exact Ho]. lia.
      * intros x Hcx. by apply HFc in Hcx as [_ ?].
    + intros x. match goal with |- pcovers ?a x <-> _ => change a with (resv s1) end. rewrite Hx', Hx, pinside_window by done.
      unfold covers. rewrite Exists_app, Exists_cons, Exists_nil. tauto.
Qed.

(** *** One round of the loop on lists *)

Definition scan (F A : list Region) (r : nat) : Prop :=
  Forall in_window A /\ (exists lo, ordered lo A) /\ Forall (fun res => no_bridge res A) (drop r l) /\
  (forall x, covers F x \/ (covers A x /\ ~ covers (drop r l) x) <-> wanted x) /\
  (forall x y, covers F x -> covers A y -> x < y).

Lemma scan_reserve F A A2 r res :
  scan F A r -> l !! r = Some res -> Forall in_window A2 -> (exists lo, ordered lo A2) ->
  (forall q, no_bridge q A -> no_bridge q A2) ->
  (forall x, covers A2 x <-> covers A x /\ ~ inside res x) -> scan F A2 (S r).
Proof.
  intros (Hw & Ho & Hb & Heq & Hlt) Hl Hw2 Ho2 Hb2 HA2.
  rewrite (drop_S _ _ _ Hl) in Hb, Heq. apply Forall_cons in Hb as [_ Hb].
  split_and!; [done|done| | |].
  - eapply Forall_impl; [exact Hb|]. done.
  - intros x. rewrite <- Heq, HA2. unfold covers. rewrite (Exists_cons _ res). tauto.
  - intros x y HF HA. apply HA2 in HA as [HA _]. eauto.
Qed.

Lemma scan_insert F c A A2 r :
  scan F A r -> Forall in_window A2 -> (exists lo, ordered lo A2) ->
  (forall q, no_bridge q A -> no_bridge q A2) ->
  (forall x, inside c x -> covers A x /\ ~ covers (drop r l) x) ->
  (forall x, covers A x -> ~ covers (drop r l) x -> inside c x \/ covers A2 x) ->
  (forall x, covers A2 x -> covers A x) ->
  (forall x y, inside c x -> covers A2 y -> x < y) -> scan (F ++ [c]) A2 r.
Proof.
  intros (Hw & Ho & Hb & Heq & Hlt) Hw2 Ho2 Hb2 Hc1 Hc2 Hc3 Hc4.
  split_and!; [done|done| | |].
  - eapply Forall_impl; [exact Hb|]. done.
  - intros x. rewrite <- Heq. unfold covers in *. rewrite Exists_app, Exists_cons, Exists_nil.
    specialize (Hc1 x). specialize (Hc2 x). specialize (Hc3 x). tauto.
  - intros x y HF HA. unfold covers in HF. rewrite Exists_app, Exists_cons, Exists_nil in HF.
    destruct HF as [HF|[HF|[]]]; eauto.
Qed.

(** The tail of the available regions starts where the head ends. *)
Lemma scan_cons F av A r res :
  scan F (av :: A) r -> l !! r = Some res ->
  in_window av /\ Forall in_window A /\ in_window res /\ ordered (end_ av) A /\
  (forall x, covers A x -> end_ av <= x) /\ (forall x, covers (drop (S r) l) x -> end_ res <= x) /\
  (start res < end_ av -> forall x, covers A x -> end_ res <= x).
Proof.
  intros (Hw & [lo [Ho1 Ho2]] & Hb & _ & _) Hl. apply Forall_cons in Hw as [? ?].
  pose proof (proj1 (Forall_forall _ _) Hwin res (list_elem_of_lookup_2 _ _ _ Hl)).
  rewrite (drop_S _ _ _ Hl) in Hb. apply Forall_cons in Hb as [[Hb _] _].
  split_and!; [done..| | |done].
  - intros x. by apply ordered_covers.
  - destruct Hord as [lo' Hlo]. apply (ordered_drop _ _ r) in Hlo as [lo2 Hlo].
    rewrite (drop_S _ _ _ Hl) in Hlo. destruct Hlo as [_ Hlo]. intros x. by apply ordered_covers.
Qed.

(** *** The loop *)

Definition loop_inv (x : Z * Z) (s : bstate) : Prop :=
  exists (a r : nat) F A pre post, x = (Z.of_nat a, Z.of_nat r) /\
    length pre = a /\ (a + length A = length A0)%nat /\ (r <= length l)%nat /\ (length F <= a + r)%nat /\
    avail_reg s = pre ++ A ++ post /\ progress F r s /\ scan F A r.

Lemma progress_avail F r s av : progress F r s -> progress F r (s <| avail_reg := av |>).
Proof.
  intros (Hr & Hw & Hc & Hf & Hn & Ho & Hx). split_and!; try done.
  destruct Hr as (arr & n & m & ? & ->). by exists arr, n, m, av.
Qed.

Lemma get_avail_ok pre av q s i :
  avail_reg s = pre ++ av :: q -> i = Z.of_nat (length pre) -> get_avail i s = Ok (av, s).
Proof. intros E Hi. unfold get_avail, bind, gets, lift_res. by rewrite E, array_get_app. Qed.
Lemma set_avail_ok pre av av' q s i :
  avail_reg s = pre ++ av :: q -> i = Z.of_nat (length pre) ->
  set_avail i av' s = Ok (tt, s <| avail_reg := pre ++ av' :: q |>).
Proof. intros E Hi. unfold set_avail, bind, gets, lift_res, modify. by rewrite E, array_set_app. Qed.

Definition round_post (x : Z * Z) (x' : Z * Z) (s' : bstate) : Prop :=
  loop_inv x' s' /\ x'.1 + x'.2 = x.1 + x.2 + 1.

Lemma scan_wanted F A r x : scan F A r -> covers F x -> wanted x.
Proof. intros (_ & _ & _ & Heq & _) HF. apply Heq. by left. Qed.

Lemma reserve_round a r F A2 pre post res s :
  length pre = a -> (a + length A2 = length A0)%nat -> (length F <= a + S r)%nat -> (a <= length A0)%nat ->
  avail_reg s = pre ++ A2 ++ post -> l !! r = Some res -> progress F r s ->
  (forall x, covers F x -> wanted x) -> scan F A2 (S r) ->
  wp (reserve_region (to_pregion res) ;;; ret (Z.of_nat a, Z.of_nat r + 1))
    (round_post (Z.of_nat a, Z.of_nat r)) s.
Proof.
  intros Hpre HA HF Ha Hav Hl Hp HG Hs. pose proof (lookup_lt_Some _ _ _ Hl).
  apply wp_bind. eapply wp_mono; [by apply (progress_reserve F r s res); [|exact Hl|lia|]|].
  intros _ s' [Hp' Hav']. apply wp_ret. split; [|cbn; lia].
  exists a, (S r), F, A2, pre, post. rewrite Hav'. split_and!; [f_equal; lia|done|done|lia|lia|done|done|done].
Qed.

(** Coverage of lists that differ in their first region: the facts on the
    point [x] at hand are in front of the goal. *)
Ltac cover_tac :=
  repeat match goal with
  | H : scan _ _ _ |- _ => clear H
  | H : progress _ _ _ |- _ => clear H
  | H : Forall _ _ |- _ => clear H
  | H : ordered _ _ |- _ => clear H
  | H : wp _ _ _ |- _ => clear H
  | H : forall _ : Z, _ |- _ => clear H
  | H : exists _ : Z, _ |- _ => clear H
  | H : _ -> forall _ : Z, _ |- _ => clear H
  end;
  unfold covers; rewrite ?Exists_cons; unfold inside; cbn [start end_ set];
  repeat match goal with |- context [Exists ?P ?l] => generalize (Exists P l); intros ? end;
  intuition lia.

(** The first part of the next available region, up to [e], is free. *)
Lemma insert_head F av A r res s e :
  scan F (av :: A) r -> l !! r = Some res -> start res < end_ res ->
  start av < e <= end_ av -> e <= start res -> (length F < length A0 + length l)%nat ->
  progress F r s ->
  wp (insert_region (mk_Region (start av) e))
    (fun _ s' => progress (F ++ [mk_Region (start av) e]) r s' /\ avail_reg s' = avail_reg s) s.
Proof.
  intros Hs Hl Hres He Hre HF Hp. pose proof (scan_cons _ _ _ _ _ Hs Hl) as ([? ?] & _ & _ & _ & HA & HR & _).
  destruct (Hs) as (_ & _ & _ & Heq & Hlt). rewrite (drop_S _ _ _ Hl) in Heq.
  pose proof (lookup_lt_Some _ _ _ Hl). apply progress_insert; [done|lia|lia|done| |cbn; lia| |].
  - split; cbn; lia.
  - intros x Hx. apply Heq. right. generalize (HR x). revert Hx. cover_tac.
  - intros x Hx. split; [apply Heq; by left|]. cbn. apply Hlt; [done|]. apply Exists_cons. left. unfold inside. lia.
Qed.

(** It leaves the regions [A2] to look at. *)
Lemma scan_head F av A A2 r res e :
  scan F (av :: A) r -> l !! r = Some res -> start res < end_ res ->
  start av < e <= end_ av -> e <= start res ->
  (A2 = A /\ (e = end_ av \/ e = start res /\ end_ av <= end_ res) \/ A2 = mk_Region e (end_ av) :: A) ->
  scan (F ++ [mk_Region (start av) e]) A2 r.
Proof.
  intros Hs Hl Hres He Hre HA2.
  pose proof (scan_cons _ _ _ _ _ Hs Hl) as ([? ?] & HwA & _ & HoA & HA & HR & _).
  apply (scan_insert _ _ (av :: A)); [done| | | | | | |].
  - destruct HA2 as [[-> _]| ->]; [done|]. constructor; [|done]. split; cbn; lia.
  - destruct HA2 as [[-> _]| ->]; [by eexists|]. exists e. split; cbn; [lia|done].
  - intros q [Hq Hq']. destruct HA2 as [[-> _]| ->]; [done|]. by split.
  - intros x Hx. rewrite (drop_S _ _ _ Hl). generalize (HR x). revert Hx. cover_tac.
  - intros x. rewrite (drop_S _ _ _ Hl). generalize (HA x) (HR x).
    destruct HA2 as [[-> [->|[-> ?]]]| ->]; cover_tac.
  - intros x. destruct HA2 as [[-> _]| ->]; cover_tac.
  - intros x y Hx. revert Hx. generalize (HA y). destruct HA2 as [[-> _]| ->]; cover_tac.
Qed.

Lemma freemem_step_ok x s :
  loop_inv x s -> x.1 < Z.of_nat (length A0) -> x.2 < Z.of_nat (length l) ->
  wp (freemem_step l x) (round_post x) s.
Proof.
  intros (a & r & F & A & pre & post & -> & Hpre & HA & Hr & HF & Hav & Hp & Hs) Ha Hb. cbn [fst snd] in Ha, Hb. subst a.
  destruct A as [|av A]; [cbn in HA; lia|]. cbn in HA.
  destruct (lookup_lt_is_Some_2 l r) as [res Hl]; [lia|].
  pose proof (scan_cons _ _ _ _ _ Hs Hl) as (Hwav & HwA & Hwres & HoA & HltA & HltR & Hbr).
  unfold freemem_step. apply wp_bind. eapply wp_lift_res; [apply array_get_ok; [lia|by rewrite Nat2Z.id]|].
  assert (Hdrop : drop r l = res :: drop (S r) l) by by apply drop_S.
  destruct (Z.eqb_spec (start res) (end_ res)) as [E|E].
  { apply wp_ret. split; [|cbn; lia]. exists (length pre), (S r), F, (av :: A), pre, post.
    split_and!; [f_equal; lia|done|done|lia|lia|done|by eapply progress_skip|].
    destruct (Hs) as (? & ? & _). eapply scan_reserve; [done|done|done|done|done|]. intros x. cover_tac. }
  apply wp_bind. eapply wp_ok; [by eapply get_avail_ok; [exact Hav|]|].
  unfold in_window in Hwav, Hwres.
  destruct (Z.leb_spec (end_ av) (start av)) as [E1|E1].
  { apply wp_ret. split; [|cbn; lia]. exists (S (length pre)), r, F, A, (pre ++ [av]), post.
    rewrite length_app, <- app_assoc. cbn. split_and!; [f_equal; lia|lia|lia|lia|lia|done|done|].
    destruct Hs as (_ & _ & Hb' & Heq & Hlt). split_and!; [done|by eexists| | |].
    - eapply Forall_impl; [exact Hb'|]. intros q Hq. apply Hq.
    - intros x. rewrite <- Heq. cover_tac.
    - intros x y HFx HAy. apply Hlt; [done|]. apply Exists_cons. by right. }
  destruct (Z.leb_spec (end_ res) (start av)) as [E2|E2].
  { eapply (reserve_round _ _ F (av :: A)); [done|cbn; lia|lia|lia|exact Hav|done|done
      |by intros ? ?; eapply scan_wanted|].
    destruct (Hs) as (? & ? & _). eapply scan_reserve; [done|done|done|done|done|].
    intros x. generalize (HltA x). cover_tac. }
  destruct (Z.leb_spec (end_ av) (start res)) as [E3|E3].
  { assert (Eav : mk_Region (start av) (end_ av) = av) by by destruct av.
    pose proof (insert_head F av A r res s (end_ av) Hs Hl ltac:(lia) ltac:(lia) ltac:(lia) ltac:(lia) Hp) as Hins.
    rewrite Eav in Hins. apply wp_bind. eapply wp_mono; [exact Hins|]. intros _ s' [Hp' Hav']. apply wp_ret. split; [|cbn; lia].
    exists (S (length pre)), r, (F ++ [av]), A, (pre ++ [av]), post.
    rewrite !length_app, <- app_assoc, Hav'. cbn. split_and!; [f_equal; lia|lia|lia|lia|lia|done|done|].
    rewrite <- Eav at 1. eapply scan_head; [done|done|lia|lia|lia|auto]. }
  destruct (Z.leb_spec (start res) (start av)) as [E4|E4].
  { apply wp_bind. eapply wp_ok; [by eapply set_avail_ok; [exact Hav|]|].
    eapply (reserve_round _ _ F (_ :: A)); [done|cbn; lia|lia|lia|reflexivity|done|by apply progress_avail
      |by intros ? ?; eapply scan_wanted|].
    eapply (scan_reserve F (av :: A)); [done|done| | |done|].
    - constructor; [|done]. split; cbn; [destruct (_ <? _) eqn:?; zbool; lia|lia].
    - exists (start av). split; cbn; [destruct (_ <? _) eqn:?; zbool; lia|done].
    - intros x. generalize (HltA x) (Hbr ltac:(lia) x).
      destruct (Z.ltb_spec (end_ av) (end_ res)); cover_tac. }
  apply wp_bind, wp_assert; [apply Z.ltb_lt; lia|].
  change (av <| end_ := start res |>) with (mk_Region (start av) (start res)).
  pose proof (insert_head F av A r res s (start res) Hs Hl ltac:(lia) ltac:(lia) ltac:(lia) ltac:(lia) Hp) as Hins.
  apply wp_bind. eapply wp_mono; [exact Hins|].
  intros _ s' [Hp' Hav']. rewrite Hav in Hav'.
  destruct (Z.ltb_spec (end_ res) (end_ av)) as [E5|E5].
  - apply wp_bind. eapply wp_ok; [by eapply set_avail_ok; [exact Hav'|]|].
    eapply (reserve_round _ _ (F ++ [mk_Region (start av) (start res)]) (mk_Region (end_ res) (end_ av) :: A));
      [done|cbn; lia|rewrite length_app; cbn; lia|lia|reflexivity|done|by apply progress_avail| |].
    + intros x. eapply scan_wanted, (scan_head F av A (_ :: A) r res (start res)); [done|done|lia|lia|lia|auto].
    + eapply (scan_reserve _ (mk_Region (start res) (end_ av) :: A)); [|done| | |done|].
      * eapply scan_head; [done|done|lia|lia|lia|auto].
      * constructor; [|done]. split; cbn; lia.
      * exists (end_ res). split; cbn; [lia|done].
      * intros x. generalize (Hbr ltac:(lia) x). cover_tac.
  - apply wp_ret. split; [|cbn; lia]. exists (S (length pre)), r, (F ++ [mk_Region (start av) (start res)]), A, (pre ++ [av]), post.
    rewrite !length_app, <- app_assoc, Hav'. cbn. split_and!; [f_equal; lia|lia|lia|lia|lia|done|done|].
    eapply scan_head; [done|done|lia|lia|lia|auto].
Qed.

(** *** What is left of one of the lists *)

Lemma reserve_rest_ok (r : nat) x s :
  loop_inv (x, Z.of_nat r) s -> x = Z.of_nat (length A0) -> (r < length l)%nat ->
  wp (reserve_rest l (Z.of_nat r)) (fun _ s' => loop_inv (x, Z.of_nat r + 1) s') s.
Proof.
  intros (a & r' & F & A & pre & post & E & Hpre & HA & Hr & HF & Hav & Hp & Hs) -> Hlt.
  injection E as Ea Er. assert (r' = r) as -> by lia. assert (a = length A0) as -> by lia.
  destruct A; [|cbn in HA; lia]. destruct (lookup_lt_is_Some_2 l r) as [res Hl]; [done|].
  assert (Hs2 : scan F [] (S r)).
  { eapply scan_reserve; [exact Hs|done|done|by exists 0|done|]. intros y. unfold covers. rewrite Exists_nil. tauto. }
  assert (Hnext : forall s', progress F (S r) s' -> avail_reg s' = avail_reg s ->
    loop_inv (Z.of_nat (length A0), Z.of_nat r + 1) s').
  { intros s' Hp' Hav'. exists (length A0), (S r), F, [], pre, post. rewrite Hav'.
    split_and!; [f_equal; lia|done|done|lia|lia|done|done|done]. }
  unfold reserve_rest. apply wp_bind. eapply wp_lift_res; [apply array_get_ok; [lia|by rewrite Nat2Z.id]|].
  destruct (Z.ltb_spec (start res) (end_ res)) as [E1|E1]; cbn [when].
  - apply wp_bind. eapply wp_mono; [apply (progress_reserve F r s res); [done|done|lia|]|].
    + intros y. by eapply scan_wanted.
    + intros _ s' [Hp' Hav']. apply wp_ret. by apply Hnext.
  - apply wp_ret, Hnext; [|done]. eapply progress_skip; [done|done|].
    pose proof (proj1 (Forall_forall _ _) Hwin res (list_elem_of_lookup_2 _ _ _ Hl)) as [? ?]. lia.
Qed.

Lemma insert_rest_ok (a : nat) s :
  loop_inv (Z.of_nat a, Z.of_nat (length l)) s -> (a < length A0)%nat ->
  wp (insert_rest (Z.of_nat a)) (fun _ s' => loop_inv (Z.of_nat a + 1, Z.of_nat (length l)) s') s.
Proof.
  intros (a' & r & F & A & pre & post & E & Hpre & HA & Hr & HF & Hav & Hp & Hs) Hlt.
  injection E as Ea Er. assert (a' = a) as -> by lia. assert (r = length l) as -> by lia.
  destruct A as [|av A]; [cbn in HA; lia|]. cbn in HA.
  destruct (Hs) as (Hw & [lo [Ho1 Ho2]] & Hb & Heq & Hlts). apply Forall_cons in Hw as [Hw1 Hw2].
  assert (Hd : drop (length l) l = []) by (apply drop_ge; lia). rewrite Hd in Heq.
  assert (Hnil : forall y, ~ covers [] y) by (intros y; unfold covers; rewrite Exists_nil; tauto).
  unfold insert_rest. apply wp_bind. eapply wp_ok; [eapply get_avail_ok; [exact Hav|by rewrite Hpre]|].
  assert (Hnext : forall F' s', progress F' (length l) s' -> avail_reg s' = avail_reg s ->
    (length F' <= S (length F))%nat -> scan F' A (length l) -> loop_inv (Z.of_nat a + 1, Z.of_nat (length l)) s').
  { intros F' s' Hp' Hav' HF' Hs'. exists (S a), (length l), F', A, (pre ++ [av]), post.
    rewrite Hav', length_app, <- app_assoc. cbn. split_and!; [f_equal; lia|lia|lia|lia|lia|done|done|done]. }
  destruct (Z.ltb_spec (start av) (end_ av)) as [E1|E1]; cbn [when].
  - apply wp_bind. eapply wp_mono; [apply (progress_insert F (length l) s av); try done; try lia|].
    + intros y Hy. apply Heq. right. split; [|apply Hnil]. apply Exists_cons. by left.
    + intros y Hy. split; [apply Heq; by left|]. apply Hlts; [done|]. apply Exists_cons. left. unfold inside. lia.
    + intros _ s' [Hp' Hav']. apply wp_ret. eapply Hnext; [done|done|rewrite length_app; cbn; lia|].
      apply (scan_insert _ _ (av :: A)); [done|done|by eexists|by intros q [_ ?]| | | |].
      * intros y Hy. rewrite Hd. split; [|apply Hnil]. apply Exists_cons. by left.
      * intros y Hy _. by apply Exists_cons in Hy.
      * intros y Hy. apply Exists_cons. by right.
      * intros y z Hy Hz. eapply ordered_covers in Hz; [|exact Ho2]. unfold inside in Hy. lia.
  - apply wp_ret. eapply Hnext; [done|done|lia|]. split_and!; [done|by eexists|by rewrite Hd| |].
    + intros y. rewrite Hd, <- Heq. unfold covers. rewrite (Exists_cons _ av).
      assert (~ inside av y) by (unfold inside; lia). tauto.
    + intros y z Hy Hz. apply Hlts; [done|]. apply Exists_cons. by right.
Qed.

Lemma loop_inv_bounds x s :
  loop_inv x s -> 0 <= x.1 <= Z.of_nat (length A0) /\ 0 <= x.2 <= Z.of_nat (length l).
Proof. intros (a & r & F & A & pre & post & -> & _ & HA & Hr & _). cbn. lia. Qed.

(** The main loop and the two that follow it consume both lists. *)
Lemma freemem_loops_ok s n_available n_reserved :
  n_available = Z.of_nat (length A0) -> n_reserved = Z.of_nat (length l) -> loop_inv (0, 0) s ->
  wp (let* x := while (S (length A0 + length l))
                  (fun x => ret ((x.1 <? n_available) && (x.2 <? n_reserved))) (freemem_step l) (0, 0) in
      for_range (Z.to_nat (n_reserved - x.2)) x.2 (reserve_rest l) ;;;
      for_range (Z.to_nat (n_available - x.1)) x.1 insert_rest)
    (fun _ s' => loop_inv (n_available, n_reserved) s') s.
Proof.
  intros -> -> Hi. apply wp_bind.
  eapply wp_mono; [eapply (wp_while loop_inv (fun x _ => Z.to_nat (Z.of_nat (length A0 + length l) - x.1 - x.2))
    _ _ (fun x s' => loop_inv x s' /\ (x.1 = Z.of_nat (length A0) \/ x.2 = Z.of_nat (length l))))|].
  - intros x s1 Hx. apply wp_ret. apply loop_inv_bounds in Hx as Hbd.
    destruct (Z.ltb_spec x.1 (Z.of_nat (length A0))); [destruct (Z.ltb_spec x.2 (Z.of_nat (length l)))|]; cbn;
      [|split; [done|lia]..].
    eapply wp_mono; [by apply freemem_step_ok|]. intros x' s2 [Hi' Hm]. split; [done|].
    apply loop_inv_bounds in Hi'. lia.
  - done.
  - cbn. lia.
  - intros x s1 [Hx Hexit]. apply loop_inv_bounds in Hx as Hbd. apply wp_bind. destruct x as [a r]. cbn [fst snd] in *.
    apply (wp_for_range (fun j s' => loop_inv (a, j) s')); [done| |].
    + intros j s2 Hj Hi'. replace j with (Z.of_nat (Z.to_nat j)) in * by lia. apply reserve_rest_ok; [done|lia|lia].
    + intros s2 Hi'. replace (r + Z.of_nat (Z.to_nat (Z.of_nat (length l) - r))) with (Z.of_nat (length l)) in Hi' by lia.
      apply (wp_for_range (fun j s' => loop_inv (j, Z.of_nat (length l)) s')); [done| |].
      * intros j s3 Hj Hi2. replace j with (Z.of_nat (Z.to_nat j)) in * by lia. apply insert_rest_ok; [done|lia].
      * intros s3 Hi2. by replace (Z.of_nat (length A0)) with (a + Z.of_nat (Z.to_nat (Z.of_nat (length A0) - a))) by lia.
Qed.
End freemem.

Section init.
Context `{Config}.
#[local] Abbreviation OFF := PPTR_BASE_OFFSET.

(** Memory of the platform: regions in order, in the physical address space. *)
Definition platform_memory (available : list PRegion) : Prop :=
  regions_from 0 0 available /\ Forall (fun p => pend p < word_size - OFF) available.

Lemma PADDR_TOP_eq : PADDR_TOP + OFF = PPTR_TOP /\ 0 < PADDR_TOP < word_size - OFF.
Proof. unfold PADDR_TOP, PPTR_TOP, PPTR_BASE_OFFSET. destruct target_arch; vm_compute; done. Qed.

Lemma ceiling_small x :
  0 <= x -> x < word_size - OFF -> ceiling_kernel_window (to_pptr x) = Z.min x PADDR_TOP + OFF.
Proof.
  intros Hx Hx'. pose proof PADDR_TOP_eq. pose proof PPTR_BASE_OFFSET_word. unfold ceiling_kernel_window.
  rewrite to_pptr_small by done. unfold to_paddr. rewrite wsub_small by lia.
  replace (x + OFF - OFF) with x by lia. destruct (Z.ltb_spec PADDR_TOP x); lia.
Qed.

Lemma clip_ok p :
  0 <= pstart p -> pstart p <= pend p -> pend p < word_size - OFF ->
  clip p = mk_Region (Z.min (pstart p) PADDR_TOP + OFF) (Z.min (pend p) PADDR_TOP + OFF).
Proof. intros. unfold clip, to_region. cbn [start end_]. by rewrite !ceiling_small by lia. Qed.

Lemma clip_all lo available :
  0 <= lo -> regions_from 0 lo available -> Forall (fun p => pend p < word_size - OFF) available ->
  Forall in_window (map clip available) /\ ordered (Z.min lo PADDR_TOP + OFF) (map clip available) /\
  (forall x, covers (map clip available) (x + OFF) <-> pcovers available x /\ x < PADDR_TOP).
Proof.
  intros Hlo. revert lo Hlo. induction available as [|p l IH]; intros lo Hlo; cbn [map regions_from].
  - intros _ _. split_and!; [done|done|]. intros x. unfold covers, pcovers. rewrite !Exists_nil. tauto.
  - intros (H1 & H2 & H3) [H4 H5]%Forall_cons. destruct (IH (pend p)) as (I1 & I2 & I3); [lia|done|done|].
    pose proof PADDR_TOP_eq. pose proof PPTR_BASE_OFFSET_word. rewrite clip_ok by lia. split_and!.
    + constructor; [|done]. split; cbn; lia.
    + cbn. split; [lia|done].
    + intros x. unfold covers, pcovers in *. rewrite !Exists_cons, I3.
      match goal with |- context [Exists ?P l] => generalize (Exists P l); intros ? end.
      unfold inside, pinside. cbn. intuition lia.
Qed.

Lemma set_avail_regs_ok available pre old post s :
  avail_reg s = pre ++ old ++ post -> length old = length available ->
  set_avail_regs (Z.of_nat (length pre)) available s =
    Ok (tt, s <| avail_reg := pre ++ map clip available ++ post |>).
Proof.
  revert pre old s. induction available as [|p l IH]; intros pre [|o old] s E Hlen; try done.
  - cbn in *. unfold ret. do 2 f_equal. destruct s. cbn in *. by subst.
  - cbn [set_avail_regs app map] in *. rewrite (bind_ok _ _ _ _ _ (set_avail_ok _ _ (clip p) _ _ _ E eq_refl)).
    replace (Z.of_nat (length pre) + 1) with (Z.of_nat (length (pre ++ [clip p]))) by (rewrite length_app; cbn; lia).
    rewrite (IH (pre ++ [clip p]) old); [|by rewrite <- app_assoc|cbn in Hlen; lia]. by rewrite <- app_assoc.
Qed.

Lemma loop_inv_start available l s post :
  length (freemem s) = 16%nat -> resv_wf s -> platform_memory available -> Forall in_window l ->
  Forall (fun r => no_bridge r (map clip available)) l ->
  loop_inv (map clip available) l s (0, 0)
    (s <| freemem := map (fun _ => Region_empty) (freemem s) |> <| avail_reg := map clip available ++ post |>).
Proof.
  intros Hf Hw [Hm1 Hm2] Hl Hb. destruct (clip_all 0 available) as (I1 & I2 & I3); [lia|done|done|].
  exists 0%nat, 0%nat, [], (map clip available), [], post.
  assert (Hnil : forall A y, covers A y <-> covers [] y \/ covers A y).
  { intros A y. unfold covers. rewrite Exists_nil. tauto. }
  split_and!; [done|done|done|lia|done|done| |].
  - split_and!; [|done|cbn; lia| |done|by exists 0|].
    + by exists (reserved s), (resv_count s), (map (fun _ => Region_empty) (freemem s)), (map clip available ++ post); destruct s.
    + cbn [freemem set app length]. by rewrite map_replicate, Hf.
    + intros x. unfold covers. cbn [take]. rewrite !Exists_nil. tauto.
  - split_and!; [done|by eexists|done| |].
    + intros x. unfold wanted, covers. rewrite drop_0, Exists_nil. tauto.
    + intros x y Hx. by apply Exists_nil in Hx.
Qed.

(** C10. The free memory the kernel starts with is exact.  For memory regions
    in order, reserved regions in order none of which bridges two of them (one
    that does is partly handed out, [bridging_region_freed]), and tables large
    enough, [rust_init_freemem] succeeds: the free regions are
    nonempty, in order, and cover exactly the available memory inside the
    kernel window that is not reserved; the table of regions in use gains
    exactly the free and the reserved regions, and stays sorted with its
    regions merged. *)
Theorem init_freemem_exact available l s :
  length (freemem s) = 16%nat -> length (avail_reg s) = 16%nat -> resv_wf s ->
  resv_count s + Z.of_nat (length available) + 2 * Z.of_nat (length l) < MAX_NUM_RESV_REG ->
  (length available + length l < 16)%nat ->
  platform_memory available -> Forall in_window l ->
  check_available_memory available = true -> check_reserved_memory l = true ->
  Forall (fun r => no_bridge r (map clip available)) l ->
  (forall x, pcovers (resv s) x -> ~ pcovers available x /\ ~ covers l (x + PPTR_BASE_OFFSET)) ->
  exists F s', rust_init_freemem available l s = Ok (true, s') /\
    freemem s' = F ++ replicate (16 - length F) Region_empty /\
    Forall (fun f => start f < end_ f) F /\ (exists lo, ordered lo F) /\
    (forall x, covers F (x + PPTR_BASE_OFFSET) <->
       pcovers available x /\ x < PADDR_TOP /\ ~ covers l (x + PPTR_BASE_OFFSET)) /\
    resv_wf s' /\
    (forall x, pcovers (resv s') x <->
       pcovers (resv s) x \/ covers F (x + PPTR_BASE_OFFSET) \/ covers l (x + PPTR_BASE_OFFSET)) /\
    kern s' = kern s.
Proof.
  intros Hf Ha Hw Hcap Hcap' Hm Hl Hca Hcr Hb Hd. pose proof Hm as [Hm1 Hm2].
  destruct (clip_all 0 available) as (I1 & I2 & I3); [lia|done|done|].
  set (s1 := s <| freemem := map (fun _ => Region_empty) (freemem s) |>
               <| avail_reg := map clip available ++ drop (length available) (avail_reg s) |>).
  assert (Hloops := freemem_loops_ok (map clip available) l s Hl (check_reserved_ordered l Hcr)).
  rewrite !length_map in Hloops. specialize (Hloops ltac:(intros x Hx; apply Hd in Hx as [? ?]; rewrite I3; tauto)
    Hcap Hcap' s1 _ _ eq_refl eq_refl (loop_inv_start available l s _ Hf Hw Hm Hl Hb)).
  apply wp_iff in Hloops as ([] & s' & Erun & (a & r & F & A & pre & post & E & _ & HA & Hr & HF & _ & Hp & Hs)).
  injection E as Ea Er. rewrite length_map in HA. assert (r = length l) as -> by lia. destruct A; [|cbn in HA; lia].
  destruct Hp as (Hrest & Hw' & _ & Hfree & Hne & Ho & Hx). destruct Hs as (_ & _ & _ & Heq & _).
  exists F, s'. split_and!; [|done|done|done| |done| |].
  - unfold rust_init_freemem. rewrite Hca, Hcr. cbn [negb orb].
    rewrite (bind_ok _ _ s tt (s <| freemem := map (fun _ => Region_empty) (freemem s) |>)) by reflexivity.
    erewrite bind_ok by (apply (set_avail_regs_ok available [] (take (length available) (avail_reg s)) (drop (length available) (avail_reg s)));
      [cbn; by rewrite take_drop|rewrite length_take; lia]).
    apply bind_inv in Erun as (x & s2 & E1 & E2). apply bind_inv in E2 as (u & s3 & E2 & E3).
    change (s <| freemem := _ |> <| avail_reg := [] ++ _ |>) with s1.
    rewrite (bind_ok _ _ _ _ _ E1), (bind_ok _ _ _ _ _ E2), (bind_ok _ _ _ _ _ E3).
    rewrite (bind_ok _ _ s' (freemem s') s') by done. cbn in HA. unfold get_freemem.
    rewrite bind_assoc, (bind_ok _ _ s' (freemem s') s') by done. rewrite Hfree.
    rewrite length_app, length_replicate. replace (Z.of_nat (length F + (16 - length F)) - 1) with 15 by lia.
    rewrite (bind_ok _ _ s' Region_empty s'); [done|]. unfold lift_res.
    rewrite (array_get_ok _ _ Region_empty); [done|lia|]. rewrite lookup_app_r by (change (Z.to_nat 15) with 15%nat; lia).
    apply lookup_replicate_2. change (Z.to_nat 15) with 15%nat. lia.
  - intros x. specialize (Heq (x + OFF)). rewrite drop_ge in Heq by lia. unfold wanted in Heq.
    rewrite I3 in Heq. unfold covers in Heq |- *. rewrite !Exists_nil in Heq. tauto.
  - intros x. rewrite Hx. by rewrite take_ge by lia.
  - destruct Hrest as (? & ? & ? & ? & ->). done.
Qed.
End init.

(** The memory of the spike platform, with the kernel image, a device tree and
    a user image in it. *)
Module Spike.
#[local] Instance cfg : Config := riscv_config.
Definition available : list PRegion := [mk_PRegion 0x80200000 0x17ff00000].
Definition in_use : list Region :=
  map to_region [mk_PRegion 0x84000000 0x84030000; mk_PRegion 0x84030000 0x84031000;
                 mk_PRegion 0x84100000 0x84200000].

Lemma in_use_window : Forall in_window in_use.
Proof. repeat constructor; vm_compute; done. Qed.

Lemma init_freemem_exact_witness :
  exists F s', rust_init_freemem available in_use (boot_static base_state) = Ok (true, s') /\
    freemem s' = F ++ replicate (16 - length F) Region_empty /\
    (forall x, covers F (x + PPTR_BASE_OFFSET) <->
       pcovers available x /\ x < PADDR_TOP /\ ~ covers in_use (x + PPTR_BASE_OFFSET)).
Proof.
  destruct (init_freemem_exact available in_use (boot_static base_state)) as (F & s' & H1 & H2 & _ & _ & H3 & _).
  - done.
  - done.
  - split_and!; done.
  - done.
  - cbn. lia.
  - split; [cbn; lia|]. constructor; [vm_compute|]; done.
  - exact in_use_window.
  - done.
  - done.
  - repeat (constructor; [split; [|exact I]; intros _ x Hx; by apply Exists_nil in Hx|]). constructor.
  - intros x Hx. by apply Exists_nil in Hx.
  - exists F, s'. exact (conj H1 (conj H2 H3)).
Defined.

(** Two memory regions and a reserved region that covers the first one and half
    of the second: the loop leaves the reserved region behind with the first
    memory region, so its other half is free memory too. *)
Lemma bridging_region_freed :
  let memory := [mk_PRegion 0x80000000 0x80100000; mk_PRegion 0x80100000 0x80200000] in
  let image := to_region (mk_PRegion 0x80000000 0x80180000) in
  exists s', rust_init_freemem memory [image] (boot_static base_state) = Ok (true, s') /\
    covers (freemem s') (to_pptr 0x80140000) /\ covers [image] (to_pptr 0x80140000).
Proof.
  eexists. split_and!; [vm_compute; reflexivity|apply Exists_cons; left; vm_compute; split; done..].
Qed.
End Spike.
