(* ===== verification/BootUntyped.v ===== *)
(** * The untyped capabilities made at boot

    kernel/src/boot/untyped.rs cuts a region of memory into blocks, each as
    large as its address and the rest of the region allow, and puts an untyped
    capability for each into the next slot of the root CNode.  [tiles] says
    that a list of blocks fills a region of physical memory exactly, [given]
    that the slots and the boot information describe a list of blocks. *)

From S2P Require Import Prelude Monad Config Objects State CapOps CSpace VSpace Example BootMem BootMemProps.

(** ** Alignment *)

(** The largest power of two, up to the word size, that divides an address. *)
Definition alignment (p : Z) : Z := if p =? 0 then 64 else trailing_zeros p.

Lemma pos_ctz_spec p : 0 <= pos_ctz p /\ exists q, 0 <= q /\ Zpos p = 2 ^ pos_ctz p * (2 * q + 1).
Proof.
  induction p as [p _|p (H0 & q & Hq & E)|]; cbn [pos_ctz].
  - split; [lia|]. exists (Zpos p). lia.
  - split; [lia|]. exists q. split; [done|]. rewrite Z.pow_add_r by lia. lia.
  - split; [lia|]. exists 0. lia.
Qed.

Lemma mod_pow2_le x i j : 0 <= i <= j -> x mod 2 ^ j = 0 -> x mod 2 ^ i = 0.
Proof.
  intros Hij E. apply Z.mod_divide in E as [q ->]; [|pose proof (pow2_pos j); lia].
  apply Z.mod_divide; [pose proof (pow2_pos i); lia|]. exists (q * 2 ^ (j - i)).
  rewrite <- Z.mul_assoc, <- Z.pow_add_r by lia. do 2 f_equal. lia.
Qed.

Lemma alignment_nonneg p : 0 <= alignment p.
Proof. unfold alignment, trailing_zeros. repeat case_match; try lia. pose proof (pos_ctz_spec p0). lia. Qed.

Lemma alignment_word p : is_word p -> alignment p <= 64 /\ (p <> 0 -> alignment p < 64).
Proof.
  intros [H0 Hp]. unfold alignment. destruct (Z.eqb_spec p 0); [lia|]. destruct p as [|p|p]; [lia| |lia]. cbn.
  destruct (pos_ctz_spec p) as (Hc & q & Hq & E). assert (pos_ctz p < 64); [|lia].
  apply (Z.pow_lt_mono_r_iff 2); [lia..|]. unfold word_size in Hp. pose proof (pow2_pos (pos_ctz p) Hc). nia.
Qed.

(** An address other than null is an odd multiple of its alignment. *)
Lemma alignment_odd p :
  is_word p -> p <> 0 -> exists q, 0 <= q /\ p = 2 ^ alignment p * (2 * q + 1).
Proof.
  intros [H0 _] Hp. unfold alignment. destruct (Z.eqb_spec p 0); [done|]. destruct p as [|p|p]; [done| |lia].
  apply pos_ctz_spec.
Qed.

Lemma mod_mul_pow2 q n : 0 <= n -> (2 ^ n * q) mod 2 ^ n = 0.
Proof. intros Hn. rewrite Z.mul_comm. apply Z.mod_mul. pose proof (pow2_pos n). lia. Qed.

Lemma alignment_divides p j : is_word p -> 0 <= j <= alignment p -> p mod 2 ^ j = 0.
Proof.
  intros Hw Hj. destruct (decide (p = 0)) as [->|Hp]; [apply Z.mod_0_l; pose proof (pow2_pos j); lia|].
  apply (mod_pow2_le _ _ (alignment p)); [done|]. destruct (alignment_odd p Hw Hp) as (q & _ & E).
  rewrite E at 1. apply mod_mul_pow2. lia.
Qed.

Lemma alignment_greatest p j : is_word p -> 0 <= j <= 64 -> p mod 2 ^ j = 0 -> j <= alignment p.
Proof.
  intros Hw Hj E. destruct (decide (p = 0)) as [->|Hp]; [cbn; lia|].
  destruct (alignment_odd p Hw Hp) as (q & Hq & Ep). destruct (Z.le_gt_cases j (alignment p)) as [|Hlt]; [done|].
  pose proof (alignment_nonneg p). apply (mod_pow2_le _ (alignment p + 1)) in E; [|lia].
  rewrite Z.pow_add_r in E by lia. pose proof (pow2_pos (alignment p)). rewrite Ep in E at 1.
  change (2 ^ 1) with 2 in E. rewrite Z.mul_mod_distr_l in E by lia.
  rewrite (Z.add_comm _ 1), (Z.mul_comm 2), Z.mod_add in E by lia. change (1 mod 2) with 1 in E. lia.
Qed.

Lemma alignment_step p :
  is_word p -> p <> 0 -> (p + 2 ^ alignment p) mod 2 ^ (alignment p + 1) = 0.
Proof.
  intros Hw Hp. destruct (alignment_odd p Hw Hp) as (q & Hq & Ep). pose proof (alignment_nonneg p).
  replace (p + 2 ^ alignment p) with (2 ^ (alignment p + 1) * (q + 1)); [apply mod_mul_pow2; lia|].
  rewrite Z.pow_add_r by lia. lia.
Qed.

(** Alignment is not disturbed by wrap-around. *)
Lemma wrap_mod_pow2 x j : 0 <= j <= 64 -> wrap x mod 2 ^ j = x mod 2 ^ j.
Proof.
  intros Hj. unfold wrap, word_size. pose proof (pow2_pos j). apply Z.mod_mod_divide.
  exists (2 ^ (64 - j)). rewrite <- Z.pow_add_r by lia. f_equal. lia.
Qed.

(** ** Blocks *)

Section blocks.
Context `{Config}.
#[local] Abbreviation MAX := SEL4_MAX_UNTYPED_BITS.

Lemma MAX_bound : 0 <= MAX <= 47.
Proof. unfold SEL4_MAX_UNTYPED_BITS. destruct target_arch; lia. Qed.

(** Left to do for [n] bytes at [p]: blocks grow with the alignment, stay at
    the largest size, and shrink with what is left. *)
Definition work (p n : Z) : Z :=
  if n =? 0 then 0
  else if alignment p <? Z.min (Z.log2 n) MAX then 130 - alignment p + n / 2 ^ MAX
  else if Z.log2 n <? MAX then Z.log2 n + 1
  else 65 + n / 2 ^ MAX.

Lemma block_bits_eq reg n :
  end_ reg -w start reg = n -> 0 < n ->
  block_bits reg = Z.min (Z.min (Z.log2 n) MAX) (alignment (start reg)).
Proof.
  intros En Hn. assert (Hw : is_word n) by (rewrite <- En; apply wsub_word). destruct Hw as [_ Hw].
  assert (Hl : 0 <= Z.log2 n < 64) by (split; [apply Z.log2_nonneg|]; apply Z.log2_lt_pow2; [done|exact Hw]).
  pose proof MAX_bound. unfold block_bits. rewrite En. unfold leading_zeros.
  destruct (Z.eqb_spec n 0); [lia|]. change (WORD_BITS -w 1) with 63.
  rewrite wsub_small by (unfold word_size; lia). replace (63 - (63 - Z.log2 n)) with (Z.log2 n) by lia.
  unfold alignment. destruct (Z.eqb_spec (start reg) 0); cbn [negb]; repeat case_match; zbool; lia.
Qed.

Lemma block_step p n k :
  is_word p -> 0 < n < word_size -> k = Z.min (Z.min (Z.log2 n) MAX) (alignment p) ->
  0 <= k <= MAX /\ 2 ^ k <= n /\ p mod 2 ^ k = 0 /\ work (p +w 2 ^ k) (n - 2 ^ k) < work p n.
Proof.
  intros Hp Hn ->. pose proof MAX_bound as HM. pose proof (alignment_nonneg p) as Ha. set (a := alignment p) in *.
  assert (Hl : 0 <= Z.log2 n < 64) by (split; [apply Z.log2_nonneg|]; apply Z.log2_lt_pow2; [|exact (proj2 Hn)]; lia).
  pose proof (Z.log2_spec n ltac:(lia)) as [Hl1 Hl2]. set (l := Z.log2 n) in *. set (k := Z.min (Z.min l MAX) a).
  assert (Hk : 2 ^ k <= 2 ^ l) by (apply Z.pow_le_mono_r; lia).
  assert (Hdiv : p mod 2 ^ k = 0) by (apply alignment_divides; [done|fold a; lia]).
  split_and!; [lia|lia|lia|done|].
  assert (Hw : is_word (p +w 2 ^ k)) by apply wadd_word.
  assert (Hal : forall j, 0 <= j <= 64 -> (p + 2 ^ k) mod 2 ^ j = 0 -> j <= alignment (p +w 2 ^ k)).
  { intros j Hj E. apply alignment_greatest; [done|done|]. unfold wadd. by rewrite wrap_mod_pow2. }
  assert (Hsame : k <= alignment (p +w 2 ^ k)).
  { apply Hal; [lia|]. rewrite <- Z.add_mod_idemp_l, Hdiv by (pose proof (pow2_pos k); lia). apply Z.mod_same.
    pose proof (pow2_pos k). lia. }
  assert (Hlog : Z.log2 (n - 2 ^ k) <= l) by (apply Z.log2_le_mono; pose proof (pow2_pos k); lia).
  assert (Hquot : (n - 2 ^ k) / 2 ^ MAX <= n / 2 ^ MAX).
  { apply Z.div_le_mono; [apply pow2_pos; lia|]. pose proof (pow2_pos k). lia. }
  assert (Hpos : 0 <= n / 2 ^ MAX) by (apply Z.div_pos; [lia|apply pow2_pos; lia]).
  assert (Hup : a < Z.min l MAX -> a + 1 <= alignment (p +w 2 ^ k)).
  { intros Hlt. assert (k = a) as Ek by lia. assert (p <> 0) by (intros ->; cbn in a; lia).
    apply Hal; [lia|]. rewrite Ek. by apply alignment_step. }
  assert (Hdown : Z.min l MAX <= a -> l < MAX -> n - 2 ^ k = 0 \/ Z.log2 (n - 2 ^ k) < l).
  { intros. assert (k = l) as -> by lia. rewrite Z.pow_succ_r in Hl2 by lia.
    destruct (decide (n - 2 ^ l = 0)); [by left|right]. apply Z.log2_lt_pow2; lia. }
  assert (Hflat : Z.min l MAX <= a -> MAX <= l -> (n - 2 ^ k) / 2 ^ MAX = n / 2 ^ MAX - 1).
  { intros. assert (k = MAX) as -> by lia. replace (n - 2 ^ MAX) with (n + (-1) * 2 ^ MAX) by lia.
    rewrite Z.div_add by (pose proof (pow2_pos MAX); lia). lia. }
  unfold work. fold l a. destruct (Z.eqb_spec n 0); [lia|].
  pose proof (Z.log2_nonneg (n - 2 ^ k)). repeat case_match; zbool; lia.
Qed.
End blocks.

(** Blocks that fill the physical memory from [a] to [b]. *)
Inductive tiles `{Config} : Z -> Z -> list (Z * Z) -> Prop :=
| tiles_nil a : tiles a a []
| tiles_cons a b k l :
    0 <= k <= SEL4_MAX_UNTYPED_BITS -> a + 2 ^ k <= b -> to_pptr a mod 2 ^ k = 0 ->
    tiles (a + 2 ^ k) b l -> tiles a b ((a, k) :: l).

(** ** The slots and the boot information *)

Record block := mk_block { device : bool; b_paddr : Z; b_bits : Z }.

(** The blocks large enough for a capability. *)
Fixpoint blocks_of (dev : bool) (l : list (Z * Z)) : list block :=
  match l with
  | [] => []
  | (a, k) :: l => if SEL4_MIN_UNTYPED_BITS <=? k then mk_block dev a k :: blocks_of dev l else blocks_of dev l
  end.

Section slots.
Context `{Config}.
Context (cn : cnode_cap) (first : Z).
Context (Hfirst : 0 <= first) (Hroom : first + CONFIG_MAX_NUM_BOOTINFO_UNTYPED_CAPS <= 4096).

Definition untyped_of (b : block) : cap :=
  cap_untyped_cap (mk_untyped_cap (max_free_index (b_bits b)) (bool_to_word (device b)) (b_bits b) (to_pptr (b_paddr b))).
Definition desc_of (b : block) : UntypedDesc :=
  mk_UntypedDesc (b_paddr b) (b_bits b) (bool_to_word (device b)).

Definition boot_slot (i : nat) : Z := get_offset_slot (capCNodePtr cn) (first + Z.of_nat i).

Lemma boot_slot_inj i j : (i < 230)%nat -> (j < 230)%nat -> boot_slot i = boot_slot j -> i = j.
Proof.
  change CONFIG_MAX_NUM_BOOTINFO_UNTYPED_CAPS with 230 in *. intros Hi Hj. unfold boot_slot, get_offset_slot, cte_size.
  unfold wmul. rewrite !(wrap_small (32 * _)) by (unfold is_word, word_size; lia).
  unfold wadd, wrap, word_size. intros E.
  apply (f_equal (fun z => (z - capCNodePtr cn) mod 2 ^ 64)) in E. rewrite !Zminus_mod_idemp_l in E.
  rewrite !(Z.add_comm (capCNodePtr cn)), !Z.add_simpl_r in E. rewrite !Z.mod_small in E by lia. lia.
Qed.

(** The blocks [l] are in the slots from [first] on and in the boot
    information. *)
Definition given (l : list block) (s : bstate) : Prop :=
  slot_pos_cur s = first + Z.of_nat (length l) /\ (length l <= 230)%nat /\
  bi_frame s <> 0 /\ length (untypedList (boot_info s)) = 230%nat /\
  forall i b, l !! i = Some b ->
    ctes (kern s) !! boot_slot i = Some (mk_cte (untyped_of b) (mk_mdb_node 0 1 1 0)) /\
    untypedList (boot_info s) !! i = Some (desc_of b).

(** Nothing else changes. *)
Definition only_slots (s s' : bstate) : Prop :=
  (exists h pos ul, s' = s <| kern := (kern s) <| ctes := h |> |> <| slot_pos_cur := pos |>
                          <| boot_info := (boot_info s) <| untypedList := ul |> |>) /\
  forall p, (forall i, (i < 230)%nat -> p <> boot_slot i) -> ctes (kern s') !! p = ctes (kern s) !! p.

Lemma only_slots_refl s : only_slots s s.
Proof.
  split; [|done]. exists (ctes (kern s)), (slot_pos_cur s), (untypedList (boot_info s)).
  by destruct s as [[] ? ? ? ? ? [] ? ? ? ? ? ? ?].
Qed.
Lemma only_slots_trans s1 s2 s3 : only_slots s1 s2 -> only_slots s2 s3 -> only_slots s1 s3.
Proof.
  intros [(h1 & p1 & u1 & ->) H1] [(h2 & p2 & u2 & ->) H2]. split; [by exists h2, p2, u2|].
  intros p Hp. rewrite H2 by done. by apply H1.
Qed.

(** A block that an untyped capability can describe. *)
Definition block_ok (b : block) : Prop :=
  SEL4_MIN_UNTYPED_BITS <= b_bits b <= SEL4_MAX_UNTYPED_BITS /\ to_pptr (b_paddr b) mod 2 ^ b_bits b = 0 /\
  0 <= b_paddr b < word_size /\ (device b = false -> b_paddr b + 2 ^ b_bits b <= PADDR_TOP).

Lemma block_in_window b :
  block_ok b -> device b = false ->
  pptr_in_kernel_window (to_pptr (b_paddr b)) = true /\
  pptr_in_kernel_window (to_pptr (b_paddr b) +w mask_bits (b_bits b)) = true.
Proof.
  intros (Hk & _ & Hp & Hwin) Hd. specialize (Hwin Hd). pose proof MAX_bound. pose proof PADDR_TOP_eq.
  pose proof PPTR_BASE_OFFSET_word. change SEL4_MIN_UNTYPED_BITS with 4 in *. pose proof (pow2_pos (b_bits b)).
  rewrite to_pptr_small by lia. rewrite mask_bits_ones, Z.ones_equiv by lia. rewrite wadd_small by lia.
  unfold pptr_in_kernel_window, PPTR_BASE. split; apply andb_true_iff; rewrite Z.leb_le, Z.ltb_lt; lia.
Qed.

(** The next slot and the next entry of the boot information. *)
Definition give_state (b : block) (i : nat) (s : bstate) : bstate :=
  s <| kern := (kern s) <| ctes := <[boot_slot i := mk_cte (untyped_of b) (mk_mdb_node 0 1 1 0)]> (ctes (kern s)) |> |>
    <| slot_pos_cur := first + Z.of_nat i + 1 |>
    <| boot_info := (boot_info s) <| untypedList := <[i := desc_of b]> (untypedList (boot_info s)) |> |>.

Lemma given_give l s b :
  given l s -> (length l < 230)%nat ->
  given (l ++ [b]) (give_state b (length l) s) /\ only_slots s (give_state b (length l) s).
Proof.
  intros (Hpos & Hlen & Hbi & Hul & Hl) Hlt. split.
  - split_and!; [cbn; rewrite length_app; cbn; lia|rewrite length_app; cbn; lia|done|cbn; by rewrite length_insert|].
    intros i c Hc. cbn. destruct (decide (i = length l)) as [->|Hne].
    + rewrite list_lookup_middle in Hc by done. injection Hc as <-. split; [by rewrite lookup_insert_eq|].
      rewrite list_lookup_insert_eq; [done|lia].
    + rewrite lookup_app_l in Hc by (apply lookup_lt_Some in Hc; rewrite length_app in Hc; cbn in Hc; lia).
      pose proof (lookup_lt_Some _ _ _ Hc). apply Hl in Hc as [H1 H2].
      rewrite lookup_insert_ne by (intros E; apply boot_slot_inj in E; lia).
      by rewrite list_lookup_insert_ne by done.
  - split; [by eexists _, _, _|]. intros p Hp. cbn. rewrite lookup_insert_ne; [done|]. intros E. by apply (Hp (length l)).
Qed.

Lemma to_paddr_pptr a : is_word a -> to_paddr (to_pptr a) = a.
Proof.
  intros Ha. unfold to_paddr, to_pptr, wsub, wadd, wrap. rewrite Zminus_mod_idemp_l.
  rewrite Z.add_simpl_r. by apply Z.mod_small.
Qed.

Lemma provide_run l s b :
  given l s -> is_word (b_paddr b) -> Z.of_nat (length l) < 230 ->
  (mod_boot_info (fun bi => bi <| untypedList ::=
     <[Z.to_nat (Z.of_nat (length l)) := mk_UntypedDesc (to_paddr (to_pptr (b_paddr b))) (b_bits b)
        (bool_to_word (device b))]> |>) ;;;
   provide_cap cn (untyped_of b)) s = Ok (true, give_state b (length l) s).
Proof.
  intros (Hpos & Hlen & Hbi & _) Hp Hlt. change CONFIG_MAX_NUM_BOOTINFO_UNTYPED_CAPS with 230 in *.
  rewrite Nat2Z.id, to_paddr_pptr by done. unfold mod_boot_info. rewrite bind_assoc.
  rewrite (bind_ok _ _ s (bi_frame s) s) by done. destruct (Z.eqb_spec (bi_frame s) 0); [done|].
  erewrite bind_ok by reflexivity. unfold provide_cap. erewrite bind_ok by reflexivity.
  change (bit CONFIG_ROOT_CNODE_SIZE_BITS) with 4096. cbn [slot_pos_cur set].
  destruct (Z.leb_spec 4096 (slot_pos_cur s)); [lia|]. rewrite Hpos. reflexivity.
Qed.

Lemma provide_untyped_cap_ok l s b :
  given l s -> block_ok b ->
  wp (provide_untyped_cap cn (device b) (to_pptr (b_paddr b)) (b_bits b) first)
    (fun ok s' => ok = true /\ given (take 230 (l ++ [b])) s' /\ only_slots s s') s.
Proof.
  intros Hg Hb. pose proof Hg as (Hpos & Hlen & Hbi & _). pose proof Hb as (Hk & Hal & Hp & _).
  unfold provide_untyped_cap. pose proof MAX_bound as HM. change SEL4_MIN_UNTYPED_BITS with 4 in *.
  change CONFIG_MAX_NUM_BOOTINFO_UNTYPED_CAPS with 230 in *.
  destruct (Z.ltb_spec SEL4_MAX_UNTYPED_BITS (b_bits b)); [lia|]. destruct (Z.ltb_spec (b_bits b) 4); [lia|]. cbn [orb].
  unfold is_aligned. rewrite land_mask, Hal by lia. cbn [Z.eqb negb].
  assert (Hw : forall d p, d = device b -> (d = false -> pptr_in_kernel_window p = true) ->
    negb d && negb (pptr_in_kernel_window p) = false).
  { intros [|] p Hd Hp'; [done|]. by rewrite Hp'. }
  rewrite !Hw by (try done; intros E; by apply block_in_window in E as [? ?]).
  apply wp_bind, wp_gets. rewrite Hpos, wsub_small by (unfold word_size; lia).
  replace (first + Z.of_nat (length l) - first) with (Z.of_nat (length l)) by lia.
  destruct (Z.ltb_spec (Z.of_nat (length l)) 230).
  - destruct (given_give l s b Hg) as [Hg' Ho]; [lia|]. eapply wp_ok; [|split; [reflexivity|split; [|exact Ho]]].
    + by apply provide_run.
    + by rewrite take_ge by (rewrite length_app; cbn; lia).
  - apply wp_ret. split_and!; [done| |apply only_slots_refl].
    rewrite take_app_le, take_ge by lia. done.
Qed.

(** *** A region *)

Lemma take_take_app {A} n (x y : list A) : take n (take n x ++ y) = take n (x ++ y).
Proof.
  destruct (Nat.le_gt_cases (length x) n); [by rewrite (take_ge x)|].
  rewrite !take_app_le by (rewrite ?length_take; lia). rewrite take_take. f_equal. lia.
Qed.

(** Addresses in the kernel's view, which wraps around for device memory. *)
Lemma to_pptr_wadd a n : to_pptr a +w n = to_pptr (a + n).
Proof. unfold to_pptr, wadd, wrap. rewrite Zplus_mod_idemp_l. f_equal. lia. Qed.
Lemma to_pptr_wsub a b : 0 <= b - a < word_size -> to_pptr b -w to_pptr a = b - a.
Proof.
  intros Hab. unfold to_pptr, wsub, wadd, wrap. rewrite Zminus_mod_idemp_l, Zminus_mod_idemp_r.
  replace (b + PPTR_BASE_OFFSET - (a + PPTR_BASE_OFFSET)) with (b - a) by lia. by apply Z.mod_small.
Qed.
Lemma to_pptr_eq a b : 0 <= b - a < word_size -> to_pptr a = to_pptr b -> a = b.
Proof.
  intros Hab E. pose proof (to_pptr_wsub a b Hab) as E'. rewrite E in E'. unfold wsub in E'.
  rewrite Z.sub_diag in E'. change (wrap 0) with 0 in E'. lia.
Qed.

Lemma untypeds_loop_ok fuel dev a b l0 s :
  0 <= a <= b -> b < word_size -> (dev = false -> b <= PADDR_TOP) ->
  work (to_pptr a) (b - a) < Z.of_nat fuel -> given l0 s ->
  wp (untypeds_loop fuel cn dev (mk_Region (to_pptr a) (to_pptr b)) first)
    (fun ok s' => ok = true /\ only_slots s s' /\
       exists l, tiles a b l /\ given (take 230 (l0 ++ blocks_of dev l)) s') s.
Proof.
  revert a l0 s. induction fuel as [|fuel IH]; intros a l0 s Hab Hb Hdev Hw Hg.
  { exfalso. unfold work in Hw. pose proof (alignment_word (to_pptr a) (wadd_word _ _)) as [Ha _].
    pose proof (Z.log2_nonneg (b - a)). pose proof MAX_bound as HM.
    assert (0 <= (b - a) / 2 ^ SEL4_MAX_UNTYPED_BITS) by (apply Z.div_pos; [lia|apply pow2_pos; lia]).
    repeat case_match; lia. }
  cbn [untypeds_loop]. unfold is_empty. cbn [start end_].
  destruct (Z.eqb_spec (to_pptr a) (to_pptr b)) as [E|E].
  { apply to_pptr_eq in E; [|lia]. subst b. apply wp_ret. split_and!; [done|apply only_slots_refl|].
    exists []. split; [constructor|]. cbn. rewrite app_nil_r. destruct Hg as (? & ? & ?). by rewrite take_ge. }
  assert (a <> b) by by intros ->. set (k := block_bits _).
  assert (Ek : k = Z.min (Z.min (Z.log2 (b - a)) SEL4_MAX_UNTYPED_BITS) (alignment (to_pptr a))).
  { apply block_bits_eq; [apply to_pptr_wsub; lia|lia]. }
  destruct (block_step (to_pptr a) (b - a) k) as (Hk & Hfit & Hal & Hdec); [apply wadd_word|lia|done|].
  pose proof MAX_bound. rewrite bit_pow by lia. cbn [set start end_]. rewrite to_pptr_wadd in *.
  set (here := blocks_of dev [(a, k)]).
  apply wp_bind. apply (wp_mono _ (fun ok s' => ok = true /\ given (take 230 (l0 ++ here)) s' /\ only_slots s s')).
  - subst here. cbn [blocks_of]. destruct (Z.leb_spec SEL4_MIN_UNTYPED_BITS k).
    + apply (provide_untyped_cap_ok l0 s (mk_block dev a k)); [done|]. split_and!; cbn; [lia|lia|done|lia|lia|].
      intros Hd. specialize (Hdev Hd). lia.
    + apply wp_ret. split_and!; [done| |apply only_slots_refl]. rewrite app_nil_r. destruct Hg as (? & ? & ?). by rewrite take_ge.
  - intros ok s1 (-> & Hg1 & Ho1). change ((mk_Region (to_pptr a) (to_pptr b)) <| start := to_pptr (a + 2 ^ k) |>)
      with (mk_Region (to_pptr (a + 2 ^ k)) (to_pptr b)).
    eapply wp_mono; [apply (IH (a + 2 ^ k)); [pose proof (pow2_pos k); lia|done|done| |exact Hg1]|].
    + replace (b - (a + 2 ^ k)) with (b - a - 2 ^ k) by lia. lia.
    + intros ok s2 (-> & Ho2 & l & Hl & Hg2). split_and!; [done|by eapply only_slots_trans|].
      exists ((a, k) :: l). split; [constructor; [done|lia|done|done]|]. rewrite take_take_app, <- app_assoc in Hg2.
      replace (blocks_of dev ((a, k) :: l)) with (here ++ blocks_of dev l); [done|].
      subst here. cbn. by destruct (_ <=? _).
Qed.

Lemma region_untypeds_ok dev a b l0 s :
  0 <= a <= b -> b < word_size -> (dev = false -> b <= PADDR_TOP) -> given l0 s ->
  wp (create_untypeds_for_region cn dev (to_region (mk_PRegion a b)) first)
    (fun ok s' => ok = true /\ only_slots s s' /\
       exists l, tiles a b l /\ given (take 230 (l0 ++ blocks_of dev l)) s') s.
Proof.
  intros Hab Hb Hdev Hg. apply untypeds_loop_ok; [done..| |done]. unfold untypeds_fuel, to_region. cbn [start end_ pstart pend].
  rewrite to_pptr_wsub by lia. unfold work. pose proof MAX_bound.
  assert (0 <= (b - a) / 2 ^ SEL4_MAX_UNTYPED_BITS) by (apply Z.div_pos; [lia|apply pow2_pos; lia]).
  pose proof (alignment_nonneg (to_pptr a)). rewrite Z2Nat.id by lia. repeat case_match; zbool; lia.
Qed.

(** ** All regions *)

Definition in_block (b : block) (x : Z) : Prop := b_paddr b <= x < b_paddr b + 2 ^ b_bits b.

(** No two blocks share an address. *)
Fixpoint apart (l : list block) : Prop :=
  match l with
  | [] => True
  | b :: l => (forall c x, c ∈ l -> in_block b x -> ~ in_block c x) /\ apart l
  end.

Lemma apart_app l1 l2 :
  apart (l1 ++ l2) <->
  apart l1 /\ apart l2 /\ forall b c x, b ∈ l1 -> c ∈ l2 -> in_block b x -> ~ in_block c x.
Proof.
  induction l1 as [|a l1 IH]; cbn; [set_solver|]. rewrite IH. setoid_rewrite elem_of_app. setoid_rewrite elem_of_cons.
  naive_solver.
Qed.
Lemma apart_take n l : apart l -> apart (take n l).
Proof. rewrite <- (take_drop n l) at 1. rewrite apart_app. tauto. Qed.

Lemma tiles_blocks dev a b l :
  tiles a b l -> a <= b /\ apart (blocks_of dev l) /\
  Forall (fun c => device c = dev /\ forall x, in_block c x -> a <= x < b) (blocks_of dev l).
Proof.
  induction 1 as [a|a b k l Hk Hle Hal Ht (IH1 & IH2 & IH3)]; cbn [blocks_of]; [split_and!; [lia|done|constructor]|].
  pose proof (pow2_pos k ltac:(lia)). split; [lia|].
  assert (Hrest : Forall (fun c => device c = dev /\ forall x, in_block c x -> a <= x < b) (blocks_of dev l)).
  { eapply Forall_impl; [exact IH3|]. intros c [Hd Hc]. split; [done|]. intros x Hx. apply Hc in Hx. lia. }
  destruct (_ <=? _); [|done]. split.
  - cbn. split; [|done]. intros c x Hc Hb Hx. rewrite Forall_forall in IH3. apply IH3 in Hc as [_ Hc].
    apply Hc in Hx. unfold in_block in Hb. cbn in Hb. lia.
  - constructor; [|done]. split; [done|]. unfold in_block. cbn. lia.
Qed.

(** What a capability may cover: device memory outside the regions in use, or
    memory of the pool [mem]. *)
Definition good (R : list PRegion) (mem : Z -> Prop) (b : block) : Prop :=
  forall x, in_block b x ->
    if device b then ~ pcovers R x /\ x < CONFIG_PADDR_USER_DEVICE_TOP else mem x.

(** One more region, disjoint from what was given before. *)
Lemma region_untypeds_good R mem dev a b l0 s :
  0 <= a <= b -> b < word_size -> (dev = false -> b <= PADDR_TOP) -> given l0 s ->
  apart l0 -> Forall (good R mem) l0 ->
  (forall c x, c ∈ l0 -> in_block c x -> ~ (a <= x < b)) ->
  (forall x, a <= x < b -> if dev then ~ pcovers R x /\ x < CONFIG_PADDR_USER_DEVICE_TOP else mem x) ->
  wp (create_untypeds_for_region cn dev (to_region (mk_PRegion a b)) first)
    (fun ok s' => ok = true /\ only_slots s s' /\ exists l, given l s' /\ apart l /\ Forall (good R mem) l /\
       forall c, c ∈ l -> c ∈ l0 \/ device c = dev /\ forall x, in_block c x -> a <= x < b) s.
Proof.
  intros Hab Hb Hdev Hg Hap Hgood Hdis Hnew.
  eapply wp_mono; [by apply (region_untypeds_ok dev a b l0)|]. intros ok s' (-> & Ho & l & Ht & Hg').
  split_and!; [done|done|]. destruct (tiles_blocks dev a b l Ht) as (_ & Hap' & Hin). rewrite Forall_forall in Hin.
  eexists. split; [exact Hg'|]. split_and!.
  - apply apart_take, apart_app. split_and!; [done|done|]. intros c d x Hc Hd Hx Hx'.
    apply Hin in Hd as [_ Hd]. by apply (Hdis c x Hc Hx), Hd.
  - apply Forall_take, Forall_app. split; [done|]. apply Forall_forall. intros c Hc. apply Hin in Hc as [Hd Hc].
    intros x Hx. rewrite Hd. by apply Hnew, Hc.
  - intros c Hc. apply elem_of_take in Hc as (i & Hi & _). apply list_elem_of_lookup_2, elem_of_app in Hi as [Hi|Hi];
      [by left|right; by apply Hin].
Qed.

Lemma TOP_word : 0 < CONFIG_PADDR_USER_DEVICE_TOP < word_size.
Proof. unfold CONFIG_PADDR_USER_DEVICE_TOP, word_size. destruct target_arch; lia. Qed.

Section regions.
Context (R : list PRegion) (mem : Z -> Prop).

(** The blocks given so far, all of them as they should be. *)
Definition fine (l : list block) (s : bstate) : Prop := given l s /\ apart l /\ Forall (good R mem) l.

Lemma regions_from_covers gap lo t x : 0 <= gap -> regions_from gap lo t -> pcovers t x -> lo <= x.
Proof.
  intros Hg. revert lo. induction t as [|r t IH]; intros lo Hr Hc; [by apply Exists_nil in Hc|].
  destruct Hr as (? & ? & Hr). apply Exists_cons in Hc as [Hc|Hc]; [unfold pinside in Hc; lia|].
  apply (IH _ Hr) in Hc. lia.
Qed.

(** The gaps before the regions [t] in use. *)
Lemma device_gaps_ok t p lo l0 s :
  R = p ++ t -> (forall i r, R !! i = Some r -> reserved s !! i = Some r) ->
  regions_from 0 lo t -> 0 <= lo <= CONFIG_PADDR_USER_DEVICE_TOP ->
  Forall (fun r => pend r <= CONFIG_PADDR_USER_DEVICE_TOP) t ->
  (forall x, pcovers p x -> x < lo) -> fine l0 s ->
  (forall c x, c ∈ l0 -> device c = true /\ (in_block c x -> x < lo)) ->
  wp (device_gaps cn first (length t) (Z.of_nat (length p)) lo)
    (fun o s' => exists e l, o = Some e /\ only_slots s s' /\ fine l s' /\
       0 <= e <= CONFIG_PADDR_USER_DEVICE_TOP /\ (forall x, pcovers R x -> x < e) /\
       (forall c x, c ∈ l -> device c = true /\ (in_block c x -> x < e))) s.
Proof.
  pose proof TOP_word. revert p lo l0 s. induction t as [|r t IH]; intros p lo l0 s ER Hres Ht Hlo Htop Hp (Hg & Ha & Hf) Hl0.
  - apply wp_ret. exists lo, l0. rewrite app_nil_r in ER. rewrite <- ER in Hp. split_and!; try done; [apply only_slots_refl|lia|lia].
  - cbn [device_gaps length]. destruct Ht as (Hr1 & Hr2 & Ht). apply Forall_cons in Htop as [Hr3 Htop].
    apply wp_bind. eapply wp_ok.
    { unfold get_reserved, bind, gets, lift_res. rewrite (array_get_ok _ _ r); [reflexivity|lia|].
      rewrite Nat2Z.id. apply Hres. rewrite ER. by apply list_lookup_middle. }
    apply wp_bind. eapply wp_mono; [apply (region_untypeds_good R mem true lo (pstart r) l0 s); try done; try lia|].
    + intros c x Hc Hx. apply (Hl0 c x) in Hc as [_ Hc]. specialize (Hc Hx). lia.
    + intros x Hx. split; [|lia]. rewrite ER. unfold pcovers. rewrite Exists_app. intros [Hc|Hc].
      * apply Hp in Hc. lia.
      * apply (regions_from_covers 0 (pstart r)) in Hc; [lia|done|]. by split_and!; [lia|lia|].
    + intros ok s1 (-> & Ho & l & Hg1 & Ha1 & Hf1 & Hl). cbv beta iota.
      replace (Z.of_nat (length p) + 1) with (Z.of_nat (length (p ++ [r]))) by (rewrite length_app; cbn; lia).
      eapply wp_mono; [apply (IH (p ++ [r]) (pend r) l s1)|].
      * rewrite ER. by rewrite <- app_assoc.
      * destruct Ho as [(h & q & u & ->) _]. done.
      * done.
      * lia.
      * done.
      * intros x Hx. unfold pcovers in Hx. rewrite Exists_app, Exists_cons, Exists_nil in Hx.
        destruct Hx as [Hx|[Hx|[]]]; [apply Hp in Hx; lia|unfold pinside in Hx; lia].
      * done.
      * intros c x Hc. apply Hl in Hc as [Hc|[Hd Hc]]; [|split; [done|]; intros Hx; apply Hc in Hx; lia].
        apply (Hl0 c x) in Hc as [Hd Hc]. split; [done|]. intros Hx. specialize (Hc Hx). lia.
      * intros o s2 (e & l2 & -> & Ho2 & Hrest). exists e, l2. split_and!; try apply Hrest; [done|].
        by eapply only_slots_trans.
Qed.

(** The free regions and the part of the kernel image that is reused. *)
Context (FM : list Region) (reuse : PRegion).

Definition separate (l : list Region) : Prop :=
  forall i j r q x, l !! i = Some r -> l !! j = Some q -> inside r x -> inside q x -> i = j.
Definition usable (f : Region) : Prop := is_empty f = true \/ in_window f /\ end_ f <= PPTR_TOP.

Context (Hmem : forall x, mem x <-> pinside reuse x \/ covers FM (x + PPTR_BASE_OFFSET)).
Context (Hused : forall x, mem x -> pcovers R x).
Context (Hsep : separate FM) (Husable : Forall usable FM).
Context (Hreuse : forall x, pinside reuse x -> ~ covers FM (x + PPTR_BASE_OFFSET)).

Lemma window_region r :
  in_window r -> r = to_region (mk_PRegion (start r - PPTR_BASE_OFFSET) (end_ r - PPTR_BASE_OFFSET)).
Proof.
  intros [? ?]. unfold to_region. cbn [pstart pend]. rewrite !to_pptr_small by lia. destruct r. cbn. f_equal; lia.
Qed.

Lemma empty_region_ok dev reg s : is_empty reg = true -> create_untypeds_for_region cn dev reg first s = Ok (true, s).
Proof.
  intros E. unfold create_untypeds_for_region, untypeds_fuel. pose proof MAX_bound.
  assert (0 <= (end_ reg -w start reg) / 2 ^ SEL4_MAX_UNTYPED_BITS).
  { apply Z.div_pos; [apply wsub_word|apply pow2_pos; lia]. }
  destruct (Z.to_nat _) eqn:En; [lia|]. cbn [untypeds_loop]. by rewrite E.
Qed.

(** After the first [j] free regions. *)
Definition freed (j : Z) (s : bstate) : Prop :=
  0 <= j /\ freemem s = replicate (Z.to_nat j) Region_empty ++ drop (Z.to_nat j) FM /\
  exists l, fine l s /\ forall c x, c ∈ l -> in_block c x -> device c = false ->
    pinside reuse x \/ covers (take (Z.to_nat j) FM) (x + PPTR_BASE_OFFSET).

Lemma free_untypeds_ok j s :
  0 <= j < Z.of_nat (length FM) -> freed j s ->
  wp (free_untypeds cn first j) (fun _ s' => freed (j + 1) s') s.
Proof.
  intros Hj (_ & Hfm & l & (Hg & Ha & Hf) & Hl). set (n := Z.to_nat j) in *.
  destruct (lookup_lt_is_Some_2 FM n) as [reg Hreg]; [lia|]. rewrite (drop_S _ _ _ Hreg) in Hfm.
  assert (En : Z.to_nat (j + 1) = S n) by lia.
  assert (Hjn : j = Z.of_nat (length (replicate n Region_empty))) by (rewrite length_replicate; lia).
  unfold free_untypeds. apply wp_bind. eapply wp_ok.
  { unfold get_freemem, bind, gets, lift_res. by rewrite Hfm, array_get_app. }
  apply wp_bind. eapply wp_ok.
  { unfold set_freemem, bind, gets, lift_res, modify. by rewrite Hfm, array_set_app. }
  set (s1 := s <| freemem := _ |>).
  assert (Hfm1 : freemem s1 = replicate (S n) Region_empty ++ drop (S n) FM).
  { cbn. change (Region_empty :: drop (S n) FM) with ([Region_empty] ++ drop (S n) FM).
    rewrite app_assoc. f_equal. by rewrite <- (replicate_cons_app n). }
  assert (Hinreg : forall x, inside reg x -> covers FM x).
  { intros x Hx. apply Exists_exists. exists reg. split; [by eapply list_elem_of_lookup_2|done]. }
  assert (Hstep : forall x, covers (take n FM) x \/ inside reg x <-> covers (take (S n) FM) x).
  { intros x. rewrite (take_S_r _ _ _ Hreg). unfold covers. rewrite Exists_app, Exists_cons, Exists_nil. tauto. }
  pose proof (proj1 (Forall_forall _ _) Husable reg (list_elem_of_lookup_2 _ _ _ Hreg)) as [He|[Hw Htop]].
  - apply wp_bind. eapply wp_ok; [by apply empty_region_ok|]. apply wp_ret. split; [lia|]. rewrite En. split; [done|].
    exists l. split; [done|]. intros c x Hc Hx Hd. rewrite <- Hstep. destruct (Hl c x Hc Hx Hd); auto.
  - assert (Hout : forall c x, c ∈ l -> in_block c x -> ~ inside reg (x + PPTR_BASE_OFFSET)).
    { intros c x Hc Hx Hin. rewrite Forall_forall in Hf. specialize (Hf c Hc x Hx).
      destruct (device c) eqn:Hd; [by apply (proj1 Hf), Hused, Hmem; right; apply Hinreg|].
      destruct (Hl c x Hc Hx Hd) as [Hr|Hr]; [by apply (Hreuse x), Hinreg|].
      apply Exists_exists in Hr as (q & Hq & Hqx). apply elem_of_take in Hq as (i & Hi & Hlt).
      pose proof (Hsep _ _ _ _ _ Hi Hreg Hqx Hin). lia. }
    pose proof PADDR_TOP_eq. pose proof PPTR_BASE_OFFSET_word. destruct Hw as [Hw1 Hw2].
    rewrite (window_region reg) by done. apply wp_bind.
    eapply wp_mono; [apply (region_untypeds_good R mem false _ _ l s1); try done; try lia|].
    + intros c x Hc Hx Hin. apply (Hout c x Hc Hx). unfold inside. lia.
    + intros x Hx. apply Hmem. right. apply Hinreg. unfold inside. lia.
    + intros ok s' (_ & Ho & l' & Hg' & Ha' & Hf' & Hl'). apply wp_ret. split; [lia|]. rewrite En. split.
      * destruct Ho as [(h & q & u & ->) _]. exact Hfm1.
      * exists l'. split; [done|]. intros c x Hc Hx Hd. rewrite <- Hstep.
        apply Hl' in Hc as [Hc|[_ Hc]]; [destruct (Hl c x Hc Hx Hd); auto|].
        right; right. apply Hc in Hx. unfold inside. lia.
Qed.
End regions.
End slots.

Section create.
Context `{Config}.

Lemma fine_nil cn first R mem s :
  slot_pos_cur s = first -> bi_frame s <> 0 -> length (untypedList (boot_info s)) = 230%nat ->
  fine cn first R mem [] s.
Proof. intros. split; [|by split; [|constructor]]. unfold given. split_and!; cbn; [lia|lia|done|done|done]. Qed.

(** The second half: the reused part of the kernel image, the free regions. *)
Lemma create_pool_ok cn first reuse FM R s l
    (mem := fun x => pinside reuse x \/ covers FM (x + PPTR_BASE_OFFSET)) :
  0 <= first -> first + CONFIG_MAX_NUM_BOOTINFO_UNTYPED_CAPS <= 4096 -> freemem s = FM ->
  separate FM -> Forall usable FM -> 0 <= pstart reuse <= pend reuse -> pend reuse <= PADDR_TOP ->
  (forall x, pinside reuse x -> ~ covers FM (x + PPTR_BASE_OFFSET)) -> (forall x, mem x -> pcovers R x) ->
  fine cn first R mem l s -> (forall c, c ∈ l -> device c = true) ->
  wp (let* reused := create_untypeds_for_region cn false (to_region reuse) first in
      if negb reused then ret false else
      let* m := gets freemem in
      for_range (length m) 0 (free_untypeds cn first) ;;;
      let* pos := gets slot_pos_cur in
      mod_boot_info (fun bi => bi <| untyped := mk_SlotRegion first pos |>) ;;;
      ret true)
    (fun ok s' => ok = true /\ exists l, fine cn first R mem l s' /\
       untyped (boot_info s') = mk_SlotRegion first (slot_pos_cur s')) s.
Proof.
  intros H0 Hroom HFM Hsep Hus Hre1 Hre2 Hredis Hmem (Hg & Ha & Hf) Hl.
  pose proof PADDR_TOP_eq. pose proof PPTR_BASE_OFFSET_word. apply wp_bind.
  replace reuse with (mk_PRegion (pstart reuse) (pend reuse)) at 1 by by destruct reuse.
  eapply wp_mono; [apply (region_untypeds_good cn first H0 Hroom R mem false _ _ l s); try done; try lia|].
  - intros c x Hc Hx Hin. rewrite Forall_forall in Hf. specialize (Hf c Hc x Hx). rewrite (Hl c Hc) in Hf.
    apply (proj1 Hf), Hmem. by left.
  - intros x Hx. by left.
  - intros ok s1 (-> & Ho & l1 & Hg1 & Ha1 & Hf1 & Hl1). cbn [negb]. apply wp_bind, wp_gets, wp_bind.
    assert (HFM1 : freemem s1 = FM) by (destruct Ho as [(h & q & u & ->) _]; done). rewrite HFM1.
    apply (wp_for_range (freed cn first R mem FM reuse)).
    + split_and!; [done|done|]. exists l1. split; [done|]. intros c x Hc Hx Hd. left.
      apply Hl1 in Hc as [Hc|[_ Hc]]; [apply Hl in Hc; congruence|by apply Hc].
    + intros j s2 Hj Hfr. by apply free_untypeds_ok.
    + intros s2 (_ & _ & l2 & (Hg2 & Ha2 & Hf2) & _). apply wp_bind, wp_gets, wp_bind.
      pose proof Hg2 as (Hpos & _ & Hbi & _). unfold mod_boot_info. apply wp_bind, wp_gets.
      destruct (Z.eqb_spec (bi_frame s2) 0); [done|]. apply wp_modify, wp_ret. split; [done|]. by exists l2.
Qed.

(** The regions of [create_untypeds] in the order of the code. *)
Lemma create_untypeds_run cn reuse s (first := slot_pos_cur s)
    (mem := fun x => pinside reuse x \/ covers (freemem s) (x + PPTR_BASE_OFFSET)) :
  0 <= first -> first + CONFIG_MAX_NUM_BOOTINFO_UNTYPED_CAPS <= 4096 -> bi_frame s <> 0 ->
  length (untypedList (boot_info s)) = 230%nat -> resv_wf s -> resv_count s <= MAX_NUM_RESV_REG ->
  Forall (fun r => pend r <= CONFIG_PADDR_USER_DEVICE_TOP) (resv s) ->
  separate (freemem s) -> Forall usable (freemem s) ->
  0 <= pstart reuse <= pend reuse -> pend reuse <= PADDR_TOP ->
  (forall x, pinside reuse x -> ~ covers (freemem s) (x + PPTR_BASE_OFFSET)) ->
  (forall x, mem x -> pcovers (resv s) x) ->
  wp (create_untypeds cn (to_region reuse))
    (fun ok s' => ok = true /\ exists l, fine cn first (resv s) mem l s' /\
       untyped (boot_info s') = mk_SlotRegion first (slot_pos_cur s')) s.
Proof.
  intros H0 Hroom Hbi Hul (Hlen & Hc0 & Hsort) Hcnt Htop Hsep Hus Hre1 Hre2 Hredis Hmem.
  change MAX_NUM_RESV_REG with 19 in Hcnt. pose proof TOP_word. pose proof PADDR_TOP_eq. pose proof PPTR_BASE_OFFSET_word.
  unfold create_untypeds. do 2 apply wp_bind, wp_gets. apply wp_bind.
  assert (Hn : Z.to_nat (resv_count s) = length (resv s)) by (unfold resv; rewrite length_take; lia). rewrite Hn.
  eapply wp_mono; [apply (device_gaps_ok cn first H0 Hroom (resv s) mem (resv s) [] 0 [] s)|].
  - done.
  - intros i r Hr. unfold resv in Hr. by apply lookup_take_Some in Hr as [? _].
  - by apply regions_from_shift in Hsort.
  - lia.
  - done.
  - intros x Hx. by apply Exists_nil in Hx.
  - by apply fine_nil.
  - intros c x Hc. set_solver.
  - intros o s1 (e & l1 & -> & Ho1 & (Hg1 & Ha1 & Hf1) & He & HR & Hl1). apply wp_bind.
    apply (wp_mono _ (fun ok s2 => ok = true /\ only_slots cn first s1 s2 /\ exists l2, fine cn first (resv s) mem l2 s2 /\
      forall c, c ∈ l2 -> device c = true)).
    + destruct (Z.ltb_spec e CONFIG_PADDR_USER_DEVICE_TOP).
      * eapply wp_mono; [apply (region_untypeds_good cn first H0 Hroom (resv s) mem true e CONFIG_PADDR_USER_DEVICE_TOP l1 s1); try done; try lia|].
        -- intros c x Hc Hx. apply (Hl1 c x) in Hc as [_ Hc]. specialize (Hc Hx). lia.
        -- intros x Hx. split; [|lia]. intros Hx'. apply HR in Hx'. lia.
        -- intros ok s2 (-> & Ho & l & Hg & Ha & Hf & Hl). split_and!; [done|done|]. exists l. split; [done|].
           intros c Hc. apply Hl in Hc as [Hc|[? _]]; [|done]. by apply (Hl1 c 0) in Hc as [? _].
      * apply wp_ret. split_and!; [done|apply only_slots_refl|]. exists l1. split; [done|]. intros c Hc. by apply (Hl1 c 0) in Hc as [? _].
    + intros ok s2 (-> & Ho2 & l2 & Hf2 & Hl2). cbn [negb]. apply (create_pool_ok _ _ _ _ _ _ l2); try done.
      destruct Ho1 as [(h & q & u & ->) _]. destruct Ho2 as [(h2 & q2 & u2 & ->) _]. done.
Qed.

(** C30. A region becomes untyped memory without gaps or overlaps:
    [create_untypeds_for_region] terminates and succeeds, the blocks it cuts
    fill the region exactly, each aligned to its size, and the capabilities and
    the boot information entries it adds are those of the blocks of at least
    the minimal size, in order, until the boot information is full.  Device
    regions may lie anywhere, other regions inside the kernel window; addresses
    that wrap around are covered. *)
Theorem untypeds_fill_region cn dev a b l0 first s :
  0 <= first -> first + CONFIG_MAX_NUM_BOOTINFO_UNTYPED_CAPS <= 4096 ->
  0 <= a <= b -> b < word_size -> (dev = false -> b <= PADDR_TOP) -> given cn first l0 s ->
  exists l s', create_untypeds_for_region cn dev (to_region (mk_PRegion a b)) first s = Ok (true, s') /\
    tiles a b l /\ given cn first (take 230 (l0 ++ blocks_of dev l)) s' /\ only_slots cn first s s'.
Proof.
  intros H0 Hroom Hab Hb Hdev Hg. pose proof (region_untypeds_ok cn first H0 Hroom dev a b l0 s Hab Hb Hdev Hg) as Hwp.
  apply wp_iff in Hwp as (ok & s' & E & -> & Ho & l & Ht & Hg'). by exists l, s'.
Qed.

(** C6. The untyped capabilities of the initial thread are disjoint and safe.
    When the free regions and the reused part of the kernel image are disjoint
    parts of the regions in use, [create_untypeds] succeeds; no two of the
    untyped capabilities it makes share an address, those for device memory
    avoid every region in use, and the others lie inside the free regions or
    the reused memory.  The boot information names exactly their slots. *)
Theorem create_untypeds_disjoint cn reuse s :
  0 <= slot_pos_cur s -> slot_pos_cur s + CONFIG_MAX_NUM_BOOTINFO_UNTYPED_CAPS <= 4096 -> bi_frame s <> 0 ->
  length (untypedList (boot_info s)) = 230%nat -> resv_wf s -> resv_count s <= MAX_NUM_RESV_REG ->
  Forall (fun r => pend r <= CONFIG_PADDR_USER_DEVICE_TOP) (resv s) ->
  separate (freemem s) -> Forall usable (freemem s) ->
  0 <= pstart reuse <= pend reuse -> pend reuse <= PADDR_TOP ->
  (forall x, pinside reuse x -> ~ covers (freemem s) (x + PPTR_BASE_OFFSET)) ->
  (forall x, pinside reuse x \/ covers (freemem s) (x + PPTR_BASE_OFFSET) -> pcovers (resv s) x) ->
  exists l s', create_untypeds cn (to_region reuse) s = Ok (true, s') /\
    given cn (slot_pos_cur s) l s' /\ apart l /\
    Forall (good (resv s) (fun x => pinside reuse x \/ covers (freemem s) (x + PPTR_BASE_OFFSET))) l /\
    untyped (boot_info s') = mk_SlotRegion (slot_pos_cur s) (slot_pos_cur s + Z.of_nat (length l)).
Proof.
  intros. pose proof (create_untypeds_run cn reuse s ltac:(assumption) ltac:(assumption) ltac:(assumption)
    ltac:(assumption) ltac:(assumption) ltac:(assumption) ltac:(assumption) ltac:(assumption) ltac:(assumption)
    ltac:(assumption) ltac:(assumption) ltac:(assumption) ltac:(assumption)) as Hwp.
  apply wp_iff in Hwp as (ok & s' & E & -> & l & (Hg & Ha & Hf) & Hu). exists l, s'.
  split_and!; [done|done|done|done|]. destruct Hg as [Hpos _]. by rewrite Hu, Hpos.
Qed.
End create.

Module Booting.
#[local] Instance cfg : Config := riscv_config.
(** 64 KiB in use, of which the first quarter is reused and the rest is free. *)
Definition reused : PRegion := mk_PRegion 0x80000000 0x80004000.
Definition free : Region := to_region (mk_PRegion 0x80004000 0x80010000).
Definition start_state : bstate :=
  (boot_static base_state) <| bi_frame := 0xFFFFFFC080020000 |> <| resv_count := 1 |>
    <| reserved := mk_PRegion 0x80000000 0x80010000 :: replicate 18 PRegion_empty |>
    <| freemem := free :: replicate 15 Region_empty |>.
Definition root_cap : cnode_cap := mk_cnode_cap 12 52 0 0xFFFFFFC080100000.

Lemma untypeds_fill_region_witness :
  exists l s', create_untypeds_for_region root_cap true (to_region (mk_PRegion 0x1008 0x80000000)) 16 start_state =
      Ok (true, s') /\ tiles 0x1008 0x80000000 l /\
      given root_cap 16 (take 230 ([] ++ blocks_of true l)) s' /\ only_slots root_cap 16 start_state s'.
Proof.
  apply (untypeds_fill_region root_cap true 0x1008 0x80000000 [] 16 start_state); [lia|vm_compute; discriminate|lia| | |].
  - vm_compute. reflexivity.
  - discriminate.
  - unfold given. split_and!; [reflexivity|apply le_0_n|discriminate|reflexivity|]. intros i b Hb. discriminate Hb.
Defined.

Lemma free_inside x : covers (freemem start_state) x -> 0xFFFFFFC080004000 <= x < 0xFFFFFFC080010000.
Proof.
  change (freemem start_state) with (free :: replicate 15 Region_empty). intros Hx.
  apply Exists_cons in Hx as [Hx|Hx]; [exact Hx|].
  apply Exists_exists in Hx as (r & [-> _]%elem_of_replicate & Hx). unfold inside in Hx. cbn in Hx. lia.
Qed.

Lemma free_separate : separate (freemem start_state).
Proof.
  change (freemem start_state) with (free :: replicate 15 Region_empty).
  assert (Hrep : forall i r x, replicate 15 Region_empty !! i = Some r -> ~ inside r x).
  { intros i r x [-> _]%lookup_replicate Hx. unfold inside in Hx. cbn in Hx. lia. }
  intros [|i] [|j] r q x Hr Hq Hx Hy; cbn in Hr, Hq; [done| | |]; exfalso;
    [by apply (Hrep j q x)|by apply (Hrep i r x)|by apply (Hrep i r x)].
Qed.

Lemma create_untypeds_disjoint_witness :
  exists l s', create_untypeds root_cap (to_region reused) start_state = Ok (true, s') /\
    given root_cap 16 l s' /\ apart l.
Proof.
  destruct (create_untypeds_disjoint root_cap reused start_state) as (l & s' & H1 & H2 & H3 & _).
  - discriminate.
  - vm_compute. discriminate.
  - discriminate.
  - reflexivity.
  - split_and!; [reflexivity|discriminate|]. vm_compute. split_and!; [discriminate|reflexivity|exact I].
  - discriminate.
  - constructor; [vm_compute; discriminate|constructor].
  - exact free_separate.
  - constructor; [|apply Forall_replicate; left; reflexivity]. right. vm_compute. split; [split; [split|]|]; done.
  - vm_compute. split; discriminate.
  - vm_compute. discriminate.
  - intros x Hx Hf. apply free_inside in Hf. unfold pinside in Hx. change PPTR_BASE_OFFSET with 0xFFFFFFC000000000 in Hf.
    cbn in Hx. lia.
  - intros x Hx. apply Exists_cons. left. change PPTR_BASE_OFFSET with 0xFFFFFFC000000000 in Hx. unfold pinside in *. cbn in *.
    destruct Hx as [Hx|Hx]; [lia|]. apply free_inside in Hx. lia.
  - exists l, s'. exact (conj H1 (conj H2 H3)).
Defined.
End Booting.
