(* ===== verification/BootVSpace.v ===== *)
(** * Page tables at boot (sel4_vspace: arch/*/boot.rs, pagetable.rs, device.rs, boot.rs)

    The kernel's own page tables, which map physical memory and the kernel
    image, and the page tables and frames of the initial thread.  The addresses
    the linker chooses and what the platform description generates are the
    fields of the class [Platform].  Cache and TLB maintenance has no
    counterpart in the model. *)

From S2P Require Import Prelude Monad Config Objects State CapOps CSpace VSpace VSpaceArm MmuInv BootMem.

(** sel4_common/src/structures.rs *)
Record kernel_frame_t := mk_kernel_frame {
  kf_paddr : Z; kf_pptr : Z; armExecuteNever : Z; userAvailable : Z }.

Class Platform : Type := {
  kernel_image_level2_pt : Z;          (* RISC-V: the kernel's second-level table *)
  armKSGlobalKernelPGD : Z;            (* AArch64: the kernel's tables, one per level; *)
  armKSGlobalKernelPUD : Z;
  armKSGlobalKernelPDs : Z;            (* an array of 512 tables *)
  armKSGlobalKernelPT : Z;
  kernel_device_frames : list kernel_frame_t;
  avail_p_regs : list PRegion;         (* memory of the platform, passed by the loader *)
  ki_end : Z;                          (* end of the kernel image *)
  intStateIRQNode : Z;
  ksIdleThreadTCB : Z;
  ksIdleThreadSC : Z;
  idle_thread : Z;                     (* address of the idle loop *)
  kernel_stack_top : Z
}.

Section constants.
Context `{Config}.
Definition PADDR_BASE : Z := 0.
Definition PHYS_BASE : Z := match target_arch with RISCV64 => 0x80000000 | AARCH64 => 0x40000000 end.
Definition KERNEL_ELF_PADDR_BASE : Z :=
  match target_arch with RISCV64 => PHYS_BASE +w 0x4000000 | AARCH64 => PHYS_BASE end.
Definition KERNEL_ELF_BASE : Z :=
  match target_arch with
  | RISCV64 => PPTR_TOP +w Z.land KERNEL_ELF_PADDR_BASE (mask_bits 30)
  | AARCH64 => PPTR_BASE_OFFSET +w KERNEL_ELF_PADDR_BASE
  end.
Definition KDEV_BASE : Z := match target_arch with RISCV64 => 0xFFFFFFFFC0000000 | AARCH64 => 0xffffffffffe00000 end.
Definition PD_INDEX_OFFSET : Z := SEL4_PAGE_BITS + PT_INDEX_BITS.
Definition PUD_INDEX_OFFSET : Z := PD_INDEX_OFFSET + PT_INDEX_BITS.
Definition PGD_INDEX_OFFSET : Z := PUD_INDEX_OFFSET + PT_INDEX_BITS.
End constants.
Definition IT_ASID : Z := 1.
Definition PUD_INDEX_BITS : Z := 9.
Definition KPT_LEVELS : Z := 4.

(** [flags] of the entries of the initial thread's frames on RISC-V. *)
Definition ADUVRWX : Z :=
  Z.lor (Z.lor (Z.lor (Z.lor (Z.lor (Z.lor PTEFlags.A_ PTEFlags.D_) PTEFlags.U_) PTEFlags.V_) PTEFlags.R_)
    PTEFlags.W_) PTEFlags.X_.

(** ** Entries of AArch64 tables (aarch64/utils.rs) *)

Definition kpt_level_shift (n : Z) : Z := (PT_INDEX_BITS *w ((KPT_LEVELS -w 1) -w n)) +w SEL4_PAGE_BITS.
Definition get_kpt_index (vaddr n : Z) : Z := Z.land (vaddr >>w kpt_level_shift n) (mask_bits PT_INDEX_BITS).
Definition pt_index (vaddr : Z) : Z := Z.land (vaddr >>w 12) 0x1ff.
Definition pd_index (vaddr : Z) : Z := Z.land (vaddr >>w 21) 0x1ff.
Definition pud_index (vaddr : Z) : Z := Z.land (vaddr >>w 30) 0x1ff.
Definition pgd_index (vaddr : Z) : Z := Z.land (vaddr >>w 39) 0x1ff.

Definition set_next_level_paddr (addr e : Z) : Z :=
  Z.lor (Z.land e (wnot ArmPTE.PAGE_ADDR_MASK)) (Z.land addr ArmPTE.PAGE_ADDR_MASK).
Definition set_attr (value e : Z) : Z :=
  Z.lor (Z.land e ArmPTE.PAGE_ADDR_MASK) (Z.land value (wnot ArmPTE.PAGE_ADDR_MASK)).
Definition attr (e : Z) : Z := Z.land e (wnot ArmPTE.PAGE_ADDR_MASK).
Definition new_page (addr sign : Z) : Z :=
  Z.lor (Z.land addr ArmPTE.PAGE_ADDR_MASK) (Z.land sign (wnot ArmPTE.PAGE_ADDR_MASK)).

(** vm_attributes_t (sel4_vspace/src/structures.rs) *)
Definition get_page_cacheable (attributes : Z) : Z := Z.land attributes 0x1.

Section window.
Context `{Config} `{Platform}.

(** ** The kernel window, RISC-V (riscv64/boot.rs, device.rs, pagetable.rs) *)

Definition riscv_map_kernel_frame (paddr vaddr : Z) : K unit :=
  if KDEV_BASE <=? vaddr then
    write_pte (pte_at kernel_root_page_table (riscv_get_pt_index vaddr 0))
      (pte_next_table (round_down paddr (riscv_get_lvl_pgsize_bits 1)) true)
  else
    write_pte (pte_at kernel_root_page_table (riscv_get_pt_index vaddr 0))
      (pte_next_table (round_down paddr (riscv_get_lvl_pgsize_bits 0)) true).

(** [for (pptr, paddr) in ...step_by(..).zip(..)]: round [i] has the [i]-th
    pair of addresses. *)
Definition map_pspace : K unit :=
  for_range (Z.to_nat ((PPTR_TOP - PPTR_BASE) / riscv_get_lvl_pgsize 0)) 0 (fun i =>
    let pptr := PPTR_BASE + i * riscv_get_lvl_pgsize 0 in
    let paddr := PADDR_BASE + i * riscv_get_lvl_pgsize 0 in
    write_pte (pte_at kernel_root_page_table (riscv_get_pt_index pptr 0)) (pte_next_table paddr true)).

(** The last loop of [rust_map_kernel_window], in round [index]. *)
Definition map_kernel_image : K unit :=
  let pptr := round_down KERNEL_ELF_BASE (riscv_get_lvl_pgsize_bits 0) in
  let paddr := round_down KERNEL_ELF_PADDR_BASE (riscv_get_lvl_pgsize_bits 0) in
  for_range (Z.to_nat ((PPTR_TOP + riscv_get_lvl_pgsize 0 - pptr) / riscv_get_lvl_pgsize 1)) 0 (fun index =>
    write_pte (pte_at kernel_image_level2_pt index)
      (pte_next_table (paddr +w (index *w riscv_get_lvl_pgsize 1)) true)).

Definition riscv_map_kernel_memory : K unit :=
  map_pspace ;;;
  let pptr := round_down KERNEL_ELF_BASE (riscv_get_lvl_pgsize_bits 0) in
  let level2 := pte_next_table (kpptr_to_paddr kernel_image_level2_pt) false in
  write_pte (pte_at kernel_root_page_table
               (riscv_get_pt_index (KERNEL_ELF_PADDR_BASE +w PPTR_BASE_OFFSET) 0)) level2 ;;;
  write_pte (pte_at kernel_root_page_table (riscv_get_pt_index pptr 0)) level2 ;;;
  map_kernel_image.

(** ** The kernel window, AArch64 (aarch64/boot.rs, interface.rs) *)

Definition set_kernel_page_global_directory_by_index (idx e : Z) : K unit :=
  write_pte (pte_at armKSGlobalKernelPGD idx) e.
Definition set_kernel_page_upper_directory_by_index (idx e : Z) : K unit :=
  write_pte (pte_at armKSGlobalKernelPUD idx) e.
Definition get_kernel_page_directory_base_by_index (idx : Z) : Z :=
  armKSGlobalKernelPDs +w (bit SEL4_PAGE_TABLE_BITS *w idx).
Definition set_kernel_page_directory_by_index (idx1 idx2 e : Z) : K unit :=
  write_pte (pte_at (get_kernel_page_directory_base_by_index idx1) idx2) e.
Definition set_kernel_page_table_by_index (idx e : Z) : K unit :=
  write_pte (pte_at armKSGlobalKernelPT idx) e.

Definition arm_map_kernel_frame (paddr vaddr vm_rights attributes : Z) : K unit :=
  let attr_index := if negb (get_page_cacheable attributes =? 0) then ArmPTE.NORMAL else ArmPTE.DEVICE_nGnRnE in
  let* ap := lift_res (ArmPTE.ap_from_vm_rights_t vm_rights) in
  set_kernel_page_table_by_index (get_kpt_index vaddr 3)
    (ArmPTE.pte_new_4k_page 1 paddr 0 1 0 (ap >>w 6) attr_index).

Definition arm_map_kernel_memory : K unit :=
  set_kernel_page_global_directory_by_index (get_kpt_index PPTR_BASE 0)
    (ArmPTE.pte_new_table (kpptr_to_paddr armKSGlobalKernelPUD)) ;;;
  let first := get_kpt_index PPTR_BASE 1 in
  for_range (Z.to_nat (get_kpt_index PPTR_TOP 1 - first)) first (fun idx =>
    set_kernel_page_upper_directory_by_index idx
      (ArmPTE.pte_new_table (kpptr_to_paddr (get_kernel_page_directory_base_by_index idx)))) ;;;
  for_range (Z.to_nat ((PADDR_TOP - PADDR_BASE) / bit SEL4_LARGE_PAGE_BITS)) 0 (fun i =>
    let vaddr := PPTR_BASE +w (i *w bit SEL4_LARGE_PAGE_BITS) in
    let paddr := PADDR_BASE +w (i *w bit SEL4_LARGE_PAGE_BITS) in
    set_kernel_page_directory_by_index (get_kpt_index vaddr 1) (get_kpt_index vaddr 2)
      (ArmPTE.pte_new_page 1 paddr 0 1 0 0 ArmPTE.NORMAL)) ;;;
  let last := bit PUD_INDEX_BITS -w 1 in
  set_kernel_page_upper_directory_by_index (get_kpt_index PPTR_TOP 1)
    (ArmPTE.pte_new_table (kpptr_to_paddr (get_kernel_page_directory_base_by_index last))) ;;;
  set_kernel_page_directory_by_index last last (ArmPTE.pte_new_table (kpptr_to_paddr armKSGlobalKernelPT)).

(** ** Both *)

Definition map_kernel_frame (f : kernel_frame_t) : K unit :=
  match target_arch with
  | RISCV64 => riscv_map_kernel_frame (kf_paddr f) (kf_pptr f)
  | AARCH64 => arm_map_kernel_frame (kf_paddr f) (kf_pptr f) VMKernelOnly (armExecuteNever f)
  end.

Fixpoint map_devices (l : list kernel_frame_t) : B unit :=
  match l with
  | [] => ret tt
  | f :: l =>
      on_kernel (map_kernel_frame f) ;;;
      when (userAvailable f =? 0)
        (reserve_region (mk_PRegion (kf_paddr f) (kf_paddr f +w bit PAGE_BITS)) ;;; ret tt) ;;;
      map_devices l
  end.
Definition map_kernel_devices : B unit := map_devices kernel_device_frames.

Definition rust_map_kernel_window : B unit :=
  on_kernel (match target_arch with RISCV64 => riscv_map_kernel_memory | AARCH64 => arm_map_kernel_memory end) ;;;
  map_kernel_devices.

Definition activate_kernel_vspace : V unit :=
  match target_arch with
  | RISCV64 => set_vspace_root (kpptr_to_paddr kernel_root_page_table) 0
  | AARCH64 => set_empty_user_root
  end.
End window.

Section initial.
Context `{Config}.

(** ** The initial thread's address space, RISC-V (riscv64/boot.rs) *)

Definition riscv_map_it_pt_cap (vspace_cap pt_cap : page_table_cap) : V unit :=
  kassert (negb (capPTBasePtr vspace_cap =? 0)) ;;;
  let* pt_ret := lookup_pt_slot (capPTBasePtr vspace_cap) (capPTMappedAddress pt_cap) in
  on_ptes (hmod (ptSlot pt_ret)
    (fun _ => pte_new (to_paddr (capPTBasePtr pt_cap) >>w SEL4_PAGE_BITS) PTEFlags.V_)).

Definition riscv_map_it_frame_cap (vspace_cap : page_table_cap) (frame_cap : frame_cap) : V unit :=
  kassert (negb (capPTBasePtr vspace_cap =? 0)) ;;;
  let* pt_ret := lookup_pt_slot (capPTBasePtr vspace_cap) (capFMappedAddress frame_cap) in
  on_ptes (hmod (ptSlot pt_ret)
    (fun _ => pte_new (to_paddr (capFBasePtr frame_cap) >>w SEL4_PAGE_BITS) ADUVRWX)).

(** [capFSize] has two bits: the number of address bits that is passed for it
    leaves 0 for a page and 1 for a large page. *)
Definition riscv_create_mapped_it_frame_cap (pd_cap : page_table_cap) (pptr vptr asid : Z)
    (use_large : bool) : V frame_cap :=
  let frame_size := if use_large then SEL4_LARGE_PAGE_BITS else SEL4_PAGE_BITS in
  let c := mk_frame_cap asid pptr (Z.land frame_size 0x3) VMReadWrite 0 vptr in
  riscv_map_it_frame_cap pd_cap c ;;; ret c.

Definition riscv_create_unmapped_it_frame_cap (pptr : Z) : frame_cap := mk_frame_cap 0 pptr 0 0 0 0.

(** ** The initial thread's address space, AArch64 (aarch64/boot.rs) *)

Inductive find_type : Type := FIND_PDE | FIND_PUDE | FIND_PTE.

Definition next_level (table index : Z) : V Z :=
  let* e := on_ptes (hget (pte_at table index)) in ret (to_pptr (ArmPTE.next_level_paddr e)).

Definition find_pt (vspace_root vptr : Z) (ftype : find_type) : V Z :=
  let* pud := next_level vspace_root (pgd_index vptr) in
  match ftype with
  | FIND_PUDE => ret (pte_at pud (pud_index vptr))
  | _ =>
      let* pd := next_level pud (pud_index vptr) in
      match ftype with
      | FIND_PDE => ret (pte_at pd (pd_index vptr))
      | _ => let* pt := next_level pd (pd_index vptr) in ret (pte_at pt (pt_index vptr))
      end
  end.

Definition arm_map_it_pt_cap (vs : vspace_cap) (pt_cap : page_table_cap) : V unit :=
  let* target := find_pt (capVSBasePtr vs) (capPTMappedAddress pt_cap) FIND_PDE in
  on_ptes (hmod target (set_next_level_paddr (to_paddr (capPTBasePtr pt_cap)))) ;;;
  on_ptes (hmod target (set_attr 3)).

Definition map_it_pd_cap (vs : vspace_cap) (pd_cap : page_table_cap) : V unit :=
  let vptr := capPTMappedAddress pd_cap in
  kassert (capPTIsMapped pd_cap =? 1) ;;;
  let* pgde := on_ptes (hget (pte_at (capVSBasePtr vs) (pgd_index vptr))) in
  kassert (attr pgde =? 0x3) ;;;
  let pud := to_pptr (ArmPTE.next_level_paddr pgde) in
  on_ptes (hmod (pte_at pud (pud_index vptr)) (fun _ => new_page (to_paddr (capPTBasePtr pd_cap)) 0x3)).

Definition map_it_pud_cap (vs : vspace_cap) (pud_cap : page_table_cap) : V unit :=
  let vptr := capPTMappedAddress pud_cap in
  kassert (capPTIsMapped pud_cap =? 1) ;;;
  on_ptes (hmod (pte_at (capVSBasePtr vs) (pgd_index vptr))
    (fun _ => new_page (to_paddr (capPTBasePtr pud_cap)) 0x3)).

Definition arm_map_it_frame_cap (vs : vspace_cap) (f : frame_cap) (exec : bool) : V unit :=
  let* pte := find_pt (capVSBasePtr vs) (capFMappedAddress f) FIND_PTE in
  on_ptes (hmod pte (set_attr (ArmPTE.pte_new_4k_page (bool_to_word (negb exec)) 0 1 1 0 1 0))) ;;;
  on_ptes (hmod pte (set_next_level_paddr (to_paddr (capFBasePtr f)))).

Definition create_it_pud_cap (vs : vspace_cap) (pptr vptr asid : Z) : V page_table_cap :=
  let c := mk_page_table_cap asid pptr 1 vptr in map_it_pud_cap vs c ;;; ret c.
Definition create_it_pd_cap (vs : vspace_cap) (pptr vptr asid : Z) : V page_table_cap :=
  let c := mk_page_table_cap asid pptr 1 vptr in map_it_pd_cap vs c ;;; ret c.
Definition create_it_frame_cap (pptr vptr asid : Z) (use_large : bool) : frame_cap :=
  mk_frame_cap asid pptr (if use_large then 1 else 0) VMReadWrite 0 vptr.
Definition arm_create_mapped_it_frame_cap (pd_cap : vspace_cap) (pptr vptr asid : Z)
    (use_large exec : bool) : V frame_cap :=
  let c := create_it_frame_cap pptr vptr asid use_large in
  arm_map_it_frame_cap pd_cap c exec ;;; ret c.

(** ** Both: the root is a page table on RISC-V, a vspace on AArch64 *)

Definition create_it_pt_cap (root : cap) (pptr vptr asid : Z) : V page_table_cap :=
  let c := mk_page_table_cap asid pptr 1 vptr in
  match root with
  | cap_page_table_cap t => riscv_map_it_pt_cap t c
  | cap_vspace_cap vs => arm_map_it_pt_cap vs c
  | _ => fail EUndef
  end ;;;
  ret c.

Definition create_mapped_it_frame_cap (root : cap) (pptr vptr asid : Z) (use_large exec : bool) : V frame_cap :=
  match root with
  | cap_page_table_cap t => riscv_create_mapped_it_frame_cap t pptr vptr asid use_large
  | cap_vspace_cap vs => arm_create_mapped_it_frame_cap vs pptr vptr asid use_large exec
  | _ => fail EUndef
  end.

Definition create_unmapped_it_frame_cap (pptr : Z) (use_large : bool) : frame_cap :=
  match target_arch with
  | RISCV64 => riscv_create_unmapped_it_frame_cap pptr
  | AARCH64 => create_it_frame_cap pptr 0 0 use_large
  end.

(** asid.rs of both architectures. *)
Definition write_it_asid_pool (ap root : cap) : V unit :=
  match ap, root with
  | cap_asid_pool_cap p, cap_page_table_cap t =>
      let* pool := on_pools (hget (capASIDPool p)) in
      let* pool := lift_res (array_set pool IT_ASID (capPTBasePtr t)) in
      on_pools (hmod (capASIDPool p) (fun _ => pool)) ;;;
      set_asid_pool_by_index (IT_ASID >>w ASID_LOW_BITS) (capASIDPool p)
  | cap_asid_pool_cap p, cap_vspace_cap vs =>
      let* pool := on_map_pools (hget (capASIDPool p)) in
      let* pool := lift_res (array_set pool IT_ASID (asid_map_vspace (capVSBasePtr vs))) in
      on_map_pools (hmod (capASIDPool p) (fun _ => pool)) ;;;
      set_asid_pool_by_index (IT_ASID >>w ASID_LOW_BITS) (capASIDPool p)
  | _, _ => fail EUndef
  end.
End initial.
