(* ===== verification/BootRoot.v ===== *)
(** * The root server and the boot sequence (kernel/src/boot, kernel/src/arch/*/boot.rs)

    [try_init_kernel] computes the free memory, places the objects of the
    initial thread in it, fills the root CNode, maps the user image, creates
    the initial and the idle thread, and turns the rest of the memory into
    untyped capabilities.  What the two architectures duplicate is one
    definition here. *)

From S2P Require Import Prelude Monad Config Objects State CapOps CSpace VSpace VSpaceArm Refill TcbQueue Sched.
From S2P Require Import Tcb SchedCtx Schedule Interrupt Untyped MmuInv BootMem BootVSpace.

(** ** Constants (sel4_config.rs, sel4_common/src/arch/*/config.rs) *)

Definition CONFIG_MAX_NUM_NODES : Z := 1.
Definition CONFIG_BOOT_THREAD_TIME_SLICE : Z := 5.
Definition SEL4_MAX_PRIO : Z := CONFIG_NUM_PRIORITIES - 1.
Definition BI_FRAME_SIZE_BITS : Z := PAGE_BITS.
Definition SEL4_BOOTINFO_HEADER_FDT : Z := 6.
Definition SEL4_BOOTINFO_HEADER_PADDING : Z := 0.
Definition SEL4_CAP_INIT_THREAD_TCB : Z := 1.
Definition SEL4_CAP_INIT_THREAD_CNODE : Z := 2.
Definition SEL4_CAP_INIT_THREAD_VSPACE : Z := 3.
Definition SEL4_CAP_IRQ_CONTROL : Z := 4.
Definition SEL4_CAP_ASID_CONTROL : Z := 5.
Definition SEL4_CAP_INIT_THREAD_ASID_POOL : Z := 6.
Definition SEL4_CAP_BOOT_INFO_FRAME : Z := 9.
Definition SEL4_CAP_INIT_THREAD_IPC_BUFFER : Z := 10.
Definition SEL4_CAP_DOMAIN : Z := 11.
Definition SEL4_CAP_INIT_THREAD_SC : Z := 14.
Definition SEL4_CAP_SMC : Z := 15.
(** [size_of::<BootInfoHeader>()]. *)
Definition boot_info_header_size : Z := 16.

(** ** Sizes (utils.rs, mod.rs, root_server.rs) *)

Definition get_n_paging (v_reg : VRegion) (bits : Z) : Z :=
  let start := round_down (vstart v_reg) bits in
  let end_ := round_up (vend v_reg) bits in
  (end_ -w start) / bit bits.

Definition calculate_extra_bi_size_bits (size : Z) : Z :=
  if size =? 0 then 0 else
  let msb := (WORD_BITS -w 1) -w leading_zeros (round_up size SEL4_PAGE_BITS) in
  if bit msb <? size then msb +w 1 else msb.

Section root.
Context `{Config}.

Definition arch_get_n_paging (it_v_reg : VRegion) : Z :=
  match target_arch with
  | RISCV64 => (0 +w get_n_paging it_v_reg (riscv_get_lvl_pgsize_bits 0))
                 +w get_n_paging it_v_reg (riscv_get_lvl_pgsize_bits 1)
  | AARCH64 => (get_n_paging it_v_reg (3 * PT_INDEX_BITS + PAGE_BITS)
                 +w get_n_paging it_v_reg (PT_INDEX_BITS + PAGE_BITS + PT_INDEX_BITS))
                 +w get_n_paging it_v_reg (PT_INDEX_BITS + PAGE_BITS)
  end.

Definition calculate_rootserver_size (it_v_reg : VRegion) (extra_bi_size_bits : Z) : Z :=
  let size := bit (CONFIG_ROOT_CNODE_SIZE_BITS + SEL4_SLOT_BITS) in
  let size := size +w bit SEL4_TCB_BITS in
  let size := size +w bit SEL4_PAGE_BITS in
  let size := size +w bit BI_FRAME_SIZE_BITS in
  let size := size +w bit SEL4_ASID_POOL_BITS in
  let size := size +w (if 0 <? extra_bi_size_bits then bit extra_bi_size_bits else 0) in
  let size := size +w bit SEL4_VSPACE_BITS in
  let size := if kernel_mcs then size +w bit SEL4_MIN_SCHED_CONTEXT_BITS else size in
  size +w (arch_get_n_paging it_v_reg *w bit SEL4_PAGE_TABLE_BITS).

Definition rootserver_max_size_bits (extra_bi_size_bits : Z) : Z :=
  let cnode_size_bits := CONFIG_ROOT_CNODE_SIZE_BITS + SEL4_SLOT_BITS in
  let maxx := if SEL4_VSPACE_BITS <? cnode_size_bits then cnode_size_bits else SEL4_VSPACE_BITS in
  if extra_bi_size_bits <? maxx then maxx else extra_bi_size_bits.

(** ** Memory for the objects (root_server.rs) *)

Definition mod_rootserver (f : rootserver_mem_t -> rootserver_mem_t) : B unit :=
  modify (fun s => s <| rootserver ::= f |>).

Definition alloc_rootserver_obj (size_bits n : Z) : B Z :=
  let* mem := gets rootserver_mem in
  let allocated := start mem in
  kassert (allocated mod bit size_bits =? 0) ;;;
  let next := allocated +w (n *w bit size_bits) in
  modify (fun s => s <| rootserver_mem := mem <| start := next |> |>) ;;;
  kassert (next <=? end_ mem) ;;;
  ret allocated.

Definition it_alloc_paging : B Z :=
  let* rs := gets rootserver in
  let allocated := start (rs_paging rs) in
  let next := allocated +w bit SEL4_PAGE_TABLE_BITS in
  mod_rootserver (fun r => r <| rs_paging := (rs_paging r) <| start := next |> |>) ;;;
  kassert (next <=? end_ (rs_paging rs)) ;;;
  ret allocated.

Definition maybe_alloc_extra_bi (cmp_size_bits extra_bi_size_bits : Z) : B unit :=
  let* rs := gets rootserver in
  when ((cmp_size_bits <=? extra_bi_size_bits) && (rs_extra_bi rs =? 0))
    (let* p := alloc_rootserver_obj extra_bi_size_bits 1 in
     mod_rootserver (fun r => r <| rs_extra_bi := p |>)).

Definition create_rootserver_objects (start_ : Z) (it_v_reg : VRegion) (extra_bi_size_bits : Z) : B unit :=
  let cnode_size_bits := CONFIG_ROOT_CNODE_SIZE_BITS + SEL4_SLOT_BITS in
  let max := rootserver_max_size_bits extra_bi_size_bits in
  let size := calculate_rootserver_size it_v_reg extra_bi_size_bits in
  modify (fun s => s <| rootserver_mem := mk_Region start_ (start_ +w size) |>) ;;;
  maybe_alloc_extra_bi max extra_bi_size_bits ;;;
  let* p := alloc_rootserver_obj cnode_size_bits 1 in
  mod_rootserver (fun r => r <| rs_cnode := p |>) ;;;
  maybe_alloc_extra_bi SEL4_VSPACE_BITS extra_bi_size_bits ;;;
  let* p := alloc_rootserver_obj SEL4_VSPACE_BITS 1 in
  mod_rootserver (fun r => r <| rs_vspace := p |>) ;;;
  maybe_alloc_extra_bi SEL4_PAGE_BITS extra_bi_size_bits ;;;
  let* p := alloc_rootserver_obj SEL4_ASID_POOL_BITS 1 in
  mod_rootserver (fun r => r <| rs_asid_pool := p |>) ;;;
  let* p := alloc_rootserver_obj SEL4_PAGE_BITS 1 in
  mod_rootserver (fun r => r <| rs_ipc_buf := p |>) ;;;
  let* p := alloc_rootserver_obj BI_FRAME_SIZE_BITS 1 in
  mod_rootserver (fun r => r <| rs_boot_info := p |>) ;;;
  let n := arch_get_n_paging it_v_reg in
  let* p := alloc_rootserver_obj SEL4_PAGE_TABLE_BITS n in
  mod_rootserver (fun r => r <| rs_paging := mk_Region p (p +w (n *w bit SEL4_PAGE_TABLE_BITS)) |>) ;;;
  let* p := alloc_rootserver_obj SEL4_TCB_BITS 1 in
  mod_rootserver (fun r => r <| rs_tcb := p |>) ;;;
  when kernel_mcs
    (let* p := alloc_rootserver_obj SEL4_MIN_SCHED_CONTEXT_BITS 1 in
     mod_rootserver (fun r => r <| rs_sc := p |>)) ;;;
  let* mem := gets rootserver_mem in
  kassert (start mem =? end_ mem).

(** The kernel uses the memory of the objects without clearing it: memory that
    was never used holds zeroes, read as objects of their types. *)
Definition rootserver_memory : B unit :=
  let* rs := gets rootserver in
  on_kernel (
    new_slots (rs_cnode rs) (Z.to_nat (2 ^ CONFIG_ROOT_CNODE_SIZE_BITS)) ;;;
    new_table (rs_vspace rs) ;;;
    (match target_arch with
     | RISCV64 => on_vspace (on_pools (modify (fun h => <[rs_asid_pool rs := replicate 512 0]> h)))
     | AARCH64 => on_vspace (on_map_pools (modify (fun h => <[rs_asid_pool rs := replicate 512 asid_map_none]> h)))
     end) ;;;
    for_range (Z.to_nat ((end_ (rs_paging rs) - start (rs_paging rs)) / bit SEL4_PAGE_TABLE_BITS)) 0
      (fun i => new_table (start (rs_paging rs) + i * bit SEL4_PAGE_TABLE_BITS)) ;;;
    modify (fun s => s <| tcbs := <[rs_tcb rs +w TCB_OFFSET :=
                            zero_tcb (mk_ArchTCB (map (fun _ => 0) (registers ArchTCB_default)))]> (tcbs s) |>) ;;;
    new_slots (rs_tcb rs) (Z.to_nat TCB_CNODE_ENTRIES) ;;;
    when kernel_mcs
      (let n := Z.to_nat (refill_absolute_max (mk_sched_context_cap (rs_sc rs) SEL4_MIN_SCHED_CONTEXT_BITS)) in
       modify (fun s => s <| scs := <[rs_sc rs := zero_sc n]> (scs s) |>))).

(** Index arithmetic is that of [usize]; the first loop skips empty regions
    from the end, the second tries region [i] and moves it up by one when it is
    too small. *)
Fixpoint last_region (fuel : nat) (i : Z) : B Z :=
  match fuel with
  | O => fail EFuel
  | S fuel =>
      if i =? UINT64_MAX then ret i else
      let* r := get_freemem i in
      if is_empty r then last_region fuel (i -w 1) else ret i
  end.

Fixpoint place_rootserver (fuel : nat) (it_v_reg : VRegion) (extra_bi_size_bits size max i : Z) : B unit :=
  match fuel with
  | O => fail EFuel
  | S fuel =>
      let* m := gets freemem in
      let len := Z.of_nat (length m) in
      if negb (i =? UINT64_MAX) && (i <? len) then
        kassert (i <? len - 1) ;;;
        let* next := get_freemem (i + 1) in
        kassert (is_empty next) ;;;
        let* r := get_freemem i in
        let unaligned_start := end_ r -w size in
        let start_ := round_down unaligned_start max in
        if (unaligned_start <=? end_ r) && (start r <=? start_) then
          create_rootserver_objects start_ it_v_reg extra_bi_size_bits ;;;
          rootserver_memory ;;;
          set_freemem (i + 1) (mk_Region (start_ +w size) (end_ r)) ;;;
          set_freemem i (r <| end_ := start_ |>)
        else
          set_freemem (i + 1) r ;;;
          set_freemem i Region_empty ;;;
          place_rootserver fuel it_v_reg extra_bi_size_bits size max (i -w 1)
      else ret tt
  end.

Definition freemem_fuel : nat := S (S (Z.to_nat MAX_NUM_FREEMEM_REG)).

Definition root_server_mem_init (it_v_reg : VRegion) (extra_bi_size_bits : Z) : B unit :=
  let size := calculate_rootserver_size it_v_reg extra_bi_size_bits in
  let max := rootserver_max_size_bits extra_bi_size_bits in
  let* m := gets freemem in
  let* i := last_region freemem_fuel (Z.of_nat (length m) - 1) in
  place_rootserver freemem_fuel it_v_reg extra_bi_size_bits size max i.

(** ** Capabilities of the root CNode (root_server.rs) *)

Definition cnode_slot (root_cnode_cap : cnode_cap) (i : Z) : Z := get_offset_slot (capCNodePtr root_cnode_cap) i.

Definition create_root_cnode : B cnode_cap :=
  let* rs := gets rootserver in
  let c := mk_cnode_cap CONFIG_ROOT_CNODE_SIZE_BITS (WORD_BITS - CONFIG_ROOT_CNODE_SIZE_BITS) 0 (rs_cnode rs) in
  write_slot (get_offset_slot (rs_cnode rs) SEL4_CAP_INIT_THREAD_CNODE) (cap_cnode_cap c) ;;;
  ret c.

Definition create_domain_cap (root_cnode_cap : cnode_cap) : B unit :=
  kassert (0 <? KS_DOM_SCHEDULE_LENGTH) ;;;
  for_range (Z.to_nat KS_DOM_SCHEDULE_LENGTH) 0 (fun i =>
    let* d := lift_res (array_get ksDomSchedule i) in
    kassert (ds_domain d <? CONFIG_NUM_DOMAINS) ;;;
    kassert (0 <? ds_length d)) ;;;
  write_slot (cnode_slot root_cnode_cap SEL4_CAP_DOMAIN) cap_domain_cap.

Definition init_irqs (root_cnode_cap : cnode_cap) : B unit :=
  on_kernel (
    for_range (Z.to_nat (MAX_IRQ + 1)) 0 (fun i =>
      when (negb (i =? IRQ_INVALID)) (set_irq_state_by_irq IRQInactive i)) ;;;
    set_irq_state_by_irq IRQTimer KERNEL_TIMER_IRQ) ;;;
  write_slot (cnode_slot root_cnode_cap SEL4_CAP_IRQ_CONTROL) cap_irq_control_cap.

Definition init_smc (root_cnode_cap : cnode_cap) : B unit :=
  write_slot (cnode_slot root_cnode_cap SEL4_CAP_SMC) (cap_smc_cap 0).

(** [clear_memory] on memory that may also hold extra boot information. *)
Definition clear_boot_memory (ptr bits : Z) : B unit :=
  on_kernel (clear_memory ptr bits) ;;;
  modify (fun s => s <| headers := drop_region ptr (bit bits) (headers s) |>
                     <| bytes := drop_region ptr (bit bits) (bytes s) |>).

Definition rust_populate_bi_frame (node_id num_nodes ipcbuf_vptr extra_bi_size : Z) : B unit :=
  let* rs := gets rootserver in
  clear_boot_memory (rs_boot_info rs) BI_FRAME_SIZE_BITS ;;;
  when (negb (extra_bi_size =? 0))
    (clear_boot_memory (rs_extra_bi rs) (calculate_extra_bi_size_bits extra_bi_size)) ;;;
  let* idx := on_kernel (gets ksDomScheduleIdx) in
  let* d := lift_res (array_get ksDomSchedule idx) in
  modify (fun s => s <| boot_info :=
    BootInfo_zero <| nodeID := node_id |> <| numNodes := num_nodes |> <| numIOPTLevels := 0 |>
      <| ipcBuffer := ipcbuf_vptr |> <| initThreadCNodeSizeBits := CONFIG_ROOT_CNODE_SIZE_BITS |>
      <| initThreadDomain := ds_domain d |> <| extraLen := extra_bi_size |> |>) ;;;
  modify (fun s => s <| bi_frame := rs_boot_info rs |> <| slot_pos_cur := SEL4_NUM_INITIAL_CAPS |>).

Definition init_sched_control (root_cnode_cap : cnode_cap) (num_nodes : Z) : B bool :=
  let* slot_pos_before := gets slot_pos_cur in
  let* ok := (fix loop (n : nat) (i : Z) : B bool :=
    match n with
    | O => ret true
    | S n =>
        let* ok := provide_cap root_cnode_cap (cap_sched_control_cap i) in
        if ok : bool then loop n (i + 1) else ret false
    end) (Z.to_nat num_nodes) 0 in
  if negb ok then ret false else
  let* pos := gets slot_pos_cur in
  mod_boot_info (fun bi => bi <| schedcontrol := mk_SlotRegion slot_pos_before pos |>) ;;;
  ret true.

(** ** The address space of the initial thread (root_server.rs) *)

(** One loop of [rust_create_it_address_space]: a table for every step of
    2^[bits] bytes; false when the root CNode is full. *)
Fixpoint it_tables (fuel : nat) (root_cnode_cap : cnode_cap) (create : Z -> Z -> V page_table_cap)
    (bits vptr vend_ : Z) : B bool :=
  match fuel with
  | O => fail EFuel
  | S fuel =>
      if vptr <? vend_ then
        let* table := it_alloc_paging in
        let* c := on_kernel (on_vspace (create table vptr)) in
        let* ok := provide_cap root_cnode_cap (cap_page_table_cap c) in
        if ok : bool then it_tables fuel root_cnode_cap create bits (vptr +w bit bits) vend_ else ret false
      else ret true
  end.

(** Every round takes one of the page tables reserved for the image. *)
Definition it_tables_level (root_cnode_cap : cnode_cap) (create : Z -> Z -> V page_table_cap)
    (bits : Z) (it_v_reg : VRegion) : B bool :=
  let first := round_down (vstart it_v_reg) bits in
  it_tables (S (Z.to_nat ((vend it_v_reg - first) / bit bits + 1))) root_cnode_cap create bits first (vend it_v_reg).

Definition rust_create_it_address_space (root_cnode_cap : cnode_cap) (it_v_reg : VRegion) : B cap :=
  let* rs := gets rootserver in
  when is_riscv (on_kernel (copyGlobalMappings (rs_vspace rs))) ;;;
  let vs := mk_vspace_cap IT_ASID (rs_vspace rs) 1 in
  let root := match target_arch with
              | RISCV64 => cap_page_table_cap (mk_page_table_cap IT_ASID (rs_vspace rs) 1 (rs_vspace rs))
              | AARCH64 => cap_vspace_cap vs
              end in
  let failed := match target_arch with
                | RISCV64 => cap_page_table_cap (mk_page_table_cap 0 0 0 0)
                | AARCH64 => cap_vspace_cap (mk_vspace_cap 0 0 0)
                end in
  let* slot_pos_before := gets slot_pos_cur in
  write_slot (cnode_slot root_cnode_cap SEL4_CAP_INIT_THREAD_VSPACE) root ;;;
  let pt pptr vptr := create_it_pt_cap root pptr vptr IT_ASID in
  let* ok :=
    match target_arch with
    | RISCV64 => it_tables_level root_cnode_cap pt (riscv_get_lvl_pgsize_bits 0) it_v_reg
    | AARCH64 =>
        let* ok := it_tables_level root_cnode_cap
                     (fun pptr vptr => create_it_pud_cap vs pptr vptr IT_ASID) PGD_INDEX_OFFSET it_v_reg in
        if negb ok then ret false else
        it_tables_level root_cnode_cap
          (fun pptr vptr => create_it_pd_cap vs pptr vptr IT_ASID) PUD_INDEX_OFFSET it_v_reg
    end in
  if negb ok then ret failed else
  let* ok := it_tables_level root_cnode_cap pt PD_INDEX_OFFSET it_v_reg in
  if negb ok then ret failed else
  let* slot_pos_after := gets slot_pos_cur in
  mod_boot_info (fun bi => bi <| userImagePaging := mk_SlotRegion slot_pos_before slot_pos_after |>) ;;;
  ret root.

Record create_frames_of_region_ret_t := mk_create_frames_ret { cf_region : SlotRegion; cf_success : bool }.

Fixpoint frames_loop (fuel : nat) (root_cnode_cap : cnode_cap) (pd_cap : cap) (reg_end : Z) (do_map : bool)
    (pv_offset f : Z) : B bool :=
  match fuel with
  | O => fail EFuel
  | S fuel =>
      if f <? reg_end then
        let* c := if do_map
                  then on_kernel (on_vspace (create_mapped_it_frame_cap pd_cap f (to_paddr (f -w pv_offset))
                                               IT_ASID false true))
                  else ret (create_unmapped_it_frame_cap f false) in
        let* ok := provide_cap root_cnode_cap (cap_frame_cap c) in
        if ok : bool then frames_loop fuel root_cnode_cap pd_cap reg_end do_map pv_offset (f +w bit PAGE_BITS)
        else ret false
      else ret true
  end.

(** Every round fills a slot of the root CNode. *)
Definition frames_fuel : nat := S (S (Z.to_nat (2 ^ CONFIG_ROOT_CNODE_SIZE_BITS))).

Definition rust_create_frames_of_region (root_cnode_cap : cnode_cap) (pd_cap : cap) (reg : Region)
    (do_map : bool) (pv_offset : Z) : B create_frames_of_region_ret_t :=
  let* slot_pos_before := gets slot_pos_cur in
  let* ok := frames_loop frames_fuel root_cnode_cap pd_cap (end_ reg) do_map pv_offset (start reg) in
  if negb ok then ret (mk_create_frames_ret SlotRegion_zero false) else
  let* slot_pos_after := gets slot_pos_cur in
  ret (mk_create_frames_ret (mk_SlotRegion slot_pos_before slot_pos_after) true).

Definition create_bi_frame_cap (root_cnode_cap : cnode_cap) (pd_cap : cap) (vptr : Z) : B unit :=
  let* rs := gets rootserver in
  let* c := on_kernel (on_vspace (create_mapped_it_frame_cap pd_cap (rs_boot_info rs) vptr IT_ASID false false)) in
  write_slot (cnode_slot root_cnode_cap SEL4_CAP_BOOT_INFO_FRAME) (cap_frame_cap c).

Definition init_bi_frame_cap (root_cnode_cap : cnode_cap) (it_pd_cap : cap)
    (bi_frame_vptr extra_bi_size extra_bi_frame_vptr : Z) : B bool :=
  create_bi_frame_cap root_cnode_cap it_pd_cap bi_frame_vptr ;;;
  if 0 <? extra_bi_size then
    let* rs := gets rootserver in
    let extra_bi_region := mk_Region (rs_extra_bi rs) (rs_extra_bi rs +w extra_bi_size) in
    let* r := rust_create_frames_of_region root_cnode_cap it_pd_cap extra_bi_region true
                (to_paddr (start extra_bi_region) -w extra_bi_frame_vptr) in
    if negb (cf_success r) then ret false else
    mod_boot_info (fun bi => bi <| extraBIPages := cf_region r |>) ;;;
    ret true
  else ret true.

(** The cleared frame can hold an IPC buffer. *)
Definition create_ipcbuf_frame_cap (root_cnode_cap : cnode_cap) (pd_cap : cap) (vptr : Z) : B frame_cap :=
  let* rs := gets rootserver in
  clear_boot_memory (rs_ipc_buf rs) PAGE_BITS ;;;
  on_kernel (new_frame (rs_ipc_buf rs) PAGE_BITS 0) ;;;
  let* c := on_kernel (on_vspace (create_mapped_it_frame_cap pd_cap (rs_ipc_buf rs) vptr IT_ASID false false)) in
  write_slot (cnode_slot root_cnode_cap SEL4_CAP_INIT_THREAD_IPC_BUFFER) (cap_frame_cap c) ;;;
  ret c.

Definition create_frame_ui_frames (root_cnode_cap : cnode_cap) (it_pd_cap : cap) (ui_reg : Region)
    (pv_offset : Z) : B bool :=
  let* r := rust_create_frames_of_region root_cnode_cap it_pd_cap ui_reg true pv_offset in
  if negb (cf_success r) then ret false else
  mod_boot_info (fun bi => bi <| userImageFrames := cf_region r |>) ;;;
  ret true.

Definition create_it_asid_pool (root_cnode_cap : cnode_cap) : B cap :=
  let* rs := gets rootserver in
  let ap_cap := cap_asid_pool_cap (mk_asid_pool_cap (IT_ASID >>w ASID_LOW_BITS) (rs_asid_pool rs)) in
  write_slot (cnode_slot root_cnode_cap SEL4_CAP_INIT_THREAD_ASID_POOL) ap_cap ;;;
  write_slot (cnode_slot root_cnode_cap SEL4_CAP_ASID_CONTROL) cap_asid_control_cap ;;;
  ret ap_cap.

Definition asid_init (root_cnode_cap : cnode_cap) (it_pd_cap : cap) : B bool :=
  let* it_ap_cap := create_it_asid_pool root_cnode_cap in
  on_kernel (on_vspace (write_it_asid_pool it_ap_cap it_pd_cap)) ;;;
  ret true.

(** ** The initial thread (root_server.rs) *)

(** The address of the TCB, or 0.  On RISC-V the length of the domain is
    written once more, in milliseconds. *)
Definition create_initial_thread (root_cnode_cap : cnode_cap) (it_pd_cap : cap)
    (ui_v_entry bi_frame_vptr ipcbuf_vptr : Z) (ipcbuf_cap : frame_cap) : B Z :=
  let* rs := gets rootserver in
  let tcb := rs_tcb rs +w TCB_OFFSET in
  let slot := cnode_slot root_cnode_cap in
  on_kernel (
    when kernel_mcs (mod_tcb tcb (fun t => t <| tcbTimeSlice := CONFIG_TIME_SLICE |>)) ;;;
    mod_tcb tcb (fun t => t <| tcbArch := ArchTCB_default |>)) ;;;
  let* dc_ret := on_kernel (on_ctes (derive_cap (slot SEL4_CAP_INIT_THREAD_IPC_BUFFER) (cap_frame_cap ipcbuf_cap))) in
  if negb (exc_ok (dc_status dc_ret)) then ret 0 else
  on_kernel (
    on_ctes (cte_insert (cap_cnode_cap root_cnode_cap) (slot SEL4_CAP_INIT_THREAD_CNODE) (get_cspace tcb TCB_CTABLE)) ;;;
    on_ctes (cte_insert it_pd_cap (slot SEL4_CAP_INIT_THREAD_VSPACE) (get_cspace tcb TCB_VTABLE)) ;;;
    on_ctes (cte_insert (dc_capability dc_ret) (slot SEL4_CAP_INIT_THREAD_IPC_BUFFER) (get_cspace tcb TCB_BUFFER)) ;;;
    mod_tcb tcb (fun t => t <| tcbIPCBuffer := ipcbuf_vptr |>) ;;;
    set_register tcb Cap bi_frame_vptr ;;;
    set_register tcb NextIP ui_v_entry ;;;
    when kernel_mcs
      (configure_sched_context tcb (rs_sc rs) (us_to_ticks (CONFIG_BOOT_THREAD_TIME_SLICE *w US_IN_MS))) ;;;
    mod_tcb tcb (fun t => t <| tcbMCP := SEL4_MAX_PRIO |> <| tcbPriority := SEL4_MAX_PRIO |>) ;;;
    set_thread_state tcb ThreadStateRunning ;;;
    when (negb kernel_mcs) (setup_reply_master tcb) ;;;
    let* idx := gets ksDomScheduleIdx in
    let* d := lift_res (array_get ksDomSchedule idx) in
    modify (fun s => s <| ksCurDomain := ds_domain d |>) ;;;
    modify (fun s => s <| ksDomainTime :=
      if kernel_mcs then us_to_ticks (ds_length d *w US_IN_MS) else ds_length d |>) ;;;
    when is_riscv (modify (fun s => s <| ksDomainTime := ds_length d |>)) ;;;
    mod_tcb tcb (fun t => t <| domain := ds_domain d |>)) ;;;
  write_slot (slot SEL4_CAP_INIT_THREAD_TCB) (cap_thread_cap tcb) ;;;
  when kernel_mcs
    (let* t := on_kernel (get_tcb tcb) in
     write_slot (slot SEL4_CAP_INIT_THREAD_SC)
       (cap_sched_context_cap (mk_sched_context_cap (tcbSchedContext t) SEL4_MIN_SCHED_CONTEXT_BITS))) ;;;
  ret tcb.

Definition root_server_init (it_v_reg : VRegion) (extra_bi_size_bits ipcbuf_vptr bi_frame_vptr extra_bi_size
    extra_bi_frame_vptr : Z) (ui_reg : Region) (pv_offset v_entry : Z) : B (option (Z * cnode_cap)) :=
  root_server_mem_init it_v_reg extra_bi_size_bits ;;;
  let* root_cnode_cap := create_root_cnode in
  create_domain_cap root_cnode_cap ;;;
  init_irqs root_cnode_cap ;;;
  when enable_smc (init_smc root_cnode_cap) ;;;
  rust_populate_bi_frame 0 CONFIG_MAX_NUM_NODES ipcbuf_vptr extra_bi_size ;;;
  let* it_pd_cap := rust_create_it_address_space root_cnode_cap it_v_reg in
  if is_null_cap it_pd_cap then ret None else
  let* ok := init_bi_frame_cap root_cnode_cap it_pd_cap bi_frame_vptr extra_bi_size extra_bi_frame_vptr in
  if negb ok then ret None else
  when kernel_mcs (init_sched_control root_cnode_cap CONFIG_MAX_NUM_NODES ;;; ret tt) ;;;
  let* ipcbuf_cap := create_ipcbuf_frame_cap root_cnode_cap it_pd_cap ipcbuf_vptr in
  let* ok := create_frame_ui_frames root_cnode_cap it_pd_cap ui_reg pv_offset in
  if negb ok then ret None else
  let* ok := asid_init root_cnode_cap it_pd_cap in
  if negb ok then ret None else
  when kernel_mcs (on_kernel (modify (fun s => s <| ksCurTime := hw_time s |>))) ;;;
  let* initial := create_initial_thread root_cnode_cap it_pd_cap v_entry bi_frame_vptr ipcbuf_vptr ipcbuf_cap in
  if initial =? 0 then ret None else ret (Some (initial, root_cnode_cap)).

(** ** The device tree and the extra boot information (mod.rs) *)

(** The region of the device tree and the size of the extra boot information. *)
Definition init_dtb (dtb_size dtb_phys_addr extra_bi_size : Z) : option (PRegion * Z) :=
  if 0 <? dtb_size then
    let dtb_phys_end := dtb_phys_addr +w dtb_size in
    if dtb_phys_end <? dtb_phys_addr then None
    else if PADDR_TOP <=? dtb_phys_end then None
    else Some (mk_PRegion dtb_phys_addr dtb_phys_end, extra_bi_size +w (boot_info_header_size +w dtb_size))
  else Some (PRegion_empty, extra_bi_size).

Definition write_header (p : Z) (h : BootInfoHeader) : B unit :=
  modify (fun s => s <| headers ::= <[p := h]> |>).

(** [dst.copy_from_slice(src)]. *)
Definition copy_bytes (dst src n : Z) : B unit :=
  for_range (Z.to_nat n) 0 (fun i =>
    let* h := gets bytes in
    match h !! (src + i) with
    | Some b => modify (fun s => s <| bytes ::= <[dst + i := b]> |>)
    | None => fail EUndef
    end).

Definition init_bootinfo (dtb_size dtb_phys_addr extra_bi_size : Z) : B unit :=
  let* rs := gets rootserver in
  let* extra_bi_offset :=
    if 0 <? dtb_size then
      write_header (rs_extra_bi rs +w 0)
        (mk_BootInfoHeader SEL4_BOOTINFO_HEADER_FDT (boot_info_header_size +w dtb_size)) ;;;
      copy_bytes (rs_extra_bi rs +w boot_info_header_size) (to_pptr dtb_phys_addr) dtb_size ;;;
      ret (boot_info_header_size +w dtb_size)
    else ret 0 in
  when (extra_bi_offset <? extra_bi_size)
    (write_header (rs_extra_bi rs +w extra_bi_offset)
       (mk_BootInfoHeader SEL4_BOOTINFO_HEADER_PADDING (extra_bi_size -w extra_bi_offset))).

Definition bi_finalise (dtb_size dtb_phys_addr extra_bi_size : Z) : B unit :=
  let* pos := gets slot_pos_cur in
  mod_boot_info (fun bi => bi <| empty := mk_SlotRegion pos (bit CONFIG_ROOT_CNODE_SIZE_BITS) |>) ;;;
  init_bootinfo dtb_size dtb_phys_addr extra_bi_size.

Definition init_core_state (scheduler_action : Z) : K unit :=
  modify (fun s => s <| ksSchedulerAction := scheduler_action |>) ;;;
  let* idle := gets ksIdleThread in
  kassert (negb (idle =? 0)) ;;;
  set_current_thread idle ;;;
  when kernel_mcs
    (let* t := get_tcb idle in
     modify (fun s => s <| ksCurSC := tcbSchedContext t |> <| ksConsumed := 0 |> <| ksReprogram := true |>
                        <| ksReleaseQueue := mk_tcb_queue 0 0 |> <| ksCurTime := hw_time s |>)).
End root.

Section boot.
Context `{Config} `{Platform}.

(** ** The idle thread (sel4_task/src/scheduler.rs, sel4_common/src/arch/*/arch_tcb.rs) *)

Definition config_idle_thread (t : ArchTCB) : res ArchTCB :=
  match target_arch with
  | RISCV64 =>
      match array_set (registers t) 34 idle_thread with
      | Ok l =>
          match array_set l 32 (Z.lor 0x00000100 0x00000020) with
          | Ok l => match array_set l 1 kernel_stack_top with Ok l => Ok (mk_ArchTCB l) | Err e => Err e end
          | Err e => Err e
          end
      | Err e => Err e
      end
  | AARCH64 =>
      match array_set (registers t) 32 idle_thread with
      | Ok l =>
          match array_set l 33 (Z.lor (Z.lor (bit 6) 5) (bit 8)) with
          | Ok l => Ok (mk_ArchTCB l)
          | Err e => Err e
          end
      | Err e => Err e
      end
  end.

Definition create_idle_thread : K unit :=
  let idle := ksIdleThreadTCB +w TCB_OFFSET in
  modify (fun s => s <| ksIdleThread := idle |>) ;;;
  let* t := get_tcb idle in
  let* arch := lift_res (config_idle_thread (tcbArch t)) in
  mod_tcb idle (fun t => t <| tcbArch := arch |>) ;;;
  set_thread_state idle ThreadStateIdleThreadState ;;;
  when kernel_mcs
    (mod_tcb idle (fun t => t <| tcbYieldTo := 0 |>) ;;;
     configure_sched_context idle ksIdleThreadSC (us_to_ticks (CONFIG_BOOT_THREAD_TIME_SLICE *w US_IN_MS)) ;;;
     modify (fun s => s <| ksIdleSC := ksIdleThreadSC |>)).

(** ** Free memory (arch/*/platform.rs) *)

Definition set_res_reg (i : Z) (r : Region) : B unit :=
  let* l := gets res_reg in
  let* l := lift_res (array_set l i r) in modify (fun s => s <| res_reg := l |>).

Definition init_freemem (ui_p_reg dtb_p_reg : PRegion) : B bool :=
  set_res_reg 0 (mk_Region (to_pptr (kpptr_to_paddr KERNEL_ELF_BASE)) (to_pptr (kpptr_to_paddr ki_end))) ;;;
  let index := 1 in
  let* index :=
    if negb (pstart dtb_p_reg =? 0)
    then set_res_reg index (to_region dtb_p_reg) ;;; ret (index + 1) else ret index in
  let* index :=
    if is_riscv || (pstart ui_p_reg <? PADDR_TOP) then
      if NUM_RESERVED_REGIONS <=? index then ret None
      else set_res_reg index (to_region ui_p_reg) ;;; ret (Some (index + 1))
    else reserve_region ui_p_reg ;;; ret (Some index) in
  match index with
  | None => ret false
  | Some index =>
      let* l := gets res_reg in
      rust_init_freemem avail_p_regs (take (Z.to_nat index) l)
  end.

(** ** The boot sequence (arch/*/boot.rs)

    Logging and the set-up of the processor and of the drivers are left out:
    of [init_cpu] the model has the switch to the kernel's page tables. *)

Definition init_cpu : K unit := on_vspace activate_kernel_vspace.

Definition intStateIRQNodeToR : K unit := mod_irqs (fun i => i <| int_state_irq_node_ptr := intStateIRQNode |>).

Definition try_init_kernel (ui_p_reg_start ui_p_reg_end pv_offset v_entry dtb_phys_addr dtb_size
    ki_boot_end : Z) : B bool :=
  on_kernel intStateIRQNodeToR ;;;
  let boot_mem_reuse_reg :=
    to_region (mk_PRegion (kpptr_to_paddr KERNEL_ELF_BASE) (kpptr_to_paddr ki_boot_end)) in
  let ui_p_reg := mk_PRegion ui_p_reg_start ui_p_reg_end in
  let ui_reg := to_region ui_p_reg in
  let ui_v_reg := mk_VRegion (ui_p_reg_start -w pv_offset) (ui_p_reg_end -w pv_offset) in
  let ipcbuf_vptr := vend ui_v_reg in
  let bi_frame_vptr := ipcbuf_vptr +w bit PAGE_BITS in
  let extra_bi_frame_vptr := bi_frame_vptr +w bit BI_FRAME_SIZE_BITS in
  rust_map_kernel_window ;;;
  on_kernel init_cpu ;;;
  match init_dtb dtb_size dtb_phys_addr 0 with
  | None => ret false
  | Some (dtb_p_reg, extra_bi_size) =>
      let extra_bi_size_bits := calculate_extra_bi_size_bits extra_bi_size in
      let it_v_reg := mk_VRegion (vstart ui_v_reg) (extra_bi_frame_vptr +w bit extra_bi_size_bits) in
      if USER_TOP <=? vend it_v_reg then ret false else
      let* ok := init_freemem ui_p_reg dtb_p_reg in
      if negb ok then ret false else
      let* r := root_server_init it_v_reg extra_bi_size_bits ipcbuf_vptr bi_frame_vptr extra_bi_size
                  extra_bi_frame_vptr ui_reg pv_offset v_entry in
      match r with
      | None => ret false
      | Some (initial_thread, root_cnode_cap) =>
          on_kernel create_idle_thread ;;;
          on_kernel (init_core_state initial_thread) ;;;
          create_untypeds root_cnode_cap boot_mem_reuse_reg ;;;
          mod_boot_info (fun bi => bi <| sharedFrames := SlotRegion_zero |>) ;;;
          bi_finalise dtb_size dtb_phys_addr extra_bi_size ;;;
          modify (fun s => s <| ksNumCPUs := 1 |>) ;;;
          ret true
      end
  end.

(** The entry point (main.rs). *)
Definition init_kernel (ui_p_reg_start ui_p_reg_end pv_offset v_entry dtb_addr_p dtb_size ki_boot_end : Z) : B unit :=
  let* result := try_init_kernel ui_p_reg_start ui_p_reg_end pv_offset v_entry dtb_addr_p dtb_size ki_boot_end in
  if negb result then fail EPanic else
  on_kernel schedule ;;;
  on_kernel activateThread.
End boot.
