(* ===== verification/BootRootProps.v ===== *)
(** * The memory of the root server

    [root_server_mem_init] takes the memory of all objects of the initial
    thread as one block out of a free region.  The objects fill the block
    exactly, each aligned to its size, no two of them overlap, and what was
    free and is not in the block is still free. *)

From S2P Require Import Prelude Monad Config Objects State CapOps CSpace VSpace Refill Untyped Example.
From S2P Require Import BootMem BootMemProps BootVSpace BootRoot.

Section layout.
Context `{Config}.
Implicit Types (s : bstate) (rs : rootserver_mem_t).

(** ** Alignment *)

Lemma pow2_divide i j : 0 <= i <= j -> (2 ^ i | 2 ^ j).
Proof. intros ?. exists (2 ^ (j - i)). rewrite <- Z.pow_add_r by lia. f_equal. lia. Qed.

Lemma wadd_list l a :
  0 <= a -> Forall (fun x => 0 <= x) l -> a + foldr Z.add 0 l < word_size -> fold_left wadd l a = a + foldr Z.add 0 l.
Proof.
  revert a. induction l as [|x l IH]; intros a Ha Hl Hs; cbn in *; [lia|]. apply Forall_cons in Hl as [Hx Hl].
  assert (0 <= foldr Z.add 0 l) by (clear -Hl; induction Hl; cbn; lia).
  rewrite wadd_small, IH; try done; lia.
Qed.

(** ** Allocation *)

Definition rs_state (p e : Z) (rs : rootserver_mem_t) (s : bstate) : bstate :=
  s <| rootserver_mem := mk_Region p e |> <| rootserver := rs |>.

Lemma mod_rootserver_ok f p e rs s :
  mod_rootserver f (rs_state p e rs s) = Ok (tt, rs_state p e (f rs) s).
Proof. done. Qed.

Lemma alloc_ok bits n p e rs s :
  0 <= bits < 64 -> 0 <= n -> 0 <= p -> (2 ^ bits | p) -> p + n * 2 ^ bits <= e -> e < word_size ->
  alloc_rootserver_obj bits n (rs_state p e rs s) = Ok (p, rs_state (p + n * 2 ^ bits) e rs s).
Proof.
  intros Hb Hn Hp Ha He Hw. unfold alloc_rootserver_obj. rewrite (bit_pow bits Hb).
  pose proof (pow2_pos bits ltac:(lia)). apply Z.mod_divide in Ha; [|lia].
  assert (E : p +w (n *w 2 ^ bits) = p + n * 2 ^ bits).
  { assert (n *w 2 ^ bits = n * 2 ^ bits) as -> by (apply wrap_small; unfold is_word; nia). apply wadd_small; nia. }
  cbn -[Z.pow Z.modulo]. rewrite Ha. cbn -[Z.pow Z.modulo]. unfold bind, gets, modify, kassert, ret.
  cbn -[Z.pow Z.modulo]. rewrite E. by rewrite (proj2 (Z.leb_le _ _) He).
Qed.

(** ** Where the objects go *)

Definition cnode_bits : Z := CONFIG_ROOT_CNODE_SIZE_BITS + SEL4_SLOT_BITS.
Definition extra_early (eb : Z) : Z := if cnode_bits <=? eb then 2 ^ eb else 0.
Definition extra_late (eb : Z) : Z := if (0 <? eb) && (eb <? cnode_bits) then 2 ^ eb else 0.

(** [n] page tables, [2^eb] bytes of extra boot information, from [p] on. *)
Definition layout (p eb n sc : Z) : rootserver_mem_t :=
  let cnode := p + extra_early eb in
  let vs := cnode + 2 ^ cnode_bits + extra_late eb in
  let tcb := vs + (4 + n) * 2 ^ 12 in
  mk_rootserver_mem cnode vs (vs + 2 ^ 12) (vs + 2 * 2 ^ 12) (vs + 3 * 2 ^ 12)
    (if cnode_bits <=? eb then p else if 0 <? eb then cnode + 2 ^ cnode_bits else 0)
    tcb (if kernel_mcs then tcb + 2 ^ SEL4_TCB_BITS else sc) (mk_Region (vs + 4 * 2 ^ 12) tcb).

Definition layout_size (eb n : Z) : Z :=
  extra_early eb + 2 ^ cnode_bits + extra_late eb + (4 + n) * 2 ^ 12 + 2 ^ SEL4_TCB_BITS +
  (if kernel_mcs then 2 ^ SEL4_MIN_SCHED_CONTEXT_BITS else 0).

(** The device tree leaves no extra boot information or at least a page of it. *)
Definition extra_ok (eb : Z) : Prop := eb = 0 \/ 12 <= eb <= 40.
Definition paging_ok (n : Z) : Prop := 0 <= n <= 2 ^ 30.

Lemma extra_cases eb :
  extra_ok eb ->
  (eb = 0 /\ extra_early eb = 0 /\ extra_late eb = 0) \/
  (12 <= eb < 17 /\ extra_early eb = 0 /\ extra_late eb = 2 ^ eb) \/
  (17 <= eb <= 40 /\ extra_early eb = 2 ^ eb /\ extra_late eb = 0).
Proof.
  unfold extra_early, extra_late. change cnode_bits with 17. intros [->|He]; [by left|right].
  destruct (Z.leb_spec 17 eb), (Z.ltb_spec eb 17), (Z.ltb_spec 0 eb); try lia; cbn [andb]; [right|left]; lia.
Qed.

Lemma tcb_bits_range : 10 <= SEL4_TCB_BITS <= 11.
Proof. unfold SEL4_TCB_BITS. repeat case_match; lia. Qed.

Lemma tcb_bytes : 2 ^ 10 <= 2 ^ SEL4_TCB_BITS <= 2 ^ 11.
Proof. pose proof tcb_bits_range. split; apply Z.pow_le_mono_r; lia. Qed.

Lemma max_size_bits eb : extra_ok eb -> rootserver_max_size_bits eb = Z.max 17 eb.
Proof.
  intros _. unfold rootserver_max_size_bits. change (CONFIG_ROOT_CNODE_SIZE_BITS + SEL4_SLOT_BITS) with 17.
  change (SEL4_VSPACE_BITS <? 17) with true. cbv iota zeta. destruct (Z.ltb_spec eb 17); lia.
Qed.

Lemma layout_size_bound eb n : extra_ok eb -> paging_ok n -> 0 < layout_size eb n < 2 ^ 43.
Proof.
  intros He Hn. unfold layout_size, paging_ok in *. change cnode_bits with 17. change SEL4_MIN_SCHED_CONTEXT_BITS with 7.
  pose proof tcb_bytes. assert (0 <= extra_early eb + extra_late eb <= 2 ^ 40).
  { destruct (extra_cases eb He) as [(-> & -> & ->)|[(? & -> & ->)|(? & -> & ->)]]; [lia|..];
      pose proof (Z.pow_le_mono_r 2 eb 40); pose proof (pow2_pos eb); lia. }
  destruct kernel_mcs; lia.
Qed.

Lemma rootserver_size v eb :
  extra_ok eb -> paging_ok (arch_get_n_paging v) ->
  calculate_rootserver_size v eb = layout_size eb (arch_get_n_paging v).
Proof.
  intros He Hn. pose proof (layout_size_bound eb _ He Hn) as Hb. pose proof tcb_bits_range. pose proof tcb_bytes.
  unfold calculate_rootserver_size, layout_size, paging_ok in *. change cnode_bits with 17 in *.
  change (bit (CONFIG_ROOT_CNODE_SIZE_BITS + SEL4_SLOT_BITS)) with (2 ^ 17). change (bit SEL4_PAGE_BITS) with (2 ^ 12).
  change (bit BI_FRAME_SIZE_BITS) with (2 ^ 12). change (bit SEL4_ASID_POOL_BITS) with (2 ^ 12).
  change (bit SEL4_VSPACE_BITS) with (2 ^ 12). change (bit SEL4_PAGE_TABLE_BITS) with (2 ^ 12).
  change (bit SEL4_MIN_SCHED_CONTEXT_BITS) with (2 ^ 7). change SEL4_MIN_SCHED_CONTEXT_BITS with 7 in *.
  rewrite (bit_pow SEL4_TCB_BITS) by lia.
  assert (Hx : (if 0 <? eb then bit eb else 0) = extra_early eb + extra_late eb /\ 0 <= extra_early eb + extra_late eb).
  { destruct (extra_cases eb He) as [(-> & -> & ->)|[(? & -> & ->)|(? & -> & ->)]]; [done|..];
      rewrite (proj2 (Z.ltb_lt 0 eb)), bit_pow by lia; pose proof (pow2_pos eb); lia. }
  destruct Hx as [-> Hx0]. set (n := arch_get_n_paging v) in *.
  assert (n *w 2 ^ 12 = n * 2 ^ 12) as -> by (apply wrap_small; unfold is_word, word_size; lia).
  set (x := extra_early eb + extra_late eb) in *. assert (x < 2 ^ 43) by (destruct kernel_mcs; lia).
  set (t := 2 ^ SEL4_TCB_BITS) in *. assert (extra_early eb + extra_late eb = x) as Hx by done. clearbody x t n.
  destruct kernel_mcs;
    [trans (fold_left wadd [t; 2 ^ 12; 2 ^ 12; 2 ^ 12; x; 2 ^ 12; 2 ^ 7; n * 2 ^ 12] (2 ^ 17)); [cbn [fold_left]; reflexivity|]
    |trans (fold_left wadd [t; 2 ^ 12; 2 ^ 12; 2 ^ 12; x; 2 ^ 12; n * 2 ^ 12] (2 ^ 17)); [cbn [fold_left]; reflexivity|]];
    rewrite wadd_list; unfold word_size; cbn [foldr]; repeat (apply Forall_cons; split); try apply Forall_nil; lia.
Qed.

(** ** The allocations *)

Lemma maybe_alloc_skip cmp eb p e rs s :
  eb < cmp \/ rs_extra_bi rs <> 0 ->
  maybe_alloc_extra_bi cmp eb (rs_state p e rs s) = Ok (tt, rs_state p e rs s).
Proof.
  intros Hs. unfold maybe_alloc_extra_bi.
  rewrite (bind_ok _ _ (rs_state p e rs s) rs (rs_state p e rs s)) by done.
  destruct (Z.leb_spec cmp eb), (Z.eqb_spec (rs_extra_bi rs) 0); try done. lia.
Qed.

Lemma maybe_alloc_take cmp eb p e rs s :
  0 <= cmp <= eb -> eb <= 40 -> rs_extra_bi rs = 0 -> 0 <= p -> (2 ^ eb | p) -> p + 2 ^ eb <= e -> e < word_size ->
  maybe_alloc_extra_bi cmp eb (rs_state p e rs s) =
    Ok (tt, rs_state (p + 2 ^ eb) e (rs <| rs_extra_bi := p |>) s).
Proof.
  intros Hc He Hr Hp Ha Hle Hw. unfold maybe_alloc_extra_bi.
  rewrite (bind_ok _ _ (rs_state p e rs s) rs (rs_state p e rs s)) by done.
  rewrite (proj2 (Z.leb_le _ _)), Hr by lia. cbn [andb when Z.eqb].
  rewrite (bind_ok _ _ _ p (rs_state (p + 1 * 2 ^ eb) e rs s)) by (apply alloc_ok; lia || done).
  by rewrite mod_rootserver_ok, Z.mul_1_l.
Qed.

(** The extra boot information comes before the CNode or right after it. *)
Lemma alloc_front p eb e rs s :
  0 < p -> (2 ^ Z.max 17 eb | p) -> extra_ok eb -> rs_extra_bi rs = 0 ->
  p + extra_early eb + 2 ^ 17 + extra_late eb <= e -> e < word_size ->
  exists rs1,
    (maybe_alloc_extra_bi (Z.max 17 eb) eb ;;;
     let* c := alloc_rootserver_obj 17 1 in
     mod_rootserver (fun r => r <| rs_cnode := c |>) ;;;
     maybe_alloc_extra_bi 12 eb) (rs_state p e rs s) =
      Ok (tt, rs_state (p + extra_early eb + 2 ^ 17 + extra_late eb) e rs1 s) /\
    rs1 = rs <| rs_cnode := p + extra_early eb |>
             <| rs_extra_bi := if 17 <=? eb then p else if 0 <? eb then p + extra_early eb + 2 ^ 17 else 0 |> /\
    (eb < 12 \/ rs_extra_bi rs1 <> 0).
Proof.
  intros Hp Ha He Hr Hle Hw. pose proof (pow2_pos eb).
  destruct (extra_cases eb He) as [(-> & E1 & E2)|[(Hb & E1 & E2)|(Hb & E1 & E2)]]; rewrite E1, E2 in Hle |- *.
  - eexists. split_and!; [|reflexivity|left; lia].
    erewrite bind_ok by (apply maybe_alloc_skip; left; lia).
    erewrite bind_ok by (apply (alloc_ok 17 1); [lia..|exact Ha|lia|lia]). erewrite bind_ok by apply mod_rootserver_ok.
    rewrite maybe_alloc_skip by (left; lia). destruct rs. cbn in Hr. subst. unfold rs_state, set. cbn -[Z.pow Z.add]. by rewrite !Z.add_0_r.
  - eexists. split_and!; [|reflexivity|].
    + erewrite bind_ok by (apply maybe_alloc_skip; left; lia).
      erewrite bind_ok by (apply (alloc_ok 17 1); [lia..| |lia|lia]; replace (Z.max 17 eb) with 17 in Ha by lia; done).
      erewrite bind_ok by apply mod_rootserver_ok. rewrite maybe_alloc_take; [| | | | | |lia|lia]; [|lia|lia|done|lia|].
      * rewrite (proj2 (Z.leb_gt 17 eb)), (proj2 (Z.ltb_lt 0 eb)) by lia. unfold rs_state, set. cbn -[Z.pow Z.add]. do 3 f_equal; [f_equal; lia|]. f_equal; lia.
      * replace (Z.max 17 eb) with 17 in Ha by lia. apply Z.divide_add_r; [|apply Z.divide_mul_r; apply pow2_divide; lia].
        eapply Z.divide_trans; [|exact Ha]. apply pow2_divide. lia.
    + right. rewrite (proj2 (Z.leb_gt 17 eb)), (proj2 (Z.ltb_lt 0 eb)) by lia. cbn -[Z.pow]. lia.
  - eexists. split_and!; [|reflexivity|].
    + replace (Z.max 17 eb) with eb in * by lia. erewrite bind_ok by (apply maybe_alloc_take; try lia; done).
      erewrite bind_ok by (apply (alloc_ok 17 1); [lia..| |lia|lia]; apply Z.divide_add_r; [|apply pow2_divide; lia];
        eapply Z.divide_trans; [|exact Ha]; apply pow2_divide; lia).
      erewrite bind_ok by apply mod_rootserver_ok. rewrite maybe_alloc_skip by (right; cbn; lia).
      rewrite (proj2 (Z.leb_le 17 eb)) by lia. unfold rs_state, set. cbn -[Z.pow Z.add]. do 3 f_equal. f_equal; lia.
    + right. rewrite (proj2 (Z.leb_le 17 eb)) by lia. cbn. lia.
Qed.

(** The next allocation and its assignment; [tac] shows the alignment. *)
Ltac alloc_step tac :=
  erewrite bind_ok by (apply alloc_ok; [lia..|tac|lia|lia]); erewrite bind_ok by apply mod_rootserver_ok.

(** The objects of fixed size and the page tables, from a page boundary [q] on. *)
Lemma alloc_back q n e rs s :
  0 < q -> (2 ^ 12 | q) -> paging_ok n ->
  q + (4 + n) * 2 ^ 12 + 2 ^ SEL4_TCB_BITS + (if kernel_mcs then 2 ^ 7 else 0) = e -> e < word_size ->
  let tcb := q + (4 + n) * 2 ^ 12 in
  (let* p := alloc_rootserver_obj SEL4_ASID_POOL_BITS 1 in
   mod_rootserver (fun r => r <| rs_asid_pool := p |>) ;;;
   let* p := alloc_rootserver_obj SEL4_PAGE_BITS 1 in
   mod_rootserver (fun r => r <| rs_ipc_buf := p |>) ;;;
   let* p := alloc_rootserver_obj BI_FRAME_SIZE_BITS 1 in
   mod_rootserver (fun r => r <| rs_boot_info := p |>) ;;;
   let* p := alloc_rootserver_obj SEL4_PAGE_TABLE_BITS n in
   mod_rootserver (fun r => r <| rs_paging := mk_Region p (p +w (n *w bit SEL4_PAGE_TABLE_BITS)) |>) ;;;
   let* p := alloc_rootserver_obj SEL4_TCB_BITS 1 in
   mod_rootserver (fun r => r <| rs_tcb := p |>) ;;;
   when kernel_mcs
     (let* p := alloc_rootserver_obj SEL4_MIN_SCHED_CONTEXT_BITS 1 in
      mod_rootserver (fun r => r <| rs_sc := p |>)) ;;;
   let* mem := gets rootserver_mem in
   kassert (start mem =? end_ mem)) (rs_state (q + 2 ^ 12) e rs s) =
    Ok (tt, rs_state e e (rs <| rs_asid_pool := q + 2 ^ 12 |> <| rs_ipc_buf := q + 2 * 2 ^ 12 |>
      <| rs_boot_info := q + 3 * 2 ^ 12 |> <| rs_paging := mk_Region (q + 4 * 2 ^ 12) tcb |>
      <| rs_tcb := tcb |> <| rs_sc := if kernel_mcs then tcb + 2 ^ SEL4_TCB_BITS else rs_sc rs |>) s).
Proof.
  intros Hq Ha Hn He Hw tcb. unfold paging_ok in Hn. pose proof tcb_bits_range. pose proof tcb_bytes.
  change SEL4_ASID_POOL_BITS with 12. change SEL4_PAGE_BITS with 12. change BI_FRAME_SIZE_BITS with 12.
  change SEL4_PAGE_TABLE_BITS with 12. change SEL4_MIN_SCHED_CONTEXT_BITS with 7.
  assert (0 <= (if kernel_mcs then 2 ^ 7 else 0)) by (destruct kernel_mcs; lia).
  assert (Hpage : forall k, (2 ^ 12 | q + k * 2 ^ 12)) by (intros; apply Z.divide_add_r; [done|apply Z.divide_factor_r]).
  assert (Htcb : (2 ^ SEL4_TCB_BITS | tcb)).
  { eapply Z.divide_trans; [|apply Hpage]. apply pow2_divide. lia. }
  replace (q + 2 ^ 12) with (q + 1 * 2 ^ 12) by lia.
  alloc_step ltac:(apply Hpage).
  replace (q + 1 * 2 ^ 12 + 1 * 2 ^ 12) with (q + 2 * 2 ^ 12) by lia.
  alloc_step ltac:(apply Hpage).
  replace (q + 2 * 2 ^ 12 + 1 * 2 ^ 12) with (q + 3 * 2 ^ 12) by lia.
  alloc_step ltac:(apply Hpage).
  replace (q + 3 * 2 ^ 12 + 1 * 2 ^ 12) with (q + 4 * 2 ^ 12) by lia.
  alloc_step ltac:(apply Hpage).
  replace (q + 4 * 2 ^ 12 + n * 2 ^ 12) with tcb by (subst tcb; lia). fold tcb in He. change (bit 12) with (2 ^ 12).
  assert (n *w 2 ^ 12 = n * 2 ^ 12) as -> by (apply wrap_small; unfold is_word, word_size; lia).
  rewrite (wadd_small (q + 4 * 2 ^ 12)) by lia. replace (q + 4 * 2 ^ 12 + n * 2 ^ 12) with tcb by (subst tcb; lia).
  assert (0 < tcb) by (subst tcb; lia). clearbody tcb.
  alloc_step ltac:(exact Htcb).
  rewrite Z.mul_1_l. destruct kernel_mcs; cbn [when].
  - erewrite bind_ok; [|erewrite bind_ok by (apply alloc_ok; [lia..| |lia|lia]; apply Z.divide_add_r;
      [eapply Z.divide_trans; [|exact Htcb]|]; apply pow2_divide; lia); apply mod_rootserver_ok].
    unfold bind, gets, kassert. cbn [rootserver_mem rs_state set start end_].
    rewrite (proj2 (Z.eqb_eq (tcb + 2 ^ SEL4_TCB_BITS + 1 * 2 ^ 7) e)) by lia. unfold ret.
    replace (tcb + 2 ^ SEL4_TCB_BITS + 1 * 2 ^ 7) with e by lia. by destruct rs.
  - unfold bind, gets, kassert. cbn [rootserver_mem rs_state set start end_ ret].
    rewrite (proj2 (Z.eqb_eq (tcb + 2 ^ SEL4_TCB_BITS) e)) by lia. unfold ret.
    replace (tcb + 2 ^ SEL4_TCB_BITS) with e by lia. by destruct rs.
Qed.

Lemma create_objects_ok p v eb s :
  let n := arch_get_n_paging v in
  0 < p -> (2 ^ Z.max 17 eb | p) -> extra_ok eb -> paging_ok n -> p + layout_size eb n < word_size ->
  rs_extra_bi (rootserver s) = 0 ->
  create_rootserver_objects p v eb s =
    Ok (tt, rs_state (p + layout_size eb n) (p + layout_size eb n) (layout p eb n (rs_sc (rootserver s))) s).
Proof.
  intros n Hp Ha He Hn Hw Hr. set (e := p + layout_size eb n) in *. unfold create_rootserver_objects.
  rewrite max_size_bits, rootserver_size by done. fold n.
  pose proof (layout_size_bound eb n He Hn) as Hb. rewrite (wadd_small p) by lia. fold e.
  erewrite bind_ok by reflexivity. change (s <| rootserver_mem := mk_Region p e |>) with (rs_state p e (rootserver s) s).
  set (q := p + extra_early eb + 2 ^ 17 + extra_late eb).
  assert (Hq : q + (4 + n) * 2 ^ 12 + 2 ^ SEL4_TCB_BITS + (if kernel_mcs then 2 ^ 7 else 0) = e)
    by (subst e q; unfold layout_size; change cnode_bits with 17; change SEL4_MIN_SCHED_CONTEXT_BITS with 7; lia).
  assert (Hpos : 0 <= extra_early eb /\ 0 <= extra_late eb /\ (2 ^ 12 | q)).
  { assert (2 ^ 12 | p) by (eapply Z.divide_trans; [|exact Ha]; apply pow2_divide; lia). pose proof (pow2_pos eb). subst q.
    destruct (extra_cases eb He) as [(-> & -> & ->)|[(? & -> & ->)|(? & -> & ->)]]; (split; [lia|]); (split; [lia|]);
      repeat apply Z.divide_add_r; try done; try apply Z.divide_0_r; apply pow2_divide; lia. }
  pose proof tcb_bytes. unfold paging_ok in Hn. assert (0 <= (if kernel_mcs then 2 ^ 7 else 0)) by (destruct kernel_mcs; lia).
  destruct (alloc_front p eb e (rootserver s) s) as (rs1 & Hf & -> & Hx); try done; [fold q; lia|].
  apply bind_inv in Hf as (u1 & s1 & E1 & Hf). apply bind_inv in Hf as (c & s2 & E2 & Hf).
  apply bind_inv in Hf as (u2 & s3 & E3 & E4). cbv beta in E3, E4.
  change (CONFIG_ROOT_CNODE_SIZE_BITS + SEL4_SLOT_BITS) with 17. change SEL4_VSPACE_BITS with 12.
  rewrite (bind_ok _ _ _ _ _ E1), (bind_ok _ _ _ _ _ E2), (bind_ok _ _ _ _ _ E3), (bind_ok _ _ _ _ _ E4).
  fold q. alloc_step ltac:(apply Hpos). change (maybe_alloc_extra_bi SEL4_PAGE_BITS) with (maybe_alloc_extra_bi 12).
  erewrite bind_ok by (apply maybe_alloc_skip; exact Hx). rewrite Z.mul_1_l.
  destruct Hpos as (? & ? & Hq12). rewrite (alloc_back q n e) by (done || subst q; lia). unfold layout. change cnode_bits with 17. fold q. by destruct (rootserver s).
Qed.

(** ** The layout *)

(** An object: its address, the bits of its alignment, its size in bytes. *)
Record obj := mk_obj { o_addr : Z; o_align : Z; o_bytes : Z }.
Definition objects (eb : Z) (rs : rootserver_mem_t) : list obj :=
  [mk_obj (rs_cnode rs) cnode_bits (2 ^ cnode_bits); mk_obj (rs_vspace rs) 12 (2 ^ 12);
   mk_obj (rs_asid_pool rs) 12 (2 ^ 12); mk_obj (rs_ipc_buf rs) 12 (2 ^ 12); mk_obj (rs_boot_info rs) 12 (2 ^ 12);
   mk_obj (start (rs_paging rs)) 12 (end_ (rs_paging rs) - start (rs_paging rs));
   mk_obj (rs_tcb rs) SEL4_TCB_BITS (2 ^ SEL4_TCB_BITS)] ++
  (if kernel_mcs then [mk_obj (rs_sc rs) SEL4_MIN_SCHED_CONTEXT_BITS (2 ^ SEL4_MIN_SCHED_CONTEXT_BITS)] else []) ++
  (if 0 <? eb then [mk_obj (rs_extra_bi rs) eb (2 ^ eb)] else []).

Fixpoint separated (l : list obj) : Prop :=
  match l with
  | [] => True
  | o :: l => Forall (fun o' => o_addr o + o_bytes o <= o_addr o' \/ o_addr o' + o_bytes o' <= o_addr o) l /\ separated l
  end.
Definition within (p e : Z) (o : obj) : Prop := p <= o_addr o /\ o_addr o + o_bytes o <= e.
Definition aligned (o : obj) : Prop := (2 ^ o_align o | o_addr o).
Definition total_bytes (l : list obj) : Z := foldr (fun o n => o_bytes o + n) 0 l.

Ltac divides :=
  repeat apply Z.divide_add_r;
  first [ exact I | apply Z.divide_0_r | apply pow2_divide; lia
        | apply Z.divide_mul_r; apply pow2_divide; lia
        | match goal with D : forall j, _ -> (_ | ?p) |- (_ | ?p) => apply D; lia end ].
Ltac objects_tac :=
  cbn -[Z.pow Z.mul Z.add Z.sub Z.divide];
  split; [repeat (apply Forall_cons; split); try apply Forall_nil; unfold aligned; cbn [o_addr o_align]; divides|];
  split; [repeat (split; [repeat (apply Forall_cons; split); try apply Forall_nil; cbn [o_addr o_bytes]; lia|]); exact I|];
  split; [repeat (apply Forall_cons; split); try apply Forall_nil; unfold within; cbn [o_addr o_bytes]; lia|];
  unfold total_bytes; cbn [foldr o_bytes]; lia.

Lemma layout_ok p eb n sc :
  0 < p -> (2 ^ Z.max 17 eb | p) -> extra_ok eb -> paging_ok n ->
  let l := objects eb (layout p eb n sc) in
  Forall aligned l /\ separated l /\ Forall (within p (p + layout_size eb n)) l /\ total_bytes l = layout_size eb n.
Proof.
  intros Hp Ha He Hn l. unfold paging_ok in Hn. pose proof tcb_bytes. pose proof tcb_bits_range.
  assert (D : forall j, 0 <= j <= Z.max 17 eb -> (2 ^ j | p))
    by (intros; eapply Z.divide_trans; [|exact Ha]; apply pow2_divide; lia).
  assert (P : forall j k, 0 <= j <= 12 -> (2 ^ j | k * 2 ^ 12)) by (intros; apply Z.divide_mul_r, pow2_divide; lia).
  pose proof (pow2_pos eb).
  subst l. unfold objects, layout, layout_size. change cnode_bits with 17. change SEL4_MIN_SCHED_CONTEXT_BITS with 7.
  set (t := SEL4_TCB_BITS) in *.
  destruct (extra_cases eb He) as [(Hb & -> & ->)|[(Hb & -> & ->)|(Hb & -> & ->)]].
  - subst eb. destruct kernel_mcs; objects_tac.
  - rewrite (proj2 (Z.leb_gt 17 eb)), (proj2 (Z.ltb_lt 0 eb)) by lia. destruct kernel_mcs; objects_tac.
  - rewrite (proj2 (Z.leb_le 17 eb)), (proj2 (Z.ltb_lt 0 eb)) by lia. destruct kernel_mcs; objects_tac.
Qed.

(** ** Placing the objects *)

(** Programs that cannot fail. *)
Definition total {S} (m : M S unit) : Prop := forall x, exists x', m x = Ok (tt, x').
Lemma total_bind {S} (m k : M S unit) : total m -> total k -> total (m ;;; k).
Proof. intros Hm Hk x. destruct (Hm x) as [x1 E]. rewrite (bind_ok _ _ _ _ _ E). apply Hk. Qed.
Lemma total_modify {S} (f : S -> S) : total (modify f).
Proof. intros x. by eexists. Qed.
Lemma total_when {S} b (m : M S unit) : total m -> total (when b m).
Proof. intros Hm. destruct b; [done|]. intros x. by eexists. Qed.
Lemma total_for_range {S} k i (body : Z -> M S unit) : (forall j, total (body j)) -> total (for_range k i body).
Proof. intros Hb. revert i. induction k as [|k IH]; intros i; [intros x; by eexists|]. apply total_bind; auto. Qed.
Lemma total_lift {S P} (get : S -> P) put (m : M P unit) : total m -> total (lift_part get put m).
Proof. intros Hm x. unfold lift_part. destruct (Hm (get x)) as [p ->]. by eexists. Qed.

Lemma rootserver_memory_ok s : exists k, rootserver_memory s = Ok (tt, s <| kern := k |>).
Proof.
  unfold rootserver_memory. rewrite (bind_ok _ _ s (rootserver s) s) by done. set (rs := rootserver s).
  match goal with |- context [on_kernel ?m] => assert (Hm : total m) end.
  { repeat apply total_bind; try apply total_modify.
    - destruct target_arch; apply total_lift, total_lift, total_modify.
    - apply total_for_range. intros. apply total_modify.
    - apply total_when, total_modify. }
  unfold on_kernel, lift_part. destruct (Hm (kern s)) as [k ->]. by exists k.
Qed.

Lemma get_freemem_app P r T i s :
  freemem s = P ++ r :: T -> i = Z.of_nat (length P) -> get_freemem i s = Ok (r, s).
Proof.
  intros E ->. unfold get_freemem. rewrite (bind_ok _ _ s (freemem s) s) by done. rewrite E.
  by rewrite array_get_app.
Qed.
Lemma set_freemem_app P r r' T i s :
  freemem s = P ++ r :: T -> i = Z.of_nat (length P) ->
  set_freemem i r' s = Ok (tt, s <| freemem := P ++ r' :: T |>).
Proof.
  intros E ->. unfold set_freemem. rewrite (bind_ok _ _ s (freemem s) s) by done. rewrite E.
  by rewrite (bind_ok _ _ s (P ++ r' :: T) s) by (by rewrite array_set_app).
Qed.

Section place.
Context (v : VRegion) (eb : Z).
#[local] Abbreviation n := (arch_get_n_paging v).
#[local] Abbreviation size := (layout_size eb n).
#[local] Abbreviation max := (Z.max 17 eb).
Hypotheses (He : extra_ok eb) (Hn : paging_ok n).

(** A free region, and where the block goes when the region is large enough. *)
Definition region_ok (r : Region) : Prop := 0 < start r < end_ r /\ end_ r < word_size.
Definition block_start (r : Region) : Z := (end_ r - size) / 2 ^ max * 2 ^ max.
Definition fits (r : Region) : Prop := size <= end_ r /\ start r <= block_start r.

(** The state after the block was taken out of region [r]. *)
Definition placed (P : list Region) (r : Region) (T : list Region) (s s' : bstate) : Prop :=
  exists k, s' = (rs_state (block_start r + size) (block_start r + size) (layout (block_start r) eb n (rs_sc (rootserver s))) s)
    <| kern := k |>
    <| freemem := P ++ (r <| end_ := block_start r |>) :: mk_Region (block_start r + size) (end_ r) :: T |>.

Lemma block_start_le r : (2 ^ max | block_start r) /\ end_ r - size - 2 ^ max < block_start r <= end_ r - size.
Proof.
  pose proof (pow2_pos max ltac:(lia)). unfold block_start. split; [apply Z.divide_factor_r|].
  pose proof (Z.div_mod (end_ r - size) (2 ^ max)). pose proof (Z.mod_pos_bound (end_ r - size) (2 ^ max)). nia.
Qed.

(** The tests of the code decide [fits]. *)
Lemma fits_test r :
  region_ok r ->
  let u := end_ r -w size in
  ((u <=? end_ r) && (start r <=? round_down u max) = true <-> fits r) /\ (fits r -> round_down u max = block_start r).
Proof.
  intros [Hr Hw] u. pose proof (layout_size_bound eb n He Hn) as Hb. unfold fits.
  assert (0 <= max < 64) by (destruct He; lia). pose proof (pow2_pos max ltac:(lia)).
  destruct (decide (size <= end_ r)) as [Hs|Hs].
  - assert (u = end_ r - size) as -> by (apply wsub_small; lia).
    assert (E : round_down (end_ r - size) max = block_start r).
    { unfold round_down, block_start. pose proof (Z.div_mod (end_ r - size) (2 ^ max)).
      pose proof (Z.mod_pos_bound (end_ r - size) (2 ^ max)).
      rewrite wshr_div, wshl_mul by (try lia; try (apply Z.div_pos; lia); nia). done. }
    rewrite E. split; [|done]. rewrite andb_true_iff, !Z.leb_le. lia.
  - split; [|tauto]. assert (u = end_ r - size + word_size).
    { subst u. unfold wsub, wrap. symmetry. apply (Z.mod_unique _ _ (-1)); unfold word_size in *; lia. }
    rewrite andb_true_iff, !Z.leb_le. assert (size < word_size) by (unfold word_size; lia). lia.
Qed.

(** One round takes the block or moves the region up. *)
Lemma place_step P r T fuel s :
  freemem s = P ++ r :: Region_empty :: T -> length (freemem s) = 16%nat -> region_ok r ->
  rs_extra_bi (rootserver s) = 0 ->
  let m := place_rootserver (S fuel) v eb size max (Z.of_nat (length P)) s in
  (fits r -> exists s', m = Ok (tt, s') /\ placed P r T s s') /\
  (~ fits r -> m = place_rootserver fuel v eb size max (Z.of_nat (length P) -w 1)
                     (s <| freemem := P ++ Region_empty :: r :: T |>)).
Proof.
  intros Ef Hlen Hr Hx. cbn [place_rootserver].
  assert (Hi : Z.of_nat (length P) < 15) by (rewrite Ef, length_app in Hlen; cbn in Hlen; lia).
  rewrite (bind_ok _ _ s (freemem s) s) by done. rewrite Hlen. change (Z.of_nat 16) with 16.
  assert ((Z.of_nat (length P) =? UINT64_MAX) = false) as -> by (apply Z.eqb_neq; unfold UINT64_MAX, word_size; lia).
  rewrite (proj2 (Z.ltb_lt _ 16)) by lia. cbn [negb andb].
  assert ((Z.of_nat (length P) <? 16 - 1) = true) as -> by (apply Z.ltb_lt; lia).
  assert (Ef' : freemem s = (P ++ [r]) ++ Region_empty :: T) by (rewrite Ef; by rewrite <- app_assoc).
  assert (Hl : Z.of_nat (length P) + 1 = Z.of_nat (length (P ++ [r]))) by (rewrite length_app; cbn; lia).
  rewrite (bind_ok _ _ s tt s) by done. rewrite (bind_ok _ _ s Region_empty s) by (by eapply get_freemem_app).
  rewrite (bind_ok _ _ s tt s) by done. rewrite (bind_ok _ _ s r s) by (by eapply get_freemem_app).
  destruct (fits_test r Hr) as [Ht Hs]. destruct (block_start_le r) as [Ha Hb].
  split; intros Hfit.
  - rewrite (proj2 Ht Hfit), (Hs Hfit). destruct Hr as [Hr Hw]. destruct Hfit as [Hsz Hst].
    pose proof (layout_size_bound eb n He Hn).
    erewrite bind_ok by (apply create_objects_ok; try done; lia).
    edestruct rootserver_memory_ok as [k Ek]. rewrite (bind_ok _ _ _ _ _ Ek). rewrite (wadd_small (block_start r)) by lia.
    erewrite bind_ok by (eapply set_freemem_app; [exact Ef'|done]). rewrite <- app_assoc. cbn [app].
    erewrite set_freemem_app by (cbn; reflexivity). eexists. split; [done|]. by exists k; destruct s.
  - destruct (_ && _) eqn:E; [by destruct Hfit; apply Ht|].
    rewrite (bind_ok _ _ _ _ _ (set_freemem_app _ _ r _ _ s Ef' Hl)). rewrite <- app_assoc. cbn [app].
    erewrite bind_ok by (eapply set_freemem_app; [cbn; reflexivity|done]). f_equal.
Qed.

Lemma place_ok P r T fuel s :
  freemem s = P ++ r :: Region_empty :: T -> length (freemem s) = 16%nat -> (length P < fuel)%nat ->
  Forall region_ok (P ++ [r]) -> Exists fits (P ++ [r]) -> rs_extra_bi (rootserver s) = 0 ->
  exists P1 r1 T1 s', P ++ [r] = P1 ++ r1 :: T1 /\ fits r1 /\
    place_rootserver fuel v eb size max (Z.of_nat (length P)) s = Ok (tt, s') /\ placed P1 r1 (T1 ++ T) s s'.
Proof.
  revert r T fuel s. induction P as [|r' P IH] using rev_ind; intros r T fuel s Ef Hlen Hfuel Hok Hfit Hx;
    (destruct fuel as [|fuel]; [lia|]);
    apply Forall_app in Hok as [Hok' Hr]; apply Forall_cons in Hr as [Hr _];
    destruct (place_step _ r T fuel s Ef Hlen Hr Hx) as [S1 S2];
    (destruct (decide (size <= end_ r /\ start r <= block_start r)) as [Hf|Hf];
      [destruct (S1 Hf) as (s' & E & Hp); eexists _, r, [], s'; done|]).
  - apply Exists_app in Hfit as [Hfit|Hfit]; [by apply Exists_nil in Hfit|].
    apply Exists_cons in Hfit as [Hfit|Hfit]; [done|by apply Exists_nil in Hfit].
  - rewrite (S2 Hf). rewrite length_app in Hfuel |- *. cbn in Hfuel |- *.
    replace (Z.of_nat (length P + 1) -w 1) with (Z.of_nat (length P)).
    2:{ rewrite wsub_small; [lia|lia|]. rewrite Ef, !length_app in Hlen. unfold word_size. lia. }
    destruct (IH r' (r :: T) fuel (s <| freemem := (P ++ [r']) ++ Region_empty :: r :: T |>))
      as (P1 & r1 & T1 & s' & E1 & Hf1 & E2 & Hp); try done.
    + cbn. by rewrite <- app_assoc.
    + cbn. rewrite Ef in Hlen. rewrite !length_app in *. cbn in *. lia.
    + lia.
    + apply Exists_app in Hfit as [Hfit|Hfit]; [done|]. apply Exists_cons in Hfit as [Hfit|Hfit]; [done|by apply Exists_nil in Hfit].
    + exists P1, r1, (T1 ++ [r]), s'. split_and!; [|done|done|].
      * rewrite E1. by rewrite <- app_assoc.
      * destruct Hp as [k ->]. exists k. rewrite <- (app_assoc T1 [r] T). reflexivity.
Qed.

(** Regions before, in and behind the block. *)
Lemma placed_free P r T s s' x :
  fits r -> placed P r T s s' ->
  covers (freemem s') x <-> covers (P ++ r :: T) x /\ ~ (block_start r <= x < block_start r + size) \/
                            covers (P ++ T) x /\ block_start r <= x < block_start r + size.
Proof.
  intros [Hs Hst] [k ->]. destruct (block_start_le r) as [_ Hb]. pose proof (layout_size_bound eb n He Hn).
  cbn [freemem set]. unfold covers. rewrite !Exists_app, !Exists_cons. unfold inside. cbn [start end_ set].
  generalize (Exists (fun r => start r <= x < end_ r) P) (Exists (fun r => start r <= x < end_ r) T). intros.
  destruct (decide (block_start r <= x < block_start r + size)); intuition lia.
Qed.

Lemma ordered_apart lo P r T x : ordered lo (P ++ r :: T) -> inside r x -> ~ covers (P ++ T) x.
Proof.
  intros Ho Hx Hc. unfold covers in Hc. apply Exists_app in Hc as [Hc|Hc].
  - assert (x < start r); [|unfold inside in Hx; lia]. apply (ordered_take lo (P ++ r :: T) (length P) r x Ho).
    + by rewrite list_lookup_middle.
    + by rewrite take_app_length.
  - assert (Hd : exists lo', ordered lo' (r :: T)).
    { destruct (ordered_drop lo (P ++ r :: T) (length P) Ho) as [lo' Hd]. rewrite drop_app_length in Hd. eauto. }
    destruct Hd as [lo' Hd]. cbn in Hd. destruct Hd as (_ & Hd). apply (ordered_covers (end_ r) T x Hd) in Hc.
    unfold inside in Hx. lia.
Qed.

Lemma last_region_ok fuel P r k T s :
  freemem s = P ++ r :: replicate k Region_empty ++ T -> is_empty r = false -> (length P + k < 16)%nat ->
  (k < fuel)%nat -> last_region fuel (Z.of_nat (length P + k)) s = Ok (Z.of_nat (length P), s).
Proof.
  revert k T s. induction fuel as [|fuel IH]; intros k T s Ef Hr Hlen Hk; [lia|]. cbn [last_region].
  assert ((Z.of_nat (length P + k) =? UINT64_MAX) = false) as -> by (apply Z.eqb_neq; unfold UINT64_MAX, word_size; lia).
  destruct k as [|k].
  - rewrite Nat.add_0_r. rewrite (bind_ok _ _ s r s) by (by eapply get_freemem_app). by rewrite Hr.
  - assert (Ef' : freemem s = P ++ r :: replicate k Region_empty ++ Region_empty :: T).
    { rewrite Ef. f_equal. f_equal. change (Region_empty :: T) with ([Region_empty] ++ T).
      by rewrite app_assoc, <- replicate_S_end. }
    rewrite (bind_ok _ _ s Region_empty s).
    2:{ apply (get_freemem_app (P ++ r :: replicate k Region_empty) _ T); [by rewrite <- app_assoc|].
        rewrite length_app. cbn. rewrite length_replicate. lia. }
    change (is_empty Region_empty) with true. cbv iota.
    rewrite wsub_small by (unfold word_size; lia). replace (Z.of_nat (length P + S k) - 1) with (Z.of_nat (length P + k)) by lia.
    apply (IH k (Region_empty :: T)); [done|done|lia|lia].
Qed.

Lemma mem_init_ok F s :
  (0 < length F < 16)%nat -> freemem s = F ++ replicate (16 - length F) Region_empty ->
  Forall region_ok F -> Exists fits F -> rs_extra_bi (rootserver s) = 0 ->
  exists P r T s', F = P ++ r :: T /\ fits r /\ root_server_mem_init v eb s = Ok (tt, s') /\
    placed P r (T ++ replicate (15 - length F) Region_empty) s s'.
Proof.
  intros Hl Ef Hok Hfit Hx. destruct F as [|r P _] using rev_ind; [cbn in Hl; lia|].
  rewrite length_app in *. cbn [length] in *. pose proof (Forall_app region_ok P [r]) as [Hr _].
  destruct (Hr Hok) as [_ Hr']. apply Forall_cons in Hr' as [[Hpos _] _]. rewrite <- app_assoc in Ef. cbn [app] in Ef.
  unfold root_server_mem_init. rewrite max_size_bits, rootserver_size by done.
  rewrite (bind_ok _ _ s (freemem s) s) by done.
  assert (Hlen : length (freemem s) = 16%nat) by (rewrite Ef, length_app; cbn; rewrite length_replicate; lia).
  replace (Z.of_nat (length (freemem s)) - 1) with (Z.of_nat (length P + (15 - length P))) by lia.
  erewrite bind_ok.
  2:{ apply (last_region_ok _ P r _ []); [rewrite app_nil_r, Ef; do 3 f_equal; lia| |lia|change freemem_fuel with 18%nat; lia].
      unfold is_empty. apply Z.eqb_neq. lia. }
  destruct (place_ok P r (replicate (15 - (length P + 1)) Region_empty) freemem_fuel s) as (P1 & r1 & T1 & s' & E & Hf & Erun & Hp); try done.
  - rewrite Ef. replace (16 - (length P + 1))%nat with (S (15 - (length P + 1))) by lia. done.
  - change freemem_fuel with 18%nat. lia.
  - by exists P1, r1, T1, s'.
Qed.
End place.

(** C9. The root server gets its memory in one piece.  When some free region has
    room for the objects of the initial thread, [root_server_mem_init] does not
    panic; the objects are aligned, do not overlap, and fill a block of exactly
    the computed size; the block was free memory, everything else that was free
    still is, and nothing of the block is. *)
Theorem root_server_mem_init_layout v eb F s :
  extra_ok eb -> paging_ok (arch_get_n_paging v) ->
  (0 < length F < 16)%nat -> freemem s = F ++ replicate (16 - length F) Region_empty ->
  Forall region_ok F -> (exists lo, ordered lo F) -> Exists (fits v eb) F -> rs_extra_bi (rootserver s) = 0 ->
  exists p s', root_server_mem_init v eb s = Ok (tt, s') /\
    let size := calculate_rootserver_size v eb in
    let l := objects eb (rootserver s') in
    Forall aligned l /\ separated l /\ Forall (within p (p + size)) l /\ total_bytes l = size /\
    (forall x, p <= x < p + size -> covers F x) /\
    (forall x, covers (freemem s') x <-> covers F x /\ ~ (p <= x < p + size)) /\
    resv s' = resv s.
Proof.
  intros He Hn Hl Ef Hok [lo Ho] Hfit Hx.
  destruct (mem_init_ok v eb He Hn F s Hl Ef Hok Hfit Hx) as (P & r & T & s' & -> & Hf & Erun & Hp).
  destruct (block_start_le v eb r) as [Ha Hb]. apply Forall_app in Hok as [_ Hr]. apply Forall_cons in Hr as [[Hr _] _].
  pose proof (layout_size_bound eb _ He Hn). pose proof Hf as [Hs Hst].
  exists (block_start v eb r), s'. split; [done|]. rewrite rootserver_size by done. cbv zeta.
  pose proof (fun x => placed_free v eb He Hn P r _ s s' x Hf Hp) as Hfree.
  assert (Hrep : forall k x, ~ covers (replicate k Region_empty) x).
  { intros k x Hc. apply Exists_exists in Hc as (q & [-> _]%elem_of_replicate & Hc). unfold inside in Hc. cbn in Hc. lia. }
  assert (Hin : forall x, block_start v eb r <= x < block_start v eb r + layout_size eb (arch_get_n_paging v) -> inside r x)
    by (intros; unfold inside; lia).
  assert (Ers : rootserver s' = layout (block_start v eb r) eb (arch_get_n_paging v) (rs_sc (rootserver s)))
    by (destruct Hp as [k ->]; done).
  destruct (layout_ok (block_start v eb r) eb (arch_get_n_paging v) (rs_sc (rootserver s))) as (L1 & L2 & L3 & L4);
    [lia|done|done|done|]. rewrite Ers. split_and!; try done.
  - intros x Hxb. apply Exists_app. right. apply Exists_cons. left. auto.
  - intros x. rewrite Hfree. specialize (Hrep (15 - length (P ++ r :: T))%nat x).
    pose proof (fun Hxb => ordered_apart lo P r T x Ho (Hin x Hxb)) as Hap. specialize (Hin x).
    unfold covers in *. rewrite !Exists_app, !Exists_cons, ?Exists_app in *.
    clear -Hrep Hap. tauto.
  - by destruct Hp as [k ->].
Qed.
End layout.

Module RootServer.
#[local] Instance cfg : Config := riscv_config.
(** A megabyte and a page, the page behind it too small for anything. *)
Definition regions : list Region := [mk_Region 0xFFFFFFC080200000 0xFFFFFFC080300000; mk_Region 0xFFFFFFC080400000 0xFFFFFFC080401000].
Definition before : bstate := (boot_static base_state) <| freemem := regions ++ replicate 14 Region_empty |>.
Definition image : VRegion := mk_VRegion 0x10000 0x23001.

Lemma root_server_mem_init_layout_witness :
  exists p s', root_server_mem_init image 13 before = Ok (tt, s') /\
    separated (objects 13 (rootserver s')) /\
    (forall x, covers (freemem s') x <-> covers regions x /\ ~ (p <= x < p + calculate_rootserver_size image 13)).
Proof.
  destruct (root_server_mem_init_layout image 13 regions before) as (p & s' & H1 & _ & H2 & _ & _ & _ & H3 & _).
  - right. lia.
  - vm_compute. split; discriminate.
  - cbn. lia.
  - reflexivity.
  - repeat constructor; vm_compute; done.
  - exists 0. repeat split; vm_compute; discriminate.
  - apply Exists_cons. left. vm_compute. split; discriminate.
  - reflexivity.
  - exists p, s'. exact (conj H1 (conj H2 H3)).
Defined.

(** Without a region that is large enough the root server has no memory, and
    the boot goes on: the first slot is written near address 0. *)
Lemma no_room_writes_low_memory :
  exists c s', (root_server_mem_init image 13 ;;; create_root_cnode) (boot_static base_state) = Ok (c, s') /\
    capCNodePtr c = 0 /\ is_Some (ctes (kern s') !! 64).
Proof. eexists _, _. split; [vm_compute; reflexivity|]. split; [reflexivity|]. by eexists. Qed.
End RootServer.
