(* ===== verification/BootWf.v ===== *)
(** * Booting establishes the invariant of the kernel

    No program of kernel/src/boot writes an ill-formed capability: when
    [try_init_kernel] returns, every slot satisfies the invariant that every
    later entry into the kernel keeps (TypeProps.v). *)

From S2P Require Import Prelude Monad Config Objects State CapOps CSpace VSpace VSpaceArm Refill TcbQueue Sched.
From S2P Require Import Tcb SchedCtx Schedule Ipc Interrupt Finalise Syscall Untyped Example MmuInv Invocation Frame.
From S2P Require Import CNodeInv TcbInv SchedInv IrqInv MmuArm UntypedProps ErrorProps CapWf CapWfProps TypeProps Fastpath.
From S2P Require Import BootMem BootVSpace BootRoot.

(** The invariant, on the state of the boot code. *)
Definition boot_wf (s : bstate) : Prop := caps_wf (kern s).
#[local] Abbreviation boots := (keeps boot_wf (fun _ => True)).

Lemma boots_kernel {A} (Q : A -> Prop) (m : K A) : keeps caps_wf Q m -> keeps boot_wf Q (on_kernel m).
Proof. apply keeps_lift_part; done. Qed.

Lemma keeps_while {S X} (I : S -> Prop) fuel (cond : X -> M S bool) (body : X -> M S X) x :
  (forall x, keeps I (fun _ => True) (cond x)) -> (forall x, keeps I (fun _ => True) (body x)) ->
  keeps I (fun _ => True) (while fuel cond body x).
Proof.
  intros Hc Hb. revert x. induction fuel as [|fuel IH]; intros x; [apply keeps_fail|]. cbn.
  eapply keeps_bind; [apply Hc|]. intros b _. destruct b; [|by apply keeps_ret].
  eapply keeps_bind; [apply Hb|]. intros; apply IH.
Qed.

(** Most capabilities have nothing to check. *)
#[local] Hint Extern 0 (cap_wf _) => solve [exact I | destruct target_arch; exact I] : wf.

Ltac boot_step :=
  lazymatch goal with
  | |- keeps boot_wf _ (on_kernel _) => first [solve [eauto with keeps nocore] | apply boots_kernel]
  | |- keeps _ _ (while _ _ _ _) => apply keeps_while; intros ?
  | _ => keeps_step
  end.
Ltac boot_tac := repeat (boot_step; cbv beta zeta).

(** ** Memory *)

Section memory.
Context `{Config}.

Lemma merge_regions_wf : boots merge_regions.
Proof. unfold merge_regions. boot_tac. Qed.
Hint Resolve merge_regions_wf : keeps.
Lemma reserve_loop_wf n r i : boots (reserve_loop n r i).
Proof. revert i. induction n as [|n IH]; intros i; cbn [reserve_loop]; [apply keeps_fail|]. boot_tac; apply IH. Qed.
Hint Resolve reserve_loop_wf : keeps.
Lemma reserve_region_wf r : boots (reserve_region r).
Proof. unfold reserve_region. boot_tac. Qed.
Hint Resolve reserve_region_wf : keeps.
Lemma insert_loop_wf n r i : boots (insert_loop n r i).
Proof. revert i. induction n as [|n IH]; intros i; cbn [insert_loop]; [apply keeps_fail|]. boot_tac; apply IH. Qed.
Hint Resolve insert_loop_wf : keeps.
Lemma insert_region_wf r : boots (insert_region r).
Proof. unfold insert_region. boot_tac. Qed.
Hint Resolve insert_region_wf : keeps.
Lemma set_avail_regs_wf i l : boots (set_avail_regs i l).
Proof. revert i. induction l as [|r l IH]; intros i; cbn [set_avail_regs]; boot_tac; apply IH. Qed.
Hint Resolve set_avail_regs_wf : keeps.
Lemma rust_init_freemem_wf l1 l2 : boots (rust_init_freemem l1 l2).
Proof. unfold rust_init_freemem. boot_tac. Qed.

(** ** Slots *)

Lemma write_slot_wf p c : cap_wf c -> boots (write_slot p c).
Proof.
  intros Hc. unfold write_slot. apply boots_kernel, keeps_modify. intros s Hs.
  unfold caps_wf, slots_wf. cbn. by apply map_Forall_insert_2.
Qed.
Hint Resolve write_slot_wf : keeps.
Lemma provide_cap_wf cn c : cap_wf c -> boots (provide_cap cn c).
Proof. intros Hc. unfold provide_cap. boot_tac. Qed.
Hint Resolve provide_cap_wf : keeps.
Lemma provide_untyped_cap_wf cn d p b f : boots (provide_untyped_cap cn d p b f).
Proof. unfold provide_untyped_cap. boot_tac. Qed.
Hint Resolve provide_untyped_cap_wf : keeps.
Lemma untypeds_loop_wf n cn d r f : boots (untypeds_loop n cn d r f).
Proof. revert r. induction n as [|n IH]; intros r; cbn [untypeds_loop]; [apply keeps_fail|]. boot_tac; apply IH. Qed.
Hint Resolve untypeds_loop_wf : keeps.
Lemma device_gaps_wf cn f n i a : boots (device_gaps cn f n i a).
Proof. revert i a. induction n as [|n IH]; intros i a; cbn [device_gaps]; boot_tac; apply IH. Qed.
Hint Resolve device_gaps_wf : keeps.
Lemma create_untypeds_wf cn r : boots (create_untypeds cn r).
Proof. unfold create_untypeds. boot_tac. Qed.
End memory.
#[export] Hint Resolve reserve_region_wf rust_init_freemem_wf write_slot_wf provide_cap_wf create_untypeds_wf : keeps.

(** ** Page tables *)

Section tables.
Context `{Config} `{Platform}.

Lemma write_pte_wf p e : keeps caps_wf (fun _ => True) (write_pte p e).
Proof. unfold write_pte. apply keeps_on_vspace. Qed.
Hint Resolve write_pte_wf : keeps.
Lemma map_devices_wf l : boots (map_devices l).
Proof. induction l as [|f l IH]; cbn [map_devices]; boot_tac; apply IH. Qed.
Hint Resolve map_devices_wf : keeps.
Lemma rust_map_kernel_window_wf : boots rust_map_kernel_window.
Proof. unfold rust_map_kernel_window. boot_tac. Qed.
End tables.
#[export] Hint Resolve rust_map_kernel_window_wf : keeps.

(** ** The root server *)

Section root.
Context `{Config}.

Lemma create_rootserver_objects_wf p v eb : boots (create_rootserver_objects p v eb).
Proof. unfold create_rootserver_objects. boot_tac. Qed.
Lemma rootserver_memory_wf : boots rootserver_memory.
Proof. unfold rootserver_memory. boot_tac. Qed.
Hint Resolve create_rootserver_objects_wf rootserver_memory_wf : keeps.
Lemma last_region_wf n i : boots (last_region n i).
Proof. revert i. induction n as [|n IH]; intros i; cbn [last_region]; [apply keeps_fail|]. boot_tac; apply IH. Qed.
Lemma place_rootserver_wf n v eb a b i : boots (place_rootserver n v eb a b i).
Proof. revert i. induction n as [|n IH]; intros i; cbn [place_rootserver]; [apply keeps_fail|]. boot_tac; apply IH. Qed.
Hint Resolve last_region_wf place_rootserver_wf : keeps.

(** The root CNode: 12 bits of index and a guard for the others. *)
Definition root_wf (c : cnode_cap) : Prop := cap_wf (cap_cnode_cap c).
Lemma create_root_cnode_wf : keeps boot_wf root_wf create_root_cnode.
Proof.
  assert (W : forall p, root_wf (mk_cnode_cap CONFIG_ROOT_CNODE_SIZE_BITS (WORD_BITS - CONFIG_ROOT_CNODE_SIZE_BITS) 0 p))
    by (intros p; vm_compute; split_and!; done).
  unfold create_root_cnode. eapply (keeps_bind _ (fun _ => True)); [apply keeps_gets|]. intros rs _. cbv zeta.
  eapply keeps_bind; [apply write_slot_wf, W|]. intros. apply keeps_ret, W.
Qed.

Lemma it_tables_wf n cn create b a e : boots (it_tables n cn create b a e).
Proof. revert a. induction n as [|n IH]; intros a; cbn [it_tables]; [apply keeps_fail|]. boot_tac; apply IH. Qed.
Lemma frames_loop_wf n cn pd e m o f : boots (frames_loop n cn pd e m o f).
Proof. revert f. induction n as [|n IH]; intros f; cbn [frames_loop]; [apply keeps_fail|]. boot_tac; apply IH. Qed.
Hint Resolve it_tables_wf frames_loop_wf : keeps.

Lemma rust_create_it_address_space_wf cn v : keeps boot_wf cap_wf (rust_create_it_address_space cn v).
Proof. unfold rust_create_it_address_space. boot_tac. Qed.
Hint Resolve rust_create_it_address_space_wf : value.
Lemma init_sched_control_wf cn k : boots (init_sched_control cn k).
Proof.
  unfold init_sched_control. boot_step; [apply keeps_gets|]. boot_step; [|boot_tac].
  generalize 0 as i. induction (Z.to_nat k) as [|n IH]; intros i; boot_tac; apply IH.
Qed.
Lemma create_ipcbuf_frame_cap_wf cn pd p : boots (create_ipcbuf_frame_cap cn pd p).
Proof. unfold create_ipcbuf_frame_cap, clear_boot_memory. boot_tac. Qed.
Lemma rust_populate_bi_frame_wf a b c d : boots (rust_populate_bi_frame a b c d).
Proof. unfold rust_populate_bi_frame, clear_boot_memory. boot_tac. Qed.
Hint Resolve init_sched_control_wf create_ipcbuf_frame_cap_wf rust_populate_bi_frame_wf : keeps.
Lemma boot_derive_cap_wf p c :
  cap_wf c -> keeps boot_wf (fun r => cap_wf (dc_capability r)) (on_kernel (on_ctes (derive_cap p c))).
Proof. intros Hc. by apply boots_kernel, keeps_on_ctes, derive_cap_keeps. Qed.
Hint Resolve boot_derive_cap_wf : value.
Lemma create_initial_thread_wf cn pd a b c f :
  root_wf cn -> cap_wf pd -> boots (create_initial_thread cn pd a b c f).
Proof. intros Hcn Hpd. unfold create_initial_thread, root_wf in *. boot_tac. Qed.
Hint Resolve create_initial_thread_wf : keeps.
Lemma root_server_init_wf v a b c d e r f g :
  keeps boot_wf (fun x => True) (root_server_init v a b c d e r f g).
Proof.
  unfold root_server_init. boot_step; [boot_tac|]. eapply keeps_bind; [apply create_root_cnode_wf|]. intros cn Hcn. boot_tac.
Qed.
End root.
#[export] Hint Resolve root_server_init_wf : keeps.

Section boot.
Context `{Config} `{Platform}.

Lemma init_bootinfo_wf a b c : boots (init_bootinfo a b c).
Proof. unfold init_bootinfo, copy_bytes. boot_tac. Qed.
Hint Resolve init_bootinfo_wf : keeps.
Lemma try_init_kernel_wf a b c d e f g : boots (try_init_kernel a b c d e f g).
Proof. unfold try_init_kernel. boot_tac. Qed.
End boot.

(** ** The fast path *)

Section fastpath.
Context `{Config} `{D : CSpaceDeps} `{!DepsWf D} `{DeletionFuel} `{Outside}.

Lemma lookup_fp_loop_wf n cn p b : keeps slots_wf (fun _ => True) (lookup_fp_loop n cn p b).
Proof. revert cn b. induction n as [|n IH]; intros cn b; cbn [lookup_fp_loop]; [apply keeps_fail|]. keeps_tac; apply IH. Qed.
Hint Resolve lookup_fp_loop_wf : keeps.

Lemma slow_wf n : kept_from (slow n).
Proof. apply kept_from_suffix; [apply slowpath_wf|]. intros. keeps_tac. Qed.

(** The tests read the state. *)
Ltac fast_reads :=
  repeat (first [ apply frame_lift_part; intros; reflexivity | apply frame_reads; [exact _|]; solve [reads_tac] | frame_step
                | progress unfold assert_not_scheduled, is_highest_prio, get_highest_prio, get_l1, get_l2, ntfn_active,
                    cur_thread, tcb_cap, get_cte, get_ep, get_ntfn, get_reply ]; cbv beta zeta).
Ltac fast_step :=
  lazymatch goal with
  | |- kept_from (unless_slow _ ?c _) => unfold unless_slow; destruct c; [apply slow_wf|]
  | |- kept_from (slow _) => apply slow_wf
  | |- kept_from (match ?c with _ => _ end) => destruct c
  | |- kept_from (bind _ _) => apply (kept_from_prefix (fun _ => True)); [fast_reads|keeps_tac|intros ? _]
  | |- kept_from _ => apply (kept_from_keeps (fun _ => True)); keeps_tac
  end.

Lemma fastpath_call_wf p i : kept_from (fastpath_call p i).
Proof. unfold fastpath_call. repeat (fast_step; cbv beta zeta). Qed.
Lemma fastpath_reply_recv_wf p i : kept_from (fastpath_reply_recv p i).
Proof. unfold fastpath_reply_recv. repeat (fast_step; cbv beta zeta). Qed.
Lemma fastpath_reply_recv_mcs_wf p i r : kept_from (fastpath_reply_recv_mcs p i r).
Proof. unfold fastpath_reply_recv_mcs. repeat (fast_step; cbv beta zeta). Qed.
End fastpath.

(** ** Reachable states *)

Section reachable.
Context `{Config} `{Platform} `{DeletionFuel} `{Outside} (nest : nat).
#[local] Instance kernel_calls : CSpaceDeps := kernel_deps nest.

(** What happens to the kernel's state from the moment it is loaded: it boots;
    user code and devices change registers and memory but no slot; and the
    kernel is entered, with words in the registers, on the slow path or on the
    fast path. *)
Inductive reachable : kstate -> Prop :=
| reach_boot ui_start ui_end pv_offset v_entry dtb dtb_size ki_boot_end s0 s :
    ctes (kern s0) = ∅ ->
    init_kernel ui_start ui_end pv_offset v_entry dtb dtb_size ki_boot_end s0 = Ok (tt, s) -> reachable (kern s)
| reach_user s s' : reachable s -> ctes s' = ctes s -> reachable s'
| reach_entry s s' : reachable s -> regs_ok s -> kernel_entry s s' -> reachable s'
| reach_call s s' cptr info r :
    reachable s -> regs_ok s -> fastpath_call cptr info s = Ok (r, s') -> reachable s'
| reach_reply_recv s s' cptr info r :
    reachable s -> regs_ok s -> fastpath_reply_recv cptr info s = Ok (r, s') -> reachable s'
| reach_reply_recv_mcs s s' cptr info reply r :
    reachable s -> regs_ok s -> fastpath_reply_recv_mcs cptr info reply s = Ok (r, s') -> reachable s'.

Lemma init_kernel_wf a b c d e f g : boots (init_kernel a b c d e f g).
Proof. unfold init_kernel. pose proof (try_init_kernel_wf a b c d e f g). boot_tac. Qed.

(** C1. Capabilities are well formed in every state the system can reach, from
    the end of the boot on and after any sequence of user steps, system calls,
    faults, interrupts and fast-path calls: a CNode translates between one bit
    and a word, its guard fits, a zombie has a valid type.  This holds on both
    architectures, with or without MCS. *)
Theorem reachable_caps_wf s : reachable s -> caps_wf s.
Proof.
  induction 1 as [a b c d e f g s0 s E0 E|s s' _ IH E|s s' _ IH Hr E|s s' p i r _ IH Hr E|s s' p i r _ IH Hr E
                 |s s' p i q r _ IH Hr E].
  - apply init_kernel_wf in E as [? _]; [done|]. unfold boot_wf, caps_wf, slots_wf. rewrite E0. apply map_Forall_empty.
  - unfold caps_wf in *. by rewrite E.
  - by eapply kernel_entry_caps_wf.
  - by eapply fastpath_call_wf in E.
  - by eapply fastpath_reply_recv_wf in E.
  - by eapply fastpath_reply_recv_mcs_wf in E.
Qed.
End reachable.

(** A machine with four gigabytes of memory, a kernel image of 192 KiB and a
    user image of 64 KiB, with MCS. *)
Module Machine.
#[export] Instance cfg : Config := riscv_mcs_config.
#[export] Instance fuel : DeletionFuel := 10%nat.
#[export] Instance no_outside : Outside := {| smc_call := fun l => l; strnlen := fun _ => 0 |}.
#[export] Instance platform : Platform := {|
  kernel_image_level2_pt := 0xFFFFFFFF84002000; armKSGlobalKernelPGD := 0; armKSGlobalKernelPUD := 0;
  armKSGlobalKernelPDs := 0; armKSGlobalKernelPT := 0; kernel_device_frames := [];
  avail_p_regs := [mk_PRegion 0x80200000 0x17ff00000]; ki_end := 0xFFFFFFFF84030000;
  intStateIRQNode := 0xFFFFFFFF84010000; ksIdleThreadTCB := 0xFFFFFFFF84020000;
  ksIdleThreadSC := 0xFFFFFFFF84021000; idle_thread := 0xFFFFFFFF84003000;
  kernel_stack_top := 0xFFFFFFFF84008000 |}.

(** The static variables of the kernel image. *)
Definition image : kstate :=
  base_state
    <| vspace := mk_vspace (replicate 128 0) ∅ ∅
         (lay_out 512 kernel_root_page_table 8 0 (lay_out 512 kernel_image_level2_pt 8 0 ∅)) 0 |>
    <| tcbs := {[ksIdleThreadTCB +w TCB_OFFSET := zero_tcb (mk_ArchTCB (replicate 35 0))]} |>
    <| scs := {[ksIdleThreadSC := zero_sc 2]} |>
    <| ksCurThread := 0 |> <| ksIdleThread := 0 |>
    <| irqs := mk_irq_state (replicate 6 IRQInactive) 0 255 ∅ 0 0 |>.
(** The initial thread is the current thread. *)
Definition initial_runs (s : bstate) : bool := ksCurThread (kern s) =? rs_tcb (rootserver s) +w TCB_OFFSET.

Lemma run_test {S} (r : res (unit * S)) (f : S -> bool) :
  match r with Ok (_, s) => f s | Err _ => false end = true -> exists s, r = Ok (tt, s) /\ f s = true.
Proof. destruct r as [[[] s]|]; [|discriminate]. eauto. Qed.

Lemma run_boots :
  exists s, init_kernel 0x84100000 0x84110000 0x84000000 0x100000 0 0 0xFFFFFFFF84004000 (boot_static image) = Ok (tt, s) /\
    initial_runs s = true.
Proof. apply (run_test (init_kernel 0x84100000 0x84110000 0x84000000 0x100000 0 0 0xFFFFFFFF84004000 (boot_static image))
    initial_runs). vm_compute. reflexivity. Qed.
Lemma no_slots : ctes (kern (boot_static image)) = ∅.
Proof. reflexivity. Qed.
End Machine.

(** The machine boots, its initial thread runs, and every slot is well formed. *)
Lemma reachable_caps_wf_witness :
  exists s, @init_kernel Machine.cfg Machine.platform 0x84100000 0x84110000 0x84000000 0x100000 0 0 0xFFFFFFFF84004000
      (boot_static Machine.image) = Ok (tt, s) /\
    Machine.initial_runs s = true /\ caps_wf (kern s).
Proof.
  destruct Machine.run_boots as (s & E & Hs). exists s. split; [exact E|]. split; [exact Hs|].
  apply (@reachable_caps_wf Machine.cfg Machine.platform Machine.fuel Machine.no_outside 2).
  exact (@reach_boot Machine.cfg Machine.platform Machine.fuel Machine.no_outside 2
    0x84100000 0x84110000 0x84000000 0x100000 0 0 0xFFFFFFFF84004000 (boot_static Machine.image) s Machine.no_slots E).
Defined.
