(* ===== verification/Lock.v ===== *)
(** * The big kernel lock of the multi-core kernel (kernel/src/smp/lock.rs)

    A CLH queue lock: every core owns a queue node; to acquire, it marks its
    node pending, swaps it into [head] and spins on the node it got back; to
    release, it marks its node granted and takes over the node it was
    spinning on.  A node pointer is an index into [nodes].  [cpu_access] is
    one shared-memory access of one core, written against the interface
    [NodeMemory] of the memory that holds the lock, which has two instances:
    a sequentially consistent memory ([clh_lock] itself), and one with a store
    buffer per core ([buffered_lock]), in which the plain stores to the node
    states are delayed, the machine of a [memory_model] drains them, and the
    swap waits for them only if its [Ordering] asks it to.

    The release stores to the fields of [node_owners], which only their own
    core reads, and the release fence before the grant order earlier stores
    before later ones; the buffered memory makes no use of that, so it has
    more behaviours than the machines, and the run in which exclusion fails
    ([overtaking] in LockProps.v) is one that obeys those orderings too.

    This file holds both memories and the invariant of the sequentially
    consistent one; LockProps.v relates the buffered memory to it.  The
    handling of inter-processor interrupts inside the spin loops is not part
    of the lock and is left out, and so are the data the lock protects. *)

From S2P Require Import Prelude Monad Config Objects State.

Inductive clh_qnode_state : Type := CLHState_Granted | CLHState_Pending.
#[export] Instance clh_qnode_state_eq_dec : EqDecision clh_qnode_state.
Proof. solve_decision. Defined.

Record clh_qnode_p := mk_qnode_p { node : option nat; next : option nat; ipi : Z }.
#[export] Instance eta_qnode_p : Settable clh_qnode_p :=
  fun r => mk_qnode_p (node r) (next r) (ipi r).

Record clh_lock := mk_clh_lock {
  nodes : list clh_qnode_state;
  node_owners : list clh_qnode_p;
  lock_head : option nat }.
#[export] Instance eta_clh_lock : Settable clh_lock :=
  fun r => mk_clh_lock (nodes r) (node_owners r) (lock_head r).

(** [core::sync::atomic::Ordering]. *)
Inductive Ordering : Type := Relaxed | Release | Acquire | AcqRel | SeqCst.

(** The ordering [acquire] passes to [self.head.swap]. *)
Definition swap_order : Ordering := Relaxed.

(** The ordering of the swap of the lock under study. *)
Class SwapOrder := the_order : Ordering.

(** What the lock asks of the memory.  [node_owners[cpu]] is used by core
    [cpu] alone; [store_state] is the plain store of [set_state], [load_state]
    the plain load of [state]; [swap_head] answers [None] while the swap still
    waits for earlier stores of its core. *)
Class NodeMemory (S : Type) := {
  get_owner : nat -> M S clh_qnode_p;
  mod_owner : nat -> (clh_qnode_p -> clh_qnode_p) -> M S unit;
  load_state : nat -> nat -> M S clh_qnode_state;
  store_state : nat -> nat -> clh_qnode_state -> M S unit;
  swap_head : Ordering -> nat -> option nat -> M S (option (option nat)) }.

(** ** The sequentially consistent memory *)

Definition lock_owner (cpu : nat) : M clh_lock clh_qnode_p := fun l =>
  match node_owners l !! cpu with Some o => Ok (o, l) | None => Err EPanic end.
Definition lock_mod_owner (cpu : nat) (f : clh_qnode_p -> clh_qnode_p) : M clh_lock unit := fun l =>
  match node_owners l !! cpu with
  | Some o => Ok (tt, l <| node_owners := <[cpu := f o]> (node_owners l) |>)
  | None => Err EPanic
  end.
Definition lock_load (i : nat) : M clh_lock clh_qnode_state := fun l =>
  match nodes l !! i with Some st => Ok (st, l) | None => Err EUndef end.
Definition lock_store (i : nat) (st : clh_qnode_state) : M clh_lock unit := fun l =>
  match nodes l !! i with
  | Some _ => Ok (tt, l <| nodes := <[i := st]> (nodes l) |>)
  | None => Err EUndef
  end.
Definition lock_swap (new : option nat) : M clh_lock (option nat) := fun l =>
  Ok (lock_head l, l <| lock_head := new |>).

#[export] Instance sc_memory : NodeMemory clh_lock := {
  get_owner := lock_owner;
  mod_owner := lock_mod_owner;
  load_state _ := lock_load;
  store_state _ := lock_store;
  swap_head _ _ new := let* old := lock_swap new in ret (Some old) }.

(** [clh_lock::new] followed by [init], for [n] cores. *)
Definition lock_init (n : nat) : clh_lock :=
  mk_clh_lock (replicate (S n) CLHState_Granted)
    ((fun i => mk_qnode_p (Some i) None 0) <$> seq 0 n) (Some n).

(** ** The accesses of the lock, one by one *)

(** Where a core is in its code. *)
Inductive pc : Type :=
| Outside                      (* not holding the lock and not asking for it *)
| Marked                       (* its node is pending *)
| Swapped (raw_ptr : option nat)
| Spinning                     (* in [while next_node_value(cpu) != Granted] *)
| Critical                     (* [acquire] returned *)
| Granting.                    (* between the two writes of [release] *)

#[export] Instance pc_eq_dec : EqDecision pc.
Proof. solve_decision. Defined.

Inductive event : Type := Queued (cpu : nat) | Entered (cpu : nat) | Left (cpu : nat).

Record system (S : Type) := mk_system { the_lock : S; pcs : list pc }.
Arguments mk_system {S}.
Arguments the_lock {S}.
Arguments pcs {S}.

Section lock.
Context {T : Type} {mem : NodeMemory T} {ord : SwapOrder}.

(** [p.as_mut().unwrap()]: a null pointer panics. *)
Definition get_state_of (cpu : nat) (p : option nat) : M T clh_qnode_state :=
  match p with None => fail EPanic | Some i => load_state cpu i end.
Definition set_state_of (cpu : nat) (p : option nat) (st : clh_qnode_state) : M T unit :=
  match p with None => fail EPanic | Some i => store_state cpu i st end.

Definition is_ipi_pending (cpu : nat) : M T bool :=
  let* o := get_owner cpu in ret (ipi o =? 1).
Definition set_ipi (cpu : nat) (v : Z) : M T unit := mod_owner cpu (fun o => o <| ipi := v |>).

Definition is_self_in_queue (cpu : nat) : M T bool :=
  let* o := get_owner cpu in
  let* st := get_state_of cpu (node o) in
  ret (bool_decide (st = CLHState_Pending)).

Definition next_node_value (cpu : nat) : M T clh_qnode_state :=
  let* o := get_owner cpu in get_state_of cpu (next o).

Definition acquire_mark (cpu : nat) : M T unit :=
  let* o := get_owner cpu in set_state_of cpu (node o) CLHState_Pending.

(** [self.head.swap(node, Ordering::Relaxed)], with the ordering as a
    parameter. *)
Definition acquire_swap (cpu : nat) : M T (option (option nat)) :=
  let* o := get_owner cpu in swap_head the_order cpu (node o).

Definition acquire_store (cpu : nat) (raw_ptr : option nat) : M T unit :=
  mod_owner cpu (fun o => o <| next := raw_ptr |>).

Definition release_grant (cpu : nat) : M T unit :=
  let* o := get_owner cpu in set_state_of cpu (node o) CLHState_Granted.

Definition release_recycle (cpu : nat) : M T unit :=
  mod_owner cpu (fun o => o <| node := next o |>).

(** One access by core [cpu]; the loop around the swap repeats it while the
    old head is null. *)
Definition cpu_access (cpu : nat) (p : pc) : M T (pc * list event) :=
  match p with
  | Outside => acquire_mark cpu ;;; ret (Marked, [])
  | Marked =>
      let* old := acquire_swap cpu in
      ret (match old with Some old => (Swapped old, [Queued cpu]) | None => (Marked, []) end)
  | Swapped old =>
      acquire_store cpu old ;;;
      ret (match old with Some _ => Spinning | None => Marked end, [])
  | Spinning =>
      let* st := next_node_value cpu in
      ret (match st with CLHState_Granted => (Critical, [Entered cpu]) | _ => (Spinning, []) end)
  | Critical => release_grant cpu ;;; ret (Granting, [Left cpu])
  | Granting => release_recycle cpu ;;; ret (Outside, [])
  end.

Definition cpu_step (cpu : nat) (s : system T) : res (list event * system T) :=
  match pcs s !! cpu with
  | None => Err EPanic
  | Some p =>
      match cpu_access cpu p (the_lock s) with
      | Ok ((p', ev), l) => Ok (ev, mk_system l (<[cpu := p']> (pcs s)))
      | Err e => Err e
      end
  end.

(** [k] accesses of one core. *)
Fixpoint cpu_run (k : nat) (cpu : nat) (s : system T) : res (system T) :=
  match k with
  | O => Ok s
  | S k' => match cpu_step cpu s with Ok (_, s') => cpu_run k' cpu s' | Err e => Err e end
  end.
End lock.

Definition queued_order (tr : list event) : list nat :=
  omap (fun e => match e with Queued c => Some c | _ => None end) tr.
Definition entered_order (tr : list event) : list nat :=
  omap (fun e => match e with Entered c => Some c | _ => None end) tr.
Definition left_order (tr : list event) : list nat :=
  omap (fun e => match e with Left c => Some c | _ => None end) tr.

(** ** The memory with store buffers

    [buffers !! c] are the stores to node states of core [c] that the memory
    has not seen yet, the oldest first. *)

Record buffered_lock := mk_buffered {
  memory : clh_lock;
  buffers : list (list (nat * clh_qnode_state)) }.
#[export] Instance eta_buffered_lock : Settable buffered_lock :=
  fun r => mk_buffered (memory r) (buffers r).

(** [TSO]: stores reach the memory in the order of the code, and an atomic
    swap waits for them.  [Weak]: stores to different nodes reach it in any
    order, and a swap waits for the earlier ones only when its ordering is a
    release; so it is on AArch64 ([swp] against [swpl]) and RISC-V
    ([amoswap] against [amoswap.rl]). *)
Inductive memory_model : Type := TSO | Weak.
Existing Class memory_model.

Definition is_release (o : Ordering) : bool :=
  match o with Release | AcqRel | SeqCst => true | Relaxed | Acquire => false end.
Definition swap_waits (mm : memory_model) (o : Ordering) : bool :=
  match mm with TSO => true | Weak => is_release o end.

(** The newest store of a buffer to node [i]. *)
Definition buffer_read (b : list (nat * clh_qnode_state)) (i : nat) : option clh_qnode_state :=
  foldl (fun acc e => if bool_decide (e.1 = i) then Some e.2 else acc) None b.

Definition on_memory {A} (m : M clh_lock A) : M buffered_lock A := fun w =>
  match m (memory w) with Ok (a, l) => Ok (a, w <| memory := l |>) | Err e => Err e end.
Definition get_buffer (cpu : nat) : M buffered_lock (list (nat * clh_qnode_state)) := fun w =>
  match buffers w !! cpu with Some b => Ok (b, w) | None => Err EPanic end.
Definition set_buffer (cpu : nat) (b : list (nat * clh_qnode_state)) : M buffered_lock unit :=
  modify (fun w => w <| buffers := <[cpu := b]> (buffers w) |>).

(** A core sees its own stores at once. *)
Definition buffer_load (cpu i : nat) : M buffered_lock clh_qnode_state :=
  let* b := get_buffer cpu in
  match buffer_read b i with Some st => ret st | None => on_memory (lock_load i) end.
Definition buffer_store (cpu i : nat) (st : clh_qnode_state) : M buffered_lock unit :=
  let* _ := on_memory (lock_load i) in
  let* b := get_buffer cpu in
  set_buffer cpu (b ++ [(i, st)]).
Definition buffer_swap {mm : memory_model} (o : Ordering) (cpu : nat) (new : option nat) :
    M buffered_lock (option (option nat)) :=
  let* b := get_buffer cpu in
  if swap_waits mm o && negb (bool_decide (b = [])) then ret None
  else let* old := on_memory (lock_swap new) in ret (Some old).

#[export] Instance buffered_memory {mm : memory_model} : NodeMemory buffered_lock := {
  get_owner cpu := on_memory (lock_owner cpu);
  mod_owner cpu f := on_memory (lock_mod_owner cpu f);
  load_state := buffer_load;
  store_state := buffer_store;
  swap_head := buffer_swap }.

(** Store [k] of the buffer of [cpu] may reach the memory now: nothing
    overtakes an older store to the same node, and with [TSO] nothing
    overtakes any. *)
Definition may_drain {mm : memory_model} (b : list (nat * clh_qnode_state)) (k i : nat) : bool :=
  match mm with
  | TSO => bool_decide (k = 0%nat)
  | Weak => bool_decide (Forall (fun e => e.1 <> i) (take k b))
  end.

Definition drain {mm : memory_model} (cpu k : nat) : M buffered_lock unit :=
  let* b := get_buffer cpu in
  match b !! k with
  | Some (i, st) =>
      if may_drain b k i then set_buffer cpu (delete k b) ;;; on_memory (lock_store i st)
      else fail EUndef
  | None => fail EUndef
  end.

(** ** Runs *)

(** An access of a core, or a store of its buffer reaching the memory. *)
Inductive action : Type := Access (cpu : nat) | Drain (cpu k : nat).

Section runs.
Context {mm : memory_model} {ord : SwapOrder}.

Definition buffered_step (a : action) (s : system buffered_lock) : res (list event * system buffered_lock) :=
  match a with
  | Access cpu => cpu_step cpu s
  | Drain cpu k =>
      match drain cpu k (the_lock s) with
      | Ok (_, l) => Ok ([], mk_system l (pcs s))
      | Err e => Err e
      end
  end.

Definition buffered_init (n : nat) : system buffered_lock :=
  mk_system (mk_buffered (lock_init n) (replicate n [])) (replicate n Outside).

Definition acting (a : action) : nat := match a with Access cpu => cpu | Drain cpu _ => cpu end.

(** The runs of [n] cores, with the events so far. *)
Inductive buffered_run (n : nat) : list event -> system buffered_lock -> Prop :=
| buffered_run_init : buffered_run n [] (buffered_init n)
| buffered_run_step tr s a ev s' :
    buffered_run n tr s -> (acting a < n)%nat -> buffered_step a s = Ok (ev, s') -> buffered_run n (tr ++ ev) s'.

(** A schedule: the actions in their order. *)
Fixpoint exec (schedule : list action) (tr : list event) (s : system buffered_lock) :
    res (list event * system buffered_lock) :=
  match schedule with
  | [] => Ok (tr, s)
  | a :: rest => match buffered_step a s with Ok (ev, s') => exec rest (tr ++ ev) s' | Err e => Err e end
  end.
End runs.

Definition system_init (n : nat) : system clh_lock := mk_system (lock_init n) (replicate n Outside).

(** ** The invariant

    [q] is the queue: the cores that have swapped and have not left, in the
    order of their swaps.  [spare] is the granted node at its front. *)

Definition pred_of (p : pc) (o : clh_qnode_p) : option nat :=
  match p with Swapped old => old | _ => next o end.

(** The node a core brings to its next acquisition. *)
Definition own_of (p : pc) (o : clh_qnode_p) : option nat :=
  match p with Granting => next o | _ => node o end.

Definition in_queue (p : pc) : bool :=
  match p with Swapped _ | Spinning | Critical => true | _ => false end.
Definition pending (p : pc) : bool :=
  match p with Marked => true | _ => in_queue p end.

(** The nodes of the queue from the front: core [q !! k] waits on the [k]-th,
    and the last one is in [head].  [ow] gives the node every core owns. *)
Definition queue_nodes (spare : nat) (ow q : list nat) : list nat :=
  spare :: omap (fun c => ow !! c) q.
Arguments queue_nodes : simpl never.

Record core_inv (s : system clh_lock) (q : list nat) (spare : nat) (ow : list nat) (c : nat)
    (p : pc) (o : clh_qnode_p) (i : nat) : Prop := {
  ci_pc : pcs s !! c = Some p;
  ci_owner : node_owners (the_lock s) !! c = Some o;
  ci_ow : ow !! c = Some i;
  ci_own : own_of p o = Some i;
  ci_queue : in_queue p = bool_decide (c ∈ q);
  ci_pending : pending p = true -> nodes (the_lock s) !! i = Some CLHState_Pending;
  ci_pred k : q !! k = Some c -> pred_of p o = queue_nodes spare ow q !! k;
  ci_critical : p = Critical -> q !! 0%nat = Some c }.

Record inv (n : nat) (s : system clh_lock) (q : list nat) (spare : nat) (ow : list nat) : Prop := {
  inv_nodes : length (nodes (the_lock s)) = S n;
  inv_pcs : length (pcs s) = n;
  inv_owners : length (node_owners (the_lock s)) = n;
  inv_ow : length ow = n;
  inv_bound : Forall (fun i => i <= n)%nat (spare :: ow);
  inv_own_NoDup : NoDup (spare :: ow);
  inv_q_NoDup : NoDup q;
  inv_q_bound : Forall (fun c => c < n)%nat q;
  inv_spare : nodes (the_lock s) !! spare = Some CLHState_Granted;
  inv_head : lock_head (the_lock s) = queue_nodes spare ow q !! length q;
  inv_core c : (c < n)%nat -> exists p o i, core_inv s q spare ow c p o i }.

(** The events of a run whose queue is [q]. *)
Definition trace_inv (tr : list event) (s : system clh_lock) (q : list nat) : Prop :=
  queued_order tr = left_order tr ++ q /\
  entered_order tr = left_order tr ++
    match q with
    | c :: _ => if bool_decide (pcs s !! c = Some Critical) then [c] else []
    | [] => []
    end.

Section preservation.
Context (n : nat) (s : system clh_lock) (q : list nat) (spare : nat) (ow : list nat).
Hypothesis Hinv : inv n s q spare ow.
Implicit Types (c k : nat) (p : pc) (o : clh_qnode_p).

Lemma omap_ow_lookup k c i : q !! k = Some c -> ow !! c = Some i ->
  queue_nodes spare ow q !! S k = Some i.
Proof.
  intros Hk Hi. unfold queue_nodes. cbn.
  assert (Hall : Forall (fun c => is_Some (ow !! c)) q).
  { eapply Forall_impl; [apply (inv_q_bound _ _ _ _ _ Hinv)|]. intros d Hd. cbn.
    apply lookup_lt_is_Some. rewrite (inv_ow _ _ _ _ _ Hinv). done. }
  clear Hinv. revert k Hk Hall. induction q as [|d l IH]; intros [|k] Hk Hall; [done..| |];
    apply Forall_cons in Hall as [[j Hj] Hall]; cbn in *; rewrite Hj.
  - by simplify_eq.
  - by apply IH.
Qed.

Lemma queue_core c : c ∈ q -> (c < n)%nat.
Proof. intros Hc. by apply (proj1 (Forall_forall _ q) (inv_q_bound _ _ _ _ _ Hinv)). Qed.

(** Only the first core of the queue waits on a granted node. *)
Lemma waits_on_granted c p o i :
  core_inv s q spare ow c p o i -> c ∈ q ->
  exists j k, q !! k = Some c /\ pred_of p o = Some j /\
    nodes (the_lock s) !! j = Some (if decide (k = 0%nat) then CLHState_Granted else CLHState_Pending) /\
    (k = 0%nat -> j = spare).
Proof.
  intros Hc Hq. apply list_elem_of_lookup in Hq as [[|k] Hk].
  - exists spare, 0%nat. rewrite (ci_pred _ _ _ _ _ _ _ _ Hc _ Hk). repeat split; [done|].
    apply (inv_spare _ _ _ _ _ Hinv).
  - destruct (lookup_lt_is_Some_2 q k) as [d Hd].
    { apply lookup_lt_Some in Hk. lia. }
    assert (Hdn : (d < n)%nat) by (apply queue_core; by eapply list_elem_of_lookup_2).
    destruct (inv_core _ _ _ _ _ Hinv d Hdn) as (p' & o' & j & Hd').
    exists j, (S k). split; [done|]. split.
    { rewrite (ci_pred _ _ _ _ _ _ _ _ Hc _ Hk). apply (omap_ow_lookup k d); [done|apply Hd']. }
    split; [|done]. cbn. apply (ci_pending _ _ _ _ _ _ _ _ Hd').
    assert (in_queue p' = true) as Hin.
    { rewrite (ci_queue _ _ _ _ _ _ _ _ Hd'). apply bool_decide_true. by eapply list_elem_of_lookup_2. }
    by destruct p'.
Qed.

Lemma critical_is_first c p o i :
  core_inv s q spare ow c p o i -> p = Critical -> exists q', q = c :: q'.
Proof. intros Hc Hp. apply (ci_critical _ _ _ _ _ _ _ _ Hc) in Hp. destruct q; naive_solver. Qed.

(** Another core's invariant depends on the nodes, not on this core's part. *)
Lemma core_inv_frame s' q' spare' ow' c d p o i :
  c <> d -> core_inv s q spare ow d p o i ->
  pcs s' !! d = pcs s !! d ->
  node_owners (the_lock s') !! d = node_owners (the_lock s) !! d ->
  ow' !! d = ow !! d ->
  (d ∈ q' <-> d ∈ q) ->
  (pending p = true -> nodes (the_lock s') !! i = nodes (the_lock s) !! i) ->
  (forall k, q' !! k = Some d -> exists k', q !! k' = Some d /\
     queue_nodes spare' ow' q' !! k = queue_nodes spare ow q !! k') ->
  (p = Critical -> q' !! 0%nat = Some d) ->
  core_inv s' q' spare' ow' d p o i.
Proof.
  intros Hne [] E1 E2 E3 Hq En Hpred Hcrit. constructor; try congruence.
  - rewrite ci_queue0. by apply bool_decide_ext.
  - intros Hp. rewrite En by done. auto.
  - intros k Hk. destruct (Hpred k Hk) as (k' & Hk' & ->). by apply ci_pred0.
  - exact Hcrit.
Qed.

Lemma own_differs c d i j : c <> d -> ow !! c = Some i -> ow !! d = Some j -> i <> j.
Proof.
  intros Hne Hc Hd ->. pose proof (inv_own_NoDup _ _ _ _ _ Hinv) as Hnd.
  apply NoDup_cons in Hnd as [_ Hnd]. eapply Hne, NoDup_lookup; eauto.
Qed.

Lemma own_not_spare c i : ow !! c = Some i -> i <> spare.
Proof.
  intros Hc ->. pose proof (inv_own_NoDup _ _ _ _ _ Hinv) as Hnd.
  apply NoDup_cons in Hnd as [Hnd _]. apply Hnd. by eapply list_elem_of_lookup_2.
Qed.

(** A step of core [c] that leaves the queue alone. *)
Lemma inv_same_queue c p o i p' o' nodes' :
  (c < n)%nat -> core_inv s q spare ow c p o i ->
  own_of p' o' = Some i -> in_queue p' = in_queue p ->
  (in_queue p = true -> pred_of p' o' = pred_of p o) ->
  length nodes' = S n -> (forall j, j <> i -> nodes' !! j = nodes (the_lock s) !! j) ->
  (pending p' = true -> nodes' !! i = Some CLHState_Pending) ->
  (p' = Critical -> q !! 0%nat = Some c) ->
  inv n (mk_system (mk_clh_lock nodes' (<[c := o']> (node_owners (the_lock s))) (lock_head (the_lock s)))
           (<[c := p']> (pcs s))) q spare ow.
Proof.
  intros Hc Hcore Hown Hin Hpred Hlen Hnodes Hpend Hcrit.
  pose proof Hinv as [? ? ? ? ? ? ? ? ? ? Hcores]. constructor; cbn; try done.
  - by rewrite length_insert.
  - by rewrite length_insert.
  - rewrite Hnodes; [done|]. intros <-. eapply own_not_spare; [apply Hcore|done].
  - intros d Hd. destruct (decide (c = d)) as [<-|Hne].
    + exists p', o', i. constructor; cbn; try done.
      * rewrite list_lookup_insert_eq; [done|]. congruence.
      * rewrite list_lookup_insert_eq; [done|]. congruence.
      * apply Hcore.
      * rewrite Hin. apply Hcore.
      * intros k Hk. rewrite Hpred; [by apply Hcore|].
        rewrite (ci_queue _ _ _ _ _ _ _ _ Hcore). apply bool_decide_true.
        by eapply list_elem_of_lookup_2.
    + destruct (Hcores d Hd) as (pd & od & j & Hd'). exists pd, od, j.
      eapply core_inv_frame; eauto; cbn; rewrite ?list_lookup_insert_ne by done; try done.
      * intros _. apply Hnodes. intros ->. eapply own_differs; [exact Hne|apply Hcore|apply Hd'|done].
      * by intros ->; apply Hd'.
Qed.

Lemma queue_nodes_snoc c i : ow !! c = Some i ->
  queue_nodes spare ow (q ++ [c]) = queue_nodes spare ow q ++ [i].
Proof. intros E. unfold queue_nodes. rewrite omap_app. cbn. by rewrite E. Qed.

Lemma length_queue_nodes : length (queue_nodes spare ow q) = S (length q).
Proof.
  unfold queue_nodes. cbn. f_equal. pose proof (inv_q_bound _ _ _ _ _ Hinv) as Hb.
  pose proof (inv_ow _ _ _ _ _ Hinv) as Ho. clear Hinv.
  induction q as [|d l IH]; [done|]. apply Forall_cons in Hb as [Hd Hb]. cbn.
  destruct (lookup_lt_is_Some_2 ow d) as [j ->]; [lia|]. cbn. f_equal. auto.
Qed.

(** The swap: [c] joins at the end of the queue. *)
Lemma inv_join c o i :
  (c < n)%nat -> core_inv s q spare ow c Marked o i ->
  inv n (mk_system ((the_lock s) <| lock_head := node o |>)
           (<[c := Swapped (lock_head (the_lock s))]> (pcs s))) (q ++ [c]) spare ow.
Proof.
  intros Hc Hcore. pose proof Hinv as [? ? ? ? ? ? ? ? ? Hhead Hcores].
  pose proof (ci_ow _ _ _ _ _ _ _ _ Hcore) as Hi.
  assert (Hnin : c ∉ q).
  { intros Hin. pose proof (ci_queue _ _ _ _ _ _ _ _ Hcore) as E. symmetry in E.
    by apply bool_decide_eq_false in E. }
  constructor; cbn; try done.
  - by rewrite length_insert.
  - apply NoDup_app. repeat split; [done| |apply NoDup_singleton].
    intros d Hd Hd'. apply list_elem_of_singleton in Hd'. by subst.
  - by apply Forall_app_2; [|apply Forall_singleton].
  - rewrite (queue_nodes_snoc c i Hi), length_app. cbn.
    rewrite lookup_app_r by (rewrite length_queue_nodes; lia).
    rewrite length_queue_nodes. replace (length q + 1 - S (length q))%nat with 0%nat by lia.
    apply Hcore.
  - intros d Hd. destruct (decide (c = d)) as [<-|Hne].
    + exists (Swapped (lock_head (the_lock s))), o, i. constructor; cbn; try apply Hcore; try done.
      * rewrite list_lookup_insert_eq; [done|]. congruence.
      * symmetry. apply bool_decide_true. set_solver.
      * intros k Hk. rewrite Hhead, (queue_nodes_snoc c i Hi).
        assert (k = length q) as ->.
        { apply lookup_app_Some in Hk as [Hk|[Hge Hk]]; [by apply list_elem_of_lookup_2 in Hk|].
          apply list_lookup_singleton_Some in Hk as [? _]. lia. }
        rewrite lookup_app_l; [done|]. rewrite length_queue_nodes. lia.
    + destruct (Hcores d Hd) as (pd & od & j & Hd'). exists pd, od, j.
      eapply core_inv_frame; eauto; cbn; rewrite ?list_lookup_insert_ne by done; try done.
      * rewrite elem_of_app, list_elem_of_singleton. naive_solver.
      * intros k Hk. exists k. apply lookup_app_Some in Hk as [Hk|[_ Hk]].
        -- split; [done|]. rewrite (queue_nodes_snoc c i Hi), lookup_app_l; [done|].
           rewrite length_queue_nodes. apply lookup_lt_Some in Hk. lia.
        -- apply list_lookup_singleton_Some in Hk as [_ ?]. by subst.
      * intros ->. apply lookup_app_l_Some. by apply Hd'.
Qed.

Lemma leave_permutation c i : ow !! c = Some i -> spare :: ow ≡ₚ i :: <[c := spare]> ow.
Proof.
  intros Hi. rewrite insert_take_drop by (by apply lookup_lt_Some in Hi).
  rewrite <- (take_drop_middle ow c i Hi) at 1. solve_Permutation.
Qed.

Lemma queue_nodes_leave c i q' k : q = c :: q' -> c ∉ q' -> ow !! c = Some i ->
  queue_nodes i (<[c := spare]> ow) q' !! k = queue_nodes spare ow q !! S k.
Proof.
  intros -> Hnin Hi. unfold queue_nodes. cbn. rewrite Hi. cbn.
  destruct k as [|k]; [done|]. cbn. f_equal. clear - Hnin.
  induction q' as [|d l IH]; [done|]. cbn. apply not_elem_of_cons in Hnin as [Hne Hnin].
  rewrite list_lookup_insert_ne by done. by rewrite IH.
Qed.

(** The release: the first core leaves, and its node becomes the granted one
    at the front. *)
Lemma inv_leave c o i q' :
  (c < n)%nat -> core_inv s q spare ow c Critical o i -> q = c :: q' ->
  inv n (mk_system ((the_lock s) <| nodes := <[i := CLHState_Granted]> (nodes (the_lock s)) |>)
           (<[c := Granting]> (pcs s))) q' i (<[c := spare]> ow).
Proof.
  intros Hc Hcore Hq. pose proof Hinv as [? ? ? ? Hb Hnd Hqnd Hqb ? Hhead Hcores].
  pose proof (ci_ow _ _ _ _ _ _ _ _ Hcore) as Hi.
  assert (Hqc : (c ∉ q') /\ NoDup q') by (rewrite Hq in Hqnd; by apply NoDup_cons in Hqnd).
  destruct Hqc as [Hnin Hqnd'].
  assert (Hin : (i < S n)%nat).
  { apply Forall_cons in Hb as [_ Hb]. eapply Forall_lookup_1 in Hb; [|exact Hi]. cbn in Hb. lia. }
  constructor; cbn; try done.
  - by rewrite length_insert.
  - by rewrite length_insert.
  - by rewrite length_insert.
  - by rewrite <- (leave_permutation c i Hi).
  - by rewrite <- (leave_permutation c i Hi).
  - by rewrite Hq in Hqb; apply Forall_cons in Hqb as [_ ?].
  - rewrite list_lookup_insert_eq; [done|]. lia.
  - rewrite (queue_nodes_leave c i q') by done. 
    replace (S (length q')) with (length q) by (by rewrite Hq). done.
  - intros d Hd. destruct (decide (c = d)) as [<-|Hne].
    + exists Granting, o, spare. constructor; cbn; try done.
      * rewrite list_lookup_insert_eq; [done|]. congruence.
      * apply Hcore.
      * rewrite list_lookup_insert_eq; [done|]. congruence.
      * pose proof (ci_pred _ _ _ _ _ _ _ _ Hcore 0%nat) as E. rewrite Hq in E. by apply E.
      * symmetry. by apply bool_decide_false.
      * intros k Hk. by apply list_elem_of_lookup_2 in Hk.
    + destruct (Hcores d Hd) as (pd & od & j & Hd'). exists pd, od, j.
      eapply core_inv_frame; eauto; cbn; rewrite ?list_lookup_insert_ne by done; try done.
      * rewrite Hq. set_solver.
      * intros _. rewrite list_lookup_insert_ne; [done|]. eapply own_differs; eauto; apply Hd'.
      * intros k Hk. exists (S k). rewrite (queue_nodes_leave c i q') by done.
        split; [by rewrite Hq|done].
      * intros ->. pose proof (ci_critical _ _ _ _ _ _ _ _ Hd' eq_refl) as E.
        rewrite Hq in E. cbn in E. by simplify_eq.
Qed.
End preservation.

(** ** Every step keeps the invariant, and no step panics *)

Lemma trace_same tr s s' q c p' :
  trace_inv tr s q -> pcs s' = <[c := p']> (pcs s) ->
  pcs s !! c <> Some Critical -> p' <> Critical -> trace_inv tr s' q.
Proof.
  intros [H1 H2] E Hp Hp'. split; [done|]. rewrite H2. f_equal. destruct q as [|d q]; [done|].
  rewrite E. destruct (decide (c = d)) as [->|Hne]; [|by rewrite list_lookup_insert_ne].
  rewrite (bool_decide_false (pcs s !! d = Some Critical)) by done.
  symmetry. rewrite bool_decide_false; [done|]. intros E'.
  apply list_lookup_insert_Some in E' as [(_ & ? & _)|[? _]]; congruence.
Qed.

(** Runs one access in a state where the core's data are known. *)
Ltac lock_run :=
  unfold cpu_step, cpu_access, acquire_mark, acquire_swap, acquire_store, release_grant,
    release_recycle, next_node_value, get_state_of, set_state_of, bind, ret;
  cbn [get_owner mod_owner load_state store_state swap_head sc_memory];
  unfold lock_owner, lock_mod_owner, lock_load, lock_store, lock_swap, bind, ret;
  repeat (match goal with E : ?l !! ?k = Some _ |- context [?l !! ?k] => rewrite E
                        | E : node ?o = _ |- context [node ?o] => rewrite E
                        | E : next ?o = _ |- context [next ?o] => rewrite E end; cbn).

(** The result of one step of core [c]. *)
Definition step_ok {ord : SwapOrder} (n : nat) (tr : list event) (c : nat) (s : system clh_lock) : Prop :=
  exists ev s' q' spare' ow',
    cpu_step c s = Ok (ev, s') /\ inv n s' q' spare' ow' /\ trace_inv (tr ++ ev) s' q'.

Section steps.
Context {ord : SwapOrder}.
Context (n : nat) (s : system clh_lock) (q : list nat) (spare : nat) (ow : list nat) (tr : list event).
Hypotheses (Hinv : inv n s q spare ow) (Htr : trace_inv tr s q).
Context (c : nat) (o : clh_qnode_p) (i : nat).
Hypothesis Hc : (c < n)%nat.

Lemma own_allocated p : core_inv s q spare ow c p o i -> exists st, nodes (the_lock s) !! i = Some st.
Proof.
  intros Hcore. apply lookup_lt_is_Some. rewrite (inv_nodes _ _ _ _ _ Hinv).
  pose proof (inv_bound _ _ _ _ _ Hinv) as Hb. apply Forall_cons in Hb as [_ Hb].
  eapply Forall_lookup_1 in Hb; [|apply Hcore]. cbn in Hb. lia.
Qed.

(** A step that leaves the queue alone and is not an entry. *)
Lemma step_quiet p p' o' nodes' :
  core_inv s q spare ow c p o i -> p <> Critical -> p' <> Critical ->
  cpu_step c s = Ok ([], mk_system (mk_clh_lock nodes' (<[c := o']> (node_owners (the_lock s)))
                           (lock_head (the_lock s))) (<[c := p']> (pcs s))) ->
  own_of p' o' = Some i -> in_queue p' = in_queue p ->
  (in_queue p = true -> pred_of p' o' = pred_of p o) ->
  length nodes' = S n -> (forall j, j <> i -> nodes' !! j = nodes (the_lock s) !! j) ->
  (pending p' = true -> nodes' !! i = Some CLHState_Pending) ->
  step_ok n tr c s.
Proof.
  intros Hcore Hp Hp' Hrun ? ? ? ? ? ?. eexists [], _, q, spare, ow. split_and!; [exact Hrun| |].
  - by eapply inv_same_queue.
  - rewrite app_nil_r. apply (trace_same _ s _ _ c p'); [done..| |done].
    rewrite (ci_pc _ _ _ _ _ _ _ _ Hcore). congruence.
Qed.

Lemma lock_eta l : node_owners l !! c = Some o ->
  mk_clh_lock (nodes l) (<[c := o]> (node_owners l)) (lock_head l) = l.
Proof. intros E. rewrite list_insert_id by done. by destruct l. Qed.

Lemma step_mark : core_inv s q spare ow c Outside o i -> step_ok n tr c s.
Proof.
  intros Hcore. destruct (own_allocated _ Hcore) as [st Hst].
  pose proof Hcore as [Hpc Ho Hi Hown Hq _ _ _]. cbn in Hown.
  eapply (step_quiet _ Marked o (<[i := CLHState_Pending]> (nodes (the_lock s)))); eauto; try done.
  - rewrite (list_insert_id _ c o Ho). by lock_run.
  - rewrite length_insert. apply (inv_nodes _ _ _ _ _ Hinv).
  - intros j Hj. by rewrite list_lookup_insert_ne.
  - intros _. rewrite list_lookup_insert_eq; [done|]. by eapply lookup_lt_Some.
Qed.

Lemma step_store old : core_inv s q spare ow c (Swapped old) o i -> step_ok n tr c s.
Proof.
  intros Hcore. pose proof Hcore as [Hpc Ho Hi Hown Hq Hp Hpred _]. cbn in *.
  assert (c ∈ q) as Hin by (by apply (bool_decide_eq_true_1 (c ∈ q))).
  destruct (waits_on_granted n s q spare ow Hinv c _ _ _ Hcore Hin) as (j & k & _ & E & _).
  cbn in E. subst old.
  eapply (step_quiet _ Spinning (o <| next := Some j |>) (nodes (the_lock s))); eauto; try done.
  - by lock_run.
  - apply (inv_nodes _ _ _ _ _ Hinv).
Qed.

Lemma step_recycle : core_inv s q spare ow c Granting o i -> step_ok n tr c s.
Proof.
  intros Hcore. pose proof Hcore as [Hpc Ho Hi Hown Hq Hp Hpred _]. cbn in *.
  eapply (step_quiet _ Outside (o <| node := next o |>) (nodes (the_lock s))); eauto; try done.
  - by lock_run.
  - apply (inv_nodes _ _ _ _ _ Hinv).
Qed.

Lemma step_swap : core_inv s q spare ow c Marked o i -> step_ok n tr c s.
Proof.
  intros Hcore. pose proof (inv_join n s q spare ow Hinv c o i Hc Hcore) as Hnew.
  pose proof Hcore as [Hpc Ho _ _ Hq _ _ _].
  eexists [Queued c], _, (q ++ [c]), spare, ow. split_and!; [by lock_run|done|].
  destruct (trace_same tr s (mk_system (the_lock s) (<[c := Swapped (lock_head (the_lock s))]> (pcs s)))
              q c (Swapped (lock_head (the_lock s)))) as [H1 H2]; [done|done|by rewrite Hpc|done|].
  split.
  - unfold queued_order, left_order in *. rewrite !omap_app, H1. cbn. by rewrite <- app_assoc, app_nil_r.
  - unfold entered_order, left_order in *. rewrite !omap_app, H2. cbn. rewrite !app_nil_r. f_equal.
    destruct q as [|d q']; [|done]. cbn. rewrite bool_decide_false; [done|].
    rewrite list_lookup_insert_eq; [done|]. by eapply lookup_lt_Some.
Qed.

Lemma step_enter : core_inv s q spare ow c Spinning o i -> step_ok n tr c s.
Proof.
  intros Hcore. pose proof Hcore as [Hpc Ho Hi Hown Hq Hp Hpred _]. cbn in *.
  assert (c ∈ q) as Hin by (by apply (bool_decide_eq_true_1 (c ∈ q))).
  destruct (waits_on_granted n s q spare ow Hinv c _ _ _ Hcore Hin) as (j & k & Hk & E & Hst & _).
  cbn in E. pose proof (inv_nodes _ _ _ _ _ Hinv) as Hlen. case_decide as Hk0.
  - subst k. destruct q as [|d q'] eqn:Eq; [done|]. cbn in Hk. injection Hk as ->.
    eexists [Entered c], _, (c :: q'), spare, ow. split_and!; [by lock_run| |].
    + rewrite <- (lock_eta (the_lock s) Ho). by eapply inv_same_queue.
    + destruct Htr as [H1 H2]. rewrite bool_decide_false in H2 by (by rewrite Hpc).
      split; unfold queued_order, entered_order, left_order in *; rewrite !omap_app.
      * cbn. by rewrite !app_nil_r.
      * rewrite H2. cbn. rewrite bool_decide_true; [by rewrite !app_nil_r|].
        rewrite list_lookup_insert_eq; [done|]. by eapply lookup_lt_Some.
  - eapply (step_quiet _ Spinning o (nodes (the_lock s))); eauto; try done.
    rewrite (lock_eta _ Ho). by lock_run.
Qed.

Lemma step_leave : core_inv s q spare ow c Critical o i -> step_ok n tr c s.
Proof.
  intros Hcore. destruct (own_allocated _ Hcore) as [st Hst].
  destruct (critical_is_first n s q spare ow Hinv c _ o i Hcore eq_refl) as [q' Eq].
  pose proof (inv_leave n s q spare ow Hinv c o i q' Hc Hcore Eq) as Hnew.
  pose proof Hcore as [Hpc Ho _ Hown _ _ _ _]. cbn in Hown.
  eexists [Left c], _, q', i, _. split_and!; [by lock_run|exact Hnew|].
  destruct Htr as [H1 H2]. rewrite Eq in H1, H2. rewrite bool_decide_true in H2 by done.
  split; unfold queued_order, entered_order, left_order in *; rewrite !omap_app.
  - rewrite H1. cbn. by rewrite !app_nil_r, <- app_assoc.
  - rewrite H2. cbn. rewrite !app_nil_r, <- app_assoc. f_equal. cbn. f_equal.
    destruct q' as [|d q'']; [done|]. rewrite bool_decide_false; [done|]. intros E.
    assert (c <> d) as Hne.
    { pose proof (inv_q_NoDup _ _ _ _ _ Hinv) as Hnd. rewrite Eq in Hnd.
      apply NoDup_cons in Hnd as [Hnd _]. set_solver. }
    rewrite list_lookup_insert_ne in E by done.
    assert ((d < n)%nat) as Hd by (apply (queue_core n s q spare ow Hinv); rewrite Eq; set_solver).
    destruct (inv_core _ _ _ _ _ Hinv d Hd) as (pd & od & j & Hd').
    pose proof (ci_pc _ _ _ _ _ _ _ _ Hd') as E'. rewrite E in E'. injection E' as <-.
    pose proof (ci_critical _ _ _ _ _ _ _ _ Hd' eq_refl) as E'. rewrite Eq in E'. by injection E'.
Qed.

End steps.

Lemma step_any {ord : SwapOrder} n s q spare ow tr c :
  inv n s q spare ow -> trace_inv tr s q -> (c < n)%nat -> step_ok n tr c s.
Proof.
  intros Hinv Htr Hc. destruct (inv_core _ _ _ _ _ Hinv c Hc) as (p & o & i & Hcore).
  destruct p; eauto using step_mark, step_swap, step_store, step_enter, step_leave, step_recycle.
Qed.

Lemma inv_init n : inv n (system_init n) [] n (seq 0 n).
Proof.
  constructor; cbn; rewrite ?length_replicate, ?length_fmap, ?length_seq; try done.
  - apply Forall_cons. split; [done|]. apply Forall_seq. lia.
  - apply NoDup_cons. split; [|apply NoDup_ListNoDup, seq_NoDup]. rewrite elem_of_seq. lia.
  - apply NoDup_nil_2.
  - apply (lookup_replicate_2 (S n)). lia.
  - intros c Hc. exists Outside, (mk_qnode_p (Some c) None 0), c. constructor; cbn; try done.
    + by apply lookup_replicate_2.
    + rewrite list_lookup_fmap, lookup_seq_lt by done. done.
    + by apply lookup_seq_lt.
Qed.
