(* ===== verification/LockProps.v ===== *)
(** * Mutual exclusion and progress of the big kernel lock

    A run of the lock on the memory with store buffers is followed by a run on
    the sequentially consistent memory, provided that the swap of [acquire]
    waits for the stores before it; without that wait two cores enter. *)

From S2P Require Import Prelude Monad Config Objects State Lock.

(** ** Store buffers *)

Definition entries (w : buffered_lock) : list (nat * clh_qnode_state) := concat (buffers w).

Lemma concat_insert_add {A} (bs : list (list A)) c b e : bs !! c = Some b ->
  concat (<[c := b ++ [e]]> bs) ≡ₚ e :: concat bs.
Proof.
  revert c. induction bs as [|b' bs IH]; intros [|c] Hc; [done..| |]; cbn in *.
  - injection Hc as ->. solve_Permutation.
  - rewrite (IH c) by done. solve_Permutation.
Qed.

Lemma concat_insert_delete {A} (bs : list (list A)) c b k e : bs !! c = Some b -> b !! k = Some e ->
  concat bs ≡ₚ e :: concat (<[c := delete k b]> bs).
Proof.
  revert c. induction bs as [|b' bs IH]; intros [|c] Hc Hk; [done..| |]; cbn in *.
  - injection Hc as ->. rewrite (delete_Permutation b k e) at 1 by done. done.
  - rewrite (IH c) by done. solve_Permutation.
Qed.

Lemma elem_of_buffer w c b e : buffers w !! c = Some b -> e ∈ b -> e ∈ entries w.
Proof. intros Hb He. apply list_elem_of_In, in_concat. exists b. rewrite <- !list_elem_of_In. split; [by eapply list_elem_of_lookup_2|done]. Qed.

Lemma elem_of_entries w e : e ∈ entries w -> exists c b, buffers w !! c = Some b /\ e ∈ b.
Proof.
  intros He. apply list_elem_of_In, in_concat in He as (b & Hb & He). apply list_elem_of_In, list_elem_of_lookup in Hb as [c Hc].
  apply list_elem_of_In in He. eauto.
Qed.

(** ** The simulation

    [w] is [s] with some stores of [s] still in the buffers. *)

Record sim (n : nat) (w : system buffered_lock) (s : system clh_lock) : Prop := {
  sim_pcs : pcs w = pcs s;
  sim_owners : node_owners (memory (the_lock w)) = node_owners (the_lock s);
  sim_head : lock_head (memory (the_lock w)) = lock_head (the_lock s);
  sim_length : length (nodes (memory (the_lock w))) = length (nodes (the_lock s));
  sim_buffers : length (buffers (the_lock w)) = n;
  sim_nodup : NoDup (entries (the_lock w));
  (** what is buffered is what the core meant to store *)
  sim_buffered i st : (i, st) ∈ entries (the_lock w) -> nodes (the_lock s) !! i = Some st;
  sim_memory i : (forall st, (i, st) ∉ entries (the_lock w)) ->
    nodes (memory (the_lock w)) !! i = nodes (the_lock s) !! i;
  (** a core in the queue has no stores left *)
  sim_queue c p : pcs s !! c = Some p -> in_queue p = true -> buffers (the_lock w) !! c = Some [];
  sim_pending c b i : buffers (the_lock w) !! c = Some b -> (i, CLHState_Pending) ∈ b ->
    pcs s !! c = Some Marked /\ exists o, node_owners (the_lock s) !! c = Some o /\ node o = Some i;
  (** a grant still on its way: nobody is inside, nobody owns the node *)
  sim_granted i : (i, CLHState_Granted) ∈ entries (the_lock w) ->
    nodes (memory (the_lock w)) !! i = Some CLHState_Pending /\
    forall c p o, pcs s !! c = Some p -> node_owners (the_lock s) !! c = Some o -> p <> Critical /\ own_of p o <> Some i }.

Lemma sim_init n : sim n (buffered_init n) (system_init n).
Proof.
  assert (He : entries (the_lock (buffered_init n)) = []).
  { unfold entries. cbn. induction n as [|n IH]; [done|]. cbn. done. }
  assert (Hb : forall c b, replicate n ([] : list (nat * clh_qnode_state)) !! c = Some b -> b = []).
  { intros c b Hc. by apply lookup_replicate in Hc as [-> _]. }
  constructor; rewrite ?He; cbn; try done.
  - by rewrite length_replicate.
  - by constructor.
  - intros i st Hi. by apply elem_of_nil in Hi.
  - intros c p Hc. apply lookup_replicate in Hc as [-> _]. done.
  - intros c b i Hc Hi. apply Hb in Hc. subst. by apply elem_of_nil in Hi.
  - intros i Hi. by apply elem_of_nil in Hi.
Qed.

Section simulation.
Context (n : nat) (w : system buffered_lock) (s : system clh_lock) (q : list nat) (spare : nat) (ow : list nat).
Hypotheses (Hsim : sim n w s) (Hinv : inv n s q spare ow).
Implicit Types (c d i k : nat) (p : pc) (o : clh_qnode_p).

(** The node of a core that has not just marked it is in no buffer. *)
Lemma own_not_buffered c p o i st : core_inv s q spare ow c p o i -> p <> Marked -> (i, st) ∉ entries (the_lock w).
Proof.
  intros Hc Hp Hin. pose proof Hc as [Hpc Ho Hi Hown _ _ _ _]. destruct st.
  - destruct (sim_granted _ _ _ Hsim i Hin) as [_ Hno]. by destruct (Hno c p o).
  - apply elem_of_entries in Hin as (d & b & Hb & Hin).
    destruct (sim_pending _ _ _ Hsim d b i Hb Hin) as (Hd & od & Hod & Hn).
    assert (Hdn : (d < n)%nat) by (rewrite <- (inv_pcs _ _ _ _ _ Hinv); by eapply lookup_lt_Some).
    destruct (inv_core _ _ _ _ _ Hinv d Hdn) as (pd & od' & j & [Hpd Hod' Hj Hownd _ _ _ _]). simplify_eq. cbn in Hownd. simplify_eq.
    eapply (own_differs n s q spare ow Hinv c d); eauto. congruence.
Qed.

(** A step of core [c] on its own fields and on [head]. *)
Lemma sim_private c p o p' o' hd : pcs s !! c = Some p -> node_owners (the_lock s) !! c = Some o ->
  own_of p' o' = own_of p o ->
  (in_queue p' = true \/ p = Marked -> buffers (the_lock w) !! c = Some []) ->
  (p' = Critical -> forall i, (i, CLHState_Granted) ∉ entries (the_lock w)) ->
  sim n (mk_system ((the_lock w) <| memory := mk_clh_lock (nodes (memory (the_lock w)))
           (<[c := o']> (node_owners (memory (the_lock w)))) hd |>) (<[c := p']> (pcs w)))
        (mk_system (mk_clh_lock (nodes (the_lock s)) (<[c := o']> (node_owners (the_lock s))) hd) (<[c := p']> (pcs s))).
Proof using Hsim.
  clear q spare ow Hinv.
  intros Hpc Ho Hown Hempty Hcrit. pose proof Hsim as [E1 E2 E3 E4 E5 Hnd Hbuf Hmem Hq Hpend Hgr].
  constructor; cbn; try done; [by rewrite E1|by rewrite E2|..].
  - intros d pd Hd Hin. apply list_lookup_insert_Some in Hd as [(<- & <- & _)|[_ Hd]]; [by apply Hempty; left|by eapply Hq].
  - intros d b i Hb Hin. destruct (Hpend d b i Hb Hin) as (Hd & od & Hod & Hn). destruct (decide (c = d)) as [<-|Hne].
    + simplify_eq. rewrite Hempty in Hb by by right. injection Hb as <-. by apply elem_of_nil in Hin.
    + rewrite !list_lookup_insert_ne by done. eauto.
  - intros i Hi. destruct (Hgr i Hi) as [Hm Hno]. split; [done|]. intros d pd od Hd Hod.
    apply list_lookup_insert_Some in Hd as [(<- & <- & _)|[Hne Hd]].
    + rewrite list_lookup_insert_eq in Hod by (by eapply lookup_lt_Some). injection Hod as <-. split.
      * intros ->. by eapply Hcrit.
      * rewrite Hown. by eapply Hno.
    + rewrite list_lookup_insert_ne in Hod by done. eauto.
Qed.

(** A store of core [c] to its node goes to its buffer. *)
Lemma sim_store c p o i b p' st : core_inv s q spare ow c p o i -> p <> Marked -> node o = Some i ->
  in_queue p' = false -> buffers (the_lock w) !! c = Some b ->
  (st = CLHState_Pending -> p' = Marked) ->
  (forall j, (j, CLHState_Granted) ∈ entries (the_lock w) -> own_of p' o = own_of p o) ->
  (st = CLHState_Granted -> nodes (the_lock s) !! i = Some CLHState_Pending /\
     forall d pd od, <[c := p']> (pcs s) !! d = Some pd -> node_owners (the_lock s) !! d = Some od ->
       pd <> Critical /\ own_of pd od <> Some i) ->
  sim n (mk_system ((the_lock w) <| buffers := <[c := b ++ [(i, st)]]> (buffers (the_lock w)) |>) (<[c := p']> (pcs w)))
        (mk_system ((the_lock s) <| nodes := <[i := st]> (nodes (the_lock s)) |>) (<[c := p']> (pcs s))).
Proof.
  intros Hcore Hp Hi Hin' Hb Hpen Hown Hgra. pose proof Hsim as [E1 E2 E3 E4 E5 Hnd Hbuf Hmem Hq Hpend Hgr].
  pose proof Hcore as [Hpc Ho _ _ _ _ _ _].
  pose proof (fun st => own_not_buffered c p o i st Hcore Hp) as Hnot.
  assert (Hcn : (c < n)%nat) by (rewrite <- (inv_pcs _ _ _ _ _ Hinv); by eapply lookup_lt_Some).
  destruct (own_allocated n s q spare ow Hinv c o i Hcn p Hcore) as [st0 Hst0].
  assert (Hperm : entries ((the_lock w) <| buffers := <[c := b ++ [(i, st)]]> (buffers (the_lock w)) |>) ≡ₚ
                  (i, st) :: entries (the_lock w)) by by apply concat_insert_add.
  assert (Hlt : (i < length (nodes (the_lock s)))%nat) by by eapply lookup_lt_Some.
  constructor; cbn; try done; [by rewrite E1|by rewrite length_insert|by rewrite length_insert|..].
  - rewrite Hperm. by constructor.
  - intros j st'. rewrite Hperm, elem_of_cons. intros [[= -> ->]|Hj]; [by rewrite list_lookup_insert_eq|].
    rewrite list_lookup_insert_ne; [by apply Hbuf|]. intros ->. by eapply Hnot.
  - intros j Hj. assert (Hne : i <> j) by (intros ->; apply (Hj st); rewrite Hperm; set_solver).
    rewrite list_lookup_insert_ne by done. apply Hmem. intros st' Hst'. apply (Hj st'). rewrite Hperm. set_solver.
  - intros d pd Hd Hpd. apply list_lookup_insert_Some in Hd as [(<- & <- & _)|[Hne Hd]]; [congruence|].
    rewrite list_lookup_insert_ne by done. by eapply Hq.
  - intros d b' j Hd Hj. apply list_lookup_insert_Some in Hd as [(<- & <- & _)|[Hne Hd]].
    + apply elem_of_app in Hj as [Hj|Hj]; [destruct (Hpend c b j Hb Hj) as [? _]; congruence|].
      apply list_elem_of_singleton in Hj as [= <- <-]. rewrite list_lookup_insert_eq by (by eapply lookup_lt_Some).
      split; [by rewrite Hpen|by exists o].
    + rewrite list_lookup_insert_ne by done. eauto.
  - intros j Hj. rewrite Hperm, elem_of_cons in Hj. destruct Hj as [[= -> <-]|Hj].
    + destruct Hgra as [Hold Hno]; [done|]. split; [|done]. rewrite Hmem by done. done.
    + destruct (Hgr j Hj) as [Hm Hno]. split; [done|]. intros d pd od Hd Hod.
      apply list_lookup_insert_Some in Hd as [(<- & <- & _)|[Hne Hd]]; [|by eapply Hno].
      rewrite Hod in Ho. injection Ho as ->. rewrite (Hown j Hj). split; [by intros ->|by eapply Hno].
Qed.

Lemma sim_drain {mm : memory_model} c k l : drain c k (the_lock w) = Ok (tt, l) -> sim n (mk_system l (pcs w)) s.
Proof using Hsim.
  clear q spare ow Hinv.
  unfold drain, get_buffer, bind. destruct (buffers (the_lock w) !! c) as [b|] eqn:Hb; [|done].
  destruct (b !! k) as [[i st]|] eqn:Hk; [|done]. destruct (may_drain b k i); [|done].
  unfold set_buffer, modify, on_memory, lock_store. cbn.
  destruct (nodes (memory (the_lock w)) !! i) as [st0|] eqn:Hst0; [|done]. intros [= <-].
  pose proof Hsim as [E1 E2 E3 E4 E5 Hnd Hbuf Hmem Hq Hpend Hgr].
  pose proof (concat_insert_delete _ _ _ _ _ Hb Hk) as Hperm. change (concat (buffers (the_lock w))) with (entries (the_lock w)) in Hperm.
  match goal with |- sim _ (mk_system ?l _) _ => set (w' := l) end. assert (Ee : entries (the_lock w) ≡ₚ (i, st) :: entries w') by exact Hperm.
  assert (Hsub : forall e, e ∈ entries w' -> e ∈ entries (the_lock w)) by (intros e He; rewrite Ee; set_solver).
  assert (Hi : nodes (the_lock s) !! i = Some st) by (apply Hbuf; rewrite Ee; set_solver).
  rewrite Ee in Hnd. apply NoDup_cons in Hnd as [Hnot Hnd].
  assert (Hlt : (i < length (nodes (memory (the_lock w))))%nat) by by eapply lookup_lt_Some.
  constructor; try done; [by cbn; rewrite length_insert|by cbn; rewrite length_insert|..]; cbn.
  - intros j st' Hj. by apply Hbuf, Hsub.
  - intros j Hj. destruct (decide (i = j)) as [<-|Hne]; [by rewrite list_lookup_insert_eq|].
    rewrite list_lookup_insert_ne by done. apply Hmem. intros st' Hin. rewrite Ee, elem_of_cons in Hin.
    destruct Hin as [[= ? ?]|Hin]; [congruence|]. by eapply Hj.
  - intros d pd Hd Hpd. pose proof (Hq d pd Hd Hpd) as Hd0. rewrite list_lookup_insert_ne; [done|].
    intros <-. rewrite Hb in Hd0. injection Hd0 as ->. done.
  - intros d b' j Hd Hj. apply list_lookup_insert_Some in Hd as [(<- & <- & _)|[Hne Hd]]; [|eauto].
    eapply Hpend; [exact Hb|]. apply list_elem_of_lookup in Hj as [k' Hj]. rewrite list_lookup_delete in Hj.
    by destruct (decide _) in Hj; eapply list_elem_of_lookup_2.
  - intros j Hj. destruct (Hgr j (Hsub _ Hj)) as [Hm Hno]. split; [|done]. rewrite list_lookup_insert_ne; [done|].
    intros <-. rewrite (Hbuf _ _ (Hsub _ Hj)) in Hi. injection Hi as <-. done.
Qed.
End simulation.

(** ** Every step of the buffered lock is followed *)

Definition follows (n : nat) (tr : list event) (w : system buffered_lock) : Prop :=
  exists s q spare ow, sim n w s /\ inv n s q spare ow /\ trace_inv tr s q.

(** Runs one access on the buffered memory. *)
Ltac buffered_run_access :=
  unfold cpu_step, cpu_access, acquire_mark, acquire_swap, acquire_store, release_grant,
    release_recycle, next_node_value, get_state_of, set_state_of, bind, ret;
  cbn [get_owner mod_owner load_state store_state swap_head buffered_memory];
  unfold buffer_load, buffer_store, buffer_swap, on_memory, get_buffer, set_buffer, modify,
    lock_owner, lock_mod_owner, lock_load, lock_store, lock_swap, bind, ret;
  repeat (match goal with E : ?l !! ?k = Some _ |- context [?l !! ?k] => rewrite E
                        | E : node ?o = _ |- context [node ?o] => rewrite E
                        | E : next ?o = _ |- context [next ?o] => rewrite E end; cbn).

(** The two memories have the same [head]. *)
Ltac same_head H :=
  match type of H with sim _ ?w ?s =>
    pose proof (sim_head _ _ _ H); destruct w as [[[] ?] ?], s as [[] ?]; cbn in *; subst end.

Section access.
Context {mm : memory_model} {ord : SwapOrder} (Hwait : swap_waits mm the_order = true).
Context (n : nat) (tr : list event) (w : system buffered_lock) (s : system clh_lock) (q : list nat) (spare : nat) (ow : list nat).
Hypotheses (Hsim : sim n w s) (Hinv : inv n s q spare ow) (Htr : trace_inv tr s q).
Context (c : nat) (o : clh_qnode_p) (i : nat) (b : list (nat * clh_qnode_state)).
Hypotheses (Hc : (c < n)%nat) (Hbuf : buffers (the_lock w) !! c = Some b).

Definition access_follows : Prop := exists ev w', cpu_step c w = Ok (ev, w') /\ follows n (tr ++ ev) w'.

Lemma follow_both ev s' w' : cpu_step c s = Ok (ev, s') -> cpu_step c w = Ok (ev, w') -> sim n w' s' -> access_follows.
Proof.
  intros Es Ew Hsim'. destruct (step_any _ _ _ _ _ _ _ Hinv Htr Hc) as (ev' & s'' & q' & spare' & ow' & E & ? & ?).
  rewrite Es in E. injection E as <- <-. exists ev, w'. split; [done|]. by exists s', q', spare', ow'.
Qed.

(** The core waits, and nothing changes. *)
Lemma follow_stutter p : pcs s !! c = Some p -> cpu_step c w = Ok ([], mk_system (the_lock w) (<[c := p]> (pcs w))) -> access_follows.
Proof.
  intros Hp E. rewrite list_insert_id in E by (by rewrite (sim_pcs _ _ _ Hsim)). exists [], w. rewrite app_nil_r.
  split; [rewrite E; by destruct w|]. by exists s, q, spare, ow.
Qed.

Lemma on_core p : core_inv s q spare ow c p o i -> pcs w !! c = Some p /\ node_owners (memory (the_lock w)) !! c = Some o /\
  exists st, nodes (memory (the_lock w)) !! i = Some st.
Proof.
  intros Hcore. rewrite (sim_pcs _ _ _ Hsim), (sim_owners _ _ _ Hsim). split; [apply Hcore|]. split; [apply Hcore|].
  destruct (own_allocated n s q spare ow Hinv c o i Hc p Hcore) as [st Hst]. apply lookup_lt_is_Some.
  rewrite (sim_length _ _ _ Hsim). by eapply lookup_lt_Some.
Qed.

Lemma follow_mark : core_inv s q spare ow c Outside o i -> access_follows.
Proof.
  intros Hcore. destruct (on_core _ Hcore) as (Hpw & How & stw & Hstw). pose proof Hcore as [Hpc Ho Hi Hown _ _ _ _].
  destruct (own_allocated n s q spare ow Hinv c o i Hc _ Hcore) as [st Hst]. cbn in Hown.
  eapply follow_both; [by lock_run|by buffered_run_access|].
  by eapply (sim_store n w s q spare ow Hsim Hinv c Outside o i b Marked CLHState_Pending).
Qed.

Lemma follow_swap : core_inv s q spare ow c Marked o i -> access_follows.
Proof.
  intros Hcore. destruct (on_core _ Hcore) as (Hpw & How & _). pose proof Hcore as [Hpc Ho Hi Hown _ _ _ _].
  destruct (decide (b = [])) as [Eb|Eb].
  - eapply follow_both; [by lock_run| |].
    + buffered_run_access. rewrite Hwait, (bool_decide_true _ Eb). cbn. by rewrite (sim_head _ _ _ Hsim).
    + pose proof (sim_private n w s Hsim c Marked o (Swapped (lock_head (the_lock s))) o (node o) Hpc Ho eq_refl) as Hp.
      rewrite (list_insert_id (node_owners (the_lock s))), (list_insert_id (node_owners (memory _))) in Hp by done.
      apply Hp; [|done]. by rewrite Hbuf, Eb.
  - eapply (follow_stutter Marked); [done|]. buffered_run_access. rewrite Hwait, (bool_decide_false _ Eb). cbn. by destruct w as [[? ?] ?].
Qed.

Lemma follow_store old : core_inv s q spare ow c (Swapped old) o i -> access_follows.
Proof.
  intros Hcore. destruct (on_core _ Hcore) as (Hpw & How & _). pose proof Hcore as [Hpc Ho Hi Hown Hq _ _ _].
  pose proof (sim_queue _ _ _ Hsim c _ Hpc eq_refl) as Hb0.
  assert (c ∈ q) as Hin by (by apply (bool_decide_eq_true_1 (c ∈ q))).
  destruct (waits_on_granted n s q spare ow Hinv c _ _ _ Hcore Hin) as (j & k & _ & E & _). cbn in E. subst old.
  eapply follow_both; [by lock_run|by buffered_run_access|].
  pose proof (sim_private n w s Hsim c (Swapped (Some j)) o Spinning (o <| next := Some j |>) (lock_head (the_lock s)) Hpc Ho) as Hp.
  ospecialize* Hp; [done..|]. same_head Hsim. exact Hp.
Qed.

Lemma follow_recycle : core_inv s q spare ow c Granting o i -> access_follows.
Proof.
  intros Hcore. destruct (on_core _ Hcore) as (Hpw & How & _). pose proof Hcore as [Hpc Ho Hi Hown Hq _ _ _].
  eapply follow_both; [by lock_run|by buffered_run_access|].
  pose proof (sim_private n w s Hsim c Granting o Outside (o <| node := next o |>) (lock_head (the_lock s)) Hpc Ho) as Hp.
  ospecialize* Hp; [done|by intros []|done|]. same_head Hsim. exact Hp.
Qed.

(** The node a queued core waits on is not about to become pending. *)
Lemma pred_not_marked k j : queue_nodes spare ow q !! k = Some j -> (j, CLHState_Pending) ∉ entries (the_lock w).
Proof.
  intros Hk Hin. apply elem_of_entries in Hin as (d & b' & Hb' & Hin).
  destruct (sim_pending _ _ _ Hsim d b' j Hb' Hin) as (Hd & od & Hod & Hn).
  assert (Hdn : (d < n)%nat) by (rewrite <- (inv_pcs _ _ _ _ _ Hinv); by eapply lookup_lt_Some).
  destruct (inv_core _ _ _ _ _ Hinv d Hdn) as (pd & od' & j' & [Hpd Hod' Hj Hownd Hqd _ _ _]). simplify_eq.
  cbn in Hownd. simplify_eq. apply list_elem_of_lookup_2 in Hk. unfold queue_nodes in Hk.
  apply elem_of_cons in Hk as [->|Hk]; [by eapply (own_not_spare n s q spare ow Hinv)|].
  apply list_elem_of_omap in Hk as (e & He & Hej). eapply (own_differs n s q spare ow Hinv d e); eauto.
  intros ->. by rewrite bool_decide_true in Hqd.
Qed.

(** The nodes are the spare one and those of the cores. *)
Lemma node_cases j : is_Some (nodes (the_lock s) !! j) -> j = spare \/ exists d, ow !! d = Some j.
Proof.
  intros Hj%lookup_lt_is_Some. rewrite (inv_nodes _ _ _ _ _ Hinv) in Hj.
  pose proof (inv_own_NoDup _ _ _ _ _ Hinv) as Hnd. apply NoDup_ListNoDup in Hnd.
  assert (In j (spare :: ow)) as [->|Hin]; [|by left|].
  - apply (List.NoDup_length_incl (l' := seq 0 (S n)) Hnd).
    + cbn. rewrite length_seq, (inv_ow _ _ _ _ _ Hinv). done.
    + intros x Hx. apply in_seq. apply list_elem_of_In in Hx.
      pose proof (proj1 (Forall_forall _ _) (inv_bound _ _ _ _ _ Hinv) x Hx). cbn in *. lia.
    + apply in_seq. lia.
  - right. apply list_elem_of_In, list_elem_of_lookup in Hin as [d Hd]. eauto.
Qed.

(** A grant still on its way is that of the spare node. *)
Lemma granted_is_spare j : (j, CLHState_Granted) ∈ entries (the_lock w) -> j = spare.
Proof.
  intros Hj. destruct (sim_granted _ _ _ Hsim j Hj) as [_ Hno].
  destruct (node_cases j) as [->|[d Hd]]; [by rewrite (sim_buffered _ _ _ Hsim _ _ Hj)|done|].
  assert (Hdn : (d < n)%nat) by (rewrite <- (inv_ow _ _ _ _ _ Hinv); by eapply lookup_lt_Some).
  destruct (inv_core _ _ _ _ _ Hinv d Hdn) as (pd & od & j' & [Hpd Hod Hj' Hownd _ _ _ _]). simplify_eq.
  by destruct (Hno d pd od).
Qed.

Lemma follow_spin : core_inv s q spare ow c Spinning o i -> access_follows.
Proof.
  intros Hcore. destruct (on_core _ Hcore) as (Hpw & How & _). pose proof Hcore as [Hpc Ho Hi Hown Hq _ Hpred _].
  pose proof (sim_queue _ _ _ Hsim c _ Hpc eq_refl) as Hb0. rewrite Hbuf in Hb0. injection Hb0 as Eb.
  assert (c ∈ q) as Hin by (by apply (bool_decide_eq_true_1 (c ∈ q))).
  destruct (waits_on_granted n s q spare ow Hinv c _ _ _ Hcore Hin) as (j & k & Hk & E & Hst & Hspare). cbn in E.
  assert (Hnp : (j, CLHState_Pending) ∉ entries (the_lock w)).
  { eapply (pred_not_marked k). rewrite <- (Hpred k Hk). done. }
  assert (Hempty : buffer_read b j = None) by by rewrite Eb.
  destruct (decide ((j, CLHState_Granted) ∈ entries (the_lock w))) as [Hg|Hg].
  - destruct (sim_granted _ _ _ Hsim j Hg) as [Hm _]. eapply (follow_stutter Spinning); [done|].
    buffered_run_access. rewrite Hempty. cbn. rewrite Hm. by destruct w as [[? ?] ?].
  - assert (Hm : nodes (memory (the_lock w)) !! j = nodes (the_lock s) !! j).
    { apply (sim_memory _ _ _ Hsim). by intros []. }
    rewrite Hst in Hm. case_decide as Hk0; [|eapply (follow_stutter Spinning); [done|];
      buffered_run_access; rewrite Hempty; cbn; rewrite Hm; by destruct w as [[? ?] ?]].
    eapply follow_both; [by lock_run|buffered_run_access; rewrite Hempty; cbn; by rewrite Hm|]. cbn.
    pose proof (sim_private n w s Hsim c Spinning o Critical o (lock_head (the_lock s)) Hpc Ho eq_refl) as Hp.
    rewrite (list_insert_id (node_owners (the_lock s))), (list_insert_id (node_owners (memory _))) in Hp by done.
    assert (Hno : forall i', (i', CLHState_Granted) ∉ entries (the_lock w)).
    { intros i' Hi'. apply Hg. by rewrite (Hspare Hk0), <- (granted_is_spare i' Hi'). }
    ospecialize* Hp; [by rewrite Hbuf, Eb|done|]. same_head Hsim. exact Hp.
Qed.

Lemma follow_leave : core_inv s q spare ow c Critical o i -> access_follows.
Proof.
  intros Hcore. destruct (on_core _ Hcore) as (Hpw & How & stw & Hstw). pose proof Hcore as [Hpc Ho Hi Hown Hq Hpend _ _].
  destruct (own_allocated n s q spare ow Hinv c o i Hc _ Hcore) as [st Hst]. cbn in Hown. cbn in Hpend. specialize (Hpend eq_refl).
  assert (c ∈ q) as Hin by (by apply (bool_decide_eq_true_1 (c ∈ q))).
  destruct (waits_on_granted n s q spare ow Hinv c _ _ _ Hcore Hin) as (j & k & Hk & E & Hsj & _). cbn in E.
  pose proof (ci_critical _ _ _ _ _ _ _ _ Hcore eq_refl) as Hfirst.
  assert (k = 0%nat) as -> by (eapply NoDup_lookup; [apply (inv_q_NoDup _ _ _ _ _ Hinv)|exact Hk|done]).
  eapply follow_both; [by lock_run|by buffered_run_access|].
  apply (sim_store n w s q spare ow Hsim Hinv c Critical o i b Granting CLHState_Granted); try done.
  { intros j' Hj'. destruct (sim_granted _ _ _ Hsim j' Hj') as [_ Hno]. by destruct (Hno c Critical o). }
  intros _. split; [done|]. intros d pd od Hd Hod. apply list_lookup_insert_Some in Hd as [(<- & <- & _)|[Hne Hd]].
  - rewrite Hod in Ho. injection Ho as ->. split; [done|]. cbn. rewrite E. intros [= ->]. rewrite Hsj in Hpend. done.
  - assert (Hdn : (d < n)%nat) by (rewrite <- (inv_pcs _ _ _ _ _ Hinv); by eapply lookup_lt_Some).
    destruct (inv_core _ _ _ _ _ Hinv d Hdn) as (pd' & od' & j' & Hd'). pose proof Hd' as [Hpd Hod' Hj' Hownd _ _ _ Hcr]. simplify_eq.
    split; [intros ->; specialize (Hcr eq_refl); congruence|]. rewrite Hownd. intros [= ->].
    by eapply (own_differs n s q spare ow Hinv c d).
Qed.
End access.

Lemma access_any {mm : memory_model} {ord : SwapOrder} n tr w c : swap_waits mm the_order = true ->
  follows n tr w -> (c < n)%nat -> exists ev w', cpu_step c w = Ok (ev, w') /\ follows n (tr ++ ev) w'.
Proof.
  intros Hwait (s & q & spare & ow & Hsim & Hinv & Htr) Hc.
  destruct (inv_core _ _ _ _ _ Hinv c Hc) as (p & o & i & Hcore).
  destruct (lookup_lt_is_Some_2 (buffers (the_lock w)) c) as [b Hb]; [by rewrite (sim_buffers _ _ _ Hsim)|].
  change (access_follows n tr w c). destruct p.
  - by eapply follow_mark.
  - by eapply follow_swap.
  - by eapply follow_store.
  - by eapply follow_spin.
  - by eapply follow_leave.
  - by eapply follow_recycle.
Qed.

Lemma step_follows {mm : memory_model} {ord : SwapOrder} n tr w a ev w' : swap_waits mm the_order = true ->
  follows n tr w -> (acting a < n)%nat -> buffered_step a w = Ok (ev, w') -> follows n (tr ++ ev) w'.
Proof.
  intros Hwait Hf Hc. destruct a as [c|c k]; cbn.
  - intros E. destruct (access_any n tr w c Hwait Hf Hc) as (ev1 & w1 & E1 & Hf1). rewrite E in E1. by injection E1 as <- <-.
  - destruct (drain c k (the_lock w)) as [[[] l]|] eqn:Ed; [|done]. intros [= <- <-]. rewrite app_nil_r.
    destruct Hf as (s & q & spare & ow & Hsim & Hrest). exists s, q, spare, ow. split; [|done]. by eapply sim_drain.
Qed.

Lemma run_follows {mm : memory_model} {ord : SwapOrder} n tr w : swap_waits mm the_order = true ->
  buffered_run n tr w -> follows n tr w.
Proof.
  intros Hwait. induction 1 as [|tr w a ev w' _ IH Ha Hstep]; [|by eapply step_follows].
  exists (system_init n), [], n, (seq 0 n). split; [apply sim_init|]. split; [apply inv_init|done].
Qed.

Lemma exec_run {mm : memory_model} {ord : SwapOrder} n schedule tr w tr' w' :
  Forall (fun a => acting a < n)%nat schedule -> buffered_run n tr w ->
  exec schedule tr w = Ok (tr', w') -> buffered_run n tr' w'.
Proof.
  revert tr w. induction schedule as [|a l IH]; intros tr w Hl Hrun E; cbn in E.
  - by simplify_eq.
  - apply Forall_cons in Hl as [Ha Hl]. destruct (buffered_step a w) as [[ev w1]|] eqn:Es; [|done].
    eapply IH; [done| |done]. by eapply buffered_run_step.
Qed.

(** ** Mutual exclusion *)

(** A core is inside exactly when it is the one core that has entered and not
    left; the cores enter in the order of their swaps and leave in the order in
    which they entered. *)
Definition exclusive (tr : list event) (w : system buffered_lock) : Prop :=
  (forall c, pcs w !! c = Some Critical <-> entered_order tr = left_order tr ++ [c]) /\
  (exists waiting, queued_order tr = entered_order tr ++ waiting) /\
  (exists inside, entered_order tr = left_order tr ++ inside /\ (length inside <= 1)%nat).

Lemma follows_exclusive n tr w : follows n tr w -> exclusive tr w.
Proof.
  intros (s & q & spare & ow & Hsim & Hinv & H1 & H2). unfold exclusive. rewrite H1, H2, (sim_pcs _ _ _ Hsim). split_and!.
  - intros c. split.
    + intros Hc. assert (Hcn : (c < n)%nat).
      { rewrite <- (inv_pcs _ _ _ _ _ Hinv). by eapply lookup_lt_Some. }
      destruct (inv_core _ _ _ _ _ Hinv c Hcn) as (p & o & i & Hcore).
      pose proof (ci_pc _ _ _ _ _ _ _ _ Hcore) as E. rewrite Hc in E. injection E as <-.
      destruct (critical_is_first n s q spare ow Hinv c _ o i Hcore eq_refl) as [q' ->].
      by rewrite bool_decide_true.
    + intros E. apply app_inv_head in E. destruct q as [|d q']; [done|].
      case_bool_decide; [|done]. by simplify_eq.
  - destruct q as [|d q']; [by exists []; rewrite !app_nil_r|].
    case_bool_decide; [exists q'; by rewrite <- app_assoc|exists (d :: q'); by rewrite app_nil_r].
  - eexists. split; [done|]. destruct q as [|d q']; [cbn; lia|]. case_bool_decide; cbn; lia.
Qed.

(** Core 0 marks its node and swaps it in while the mark is still in its
    buffer; core 1 queues behind it, finds the node granted as it was at the
    start, and enters; then core 0 enters too.  Each core's buffer is drained
    before its next release store. *)
Definition overtaking : list action :=
  [Access 0; Access 0; Access 1; Access 1; Drain 1 0; Access 1; Access 1; Drain 0 0; Access 0; Access 0]%nat.

Lemma overtaking_run (ord : SwapOrder) : is_release the_order = false ->
  exists tr w, @buffered_run Weak ord 2 tr w /\ pcs w = [Critical; Critical].
Proof.
  intros Hord. destruct (@exec Weak ord overtaking [] (buffered_init 2)) as [[tr w]|] eqn:E.
  - exists tr, w. split.
    + eapply exec_run; [|apply buffered_run_init|exact E]. repeat constructor.
    + by destruct ord; try discriminate Hord; vm_compute in E; injection E as _ <-.
  - by destruct ord; try discriminate Hord; vm_compute in E.
Qed.

(** With the ordering the code passes to the swap, two cores hold the lock
    together on a machine that reorders stores. *)
Lemma relaxed_swap_two_inside : exists tr w, @buffered_run Weak swap_order 2 tr w /\ pcs w = [Critical; Critical].
Proof. by apply overtaking_run. Qed.

(** C4.  Mutual exclusion and fairness of the big kernel lock, for any number
    of cores, any interleaving of their memory accesses and any time at which
    their buffered stores reach the memory: on a machine [mm] with the
    ordering [ord] for the swap of [acquire], the lock is exclusive and first
    come, first served in all runs if and only if the swap waits for the
    earlier stores of its core.  The ordering in the code is [Relaxed], for
    which it is so with total store order and not on a weakly ordered
    machine (AArch64, RISC-V). *)
Theorem clh_mutual_exclusion (mm : memory_model) (ord : Ordering) :
  (swap_waits mm ord = true <-> forall n tr w, @buffered_run mm ord n tr w -> exclusive tr w) /\
  (swap_waits mm swap_order = true <-> mm = TSO).
Proof.
  split; [split|by destruct mm].
  - intros Hwait n tr w Hrun. by eapply follows_exclusive, (@run_follows mm ord).
  - intros Hall. destruct mm; [done|]. destruct (is_release ord) eqn:Hord; [done|].
    destruct (overtaking_run ord Hord) as (tr & w & Hrun & Hin). destruct (Hall _ _ _ Hrun) as (Hex & _).
    assert (E0 : entered_order tr = left_order tr ++ [0%nat]) by (apply Hex; by rewrite Hin).
    assert (E1 : entered_order tr = left_order tr ++ [1%nat]) by (apply Hex; by rewrite Hin).
    rewrite E0 in E1. by apply app_inv_head in E1.
Qed.

(** ** Progress *)

(** How many accesses a queued core is away from the critical section once it
    is first in the queue and its predecessor's grant has arrived. *)
Definition accesses_left (p : pc) : nat :=
  match p with Swapped _ => 2 | Spinning => 1 | _ => 0 end.

Definition is_drain (a : action) : bool := match a with Drain _ _ => true | Access _ => false end.

(** The oldest store of a buffer can always be drained. *)
Lemma drain_oldest {mm : memory_model} n w s c e b : sim n w s -> buffers (the_lock w) !! c = Some (e :: b) ->
  exists l, drain c 0 (the_lock w) = Ok (tt, l) /\ entries (the_lock w) ≡ₚ e :: entries l.
Proof.
  intros Hsim Hb. pose proof (concat_insert_delete _ c _ 0 e Hb eq_refl) as Hperm. destruct e as [i st].
  assert (Hm : may_drain ((i, st) :: b) 0 i = true) by by destruct mm.
  destruct (lookup_lt_is_Some_2 (nodes (memory (the_lock w))) i) as [st0 Hst0].
  { rewrite (sim_length _ _ _ Hsim). eapply lookup_lt_Some, (sim_buffered _ _ _ Hsim i st), elem_of_buffer; [exact Hb|set_solver]. }
  eexists. split; [|shelve]. unfold drain, get_buffer, bind. rewrite Hb. cbn [lookup list_lookup]. rewrite Hm.
  unfold set_buffer, modify, on_memory, lock_store. cbn. by rewrite Hst0.
  Unshelve. exact Hperm.
Qed.

(** All buffers can be drained, which changes no thread's place in the code. *)
Lemma drain_all {mm : memory_model} {ord : SwapOrder} n tr s w : sim n w s ->
  exists ds w', forallb is_drain ds = true /\ exec ds tr w = Ok (tr, w') /\ sim n w' s /\ entries (the_lock w') = [].
Proof.
  remember (length (entries (the_lock w))) as m eqn:Em. revert w Em. induction m as [|m IH]; intros w Em Hsim.
  - exists [], w. split_and!; try done. by apply nil_length_inv.
  - destruct (entries (the_lock w)) as [|e es] eqn:Ee; [done|].
    destruct (elem_of_entries (the_lock w) e) as (c & b & Hb & Hin); [rewrite Ee; set_solver|].
    destruct b as [|e' b]; [by apply elem_of_nil in Hin|].
    destruct (drain_oldest n w s c e' b Hsim Hb) as (l & Hd & Hperm).
    destruct (IH (mk_system l (pcs w))) as (ds & w' & H1 & H2 & H3 & H4); [|by eapply sim_drain|].
    + apply Permutation_length in Hperm. rewrite Ee in Hperm. cbn in *. lia.
    + exists (Drain c 0 :: ds), w'. split; [done|]. split; [|done]. cbn. by rewrite Hd, app_nil_r.
Qed.

(** With the buffers empty the first core of the queue enters. *)
Lemma first_enters {mm : memory_model} {ord : SwapOrder} n w s c rest spare ow :
  sim n w s -> inv n s (c :: rest) spare ow -> entries (the_lock w) = [] ->
  exists p w', pcs w !! c = Some p /\ cpu_run (accesses_left p) c w = Ok w' /\ pcs w' !! c = Some Critical.
Proof.
  intros Hsim Hinv Hempty. assert (Hc : (c < n)%nat) by (apply (queue_core n s _ _ _ Hinv); set_solver).
  destruct (inv_core _ _ _ _ _ Hinv c Hc) as (p & o & i & Hcore).
  destruct (waits_on_granted n s _ _ _ Hinv c p o i Hcore) as (j & k & Hk & Hpred & Hst & _); [set_solver|].
  assert (k = 0%nat) as -> by (eapply NoDup_lookup; [apply (inv_q_NoDup _ _ _ _ _ Hinv)|exact Hk|done]).
  pose proof Hcore as [Hpc Ho _ _ Hin _ _ _]. rewrite bool_decide_true in Hin by set_solver.
  pose proof (sim_queue _ _ _ Hsim c p Hpc Hin) as Hbuf.
  assert (Hm : nodes (memory (the_lock w)) !! j = Some CLHState_Granted).
  { rewrite (sim_memory _ _ _ Hsim); [done|]. rewrite Hempty. intros st. apply not_elem_of_nil. }
  rewrite <- (sim_pcs _ _ _ Hsim) in Hpc. rewrite <- (sim_owners _ _ _ Hsim) in Ho.
  pose proof (lookup_lt_Some _ _ _ Hpc) as Hlt. pose proof (lookup_lt_Some _ _ _ Ho) as Hlt'.
  exists p. destruct p as [| |old| | |]; try discriminate Hin; cbn in Hpred; eexists; (split; [done|split]); cbn.
  - subst old. unfold cpu_run. buffered_run_access. do 2 (rewrite list_lookup_insert_eq by done; cbn).
    rewrite Hbuf. cbn. by rewrite Hm.
  - cbn. rewrite list_insert_insert_eq. by rewrite list_lookup_insert_eq.
  - unfold cpu_run. by buffered_run_access.
  - cbn. by rewrite list_lookup_insert_eq.
  - done.
  - done.
Qed.


